(* ===== verification/_CoqProject ===== *)
-Q . S2P
Prelude.v
GoStrings.v
GoOs.v
Total.v
GoRegexp.v
Json.v
Logging.v
Types.v
JsonCodec.v
Annotations.v
ConfigData.v
LocalDb.v
VppApi.v
Memif.v
Bridge.v
CniVpp.v
Infra.v
TestPrograms.v
OvsDb.v
CniOvs.v
OvsAddDel.v
OvsShared.v
OvsRef.v
Cni.v
Plugin.v
VppRef.v
Reconcile.v
Gc.v
Desired.v
Dataplane.v
Threads.v
OvsCalls.v
OvsInterleave.v
Calls.v
Interleave.v
Restore.v
VppSafety.v
CniProps.v
Sync.v
Rounds.v
KubeCluster.v
Termination.v
EndToEnd.v
Status.v
Endpoints.v
Daemon.v
World.v
Witnesses.v
DaemonWitnesses.v
OvsWitnesses.v
CniWitnesses.v
RaceWitnesses.v
RoundWitnesses.v
