(* ===== verification/Prelude.v ===== *)
(** * Userspace CNI: verification development

    Userspace CNI is a CNI plugin that gives a pod network interfaces served by a
    user space switch of the node, VPP or OVS-DPDK, and a daemon that restores
    those interfaces after VPP restarted.  This library is a model of its Go code
    (the directory src/) with the theorems that make it correct.  The definitions
    are executable and bear the names of the functions they translate.

    ** The program

    - The plugin ([userspace/cni]): CmdAdd reads the network configuration and the
      pod, picks the directory shared with the pod, asks an engine for the
      interface on the host, runs IPAM, and leaves the container's half of the
      configuration to the container: in an annotation of the pod, or in a file of
      the shared directory.  CmdDel undoes it.
    - The engines ([cnivpp], [cniovs]): the interface of [usrspcni].  The VPP engine
      sends binary API requests (memif, vhost-user, bridge domains) and saves on
      disk what DEL needs; the OVS engine writes rows of OVSDB and moves socket
      files.
    - The restore daemon ([pkg/daemon]): on every connection to VPP, and
      periodically, it computes from the annotations of the node's pods which memif
      masters there have to be, and makes VPP agree; an orphan is deleted only after
      a grace period or when its socket is gone; orphan socket files are swept.

    The two meet in the annotation: the plugin writes it, the daemon reads it back
    (file Restore), and in VPP itself.

    ** The model

    A call is a value of [go S A], a function from a state to an outcome and the
    state reached: [Ok], an [Err]or, a panic ([Panicked]), or [Diverged].  The
    state of a component is what its calls change: [fs] (the host's files), [node]
    (VPP and the host's files), a pod, OVSDB, a cluster, or products of them; a
    computation on a part is lifted with [on_fst] and [on_snd], and [attempt] is a
    Go call whose error the caller looks at.  [keeps] and [go_inv] reason about
    what a run leaves alone and what a successful run went through; [total] (file
    Total) that it returns.

    Files, in the order they are compiled (sources under src/):

    - Prelude: errors, outcomes, the monad and its tactics, machine integers.
    - GoStrings, GoOs, GoRegexp, Json: the packages strings, strconv, path, os,
      regexp and encoding/json as far as the sources use them.
    - Total: calls that return, and the rules for them.
    - Logging: logging/logging.go.
    - Types: pkg/types/types.go; JsonCodec: those structs and their JSON texts.
    - Annotations: pkg/annotations/annotations.go; ConfigData:
      pkg/configdata/configdata.go and the write half of pkg/k8sclient/k8sclient.go.
    - LocalDb: cnivpp/localdb.go.  VppApi: the interface to VPP.  Memif:
      cnivpp/api/memif/memif.go.  Bridge: cnivpp/api/bridge, interface and vhostuser.
      CniVpp: cnivpp/cnivpp.go; VppSafety: what its calls can do to VPP when they
      fail.  Infra: cnivpp/api/infra, and the engine's calls inside the connection
      they open.  TestPrograms: cnivpp/test, and the Dump functions of cnivpp/api.
    - OvsDb: cniovs/ovsdb.go.  CniOvs: cniovs/cniovs.go, ovn.go, localdb.go;
      OvsAddDel and OvsShared: the theorems about it.
    - Cni: userspace/cni/cni.go and the read half of pkg/k8sclient; CniProps: the
      theorems about it.  Plugin: userspace/main.go and usrspcni.
    - Reconcile, Gc, Desired, Dataplane, Sync, Status: pkg/daemon/reconcile.go, the
      garbage collection gate of daemon.go, desired.go, dataplane_vpp.go, the rest
      of daemon.go, status.go with watch_vpp.go.  Rounds: the rounds of Sync one
      after the other, the cluster and VPP changing in between.  KubeCluster: k8s.go.  Endpoints: the
      HTTP handlers of status.go.  Daemon: cmd/daemon/main.go.  Restore: the daemon
      against ADD.  Termination: the engine's calls and the daemon's rounds return.
      EndToEnd: from an ADD through the API server to a later round of the daemon.
    - Threads: programs of atomic steps, configurations of them over a shared state,
      rely and guarantee.  Calls: the engine's calls and the daemon's dataplane as
      such programs.  Interleave: what they do to each other.  OvsCalls: the OVS
      engine's calls as such programs; OvsInterleave: what those do to each other.
    - VppRef, OvsRef, World: executable instances of the classes below.
    - Witnesses, DaemonWitnesses, OvsWitnesses, CniWitnesses, RaceWitnesses,
      RoundWitnesses: for each property with hypotheses, a run on those instances at
      which they hold.

    ** Code outside the repository

    It is a parameter: a class of operations, with the documented behaviour the
    code relies on in a class of laws, stated by what a later dump or read shows.  A
    request to VPP that is answered was carried out; of one that ends in an error
    (refused, or its reply lost) the laws do not say whether it was.
    [VppApi] with [VppLaws] and [VppBridgeLaws] (VPP behind govpp), [OvsApi] with
    [OvsLaws] and [OvsAtomic] (OVSDB behind libovsdb), [KubeClient] with [KubeLaws] (pods through
    client-go), [Cluster] (what a round of the daemon lists; file
    KubeCluster derives it from [KubeReads], the calls of client-go), [K8sConfig] and
    [InCluster] (ways to a client), [MapOrder] (the order of a range over a map),
    [CniLib] with [CniLibLaws] (the JSON of the CNI library's own structs: what is
    written is JSON; that it is read back as it was is not assumed), [CniHost]
    (IPAM and namespaces), [OvsHost] (mounts, random bytes, the CNI_ARGS parser),
    [UserDb] (the group database), [Logfmt] (a text format a reader accepts).  A
    theorem uses the laws it names and no others; VppRef, OvsRef and World discharge
    them all.

    The interface Dataplane of the daemon is a class of this program's own, with the
    contract its comments promise ([DataplaneLaws]): file Reconcile is proved
    against the contract, and file Dataplane proves that VPP behind the memif
    wrappers meets it.

    ** What the theorems show

    - A round of the daemon converges: exactly the desired masters are added, only
      undesired and approved ones are lost, a second reconcile does nothing, and the
      gate opens exactly when the history of rounds says so (Sync, Reconcile, Gc).
      Over any history of rounds a master is collected only when its socket is gone
      or after it was an orphan for its whole grace period; one that is alone on its
      socket is collected by then, and two on one socket are not (Rounds).
    - DumpMasters, CreateMaster and the sweep do what the contract says and no more,
      faults of system calls included (Dataplane).
    - ADD makes one interface of the configured role on the right socket, and saves
      what DEL needs; DEL removes that interface and nothing else; after ADD and
      DEL the interfaces, sockets and ports are as before, but a bridge domain of VPP
      may stay and an empty bridge of OVS is gone (CniVpp, OvsAddDel); the plugin's
      calls compose these halves, CmdDel after CmdAdd included (CniProps).  Of the
      configurations on which the two agree ([restorable]) the daemon re-creates
      exactly what ADD made (Restore), and what a successful CmdAdd made comes back in every
      successful round of the daemon that lists the pod it sent (EndToEnd).
    - Side by side, calls on different socket files do to VPP what they do alone,
      whatever the order of their requests (Interleave); the interleaved programs,
      run alone, are the sequential calls (Calls, OvsCalls).  Calls of the OVS engine
      on different ports do to OVSDB what they do alone, as long as no DEL empties
      its bridge (OvsInterleave).  The engine's calls
      leave no connection open (Infra).
    - The data crossing process boundaries survives: configuration data through
      JSON, annotations and files (the CNI result inside as far as its library reads what
      it writes, [read_back]), saved data, the short network list (JsonCodec, Annotations,
      ConfigData, LocalDb, Desired).  The masters' sockets tell the pods' interfaces
      apart, unless the configuration names a socket file (Desired).
    - Whatever ADD and DEL end in, an error half-way included, they take away and
      make no interface but that on the container's socket (VppSafety); ADD does not
      undo its host part when a later part fails (CniProps).
    - ADD, DEL and a round of the daemon return on a VPP that answers, a round always
      with its report (Termination); the smallest free socket id is found (Memif);
      bridge domains are made and deleted as members come and go (Bridge).
    - The daemon's process ends with an error only when its configuration is missing,
      and otherwise only when it is told to (Daemon); what it serves is what it
      counted (Endpoints).
    - The cases in which the code does not do what it means to are theorems too:
      a bridge domain leaked, a half-made master never repaired, DEL without the
      pod, DEL of an OVN port, sibling files removed, a retry that loses the
      annotations, a dump that never ends, readiness kept while disconnected, two
      ADDs that find the same free socket id, a bridge of OVS deleted under the port
      of an ADD, a master collected while its pod is alive but was skipped, two
      masters on one socket whose rounds are never counted, a bridge of OVS deleted
      with its ports after a query that failed.

    ** Bounds and fuel

    Machine integers are values of Z with their range in the [wf] predicates, and
    are wrapped where the code converts ([u32] and the like).  The one loop of
    the program with no bound of its own is the loop over a dump (receive until
    the last reply): it runs on the argument [fuel], [Diverged] when it runs out.
    [enough fuel n] (one more than the length of the dumps of [n]) makes every such
    loop end, and theorems that promise a result assume it, or [room i j n], which
    leaves fuel for [i] more interfaces and [j] more sockets; the others hold for any
    fuel.  [Memif.findMemifSocket_unanswered] shows that no fuel is enough for a
    VPP that stopped answering.  Readers of texts (JSON, paths, case folding) run on
    the length of the text, which is always enough, and the removal of a tree on the
    number of its nodes.

    ** Not modelled

    - The dispatch of CNI_COMMAND to the table of commands (the CNI library's), what
      govpp does with a connection beside opening and closing it, and the console
      lines of the programs of cnivpp/test beside the rows of their dumps.
    - The HTTP server around the handlers, the parsing of flags, signals, mounts and
      symbolic links, the nesting limit of encoding/json, the format of time stamps,
      and, outside file Logging, the lines that are logged.
    - Interleavings other than those of files Interleave, OvsCalls and OvsInterleave:
      outside them a call runs alone.  The code takes no lock across processes.  There a step is one
      request, one dump, one OVSDB transaction or one file operation (a save, a
      cleanup, the making of the shared directory), a dump being taken at one moment,
      and in Interleave calls on one and the same socket file, in OvsInterleave calls
      on one and the same port, are not run side by side; a DEL there starts once it
      has loaded what ADD saved.  The once-only OVSDB client and the daemon's counters are used from one
      goroutine at a time in the model. *)
From Stdlib Require Export Ascii.
From stdpp Require Export base strings gmap sets fin_maps numbers.
From stdpp Require Export list.

#[global] Arguments String.append : simpl nomatch.
#[global] Arguments ascii_dec : simpl never.
#[global] Arguments decide : simpl never.

(** ** Errors and outcomes of Go code *)

(** The system errors the code distinguishes or passes on. *)
Inductive errno := ENOENT | EEXIST | EACCES | ENOTDIR | ENOTEMPTY | EISDIR | EIO.

(** A Go [error] value: made by errors.New/fmt.Errorf, by the os package, by a
    govpp request (a negative return value or a reply timeout), or wrapped. *)
Inductive error :=
  | ErrNew (msg : string)
  | ErrOs (e : errno)
  | ErrApi (retval : Z)
  | ErrTimeout
  | ErrWrap (msg : string) (cause : error).

#[global] Instance errno_eq_dec : EqDecision errno.
Proof. solve_decision. Defined.

#[global] Instance error_eq_dec : EqDecision error.
Proof. solve_decision. Defined.

(** os.IsNotExist: it does not look through errors wrapped by fmt.Errorf. *)
Definition is_not_exist (e : error) : bool :=
  match e with ErrOs ENOENT => true | _ => false end.

(** What a call ends in: a value, a non-nil error, a run-time panic, or no end
    at all (a loop that used up the fuel it was given). *)
Inductive outcome (A : Type) :=
  | Ok (a : A)
  | Err (e : error)
  | Panicked (why : string)
  | Diverged.
Arguments Ok {A} _.
Arguments Err {A} _.
Arguments Panicked {A} _.
Arguments Diverged {A}.

#[global] Instance outcome_eq_dec {A} `{EqDecision A} : EqDecision (outcome A).
Proof. solve_decision. Defined.

(** The result of a Go pair (value, error) as a value. *)
Notation result A := (error + A)%type.

(** ** The state and error monad of the model

    [go S A] is a computation over a state [S]; an error, a panic and
    divergence end the computation, keeping the state reached so far. *)
Definition go (S A : Type) : Type := S → outcome A * S.

#[global] Instance go_ret S : MRet (go S) := λ A a s, (Ok a, s).
#[global] Instance go_bind S : MBind (go S) := λ A B f m s,
  match m s with
  | (Ok a, s') => f a s'
  | (Err e, s') => (Err e, s')
  | (Panicked w, s') => (Panicked w, s')
  | (Diverged, s') => (Diverged, s')
  end.

Section Operations.
Context {S : Type}.

(** return ..., err *)
Definition raise {A} (e : error) : go S A := λ s, (Err e, s).

(** A run-time panic: index or slice bounds out of range, nil dereference. *)
Definition go_panic {A} (why : string) : go S A := λ s, (Panicked why, s).

Definition diverge {A} : go S A := λ s, (Diverged, s).

Definition gets {A} (f : S → A) : go S A := λ s, (Ok (f s), s).

Definition modify (f : S → S) : go S unit := λ s, (Ok tt, f s).

(** [v, err := m()] where the code looks at [err] itself. *)
Definition attempt {A} (m : go S A) : go S (result A) := λ s,
  match m s with
  | (Ok a, s') => (Ok (inr a), s')
  | (Err e, s') => (Ok (inl e), s')
  | (Panicked w, s') => (Panicked w, s')
  | (Diverged, s') => (Diverged, s')
  end.

(** [if err := m(); err != nil { return fmt.Errorf("msg: %w", err) }] *)
Definition wrap_err {A} (msg : string) (m : go S A) : go S A := λ s,
  match m s with
  | (Err e, s') => (Err (ErrWrap msg e), s')
  | r => r
  end.

(** [_ = m()]: the error is dropped. *)
Definition ignore_err (m : go S unit) : go S unit := attempt m ;; mret tt.

Definition of_result {A} (r : result A) : go S A :=
  match r with inl e => raise e | inr a => mret a end.

(** A computation that only reads the state. *)
Definition look {A} (f : S → outcome A) : go S A := λ s, (f s, s).

(** [defer cleanup()] around the rest of a function: the cleanup runs on a
    return, an error and a panic alike and does not change the result. *)
Definition with_defer {A} (m : go S A) (cleanup : S → S) : go S A := λ s,
  match m s with
  | (Diverged, s') => (Diverged, s')
  | (o, s') => (o, cleanup s')
  end.

(** [for _, x := range l { body(x) }], ending at the first error. *)
Fixpoint for_each {A} (l : list A) (body : A → go S unit) : go S unit :=
  match l with
  | [] => mret tt
  | x :: l' => body x ;; for_each l' body
  end.
End Operations.

(** Running a computation on one half of a pair of states. *)
Definition on_fst {S T A} (m : go S A) : go (S * T) A := λ st,
  let '(o, s') := m st.1 in (o, (s', st.2)).
Definition on_snd {S T A} (m : go T A) : go (S * T) A := λ st,
  let '(o, t') := m st.2 in (o, (st.1, t')).

(** The error of an outcome, as the code's callers see it. *)
Definition err_of {A} (o : outcome A) : option error :=
  match o with Err e => Some e | _ => None end.

Definition is_ok {A} (o : outcome A) : bool :=
  match o with Ok _ => true | _ => false end.

(** ** Unfolding and inverting runs *)

Create HintDb go_db.

Section Runs.
Context {S : Type}.

Lemma run_ret {A} (a : A) (s : S) : (mret a : go S A) s = (Ok a, s).
Proof. done. Qed.

Lemma run_bind {A B} (m : go S A) (f : A → go S B) s :
  (m ≫= f) s =
  match m s with
  | (Ok a, s') => f a s'
  | (Err e, s') => (Err e, s')
  | (Panicked w, s') => (Panicked w, s')
  | (Diverged, s') => (Diverged, s')
  end.
Proof. done. Qed.

Lemma run_raise {A} e (s : S) : (raise e : go S A) s = (Err e, s).
Proof. done. Qed.

Lemma run_gets {A} (f : S → A) s : gets f s = (Ok (f s), s).
Proof. done. Qed.

Lemma run_modify (f : S → S) s : modify f s = (Ok tt, f s).
Proof. done. Qed.

Lemma run_look {A} (f : S → outcome A) s : look f s = (f s, s).
Proof. done. Qed.

Lemma run_attempt {A} (m : go S A) s :
  attempt m s =
  match m s with
  | (Ok a, s') => (Ok (inr a), s')
  | (Err e, s') => (Ok (inl e), s')
  | (Panicked w, s') => (Panicked w, s')
  | (Diverged, s') => (Diverged, s')
  end.
Proof. done. Qed.

Lemma bind_Ok_inv {A B} (m : go S A) (f : A → go S B) s b s' :
  (m ≫= f) s = (Ok b, s') →
  ∃ a s1, m s = (Ok a, s1) ∧ f a s1 = (Ok b, s').
Proof.
  rewrite run_bind. destruct (m s) as [[a|e|w|] s1]; intros H; try discriminate.
  by exists a, s1.
Qed.

Lemma bind_Ok {A B} (m : go S A) (f : A → go S B) s a s1 :
  m s = (Ok a, s1) → (m ≫= f) s = f a s1.
Proof. by rewrite run_bind; intros ->. Qed.

Lemma bind_Err {A B} (m : go S A) (f : A → go S B) s e s1 :
  m s = (Err e, s1) → (m ≫= f) s = (Err e, s1).
Proof. by rewrite run_bind; intros ->. Qed.

Lemma attempt_Ok_inv {A} (m : go S A) s r s' :
  attempt m s = (Ok r, s') →
  match r with inl e => m s = (Err e, s') | inr a => m s = (Ok a, s') end.
Proof.
  rewrite run_attempt. destruct (m s) as [[a|e|w|] s1]; by intros; simplify_eq.
Qed.

Lemma wrap_err_Ok_inv {A} msg (m : go S A) s a s' :
  wrap_err msg m s = (Ok a, s') → m s = (Ok a, s').
Proof. unfold wrap_err. destruct (m s) as [[?|?|?|] ?]; by intros; simplify_eq. Qed.

Lemma wrap_err_Ok {A} msg (m : go S A) s a s' :
  m s = (Ok a, s') → wrap_err msg m s = (Ok a, s').
Proof. unfold wrap_err. by intros ->. Qed.

Lemma for_each_app {A} (l1 l2 : list A) (body : A → go S unit) s :
  for_each (l1 ++ l2) body s = (for_each l1 body ;; for_each l2 body) s.
Proof.
  revert s. induction l1 as [|x l1 IH]; intros s; [done|]. simpl.
  rewrite !run_bind. destruct (body x s) as [[[]|?|?|] s1]; [|done..].
  by rewrite IH.
Qed.

(** An invariant of the body is an invariant of the loop. *)
Lemma for_each_inv {A} (P : S → Prop) (body : A → go S unit) (l : list A) s :
  P s →
  (∀ x s1, x ∈ l → P s1 → P (body x s1).2) →
  P (for_each l body s).2.
Proof.
  intros HP Hbody. revert s HP. induction l as [|x l IH]; intros s HP; [done|].
  simpl. rewrite run_bind.
  pose proof (Hbody x s ltac:(left) HP) as Hx.
  destruct (body x s) as [[[]|?|?|] s1]; [|done..].
  apply IH; [|done]. intros y s2 Hy. apply Hbody. by right.
Qed.
End Runs.

Lemma on_snd_inv {S T A} (m : go T A) (s s' : S * T) o :
  on_snd m s = (o, s') → m s.2 = (o, s'.2) ∧ s'.1 = s.1.
Proof. unfold on_snd. destruct (m s.2) as [o' t]. by intros [= <- <-]. Qed.

Lemma on_fst_inv {S T A} (m : go S A) (s s' : S * T) o :
  on_fst m s = (o, s') → m s.1 = (o, s'.1) ∧ s'.2 = s.2.
Proof. unfold on_fst. destruct (m s.1) as [o' t]. by intros [= <- <-]. Qed.

Lemma on_snd_run {S T A} (m : go T A) (a : S) t o t' :
  m t = (o, t') → on_snd m (a, t) = (o, (a, t')).
Proof. unfold on_snd. simpl. by intros ->. Qed.

Lemma on_fst_run {S T A} (m : go S A) (b : T) s o s' :
  m s = (o, s') → on_fst m (s, b) = (o, (s', b)).
Proof. unfold on_fst. simpl. by intros ->. Qed.

(** [go_inv] takes a successful run of a sequence of calls apart: one
    hypothesis per call, in the order of the code. *)
Ltac go_inv_step :=
  match goal with
  | H : (_ ≫= _) _ = (Ok _, _) |- _ =>
      let a := fresh "v" in let s := fresh "st" in let H1 := fresh "Hrun" in
      apply bind_Ok_inv in H; destruct H as (a & s & H1 & H); cbv beta in H
  | H : mret _ _ = (Ok _, _) |- _ => rewrite run_ret in H; simplify_eq H; intros; subst
  | H : raise _ _ = (Ok _, _) |- _ => discriminate H
  | H : go_panic _ _ = (Ok _, _) |- _ => discriminate H
  | H : diverge _ = (Ok _, _) |- _ => discriminate H
  | H : wrap_err _ _ _ = (Ok _, _) |- _ => apply wrap_err_Ok_inv in H
  | H : gets _ _ = (Ok _, _) |- _ => rewrite run_gets in H; simplify_eq H; intros; subst
  | H : modify _ _ = (Ok _, _) |- _ => rewrite run_modify in H; simplify_eq H; intros; subst
  | H : attempt _ _ = (Ok _, _) |- _ => apply attempt_Ok_inv in H
  end.
Ltac go_inv := repeat (go_inv_step; simplify_eq/=).

(** A run that is a plain return. *)
Ltac go_ret :=
  match goal with
  | H : mret _ _ = (_, _) |- _ => rewrite run_ret in H; simplify_eq
  | H : (_, _) = (_, _) |- _ => simplify_eq
  end.

(** ** State relations a computation keeps

    [keeps R m]: whatever [m] ends in, the state it leaves is related to the
    state it started from; with a reflexive and transitive [R] this composes. *)
Definition keeps {S A} (R : relation S) (m : go S A) : Prop := ∀ s, R s (m s).2.

Section Keeps.
Context {S : Type} (R : relation S) `{!PreOrder R}.

Lemma keeps_ret {A} (a : A) : keeps R (mret a : go S A).
Proof. intros s. by simpl. Qed.

Lemma keeps_raise {A} e : keeps R (raise e : go S A).
Proof. intros s. by simpl. Qed.

Lemma keeps_panic {A} w : keeps R (go_panic w : go S A).
Proof. intros s. by simpl. Qed.

Lemma keeps_diverge {A} : keeps R (diverge : go S A).
Proof. intros s. by simpl. Qed.

Lemma keeps_gets {A} (f : S → A) : keeps R (gets f).
Proof. intros s. by simpl. Qed.

Lemma keeps_bind {A B} (m : go S A) (f : A → go S B) :
  keeps R m → (∀ a, keeps R (f a)) → keeps R (m ≫= f).
Proof.
  intros Hm Hf s. rewrite run_bind. pose proof (Hm s) as Hs.
  destruct (m s) as [[a|e|w|] s1]; simpl in *; [|done..].
  etrans; [exact Hs|apply Hf].
Qed.

Lemma keeps_attempt {A} (m : go S A) : keeps R m → keeps R (attempt m).
Proof.
  intros Hm s. rewrite run_attempt. pose proof (Hm s).
  by destruct (m s) as [[?|?|?|] ?].
Qed.

Lemma keeps_wrap_err {A} msg (m : go S A) : keeps R m → keeps R (wrap_err msg m).
Proof.
  intros Hm s. unfold wrap_err. pose proof (Hm s).
  by destruct (m s) as [[?|?|?|] ?].
Qed.

Lemma keeps_ignore_err (m : go S unit) : keeps R m → keeps R (ignore_err m).
Proof. intros Hm. apply keeps_bind; [by apply keeps_attempt|intros; apply keeps_ret]. Qed.

Lemma keeps_of_result {A} (r : result A) : keeps R (of_result r : go S A).
Proof. destruct r; [apply keeps_raise|apply keeps_ret]. Qed.

Lemma keeps_look {A} (f : S → outcome A) : keeps R (look f).
Proof. intros s. by simpl. Qed.

Lemma keeps_for_each {A} (l : list A) (body : A → go S unit) :
  (∀ x, x ∈ l → keeps R (body x)) → keeps R (for_each l body).
Proof.
  induction l as [|x l IH]; intros H; [apply keeps_ret|]. simpl.
  apply keeps_bind; [apply H; left|]. intros _. apply IH.
  intros y Hy. apply H. by right.
Qed.
End Keeps.

#[export] Hint Resolve keeps_ret keeps_raise keeps_panic keeps_diverge keeps_gets
  keeps_bind keeps_attempt keeps_wrap_err keeps_ignore_err keeps_of_result
  keeps_look : go_db.
#[export] Hint Extern 1 (PreOrder _) => apply _ : go_db.

(** ** Machine integers *)

Definition u8 (z : Z) : Z := z `mod` 2 ^ 8.
Definition u16 (z : Z) : Z := z `mod` 2 ^ 16.
Definition u32 (z : Z) : Z := z `mod` 2 ^ 32.

Lemma u32_range z : (0 ≤ u32 z < 2 ^ 32)%Z.
Proof. apply Z.mod_pos_bound. lia. Qed.

Lemma u32_small z : (0 ≤ z < 2 ^ 32)%Z → u32 z = z.
Proof. apply Z.mod_small. Qed.

Lemma u32_idemp z : u32 (u32 z) = u32 z.
Proof. apply u32_small, u32_range. Qed.

(** ** Lists *)

Lemma list_filter_all {A} (P : A → Prop) `{∀ x, Decision (P x)} (l : list A) :
  Forall P l → filter P l = l.
Proof.
  induction 1 as [|x l Hx Hl IH]; [done|]. by rewrite filter_cons_True, IH.
Qed.

Lemma elem_of_sublist {A} (l1 l2 : list A) x : l1 `sublist_of` l2 → x ∈ l1 → x ∈ l2.
Proof. intros Hsub Hx. by eapply elem_of_submseteq, sublist_submseteq. Qed.

(** Filters that agree on the elements, and their order. *)
Lemma list_filter_ext {A} (P Q : A → Prop) `{!∀ x, Decision (P x), !∀ x, Decision (Q x)} (l : list A) :
  (∀ x, x ∈ l → P x ↔ Q x) → filter P l = filter Q l.
Proof.
  induction l as [|x l IH]; intros HPQ; [done|].
  assert (filter P l = filter Q l) as IH' by (apply IH; intros; apply HPQ; by right).
  assert (P x ↔ Q x) by (apply HPQ; left).
  rewrite !filter_cons, IH'. repeat case_decide; tauto || done.
Qed.

Lemma list_filter_comm {A} (P Q : A → Prop) `{!∀ x, Decision (P x), !∀ x, Decision (Q x)} (l : list A) :
  filter P (filter Q l) = filter Q (filter P l).
Proof. rewrite !list_filter_filter. apply list_filter_ext. tauto. Qed.

Lemma omap_ext_in {A B} (f g : A → option B) (l : list A) :
  (∀ x, x ∈ l → f x = g x) → omap f l = omap g l.
Proof.
  induction l as [|x l IH]; intros Hfg; [done|]. cbn [omap list_omap].
  rewrite (Hfg x) by left. assert (omap f l = omap g l) as IH' by
    (apply IH; intros; apply Hfg; by right).
  by rewrite IH'.
Qed.

Lemma list_filter_none {A} (P : A → Prop) `{∀ x, Decision (P x)} (l : list A) :
  filter P l = [] ↔ ∀ x, x ∈ l → ¬ P x.
Proof.
  split.
  - intros Hnil x Hx HP. assert (x ∈ filter P l) as Hin by (by apply list_elem_of_filter).
    rewrite Hnil in Hin. by apply elem_of_nil in Hin.
  - intros Hno. destruct (filter P l) as [|x l'] eqn:E; [done|].
    assert (x ∈ filter P l) as [? ?]%list_elem_of_filter by (rewrite E; left).
    by destruct (Hno x).
Qed.

Lemma NoDup_fmap_unique {A B} (f : A → B) (l : list A) x y :
  NoDup (f <$> l) → x ∈ l → y ∈ l → f x = f y → x = y.
Proof.
  intros Hnd [i Hi]%list_elem_of_lookup [j Hj]%list_elem_of_lookup Heq.
  assert (i = j) as ->; [|congruence].
  eapply NoDup_lookup; [exact Hnd| |]; rewrite list_lookup_fmap.
  - by rewrite Hi.
  - by rewrite Hj, Heq.
Qed.
