(* ===== verification/GoStrings.v ===== *)
(** * Strings and paths of the Go standard library

    What the sources use of the packages strings, strconv, path and
    path/filepath (on Unix), over byte strings.  Unicode is treated where it
    can change the result of a comparison with an ASCII constant: white space
    for strings.TrimSpace, and the few non-ASCII letters that fold to an ASCII
    letter for strings.ToLower and strings.EqualFold. *)
From S2P Require Import Prelude.

(** ** Slices, prefixes, suffixes *)

Fixpoint str_take (n : nat) (s : string) : string :=
  match n, s with
  | S n', String a s' => String a (str_take n' s')
  | _, _ => EmptyString
  end.

Fixpoint str_drop (n : nat) (s : string) : string :=
  match n, s with
  | S n', String _ s' => str_drop n' s'
  | _, _ => s
  end.

(** [s[:n]], which panics when [s] is shorter than [n]. *)
Definition slice_to {S} (n : nat) (s : string) : go S string :=
  if decide (n ≤ String.length s) then mret (str_take n s)
  else go_panic "slice bounds out of range".

Lemma slice_to_Ok {S} n t (s s' : S) id :
  slice_to n t s = (Ok id, s') → s' = s ∧ id = str_take n t ∧ n ≤ String.length t.
Proof. unfold slice_to. case_decide; [|done]. rewrite run_ret. by intros [= <- <-]. Qed.

Fixpoint has_prefix (p s : string) : bool :=
  match p, s with
  | EmptyString, _ => true
  | String a p', String b s' => bool_decide (a = b) && has_prefix p' s'
  | _, _ => false
  end.

Definition has_suffix (suf s : string) : bool :=
  bool_decide (String.length suf ≤ String.length s ∧
               str_drop (String.length s - String.length suf) s = suf).

(** strings.Contains *)
Fixpoint str_contains (s sub : string) : bool :=
  has_prefix sub s ||
  match s with EmptyString => false | String _ s' => str_contains s' sub end.

(** strings.Index for a one-byte separator. *)
Fixpoint index_char (c : ascii) (s : string) : option nat :=
  match s with
  | EmptyString => None
  | String a s' => if decide (a = c) then Some 0 else S <$> index_char c s'
  end.

(** strings.Split for a one-byte separator; never empty. *)
Fixpoint split_char (c : ascii) (s : string) : list string :=
  match s with
  | EmptyString => [EmptyString]
  | String a s' =>
      if decide (a = c) then EmptyString :: split_char c s'
      else match split_char c s' with
           | [] => [String a EmptyString]
           | w :: ws => String a w :: ws
           end
  end.

(** strings.Join *)
Definition str_join (sep : string) (l : list string) : string := String.concat sep l.

Fixpoint str_all (p : ascii → bool) (s : string) : bool :=
  match s with EmptyString => true | String a s' => p a && str_all p s' end.

(** strings.TrimLeft and strings.TrimRight with a set of ASCII bytes. *)
Fixpoint trim_left_set (p : ascii → bool) (s : string) : string :=
  match s with
  | EmptyString => EmptyString
  | String a s' => if p a then trim_left_set p s' else s
  end.

Fixpoint trim_right_set (p : ascii → bool) (s : string) : string :=
  match s with
  | EmptyString => EmptyString
  | String a s' =>
      match trim_right_set p s' with
      | EmptyString => if p a then EmptyString else String a EmptyString
      | r => String a r
      end
  end.

(** ** strings.TrimSpace *)

Definition byte_str (l : list nat) : string :=
  fold_right (λ n s, String (ascii_of_nat n) s) EmptyString l.

(** The UTF-8 encodings of the runes unicode.IsSpace accepts. *)
Definition space_encodings : list string :=
  byte_str <$>
  ([[9]; [10]; [11]; [12]; [13]; [32]; [194; 133]; [194; 160]; [225; 154; 128]]
   ++ ((λ n, [226; 128; n]) <$> seq 128 11)
   ++ [[226; 128; 168]; [226; 128; 169]; [226; 128; 175]; [226; 129; 159]; [227; 128; 128]]).

Fixpoint str_rev_app (s acc : string) : string :=
  match s with EmptyString => acc | String a s' => str_rev_app s' (String a acc) end.
Definition str_rev (s : string) : string := str_rev_app s EmptyString.

Fixpoint strip_encodings (fuel : nat) (encs : list string) (s : string) : string :=
  match fuel with
  | 0 => s
  | S f =>
      match List.find (λ e, has_prefix e s) encs with
      | Some e => strip_encodings f encs (str_drop (String.length e) s)
      | None => s
      end
  end.

Definition trim_space (s : string) : string :=
  let s1 := strip_encodings (String.length s) space_encodings s in
  str_rev (strip_encodings (String.length s1) (str_rev <$> space_encodings) (str_rev s1)).

(** ** Case folding *)

Definition ascii_lower (a : ascii) : ascii :=
  let n := nat_of_ascii a in
  if decide (65 ≤ n ≤ 90) then ascii_of_nat (n + 32) else a.

Definition byte_is (a : ascii) (n : nat) : bool := Nat.eqb (nat_of_ascii a) n.

(** strings.ToLower, up to the choice of the non-ASCII letters of the result:
    U+0130 and U+212A (Kelvin) become ASCII letters, as in Go. *)
Fixpoint to_lower (s : string) : string :=
  match s with
  | EmptyString => EmptyString
  | String a s' =>
      match s' with
      | String b s'' =>
          if byte_is a 196 && byte_is b 176 then String "i" (to_lower s'')
          else match s'' with
               | String c s3 =>
                   if byte_is a 226 && byte_is b 132 && byte_is c 170
                   then String "k" (to_lower s3)
                   else String (ascii_lower a) (to_lower s')
               | EmptyString => String (ascii_lower a) (to_lower s')
               end
      | EmptyString => String (ascii_lower a) EmptyString
      end
  end.

(** Simple folding onto ASCII: U+017F folds with s, U+212A with k. *)
Fixpoint fold_ascii (s : string) : string :=
  match s with
  | EmptyString => EmptyString
  | String a s' =>
      match s' with
      | String b s'' =>
          if byte_is a 197 && byte_is b 191 then String "s" (fold_ascii s'')
          else match s'' with
               | String c s3 =>
                   if byte_is a 226 && byte_is b 132 && byte_is c 170
                   then String "k" (fold_ascii s3)
                   else String (ascii_lower a) (fold_ascii s')
               | EmptyString => String (ascii_lower a) (fold_ascii s')
               end
      | EmptyString => String (ascii_lower a) EmptyString
      end
  end.

(** strings.EqualFold against an ASCII constant. *)
Definition equal_fold (s t : string) : bool := bool_decide (fold_ascii s = fold_ascii t).

(** ** strconv.ParseUint(s, 10, bits) *)

Definition digit_value (a : ascii) : option Z :=
  let n := nat_of_ascii a in
  if decide (48 ≤ n ≤ 57) then Some (Z.of_nat (n - 48)) else None.

Definition err_syntax : error := ErrNew "strconv.ParseUint: invalid syntax".
Definition err_range : error := ErrNew "strconv.ParseUint: value out of range".

Fixpoint parse_digits (maxv n : Z) (s : string) : result Z :=
  match s with
  | EmptyString => inr n
  | String a s' =>
      match digit_value a with
      | None => inl err_syntax
      | Some d =>
          let n1 := (n * 10 + d)%Z in
          if decide (maxv < n1)%Z then inl err_range else parse_digits maxv n1 s'
      end
  end.

Definition parse_uint (bits : Z) (s : string) : result Z :=
  match s with
  | EmptyString => inl err_syntax
  | _ => parse_digits (2 ^ bits - 1) 0 s
  end.

Lemma digit_value_range a d : digit_value a = Some d → (0 ≤ d ≤ 9)%Z.
Proof. unfold digit_value. case_decide; [|done]. intros [= <-]. lia. Qed.

Lemma parse_digits_range maxv n s r :
  (0 ≤ n ≤ maxv)%Z → parse_digits maxv n s = inr r → (0 ≤ r ≤ maxv)%Z.
Proof.
  revert n. induction s as [|a s IH]; intros n Hn; simpl; [by intros [= <-]|].
  destruct (digit_value a) as [d|] eqn:E; [|done]. apply digit_value_range in E.
  case_decide; [done|]. apply IH. lia.
Qed.

Lemma parse_uint_range bits s r :
  (0 ≤ bits)%Z → parse_uint bits s = inr r → (0 ≤ r < 2 ^ bits)%Z.
Proof.
  intros Hb. unfold parse_uint. destruct s as [|a s]; [done|].
  intros Hr%parse_digits_range; [lia|]. assert (0 < 2 ^ bits)%Z by (apply Z.pow_pos_nonneg; lia).
  lia.
Qed.

(** ** Paths *)

Definition slash : ascii := "/".

(** A cleaned path: rooted or not, and its components. *)
Record cpath := CPath { cp_abs : bool; cp_comps : list string }.

#[global] Instance cpath_eq_dec : EqDecision cpath.
Proof. solve_decision. Defined.

#[global] Instance cpath_countable : Countable cpath.
Proof.
  apply (inj_countable' (λ c, (cp_abs c, cp_comps c)) (λ p, CPath p.1 p.2)).
  by intros [].
Defined.

(** One element of a path, read from left to right; the components so far are
    kept last first. *)
Definition path_step (rooted : bool) (rev_comps : list string) (c : string) : list string :=
  if decide (c = EmptyString ∨ c = ".") then rev_comps
  else if decide (c = "..") then
    match rev_comps with
    | x :: rest => if decide (x = "..") then c :: rev_comps else rest
    | [] => if rooted then [] else [c]
    end
  else c :: rev_comps.

Definition path_parse (s : string) : cpath :=
  let rooted := has_prefix "/" s in
  CPath rooted (reverse (foldl (path_step rooted) [] (split_char slash s))).

Definition path_print (c : cpath) : string :=
  let body := str_join "/" (cp_comps c) in
  if cp_abs c then String slash body
  else match cp_comps c with [] => "." | _ => body end.

(** path.Clean and filepath.Clean *)
Definition path_clean (s : string) : string := path_print (path_parse s).

Fixpoint drop_empty (l : list string) : list string :=
  match l with
  | EmptyString :: l' => drop_empty l'
  | _ => l
  end.

(** path.Join and filepath.Join *)
Definition path_join (l : list string) : string :=
  match drop_empty l with
  | [] => EmptyString
  | l' => path_clean (str_join "/" l')
  end.

Fixpoint upto_last_slash (s : string) : string :=
  match s with
  | EmptyString => EmptyString
  | String a s' =>
      match upto_last_slash s' with
      | EmptyString => if decide (a = slash) then String a EmptyString else EmptyString
      | r => String a r
      end
  end.

(** filepath.Dir *)
Definition path_dir (s : string) : string := path_clean (upto_last_slash s).

(** ** Lemmas: splitting and joining *)

Definition no_char (c : ascii) (s : string) : bool :=
  str_all (λ a, negb (bool_decide (a = c))) s.

Lemma str_app_nil_r (s : string) : s +:+ EmptyString = s.
Proof. induction s as [|a s IH]; simpl; [done|]. by rewrite IH. Qed.

Lemma str_app_assoc (s t u : string) : (s +:+ t) +:+ u = s +:+ (t +:+ u).
Proof. induction s as [|a s IH]; simpl; [done|]. by rewrite IH. Qed.

Lemma str_length_app (s t : string) :
  String.length (s +:+ t) = String.length s + String.length t.
Proof. induction s as [|a s IH]; simpl; [done|]. by rewrite IH. Qed.

Lemma str_all_app p (s t : string) : str_all p (s +:+ t) = str_all p s && str_all p t.
Proof. induction s as [|a s IH]; simpl; [done|]. by rewrite IH, andb_assoc. Qed.

Lemma split_char_ne c s : split_char c s ≠ [].
Proof. destruct s as [|a s]; simpl; [done|]. case_decide; [done|]. by destruct (split_char c s). Qed.

Lemma split_char_no c s : no_char c s = true → split_char c s = [s].
Proof.
  induction s as [|a s IH]; simpl; [done|]. intros [H1 H2]%andb_prop.
  rewrite negb_true_iff, bool_decide_eq_false in H1.
  rewrite decide_False by done. by rewrite IH.
Qed.

Lemma split_char_app c s t :
  split_char c (s +:+ String c t) = split_char c s ++ split_char c t.
Proof.
  induction s as [|a s IH]; simpl; [by rewrite decide_True|].
  rewrite IH. case_decide; [done|].
  by destruct (split_char c s) eqn:E; [destruct (split_char_ne c s E)|].
Qed.

Lemma str_join_cons sep x y l :
  str_join sep (x :: y :: l) = x +:+ sep +:+ str_join sep (y :: l).
Proof. done. Qed.

Lemma split_char_join c l :
  l ≠ [] → Forall (λ s, no_char c s = true) l →
  split_char c (str_join (String c EmptyString) l) = l.
Proof.
  intros Hl Hall. destruct l as [|x l]; [done|]. clear Hl.
  revert x Hall. induction l as [|y l IH]; intros x Hall;
    apply Forall_cons in Hall as [Hx Hall].
  - by apply split_char_no.
  - rewrite str_join_cons.
    change (String c EmptyString +:+ ?t) with (String c t).
    by rewrite split_char_app, split_char_no, (IH y).
Qed.

Lemma split_char_parts c s : Forall (λ w, no_char c w = true) (split_char c s).
Proof.
  induction s as [|a s IH]; simpl; [by repeat constructor|].
  case_decide as Hac; [by constructor|].
  pose proof (split_char_ne c s). destruct (split_char c s) as [|w ws]; [done|].
  apply Forall_cons in IH as [Hw Hws]. constructor; [|done]. unfold no_char. simpl.
  by rewrite bool_decide_false.
Qed.

Lemma join_split_char c s : str_join (String c EmptyString) (split_char c s) = s.
Proof.
  induction s as [|a s IH]; simpl; [done|]. pose proof (split_char_ne c s).
  case_decide as Hac.
  - subst. destruct (split_char c s) as [|w ws]; [done|]. rewrite str_join_cons. simpl. by f_equal.
  - destruct (split_char c s) as [|w [|w' ws]]; [done|simpl in *; by f_equal|].
    rewrite str_join_cons in *. simpl. by f_equal.
Qed.

(** ** Lemmas: paths *)

(** A name that can be a component of a cleaned path. *)
Definition plain_name (c : string) : bool :=
  no_char slash c && negb (bool_decide (c = EmptyString ∨ c = "." ∨ c = "..")).

Lemma plain_name_spec c :
  plain_name c = true ↔ no_char slash c = true ∧ c ≠ EmptyString ∧ c ≠ "." ∧ c ≠ "..".
Proof.
  unfold plain_name. rewrite andb_true_iff, negb_true_iff, bool_decide_eq_false. tauto.
Qed.

Lemma path_step_plain r acc c : plain_name c = true → path_step r acc c = c :: acc.
Proof.
  intros (_ & ? & ? & ?)%plain_name_spec. unfold path_step.
  rewrite decide_False by (by intros [?|?]). by rewrite decide_False.
Qed.

Lemma path_fold_plain r acc l :
  Forall (λ c, plain_name c = true) l → foldl (path_step r) acc l = reverse l ++ acc.
Proof.
  intros H. revert acc. induction H as [|c l Hc Hl IH]; intros acc; simpl; [done|].
  rewrite path_step_plain by done. rewrite IH, reverse_cons, <- app_assoc. done.
Qed.

Lemma path_fold_dots acc k :
  (∀ x, head acc = Some x → x = "..") →
  foldl (path_step false) acc (replicate k "..") = replicate k ".." ++ acc.
Proof.
  revert acc. induction k as [|k IH]; intros acc Hacc; simpl; [done|].
  assert (path_step false acc ".." = ".." :: acc) as ->.
  { unfold path_step. rewrite decide_False by (by intros [?|?]). rewrite decide_True by done.
    destruct acc as [|x acc]; [done|]. by rewrite decide_True by auto. }
  rewrite IH by (intros x [= <-]; done).
  change (".." :: acc) with ([".."] ++ acc). rewrite app_assoc.
  f_equal. change [".."] with (replicate 1 (".."%string)).
  rewrite <- replicate_add, Nat.add_comm. done.
Qed.

(** Cleaned paths: plain components, after leading ".." when not rooted. *)
Definition wf_cpath (c : cpath) : Prop :=
  ∃ k l, cp_comps c = replicate k ".." ++ l ∧ Forall (λ x, plain_name x = true) l ∧
         (cp_abs c = true → k = 0).

Lemma path_step_wf r acc c :
  no_char slash c = true →
  (∃ k l, acc = l ++ replicate k ".." ∧ Forall (λ x, plain_name x = true) l ∧ (r = true → k = 0)) →
  ∃ k l, path_step r acc c = l ++ replicate k ".." ∧
         Forall (λ x, plain_name x = true) l ∧ (r = true → k = 0).
Proof.
  intros Hc (k & l & -> & Hl & Hk). unfold path_step.
  case_decide as H1; [by exists k, l|]. case_decide as H2.
  - subst c. destruct l as [|x l]; simpl.
    + destruct k as [|k]; simpl.
      * destruct r; [by exists 0, []|]. by exists 1, [].
      * exists (S (S k)), []. try rewrite decide_True by done. split_and!; [done..|].
        intros Hr. by specialize (Hk Hr).
    + apply Forall_cons in Hl as [Hx Hl]. exists k, l.
      pose proof (proj1 (plain_name_spec _) Hx) as (_ & _ & _ & ?).
      rewrite decide_False by done. done.
  - exists k, (c :: l). split_and!; [done| |done]. constructor; [|done].
    apply plain_name_spec. naive_solver.
Qed.

Lemma path_parse_wf s : wf_cpath (path_parse s).
Proof.
  unfold path_parse. set (r := has_prefix "/" s).
  assert (∀ w acc, Forall (λ x, no_char slash x = true) w →
    (∃ k l, acc = l ++ replicate k ".." ∧ Forall (λ x, plain_name x = true) l ∧ (r = true → k = 0)) →
    ∃ k l, foldl (path_step r) acc w = l ++ replicate k ".." ∧
           Forall (λ x, plain_name x = true) l ∧ (r = true → k = 0)) as Hfold.
  { induction w as [|c w IH]; intros acc Hw Hacc; [done|]. simpl.
    apply Forall_cons in Hw as [Hc Hw]. apply IH; [done|]. by apply path_step_wf. }
  destruct (Hfold (split_char slash s) [] (split_char_parts _ _)) as (k & l & -> & Hl & Hk).
  { by exists 0, []. }
  exists k, (reverse l). simpl. rewrite reverse_app, reverse_replicate.
  split_and!; [done| |done]. by apply Forall_reverse.
Qed.

Lemma comps_no_slash c : wf_cpath c → Forall (λ x, no_char slash x = true ∧ x ≠ EmptyString) (cp_comps c).
Proof.
  intros (k & l & -> & Hl & _). apply Forall_app. split.
  - by apply Forall_replicate.
  - eapply Forall_impl; [exact Hl|]. intros x ?%plain_name_spec. tauto.
Qed.

Lemma split_comps c :
  wf_cpath c → cp_comps c ≠ [] → split_char slash (str_join "/" (cp_comps c)) = cp_comps c.
Proof.
  intros Hwf Hne. apply split_char_join; [done|].
  eapply Forall_impl; [by apply comps_no_slash|]. simpl. tauto.
Qed.

Lemma join_head_no_slash l :
  Forall (λ x, no_char slash x = true ∧ x ≠ EmptyString) l →
  has_prefix "/" (str_join "/" l) = false.
Proof.
  destruct l as [|[|a x] l]; intros H; [done| |].
  - apply Forall_cons in H as [[_ ?] _]. done.
  - apply Forall_cons in H as [[Ha _] _]. simpl in Ha.
    apply andb_prop in Ha as [Ha _]. rewrite negb_true_iff, bool_decide_eq_false in Ha.
    destruct l; simpl; by rewrite bool_decide_false.
Qed.

Lemma path_fold_wf c :
  wf_cpath c → foldl (path_step (cp_abs c)) [] (cp_comps c) = reverse (cp_comps c).
Proof.
  intros (k & l & -> & Hl & Hk). destruct (cp_abs c).
  - rewrite Hk by done. simpl. by rewrite path_fold_plain, app_nil_r.
  - rewrite foldl_app, path_fold_dots by done.
    rewrite path_fold_plain, reverse_app, reverse_replicate by done. by rewrite app_nil_r.
Qed.

(** Reading back a cleaned path gives the path: Clean is a normal form. *)
Lemma path_parse_print c : wf_cpath c → path_parse (path_print c) = c.
Proof.
  intros Hwf. pose proof (path_fold_wf c Hwf) as Hfold.
  pose proof (comps_no_slash c Hwf) as Hns. pose proof (split_comps c Hwf) as Hsplit.
  destruct c as [[] comps]; simpl in *.
  - unfold path_parse, path_print. simpl. f_equal.
    destruct comps as [|x comps]; [done|]. rewrite Hsplit by done.
    change (path_step true [] EmptyString) with (@nil string).
    by rewrite Hfold, reverse_involutive.
  - unfold path_parse, path_print. cbn [cp_abs cp_comps].
    destruct comps as [|x comps]; [done|].
    rewrite join_head_no_slash by done. rewrite Hsplit by done.
    by rewrite Hfold, reverse_involutive.
Qed.

Lemma path_parse_clean s : path_parse (path_clean s) = path_parse s.
Proof. apply path_parse_print, path_parse_wf. Qed.

Lemma path_clean_idemp s : path_clean (path_clean s) = path_clean s.
Proof. unfold path_clean at 1. by rewrite path_parse_clean. Qed.

Lemma path_print_inj c1 c2 :
  wf_cpath c1 → wf_cpath c2 → path_print c1 = path_print c2 → c1 = c2.
Proof.
  intros H1 H2 Heq. rewrite <- (path_parse_print c1), <- (path_parse_print c2) by done.
  by rewrite Heq.
Qed.

Lemma has_prefix_slash_app s t :
  s ≠ EmptyString → has_prefix "/" (s +:+ t) = has_prefix "/" s.
Proof. destruct s as [|a s]; [done|]. done. Qed.

(** The path of a file named [f] in the directory [d]. *)
Lemma path_parse_join d f :
  d ≠ EmptyString → plain_name f = true →
  path_parse (path_join [d; f]) =
  CPath (cp_abs (path_parse d)) (cp_comps (path_parse d) ++ [f]).
Proof.
  intros Hd Hf. unfold path_join.
  assert (drop_empty [d; f] = [d; f]) as -> by (by destruct d).
  rewrite path_parse_clean. change (str_join "/" [d; f]) with (d +:+ String slash f).
  unfold path_parse. rewrite has_prefix_slash_app by done. simpl. f_equal.
  rewrite split_char_app, foldl_app.
  rewrite (split_char_no slash f) by (by apply plain_name_spec in Hf as [? _]).
  simpl. by rewrite path_step_plain, reverse_cons by done.
Qed.

Lemma path_join_clean d f : d ≠ EmptyString → path_clean (path_join [d; f]) = path_join [d; f].
Proof. intros Hd. unfold path_join. destruct d; [done|]. apply path_clean_idemp. Qed.

Lemma str_take_no_char c n s : no_char c s = true → no_char c (str_take n s) = true.
Proof.
  revert s. induction n as [|n IH]; intros [|a s]; simpl; [done..|].
  unfold no_char. simpl. intros [-> H]%andb_prop. simpl. by apply IH.
Qed.
