(* ===== verification/GoOs.v ===== *)
(** * The file system as the package os sees it

    A tree of nodes under cleaned paths, the clock, and a fault oracle: any
    system call on any path may fail with any errno the oracle chooses, so that
    error branches other than "does not exist" are reachable.  Symbolic links
    and mounts are not part of the tree. *)
From S2P Require Import Prelude GoStrings.

Inductive fnode :=
  | Dir
  | File (data : string) (mtime : Z)
  | Sock (mtime : Z).

#[global] Instance fnode_eq_dec : EqDecision fnode.
Proof. solve_decision. Defined.

Inductive syscall :=
  | SysStat | SysMkdir | SysRemove | SysReadDir | SysWrite | SysRead | SysChown.

Record fs := Fs {
  fs_nodes : gmap cpath fnode;
  fs_group : gmap cpath Z;                          (* group ids set by chown *)
  fs_now : Z;                                       (* the clock, in seconds *)
  fs_fault : syscall → cpath → option errno
}.

Definition fs_with_nodes (f : fs) (m : gmap cpath fnode) : fs :=
  Fs m (fs_group f) (fs_now f) (fs_fault f).

(** The root and the working directory are always there. *)
Definition fs_lookup (f : fs) (p : cpath) : option fnode :=
  match cp_comps p with [] => Some Dir | _ => fs_nodes f !! p end.

Definition node_mtime (f : fs) (n : fnode) : Z :=
  match n with Dir => fs_now f | File _ t => t | Sock t => t end.

(** A system call on a path: the empty path does not exist, then the oracle,
    then the call itself. *)
Definition on_path {A} (sc : syscall) (p : string) (k : cpath → go fs A) : go fs A := λ f,
  if decide (p = EmptyString) then (Err (ErrOs ENOENT), f)
  else match fs_fault f sc (path_parse p) with
       | Some e => (Err (ErrOs e), f)
       | None => k (path_parse p) f
       end.

Definition cp_parent (p : cpath) : cpath := CPath (cp_abs p) (reverse (tail (reverse (cp_comps p)))).

(** The name under which [k] stands in the directory [d]. *)
Definition child_name (d k : cpath) : option string :=
  match reverse (cp_comps k) with
  | n :: r => if decide (cp_abs k = cp_abs d ∧ reverse r = cp_comps d) then Some n else None
  | [] => None
  end.

Definition fs_children (f : fs) (d : cpath) : list (string * fnode) :=
  omap (λ kn, (λ n, (n, kn.2)) <$> child_name d kn.1) (map_to_list (fs_nodes f)).

(** os.Stat *)
Definition os_stat (p : string) : go fs fnode :=
  on_path SysStat p (λ c f,
    match fs_lookup f c with
    | Some n => (Ok n, f)
    | None => (Err (ErrOs ENOENT), f)
    end).

(** os.Remove: a file, a socket, or an empty directory. *)
Definition os_remove (p : string) : go fs unit :=
  on_path SysRemove p (λ c f,
    match fs_lookup f c with
    | None => (Err (ErrOs ENOENT), f)
    | Some Dir =>
        match fs_children f c with
        | [] => (Ok tt, fs_with_nodes f (delete c (fs_nodes f)))
        | _ => (Err (ErrOs ENOTEMPTY), f)
        end
    | Some _ => (Ok tt, fs_with_nodes f (delete c (fs_nodes f)))
    end).

(** os.ReadDir (the entries in the order of the tree). *)
Definition os_read_dir (p : string) : go fs (list (string * fnode)) :=
  on_path SysReadDir p (λ c f,
    match fs_lookup f c with
    | Some Dir => (Ok (fs_children f c), f)
    | Some _ => (Err (ErrOs ENOTDIR), f)
    | None => (Err (ErrOs ENOENT), f)
    end).

(** The body for every element, whatever becomes of the others: the first error. *)
Fixpoint first_error {S A} (body : A → go S unit) (l : list A) : go S (option error) :=
  match l with
  | [] => mret None
  | x :: l' =>
      r ← attempt (body x);
      rest ← first_error body l';
      mret match r with inl err => Some err | inr _ => rest end
  end.

(** os.RemoveAll: a removal that works, or finds nothing, is all there is to it;
    otherwise the entries of the directory are removed, as many as can be, and then
    the directory.  [fuel] bounds the depth of the tree. *)
Fixpoint remove_tree (fuel : nat) (p : string) : go fs unit :=
  match fuel with
  | 0 => diverge
  | S n =>
      r ← attempt (os_remove p);
      match r with
      | inr _ => mret tt
      | inl err =>
          if is_not_exist err then mret tt
          else
            entries ← attempt (os_read_dir p);
            match entries with
            | inl (ErrOs ENOTDIR) => raise err
            | inl err' => if is_not_exist err' then mret tt else raise err'
            | inr es =>
                recurseErr ← first_error (λ e, remove_tree n (path_join [p; e.1])) es;
                r ← attempt (os_remove p);
                match r with
                | inr _ => mret tt
                | inl unlinkErr =>
                    if is_not_exist unlinkErr then mret tt else raise (default unlinkErr recurseErr)
                end
            end
      end
  end.

Definition os_remove_all (p : string) : go fs unit := λ f,
  if decide (p = EmptyString) then (Ok tt, f)
  else remove_tree (S (size (fs_nodes f))) p f.

Fixpoint prefixes {A} (l : list A) : list (list A) :=
  match l with
  | [] => []
  | x :: l' => [x] :: (cons x <$> prefixes l')
  end.

Fixpoint mkdir_list (ps : list cpath) (m : gmap cpath fnode) : result (gmap cpath fnode) :=
  match ps with
  | [] => inr m
  | p :: ps' =>
      match m !! p with
      | Some Dir => mkdir_list ps' m
      | Some _ => inl (ErrOs ENOTDIR)
      | None => mkdir_list ps' (<[p := Dir]> m)
      end
  end.

(** os.MkdirAll *)
Definition os_mkdir_all (p : string) : go fs unit :=
  on_path SysMkdir p (λ c f,
    match mkdir_list (CPath (cp_abs c) <$> prefixes (cp_comps c)) (fs_nodes f) with
    | inl e => (Err e, f)
    | inr m => (Ok tt, fs_with_nodes f m)
    end).

(** os.WriteFile *)
Definition os_write_file (p data : string) : go fs unit :=
  on_path SysWrite p (λ c f,
    match fs_lookup f c, fs_lookup f (cp_parent c) with
    | Some Dir, _ => (Err (ErrOs EISDIR), f)
    | _, Some Dir => (Ok tt, fs_with_nodes f (<[c := File data (fs_now f)]> (fs_nodes f)))
    | _, Some _ => (Err (ErrOs ENOTDIR), f)
    | _, None => (Err (ErrOs ENOENT), f)
    end).

(** os.ReadFile *)
Definition os_read_file (p : string) : go fs string :=
  on_path SysRead p (λ c f,
    match fs_lookup f c with
    | Some (File d _) => (Ok d, f)
    | Some Dir => (Err (ErrOs EISDIR), f)
    | Some (Sock _) => (Err (ErrOs EIO), f)
    | None => (Err (ErrOs ENOENT), f)
    end).

(** os.Chown(p, -1, gid) *)
Definition os_chgrp (p : string) (gid : Z) : go fs unit :=
  on_path SysChown p (λ c f,
    match fs_lookup f c with
    | Some _ => (Ok tt, Fs (fs_nodes f) (<[c := gid]> (fs_group f)) (fs_now f) (fs_fault f))
    | None => (Err (ErrOs ENOENT), f)
    end).

(** Make sure a directory exists, as the sources do in several places:
    [if _, err := os.Stat(dir); err != nil {
       if os.IsNotExist(err) { if err := os.MkdirAll(dir, perm) ... } else { return err } }] *)
Definition ensure_dir (dir : string) : go fs unit :=
  st ← attempt (os_stat dir);
  match st with
  | inl err => if is_not_exist err then os_mkdir_all dir else raise err
  | inr _ => mret tt
  end.

(** ** Lemmas *)

(** What a call leaves alone: the clock and the oracle. *)
Definition fs_env (f1 f2 : fs) : Prop := fs_now f1 = fs_now f2 ∧ fs_fault f1 = fs_fault f2.

#[export] Instance fs_env_preorder : PreOrder fs_env.
Proof. split; [by intros ?|]. intros ??? [] []. split; congruence. Qed.

Lemma on_path_keeps {A} (R : relation fs) `{!PreOrder R} sc p (k : cpath → go fs A) :
  (∀ c, keeps R (k c)) → keeps R (on_path sc p k).
Proof.
  intros Hk f. unfold on_path. case_decide; [done|].
  destruct (fs_fault _ _ _); [done|]. apply Hk.
Qed.

(** Calls that only look. *)
Lemma os_stat_same p f : (os_stat p f).2 = f.
Proof.
  unfold os_stat, on_path. case_decide; [done|]. destruct (fs_fault _ _ _); [done|].
  by destruct (fs_lookup _ _).
Qed.

Lemma os_read_dir_same p f : (os_read_dir p f).2 = f.
Proof.
  unfold os_read_dir, on_path. case_decide; [done|]. destruct (fs_fault _ _ _); [done|].
  by destruct (fs_lookup _ _) as [[]|].
Qed.

Lemma os_read_file_same p f : (os_read_file p f).2 = f.
Proof.
  unfold os_read_file, on_path. case_decide; [done|]. destruct (fs_fault _ _ _); [done|].
  by destruct (fs_lookup _ _) as [[]|].
Qed.

(** Removing touches at most the node of its path. *)
Lemma os_remove_other p f c :
  c ≠ path_parse p → fs_nodes (os_remove p f).2 !! c = fs_nodes f !! c.
Proof.
  intros Hc. unfold os_remove, on_path. case_decide; [done|].
  destruct (fs_fault _ _ _); [done|].
  destruct (fs_lookup _ _) as [[]|]; simpl; [destruct (fs_children _ _)|..]; simpl;
    by rewrite ?lookup_delete_ne.
Qed.

Lemma os_remove_env p : keeps fs_env (os_remove p).
Proof.
  apply on_path_keeps; [apply _|]. intros c f.
  destruct (fs_lookup _ _) as [[]|]; [destruct (fs_children _ _)|..]; done.
Qed.

Lemma os_remove_ok p f u f' :
  os_remove p f = (Ok u, f') → f' = fs_with_nodes f (delete (path_parse p) (fs_nodes f)).
Proof.
  unfold os_remove, on_path. case_decide; [done|]. destruct (fs_fault _ _ _); [done|].
  destruct (fs_lookup _ _) as [[]|]; [destruct (fs_children _ _)|..]; by intros; simplify_eq.
Qed.

Lemma os_remove_err p f e f' : os_remove p f = (Err e, f') → f' = f.
Proof.
  unfold os_remove, on_path. case_decide; [by intros [= <- <-]|].
  destruct (fs_fault _ _ _); [by intros [= <- <-]|].
  destruct (fs_lookup _ _) as [[]|]; [destruct (fs_children _ _)|..]; by intros; simplify_eq.
Qed.

Lemma os_remove_no_panic p f o f' :
  os_remove p f = (o, f') → match o with Ok _ | Err _ => True | _ => False end.
Proof.
  unfold os_remove, on_path. case_decide; [by intros [= <- <-]|].
  destruct (fs_fault _ _ _); [by intros [= <- <-]|].
  destruct (fs_lookup _ _) as [[]|]; [destruct (fs_children _ _)|..]; by intros; simplify_eq.
Qed.

(** Removing without a fault: done, or not there, or a directory in use. *)
Lemma os_remove_cases p f :
  p ≠ EmptyString → fs_fault f SysRemove (path_parse p) = None →
  (is_Some (fs_lookup f (path_parse p)) ∧
   os_remove p f = (Ok tt, fs_with_nodes f (delete (path_parse p) (fs_nodes f)))) ∨
  ((fs_lookup f (path_parse p) = None ∨
    fs_lookup f (path_parse p) = Some Dir ∧ fs_children f (path_parse p) ≠ []) ∧
   ∃ e, os_remove p f = (Err e, f)).
Proof.
  intros Hp Hnf. unfold os_remove, on_path. rewrite decide_False, Hnf by done.
  destruct (fs_lookup f (path_parse p)) as [[]|]; [|by left..|].
  - destruct (fs_children _ _); [by left|right]. split; [by right|by eexists].
  - right. split; [by left|by eexists].
Qed.

(** A regular file or socket is removed unless the oracle objects. *)
Lemma os_remove_file p f n :
  p ≠ EmptyString → fs_fault f SysRemove (path_parse p) = None →
  fs_lookup f (path_parse p) = Some n → n ≠ Dir →
  os_remove p f = (Ok tt, fs_with_nodes f (delete (path_parse p) (fs_nodes f))).
Proof.
  intros Hp Hf Hl Hn. unfold os_remove, on_path. rewrite decide_False, Hf, Hl by done.
  by destruct n.
Qed.

Lemma child_name_spec d k n :
  child_name d k = Some n ↔ k = CPath (cp_abs d) (cp_comps d ++ [n]).
Proof.
  unfold child_name. destruct k as [ka kc]. simpl. split.
  - destruct (reverse kc) as [|m r] eqn:E; [done|]. case_decide as H; [|done].
    intros [= <-]. destruct H as [-> <-].
    rewrite <- (reverse_involutive kc), E, reverse_cons. done.
  - intros [= -> ->]. rewrite reverse_app. simpl. rewrite decide_True; [done|].
    by rewrite reverse_involutive.
Qed.

Lemma elem_of_children f d n x :
  (n, x) ∈ fs_children f d ↔ fs_nodes f !! CPath (cp_abs d) (cp_comps d ++ [n]) = Some x.
Proof.
  unfold fs_children. rewrite list_elem_of_omap. split.
  - intros ([k y] & Hk & Hy). apply elem_of_map_to_list in Hk. simpl in Hy.
    destruct (child_name d k) as [m|] eqn:E; simplify_eq/=.
    by apply child_name_spec in E as ->.
  - intros Hx. exists (CPath (cp_abs d) (cp_comps d ++ [n]), x).
    split; [by apply elem_of_map_to_list|]. simpl.
    by rewrite (proj2 (child_name_spec _ _ n)).
Qed.

Lemma ensure_dir_env dir : keeps fs_env (ensure_dir dir).
Proof.
  apply keeps_bind; [apply _| |].
  - apply keeps_attempt. intros f. by rewrite os_stat_same.
  - intros [e|n]; [|by apply keeps_ret, _]. destruct (is_not_exist e); [|by apply keeps_raise, _].
    apply on_path_keeps; [apply _|]. intros c f. by destruct (mkdir_list _ _).
Qed.

(** A write that succeeds puts the file there. *)
Lemma os_write_file_ok p data f f' :
  os_write_file p data f = (Ok tt, f') →
  f' = fs_with_nodes f (<[path_parse p := File data (fs_now f)]> (fs_nodes f)).
Proof.
  unfold os_write_file, on_path. case_decide; [done|]. destruct (fs_fault f SysWrite _); [done|].
  destruct (fs_lookup f _) as [[]|]; intros; simplify_eq;
    destruct (fs_lookup f (cp_parent _)) as [[]|]; by simplify_eq.
Qed.

Lemma fs_lookup_insert f c n :
  cp_comps c ≠ [] → fs_lookup (fs_with_nodes f (<[c := n]> (fs_nodes f))) c = Some n.
Proof.
  intros Hc. unfold fs_lookup. simpl. destruct (cp_comps c) eqn:E; [done|].
  by rewrite lookup_insert_eq.
Qed.

Lemma fs_lookup_delete f c :
  cp_comps c ≠ [] → fs_lookup (fs_with_nodes f (delete c (fs_nodes f))) c = None.
Proof.
  intros Hc. unfold fs_lookup. simpl. destruct (cp_comps c) eqn:E; [done|].
  by rewrite lookup_delete_eq.
Qed.

Lemma path_parse_empty : cp_comps (path_parse EmptyString) = [].
Proof. done. Qed.

Lemma os_read_file_lookup p f data t :
  p ≠ EmptyString → fs_fault f SysRead (path_parse p) = None →
  fs_lookup f (path_parse p) = Some (File data t) → os_read_file p f = (Ok data, f).
Proof. intros Hp Hf Hl. unfold os_read_file, on_path. by rewrite decide_False, Hf, Hl. Qed.

Lemma os_stat_lookup p f n :
  p ≠ EmptyString → fs_fault f SysStat (path_parse p) = None →
  fs_lookup f (path_parse p) = Some n → os_stat p f = (Ok n, f).
Proof. intros Hp Hf Hl. unfold os_stat, on_path. by rewrite decide_False, Hf, Hl. Qed.

Lemma os_write_file_read p data f f' :
  os_write_file p data f = (Ok tt, f') →
  cp_comps (path_parse p) ≠ [] → fs_fault f SysRead (path_parse p) = None →
  os_read_file p f' = (Ok data, f').
Proof.
  intros ->%os_write_file_ok Hc Hnf. eapply os_read_file_lookup; [by intros ->|done|].
  by apply fs_lookup_insert.
Qed.

(** ** os.Rename *)

(** The path [c] below [src] moved below [dst]. *)
Definition move_path (src dst c : cpath) : cpath :=
  if decide (cp_abs c = cp_abs src ∧ take (length (cp_comps src)) (cp_comps c) = cp_comps src)
  then CPath (cp_abs dst) (cp_comps dst ++ drop (length (cp_comps src)) (cp_comps c))
  else c.

Definition move_tree (src dst : cpath) (m : gmap cpath fnode) : gmap cpath fnode :=
  list_to_map ((λ kn, (move_path src dst kn.1, kn.2)) <$> map_to_list (delete dst m)).

(** A file or socket replaces what is at the new name unless that is a directory;
    a directory moves with its contents to a name that is free. *)
Definition os_rename (old new : string) : go fs unit :=
  on_path SysRemove old (λ src, on_path SysWrite new (λ dst f,
    match fs_lookup f src, fs_lookup f (cp_parent dst), fs_lookup f dst with
    | None, _, _ => (Err (ErrOs ENOENT), f)
    | _, None, _ => (Err (ErrOs ENOENT), f)
    | _, Some (File _ _), _ | _, Some (Sock _), _ => (Err (ErrOs ENOTDIR), f)
    | _, _, Some Dir => (Err (ErrOs EEXIST), f)
    | Some Dir, _, Some _ => (Err (ErrOs ENOTDIR), f)
    | Some Dir, _, None =>
        if decide (move_path src dst (cp_parent dst) = cp_parent dst)
        then (Ok tt, fs_with_nodes f (move_tree src dst (fs_nodes f)))
        else (Err (ErrOs EIO), f)
    | Some n, _, _ =>
        (Ok tt, fs_with_nodes f (<[dst := n]> (delete src (fs_nodes f))))
    end)).
