(* ===== verification/Total.v ===== *)
(** * Calls that return

    Total correctness for the monad of the model: from every state of [P] the call
    returns, a value or (where it may) an error, never a panic and never a loop
    without end, and leaves a state of [Q].  The rules follow the code; the calls of
    the file system all return. *)
From S2P Require Import Prelude GoStrings GoOs.

(** [may_fail] says whether an error is a way to return. *)
Definition returns {A} (may_fail : Prop) (o : outcome A) : Prop :=
  match o with Ok _ => True | Err _ => may_fail | _ => False end.

Definition total {S A} (may_fail : Prop) (P : S → Prop) (m : go S A) (Q : S → Prop) : Prop :=
  ∀ s, P s → returns may_fail (m s).1 ∧ Q (m s).2.

(** A call that leaves the condition it started from. *)
Notation settles P m := (total True P m P).

Section Rules.
Context {S : Type}.
Implicit Types (P Q R : S → Prop) (E : Prop).

Lemma total_weaken {A} E P P' (m : go S A) Q Q' :
  total E P m Q → (∀ s, P' s → P s) → (∀ s, Q s → Q' s) → total E P' m Q'.
Proof. intros Hm HP HQ s [Hr Hq]%HP%Hm. auto. Qed.

Lemma total_may_fail {A} E P (m : go S A) Q : total False P m Q → total E P m Q.
Proof. intros Hm s [Hr Hq]%Hm. split; [|done]. by destruct (m s).1. Qed.

Lemma total_ret {A} E P (a : A) : total E P (mret a) P.
Proof. by intros s. Qed.
Lemma total_raise {A} P e : total True P (raise e : go S A) P.
Proof. by intros s. Qed.
Lemma total_gets {A} E P (f : S → A) : total E P (gets f) P.
Proof. by intros s. Qed.
Lemma total_of_result {A} P (r : result A) : total True P (of_result r : go S A) P.
Proof. by destruct r. Qed.

Lemma total_bind {A B} E P (m : go S A) Q (f : A → go S B) R :
  total E P m Q → (∀ a, total E Q (f a) R) → (E → ∀ s, Q s → R s) → total E P (m ≫= f) R.
Proof.
  intros Hm Hf HE s Hs. rewrite run_bind. destruct (Hm s Hs) as [Hr Hq].
  destruct (m s) as [[a|e|w|] s']; simpl in *; [by apply Hf|auto|done..].
Qed.

Lemma settles_bind {A B} P (m : go S A) (f : A → go S B) :
  settles P m → (∀ a, settles P (f a)) → settles P (m ≫= f).
Proof. intros Hm Hf. by eapply total_bind. Qed.

Lemma never_fails_bind {A B} P (m : go S A) Q (f : A → go S B) R :
  total False P m Q → (∀ a, total False Q (f a) R) → total False P (m ≫= f) R.
Proof. intros Hm Hf. by eapply total_bind. Qed.

Lemma total_attempt {A} P (m : go S A) Q E : total True P m Q → total E P (attempt m) Q.
Proof.
  intros Hm s Hs. rewrite run_attempt. destruct (Hm s Hs) as [Hr Hq].
  by destruct (m s) as [[a|e|w|] s'].
Qed.

Lemma total_wrap_err {A} E P msg (m : go S A) Q : total E P m Q → total E P (wrap_err msg m) Q.
Proof.
  intros Hm s Hs. unfold wrap_err. destruct (Hm s Hs) as [Hr Hq].
  by destruct (m s) as [[a|e|w|] s'].
Qed.

Lemma total_ignore_err P (m : go S unit) Q E : total True P m Q → total E P (ignore_err m) Q.
Proof.
  intros Hm s Hs. unfold ignore_err. rewrite run_bind, run_attempt. destruct (Hm s Hs) as [Hr Hq].
  by destruct (m s) as [[a|e|w|] s'].
Qed.

Lemma total_with_defer {A} E P (m : go S A) g Q :
  total E P m Q → (∀ s, Q s → Q (g s)) → total E P (with_defer m g) Q.
Proof.
  intros Hm Hg s Hs. unfold with_defer. destruct (Hm s Hs) as [Hr Hq].
  destruct (m s) as [[a|e|w|] s']; simpl in *; auto.
Qed.

Lemma total_slice {A} E P n t (f : string → go S A) Q :
  n ≤ String.length t → total E P (f (str_take n t)) Q → total E P (slice_to n t ≫= f) Q.
Proof. intros Hn Hf s Hs. rewrite run_bind. unfold slice_to. rewrite decide_True by done. by apply Hf. Qed.
End Rules.

(** A part of a state, when the condition is about another part. *)
Lemma total_on_snd {S T A} E (P : S * T → Prop) (m : go T A) :
  total E (λ _, True) m (λ _, True) → (∀ s t, P s → P (s.1, t)) → total E P (on_snd m) P.
Proof.
  intros Hm HP s Hs. unfold on_snd. destruct (Hm s.2 I) as [Hr _].
  destruct (m s.2) as [o t]. split; [done|]. by apply HP.
Qed.

Lemma total_on_fst {S T A} E (P : S * T → Prop) (m : go S A) :
  total E (λ _, True) m (λ _, True) → (∀ s t, P s → P (t, s.2)) → total E P (on_fst m) P.
Proof.
  intros Hm HP s Hs. unfold on_fst. destruct (Hm s.1 I) as [Hr _].
  destruct (m s.1) as [o t]. split; [done|]. by apply HP.
Qed.

(** The part the condition is about. *)
Lemma total_in_snd {S T A} E (P : T → Prop) (m : go T A) Q :
  total E P m Q → total E (λ s : S * T, P s.2) (on_snd m) (λ s, Q s.2).
Proof. intros Hm s Hs. unfold on_snd. destruct (Hm s.2 Hs). by destruct (m s.2). Qed.

Lemma total_in_fst {S T A} E (P : S → Prop) (m : go S A) Q :
  total E P m Q → total E (λ s : S * T, P s.1) (on_fst m) (λ s, Q s.1).
Proof. intros Hm s Hs. unfold on_fst. destruct (Hm s.1 Hs). by destruct (m s.1). Qed.

Create HintDb total_db.
#[export] Hint Resolve total_ret total_raise total_gets total_of_result settles_bind
  total_attempt total_wrap_err total_ignore_err : total_db.

(** ** The file system *)

(** Nothing is asked of the files. *)
Notation always := (λ _, True).

Lemma total_on_path {A} sc p (k : cpath → go fs A) :
  (∀ c, settles always (k c)) → settles always (on_path sc p k).
Proof.
  intros Hk f _. unfold on_path. case_decide; [done|]. destruct (fs_fault _ _ _); [done|]. by apply Hk.
Qed.

Lemma os_stat_total p : settles always (os_stat p).
Proof. apply total_on_path. intros c f _. by destruct (fs_lookup _ _). Qed.
Lemma os_remove_total p : settles always (os_remove p).
Proof.
  apply total_on_path. intros c f _. destruct (fs_lookup _ _) as [[]|]; [|done..].
  by destruct (fs_children _ _).
Qed.
Lemma os_read_dir_total p : settles always (os_read_dir p).
Proof. apply total_on_path. intros c f _. by destruct (fs_lookup _ _) as [[]|]. Qed.
Lemma os_mkdir_all_total p : settles always (os_mkdir_all p).
Proof. apply total_on_path. intros c f _. by destruct (mkdir_list _ _). Qed.
Lemma os_read_file_total p : settles always (os_read_file p).
Proof. apply total_on_path. intros c f _. by destruct (fs_lookup _ _) as [[]|]. Qed.
Lemma os_write_file_total p data : settles always (os_write_file p data).
Proof.
  apply total_on_path. intros c f _.
  by destruct (fs_lookup f c) as [[]|], (fs_lookup f (cp_parent c)) as [[]|].
Qed.
Lemma os_chgrp_total p gid : settles always (os_chgrp p gid).
Proof. apply total_on_path. intros c f _. by destruct (fs_lookup _ _). Qed.
#[export] Hint Resolve os_stat_total os_remove_total os_read_dir_total os_mkdir_all_total
  os_read_file_total os_write_file_total os_chgrp_total : total_db.

Lemma ensure_dir_total dir : settles always (ensure_dir dir).
Proof.
  apply settles_bind; [auto with total_db|]. intros [e|n]; [|auto with total_db].
  destruct (is_not_exist e); auto with total_db.
Qed.
#[export] Hint Resolve ensure_dir_total : total_db.
