(* ===== verification/GoRegexp.v ===== *)
(** * regexp.MatchString on the patterns the program builds

    The program appends a star to a file name and matches other names against
    it.  The syntax below is what a name can bring into such a pattern without
    being a metacharacter: bytes that stand for themselves, the dot, and stars.
    Patterns with other metacharacters, and texts that are not ASCII, are left to
    the argument [match_other]. *)
From S2P Require Import Prelude GoStrings.

Inductive atom := Lit (a : ascii) | AnyChar.

#[global] Instance atom_eq_dec : EqDecision atom.
Proof. solve_decision. Defined.

Definition star : ascii := "*".

(** The bytes with another meaning: \ + ? ( ) [ ] { } | ^ $ *)
Definition is_meta (a : ascii) : bool :=
  existsb (byte_is a) [92; 43; 63; 40; 41; 91; 93; 123; 125; 124; 94; 36].

Definition is_ascii (a : ascii) : bool := bool_decide (nat_of_ascii a < 128).

Definition simple_pattern (pat : string) : bool :=
  str_all (λ a, is_ascii a && negb (is_meta a)) pat.

Definition atom_of (a : ascii) : atom := if decide (a = "."%char) then AnyChar else Lit a.

(** Atoms with or without a star; [None] for a star with nothing to repeat, or a
    doubled one, which MatchString reports as an error. *)
Fixpoint parse_pattern (pat : string) : option (list (atom * bool)) :=
  match pat with
  | EmptyString => Some []
  | String a rest =>
      if decide (a = star) then None
      else
        match rest with
        | String b rest' =>
            if decide (b = star) then
              match rest' with
              | String c _ => if decide (c = star) then None
                              else (λ l, (atom_of a, true) :: l) <$> parse_pattern rest'
              | EmptyString => Some [(atom_of a, true)]
              end
            else (λ l, (atom_of a, false) :: l) <$> parse_pattern rest
        | EmptyString => Some [(atom_of a, false)]
        end
  end.

(** The dot does not match a newline. *)
Definition atom_matches (t : atom) (a : ascii) : bool :=
  match t with Lit b => bool_decide (a = b) | AnyChar => negb (byte_is a 10) end.

(** A match that starts at the front. *)
Fixpoint match_here (l : list (atom * bool)) : string → bool :=
  match l with
  | [] => λ _, true
  | (t, false) :: l' => λ s,
      match s with String a s' => atom_matches t a && match_here l' s' | EmptyString => false end
  | (t, true) :: l' =>
      fix match_star (s : string) : bool :=
        match_here l' s ||
        match s with String a s' => atom_matches t a && match_star s' | EmptyString => false end
  end.

(** A match anywhere. *)
Fixpoint match_anywhere (l : list (atom * bool)) (s : string) : bool :=
  match_here l s ||
  match s with String _ s' => match_anywhere l s' | EmptyString => false end.

Section Regexp.
Variable match_other : string → string → bool.

(** [match, _ := regexp.MatchString(pat, s)]: no match when [pat] is not a pattern. *)
Definition regexp_match (pat s : string) : bool :=
  if simple_pattern pat && str_all is_ascii s then
    match parse_pattern pat with
    | Some l => match_anywhere l s
    | None => false
    end
  else match_other pat s.
End Regexp.

(** ** A name with a star appended *)

(** A byte that stands for itself. *)
Definition plain_byte (a : ascii) : bool :=
  is_ascii a && negb (is_meta a) && negb (bool_decide (a = star)) && negb (bool_decide (a = "."%char)).

Fixpoint literals (s : string) : list (atom * bool) :=
  match s with
  | EmptyString => []
  | String a s' => (Lit a, false) :: literals s'
  end.

Lemma plain_byte_spec a :
  plain_byte a = true → is_ascii a = true ∧ is_meta a = false ∧ a ≠ star ∧ a ≠ "."%char.
Proof.
  unfold plain_byte. rewrite !andb_true_iff, !negb_true_iff, !bool_decide_eq_false. tauto.
Qed.

Lemma plain_simple s : str_all plain_byte s = true → simple_pattern (s +:+ "*") = true.
Proof.
  unfold simple_pattern. rewrite str_all_app. intros Hs. rewrite andb_true_iff. split; [|done].
  induction s as [|a s IH]; [done|]. simpl in *. apply andb_prop in Hs as [Ha Hs].
  apply plain_byte_spec in Ha as (-> & -> & _). by rewrite IH.
Qed.

Lemma parse_plain_star s a :
  str_all plain_byte (s +:+ String a EmptyString) = true →
  parse_pattern (s +:+ String a (String star EmptyString)) = Some (literals s ++ [(Lit a, true)]).
Proof.
  induction s as [|b s IH]; intros Hall.
  - simpl in *. rewrite andb_true_r in Hall. apply plain_byte_spec in Hall as (_ & _ & Hs & Hd).
    rewrite decide_False by done. unfold atom_of. by rewrite decide_False.
  - simpl in Hall. apply andb_prop in Hall as [Hb Hall]. apply plain_byte_spec in Hb as (_ & _ & Hs & Hd).
    specialize (IH Hall). simpl. rewrite decide_False by done.
    assert (∃ c r, s +:+ String a (String star EmptyString) = String c r ∧ c ≠ star) as (c & r & Hcr & Hc).
    { destruct s as [|c s]; simpl in *.
      - rewrite andb_true_r in Hall. apply plain_byte_spec in Hall as (_ & _ & ? & _). by eexists _, _.
      - apply andb_prop in Hall as [Hc _]. apply plain_byte_spec in Hc as (_ & _ & ? & _). by eexists _, _. }
    rewrite Hcr in IH |- *. rewrite decide_False by done. rewrite IH. simpl.
    unfold atom_of. by rewrite decide_False.
Qed.

Lemma match_here_literals s l t :
  match_here (literals s ++ l) t = true ↔ ∃ u, t = s +:+ u ∧ match_here l u = true.
Proof.
  revert t. induction s as [|a s IH]; intros t; simpl.
  - split; [by exists t|]. by intros (u & -> & ?).
  - destruct t as [|b t]; [split; [done|by intros (u & [=] & _)]|].
    rewrite andb_true_iff, bool_decide_eq_true, IH. split.
    + intros [-> (u & -> & Hu)]. by exists u.
    + intros (u & [= -> ->] & Hu). split; [done|]. by exists u.
Qed.

Lemma match_anywhere_spec l t :
  match_anywhere l t = true ↔ ∃ p u, t = p +:+ u ∧ match_here l u = true.
Proof.
  induction t as [|a t IH]; simpl; rewrite orb_true_iff.
  - split; [intros [?|?]; [by exists EmptyString, EmptyString|done]|].
    intros (p & u & Heq & Hu). destruct p; [|done]. simpl in Heq. subst u. by left.
  - rewrite IH. split.
    + intros [?|(p & u & -> & Hu)]; [by exists EmptyString, (String a t)|].
      by exists (String a p), u.
    + intros (p & u & Heq & Hu). destruct p as [|b p]; simpl in Heq.
      * subst u. by left.
      * injection Heq as -> ->. right. by exists p, u.
Qed.

(** The star repeats only the last byte, and the match is not anchored: the
    pattern made of a name matches every text that contains the name less its last
    byte. *)
Lemma regexp_match_name match_other s a t :
  str_all plain_byte (s +:+ String a EmptyString) = true → str_all is_ascii t = true →
  regexp_match match_other ((s +:+ String a EmptyString) +:+ "*") t = true ↔
  ∃ p u, t = p +:+ s +:+ u.
Proof.
  intros Hs Ht. unfold regexp_match. rewrite plain_simple, Ht by done. cbn [andb].
  rewrite str_app_assoc. cbn [String.append]. rewrite parse_plain_star by done.
  rewrite match_anywhere_spec. split.
  - intros (p & u & -> & (v & -> & _)%match_here_literals). by exists p, v.
  - intros (p & u & ->). exists p, (s +:+ u). split; [done|]. apply match_here_literals.
    exists u. split; [done|]. by destruct u.
Qed.
