(* ===== verification/Json.v ===== *)
(** * encoding/json, as far as the sources use it

    Texts, values, and the two directions between them: [json_parse] reads a
    text the way Unmarshal does before it fills a variable in (the grammar, the
    escapes, the replacement of invalid UTF-8), [json_print] and [json_indent]
    write one as Marshal and MarshalIndent do.  [renders] is the grammar both
    writers stay in; everything in it is read back.  Go's limit on the nesting
    depth (10000) is not modelled.  File JsonCodec fills structs. *)
From S2P Require Import Prelude GoStrings.

#[warnings="-register-all"]
Inductive json :=
  | JNull
  | JBool (b : bool)
  | JNum (lit : string)
  | JStr (s : string)
  | JArr (l : list json)
  | JObj (l : list (string * json)).

Section JsonInd.
Variable P : json → Prop.
Hypothesis Hnull : P JNull.
Hypothesis Hbool : ∀ b, P (JBool b).
Hypothesis Hnum : ∀ n, P (JNum n).
Hypothesis Hstr : ∀ s, P (JStr s).
Hypothesis Harr : ∀ l, Forall P l → P (JArr l).
Hypothesis Hobj : ∀ l, Forall (λ kv, P kv.2) l → P (JObj l).

Fixpoint json_ind' (j : json) : P j :=
  match j with
  | JNull => Hnull
  | JBool b => Hbool b
  | JNum n => Hnum n
  | JStr s => Hstr s
  | JArr l => Harr l ((fix go l : Forall P l :=
      match l with [] => Forall_nil_2 _ | x :: l' => Forall_cons_2 _ _ _ (json_ind' x) (go l') end) l)
  | JObj l => Hobj l ((fix go l : Forall (λ kv, P kv.2) l :=
      match l with
      | [] => Forall_nil_2 _
      | kv :: l' => Forall_cons_2 _ _ _ (json_ind' kv.2) (go l')
      end) l)
  end.
End JsonInd.

(** ** Characters *)

Definition byte (a : ascii) : nat := nat_of_ascii a.
Definition chr (n : nat) : ascii := ascii_of_nat n.
Definition quote : ascii := chr 34.
Definition backslash : ascii := chr 92.

Definition is_ws (a : ascii) : bool := existsb (Nat.eqb (byte a)) [32; 9; 10; 13].
Definition is_digit (a : ascii) : bool := (48 <=? byte a)%nat && (byte a <=? 57)%nat.

Definition hex_digit (n : nat) : ascii := if (n <? 10)%nat then chr (48 + n) else chr (87 + n).
Definition hex_value (a : ascii) : option nat :=
  let n := byte a in
  if is_digit a then Some (n - 48)
  else if (97 <=? n)%nat && (n <=? 102)%nat then Some (n - 87)
  else if (65 <=? n)%nat && (n <=? 70)%nat then Some (n - 55)
  else None.

(** *** UTF-8 (unicode/utf8): the sequences DecodeRune accepts *)
Definition cont (a : ascii) : bool := (128 <=? byte a)%nat && (byte a <=? 191)%nat.
Definition between (lo hi : nat) (a : ascii) : bool := (lo <=? byte a)%nat && (byte a <=? hi)%nat.
Definition ascii7 (a : ascii) : bool := (byte a <? 128)%nat.
Definition rune2 (a b : ascii) : bool := between 194 223 a && cont b.
Definition rune3 (a b c : ascii) : bool :=
  cont c &&
  (byte_is a 224 && between 160 191 b || (between 225 236 a || between 238 239 a) && cont b ||
   byte_is a 237 && between 128 159 b).
Definition rune4 (a b c d : ascii) : bool :=
  cont c && cont d &&
  (byte_is a 240 && between 144 191 b || between 241 243 a && cont b ||
   byte_is a 244 && between 128 143 b).

(** The replacement character, U+FFFD. *)
Definition replacement : string := byte_str [239; 191; 189].

Definition nstr (l : list N) : string :=
  fold_right (λ n s, String (ascii_of_N n) s) EmptyString l.

(** utf8.AppendRune, for a code point that is not a surrogate. *)
Definition utf8_encode (n : N) : string :=
  if (n <? 128)%N then nstr [n]
  else if (n <? 2048)%N then nstr [192 + n / 64; 128 + n mod 64]%N
  else if (n <? 65536)%N then nstr [224 + n / 4096; 128 + n / 64 mod 64; 128 + n mod 64]%N
  else nstr [240 + n / 262144; 128 + n / 4096 mod 64; 128 + n / 64 mod 64; 128 + n mod 64]%N.

(** ** Writing strings (encodeState.string with HTML escaping, as Marshal does) *)

Definition u00 (n : nat) : string :=
  "\u00" +:+ String (hex_digit (n / 16)) (String (hex_digit (n mod 16)) EmptyString).

Definition esc (a : ascii) : string := String backslash (String a EmptyString).

Definition encode_ascii (a : ascii) : string :=
  let n := byte a in
  if (n =? 34)%nat || (n =? 92)%nat then esc a
  else if (n =? 8)%nat then esc "b"
  else if (n =? 12)%nat then esc "f"
  else if (n =? 10)%nat then esc "n"
  else if (n =? 13)%nat then esc "r"
  else if (n =? 9)%nat then esc "t"
  else if (n <? 32)%nat || (n =? 60)%nat || (n =? 62)%nat || (n =? 38)%nat then u00 n
  else String a EmptyString.

(** A three-byte rune: U+2028 and U+2029 are escaped. *)
Definition encode3 (a b c : ascii) : string :=
  if byte_is a 226 && byte_is b 128 && byte_is c 168 then "\u2028"
  else if byte_is a 226 && byte_is b 128 && byte_is c 169 then "\u2029"
  else String a (String b (String c EmptyString)).

Fixpoint encode_body (s : string) : string :=
  match s with
  | EmptyString => EmptyString
  | String a s1 =>
      if ascii7 a then encode_ascii a +:+ encode_body s1
      else match s1 with
      | String b s2 =>
          if rune2 a b then String a (String b (encode_body s2))
          else match s2 with
          | String c s3 =>
              if rune3 a b c then encode3 a b c +:+ encode_body s3
              else match s3 with
              | String d s4 =>
                  if rune4 a b c d
                  then String a (String b (String c (String d (encode_body s4))))
                  else "\ufffd" +:+ encode_body s1
              | EmptyString => "\ufffd" +:+ encode_body s1
              end
          | EmptyString => "\ufffd" +:+ encode_body s1
          end
      | EmptyString => "\ufffd" +:+ encode_body s1
      end
  end.

Definition encode_string (s : string) : string :=
  String quote (encode_body s +:+ String quote EmptyString).

(** ** Reading strings (unquote) *)

Definition prepend (w : string) (r : option (string * string)) : option (string * string) :=
  (λ p, (w +:+ p.1, p.2)) <$> r.

Definition unescape (e : ascii) : option ascii :=
  let n := byte e in
  if (n =? 34)%nat || (n =? 92)%nat || (n =? 47)%nat then Some e
  else if (n =? 98)%nat then Some (chr 8)
  else if (n =? 102)%nat then Some (chr 12)
  else if (n =? 110)%nat then Some (chr 10)
  else if (n =? 114)%nat then Some (chr 13)
  else if (n =? 116)%nat then Some (chr 9)
  else None.

Definition hex4 (a b c d : ascii) : option N :=
  match hex_value a, hex_value b, hex_value c, hex_value d with
  | Some x, Some y, Some z, Some w =>
      Some (N.of_nat x * 4096 + N.of_nat y * 256 + N.of_nat z * 16 + N.of_nat w)%N
  | _, _, _, _ => None
  end.

Definition high_surrogate (n : N) : bool := (55296 <=? n)%N && (n <? 56320)%N.
Definition low_surrogate (n : N) : bool := (56320 <=? n)%N && (n <? 57344)%N.
Definition combine_surrogates (hi lo : N) : N := ((hi - 55296) * 1024 + (lo - 56320) + 65536)%N.

(** The bytes of a string after its opening quote: the string and the rest of
    the text after the closing quote. *)
Fixpoint parse_body (s : string) : option (string * string) :=
  match s with
  | EmptyString => None
  | String a s1 =>
      if (byte a =? 34)%nat then Some (EmptyString, s1)
      else if (byte a =? 92)%nat then
        match s1 with
        | EmptyString => None
        | String e s2 =>
            if (byte e =? 117)%nat then
              match s2 with
              | String h1 (String h2 (String h3 (String h4 s6))) =>
                  match hex4 h1 h2 h3 h4 with
                  | None => None
                  | Some n =>
                      if high_surrogate n then
                        match s6 with
                        | String b (String u (String k1 (String k2 (String k3 (String k4 s12))))) =>
                            match hex4 k1 k2 k3 k4 with
                            | Some m =>
                                if (byte b =? 92)%nat && (byte u =? 117)%nat && low_surrogate m
                                then prepend (utf8_encode (combine_surrogates n m)) (parse_body s12)
                                else prepend replacement (parse_body s6)
                            | None => prepend replacement (parse_body s6)
                            end
                        | _ => prepend replacement (parse_body s6)
                        end
                      else if low_surrogate n then prepend replacement (parse_body s6)
                      else prepend (utf8_encode n) (parse_body s6)
                  end
              | _ => None
              end
            else
              match unescape e with
              | Some c => prepend (String c EmptyString) (parse_body s2)
              | None => None
              end
        end
      else if (byte a <? 32)%nat then None
      else if ascii7 a then prepend (String a EmptyString) (parse_body s1)
      else match s1 with
      | String b s2 =>
          if rune2 a b then prepend (String a (String b EmptyString)) (parse_body s2)
          else match s2 with
          | String c s3 =>
              if rune3 a b c
              then prepend (String a (String b (String c EmptyString))) (parse_body s3)
              else match s3 with
              | String d s4 =>
                  if rune4 a b c d
                  then prepend (String a (String b (String c (String d EmptyString)))) (parse_body s4)
                  else prepend replacement (parse_body s1)
              | EmptyString => prepend replacement (parse_body s1)
              end
          | EmptyString => prepend replacement (parse_body s1)
          end
      | EmptyString => prepend replacement (parse_body s1)
      end
  end.

(** ** Reading numbers *)

Fixpoint span_digits (s : string) : string * string :=
  match s with
  | String a s' =>
      if is_digit a then let '(d, r) := span_digits s' in (String a d, r)
      else (EmptyString, s)
  | EmptyString => (EmptyString, EmptyString)
  end.

(** digits, at least one *)
Definition digits1 (s : string) : option (string * string) :=
  match span_digits s with
  | (EmptyString, _) => None
  | p => Some p
  end.

Definition num_int (s : string) : option (string * string) :=
  match s with
  | String a s' =>
      if (byte a =? 48)%nat then Some (String a EmptyString, s')
      else digits1 s
  | EmptyString => None
  end.

Definition num_frac (s : string) : option (string * string) :=
  match s with
  | String a s' =>
      if (byte a =? 46)%nat then (λ p, (String a p.1, p.2)) <$> digits1 s'
      else Some (EmptyString, s)
  | EmptyString => Some (EmptyString, EmptyString)
  end.

Definition num_exp (s : string) : option (string * string) :=
  match s with
  | String a s' =>
      if (byte a =? 101)%nat || (byte a =? 69)%nat then
        match s' with
        | String g s'' =>
            if (byte g =? 43)%nat || (byte g =? 45)%nat
            then (λ p, (String a (String g p.1), p.2)) <$> digits1 s''
            else (λ p, (String a p.1, p.2)) <$> digits1 s'
        | EmptyString => None
        end
      else Some (EmptyString, s)
  | EmptyString => Some (EmptyString, EmptyString)
  end.

Definition parse_number (s : string) : option (string * string) :=
  let '(sign, s0) := match s with
    | String a s' => if (byte a =? 45)%nat then (String a EmptyString, s') else (EmptyString, s)
    | EmptyString => (EmptyString, EmptyString)
    end in
  p1 ← num_int s0;
  p2 ← num_frac p1.2;
  p3 ← num_exp p2.2;
  Some (sign +:+ p1.1 +:+ p2.1 +:+ p3.1, p3.2).

(** ** Reading values *)

Fixpoint skip_ws (s : string) : string :=
  match s with
  | String a s' => if is_ws a then skip_ws s' else s
  | EmptyString => EmptyString
  end.

Definition literal (w : string) (j : json) (s : string) : option (json * string) :=
  if has_prefix w s then Some (j, str_drop (String.length w) s) else None.

(** One character, after white space. *)
Definition expect (n : nat) (s : string) : option string :=
  match skip_ws s with
  | String a s' => if (byte a =? n)%nat then Some s' else None
  | EmptyString => None
  end.

Fixpoint parse_value (fuel : nat) (s : string) : option (json * string) :=
  match fuel with
  | 0 => None
  | S f =>
      match skip_ws s with
      | EmptyString => None
      | String a s' =>
          if (byte a =? 34)%nat then (λ p, (JStr p.1, p.2)) <$> parse_body s'
          else if (byte a =? 91)%nat then
            match expect 93 s' with
            | Some r => Some (JArr [], r)
            | None => (λ p, (JArr p.1, p.2)) <$> parse_elems f s'
            end
          else if (byte a =? 123)%nat then
            match expect 125 s' with
            | Some r => Some (JObj [], r)
            | None => (λ p, (JObj p.1, p.2)) <$> parse_members f s'
            end
          else if (byte a =? 110)%nat then literal "null" JNull (String a s')
          else if (byte a =? 116)%nat then literal "true" (JBool true) (String a s')
          else if (byte a =? 102)%nat then literal "false" (JBool false) (String a s')
          else (λ p, (JNum p.1, p.2)) <$> parse_number (String a s')
      end
  end
with parse_elems (fuel : nat) (s : string) : option (list json * string) :=
  match fuel with
  | 0 => None
  | S f =>
      match parse_value f s with
      | None => None
      | Some (j, r) =>
          match expect 93 r with
          | Some r' => Some ([j], r')
          | None =>
              match expect 44 r with
              | Some r' => (λ p, (j :: p.1, p.2)) <$> parse_elems f r'
              | None => None
              end
          end
      end
  end
with parse_members (fuel : nat) (s : string) : option (list (string * json) * string) :=
  match fuel with
  | 0 => None
  | S f =>
      match expect 34 s with
      | None => None
      | Some s1 =>
          match parse_body s1 with
          | None => None
          | Some (k, s2) =>
              match expect 58 s2 with
              | None => None
              | Some s3 =>
                  match parse_value f s3 with
                  | None => None
                  | Some (j, r) =>
                      match expect 125 r with
                      | Some r' => Some ([(k, j)], r')
                      | None =>
                          match expect 44 r with
                          | Some r' => (λ p, ((k, j) :: p.1, p.2)) <$> parse_members f r'
                          | None => None
                          end
                      end
                  end
              end
          end
      end
  end.

(** A whole text: one value and white space around it. *)
Definition json_parse (s : string) : option json :=
  match parse_value (S (2 * String.length s)) s with
  | Some (j, r) => if decide (skip_ws r = EmptyString) then Some j else None
  | None => None
  end.

(** ** Writing values *)

(** Marshal *)
Fixpoint json_print (j : json) : string :=
  match j with
  | JNull => "null"
  | JBool true => "true"
  | JBool false => "false"
  | JNum lit => lit
  | JStr s => encode_string s
  | JArr l => "[" +:+ str_join "," (List.map json_print l) +:+ "]"
  | JObj l =>
      "{" +:+ str_join "," (List.map (λ kv, encode_string kv.1 +:+ ":" +:+ json_print kv.2) l)
          +:+ "}"
  end.

(** MarshalIndent(v, "", "    ") at a nesting depth. *)
Fixpoint spaces (n : nat) : string :=
  match n with 0 => EmptyString | S n' => String " " (spaces n') end.

Definition newline (depth : nat) : string := String (chr 10) (spaces (4 * depth)).

Definition block (opening closing : string) (depth : nat) (items : list string) : string :=
  match items with
  | [] => opening +:+ closing
  | _ => opening +:+ newline (S depth) +:+ str_join ("," +:+ newline (S depth)) items
                 +:+ newline depth +:+ closing
  end.

Fixpoint json_indent (depth : nat) (j : json) : string :=
  match j with
  | JArr l => block "[" "]" depth (List.map (json_indent (S depth)) l)
  | JObj l =>
      block "{" "}" depth
        (List.map (λ kv, encode_string kv.1 +:+ ": " +:+ json_indent (S depth) kv.2) l)
  | _ => json_print j
  end.

(** ** Valid texts *)

Fixpoint valid_utf8 (s : string) : bool :=
  match s with
  | EmptyString => true
  | String a s1 =>
      if ascii7 a then valid_utf8 s1
      else match s1 with
      | String b s2 =>
          if rune2 a b then valid_utf8 s2
          else match s2 with
          | String c s3 =>
              if rune3 a b c then valid_utf8 s3
              else match s3 with
              | String d s4 => rune4 a b c d && valid_utf8 s4
              | EmptyString => false
              end
          | EmptyString => false
          end
      | EmptyString => false
      end
  end.

Definition ws (w : string) : Prop := str_all is_ws w = true.

(** The character after a number does not continue it. *)
Definition stops (r : string) : Prop :=
  match r with
  | EmptyString => True
  | String a _ => is_digit a = false ∧ byte a ≠ 46 ∧ byte a ≠ 101 ∧ byte a ≠ 69
  end.

Definition number (lit : string) : Prop :=
  (∀ r, stops r → parse_number (lit +:+ r) = Some (lit, r)) ∧
  match lit with
  | EmptyString => False
  | String a _ => is_digit a = true ∨ byte a = 45
  end.

(** The bytes between the quotes stand for the string. *)
Definition quoted (s raw : string) : Prop :=
  ∀ r, parse_body (raw +:+ String quote r) = Some (s, r).

Definition quote_str (raw : string) : string := String quote (raw +:+ String quote EmptyString).

(** [renders j t]: the text [t] is the value [j], written with any white space
    and any escapes. *)
Inductive renders : json → string → Prop :=
  | r_null : renders JNull "null"
  | r_bool (b : bool) : renders (JBool b) (if b then "true" else "false")
  | r_num lit : number lit → renders (JNum lit) lit
  | r_str s raw : quoted s raw → renders (JStr s) (quote_str raw)
  | r_nil w : ws w → renders (JArr []) ("[" +:+ w +:+ "]")
  | r_arr l t : renders_elems l t → renders (JArr l) ("[" +:+ t +:+ "]")
  | r_empty w : ws w → renders (JObj []) ("{" +:+ w +:+ "}")
  | r_obj l t : renders_members l t → renders (JObj l) ("{" +:+ t +:+ "}")
with renders_elems : list json → string → Prop :=
  | re_one j w1 t w2 : ws w1 → renders j t → ws w2 → renders_elems [j] (w1 +:+ t +:+ w2)
  | re_cons j l w1 t w2 t' : ws w1 → renders j t → ws w2 → renders_elems l t' →
      renders_elems (j :: l) (w1 +:+ t +:+ w2 +:+ "," +:+ t')
with renders_members : list (string * json) → string → Prop :=
  | rm_one k raw j w1 w2 w3 t w4 :
      ws w1 → quoted k raw → ws w2 → ws w3 → renders j t → ws w4 →
      renders_members [(k, j)] (w1 +:+ quote_str raw +:+ w2 +:+ ":" +:+ w3 +:+ t +:+ w4)
  | rm_cons k raw j l w1 w2 w3 t w4 t' :
      ws w1 → quoted k raw → ws w2 → ws w3 → renders j t → ws w4 → renders_members l t' →
      renders_members ((k, j) :: l)
        (w1 +:+ quote_str raw +:+ w2 +:+ ":" +:+ w3 +:+ t +:+ w4 +:+ "," +:+ t').

Scheme renders_mind := Minimality for renders Sort Prop
  with renders_elems_mind := Minimality for renders_elems Sort Prop
  with renders_members_mind := Minimality for renders_members Sort Prop.
Combined Scheme renders_mutind from renders_mind, renders_elems_mind, renders_members_mind.

(** *** Reading what is rendered *)

Lemma skip_ws_app w s : ws w → skip_ws (w +:+ s) = skip_ws s.
Proof.
  unfold ws. induction w as [|a w IH]; simpl; [done|]. intros [-> Hw]%andb_prop. by apply IH.
Qed.

Lemma expect_ws n w s : ws w → expect n (w +:+ s) = expect n s.
Proof. intros Hw. unfold expect. by rewrite skip_ws_app. Qed.

(** How a rendered value begins. *)
Definition starts_value (t : string) : Prop :=
  match t with
  | EmptyString => False
  | String a _ => is_ws a = false ∧ byte a ≠ 93 ∧ byte a ≠ 125 ∧ byte a ≠ 44
  end.

Lemma renders_starts j t : renders j t → starts_value t.
Proof.
  intros Hr. destruct Hr as [| [] |lit [_ Hn]| | | | |]; try (by vm_compute).
  destruct lit as [|a lit]; [done|]. unfold starts_value, is_ws, is_digit in *.
  destruct Hn as [Hd|Hd].
  - apply andb_prop in Hd as [H1 H2]. apply Nat.leb_le in H1, H2.
    split_and!; [|lia..]. apply not_true_is_false. simpl.
    rewrite !orb_true_iff, !Nat.eqb_eq. lia.
  - rewrite Hd. done.
Qed.

Lemma starts_value_app t r : starts_value t → starts_value (t +:+ r).
Proof. by destruct t. Qed.

Lemma skip_ws_starts t : starts_value t → skip_ws t = t.
Proof. destruct t as [|a t]; [done|]. simpl. by intros (-> & _). Qed.

Lemma expect_not n t : starts_value t → n = 93 ∨ n = 125 ∨ n = 44 → expect n t = None.
Proof.
  intros Ht Hn. unfold expect. rewrite skip_ws_starts by done.
  destruct t as [|a t]; [done|]. destruct Ht as (_ & ? & ? & ?).
  destruct (Nat.eqb_spec (byte a) n); [|done]. lia.
Qed.

Lemma stops_ws w s : ws w → stops s → stops (w +:+ s).
Proof.
  destruct w as [|a w]; [done|]. unfold ws. simpl. intros [Ha _]%andb_prop _.
  unfold is_ws in Ha. simpl in Ha. rewrite !orb_true_iff, !Nat.eqb_eq in Ha.
  unfold is_digit. split_and!; [|lia..].
  apply not_true_is_false. rewrite andb_true_iff, !Nat.leb_le. lia.
Qed.

Lemma parse_value_ws fuel w s : ws w → parse_value fuel (w +:+ s) = parse_value fuel s.
Proof. intros Hw. destruct fuel; [done|]. simpl. by rewrite skip_ws_app. Qed.

Lemma parse_elems_ws fuel w s : ws w → parse_elems fuel (w +:+ s) = parse_elems fuel s.
Proof. intros Hw. destruct fuel; [done|]. simpl. by rewrite parse_value_ws. Qed.

Lemma parse_value_number fuel lit r :
  number lit → stops r → parse_value (S fuel) (lit +:+ r) = Some (JNum lit, r).
Proof.
  intros [Hp Hs] Hr. specialize (Hp r Hr). destruct lit as [|a lit]; [done|].
  assert (is_ws a = false ∧ (byte a =? 34)%nat = false ∧ (byte a =? 91)%nat = false ∧
    (byte a =? 123)%nat = false ∧ (byte a =? 110)%nat = false ∧ (byte a =? 116)%nat = false ∧
    (byte a =? 102)%nat = false) as (H1 & H2 & H3 & H4 & H5 & H6 & H7).
  { assert (48 ≤ byte a ≤ 57 ∨ byte a = 45) as Hb.
    { destruct Hs as [Hs|?]; [left|by right]. unfold is_digit in Hs.
      by rewrite andb_true_iff, !Nat.leb_le in Hs. }
    unfold is_ws. simpl. rewrite !orb_false_iff, !Nat.eqb_neq. lia. }
  change (String a lit +:+ r) with (String a (lit +:+ r)) in *.
  cbn [parse_value skip_ws]. rewrite H1, H2, H3, H4, H5, H6, H7, Hp. done.
Qed.

Lemma str_length_cons a s : String.length (String a s) = S (String.length s).
Proof. done. Qed.

(** Rendered elements, then the closing bracket. *)
Lemma expect_hit n w a r : ws w → byte a = n → is_ws a = false → expect n (w +:+ String a r) = Some r.
Proof.
  intros Hw Ha Hn. rewrite expect_ws by done. unfold expect. simpl. rewrite Hn, Ha.
  by rewrite Nat.eqb_refl.
Qed.

Lemma expect_miss n w a r : ws w → byte a ≠ n → is_ws a = false → expect n (w +:+ String a r) = None.
Proof.
  intros Hw Ha Hn. rewrite expect_ws by done. unfold expect. simpl. rewrite Hn.
  by destruct (Nat.eqb_spec (byte a) n).
Qed.

Lemma parse_renders :
  (∀ j t, renders j t → ∀ fuel r, 2 * String.length t ≤ fuel → stops r →
     parse_value fuel (t +:+ r) = Some (j, r)) ∧
  (∀ l t, renders_elems l t → ∀ fuel r, 2 * String.length t + 1 ≤ fuel →
     parse_elems fuel (t +:+ "]" +:+ r) = Some (l, r)) ∧
  (∀ l t, renders_members l t → ∀ fuel r, 2 * String.length t + 1 ≤ fuel →
     parse_members fuel (t +:+ "}" +:+ r) = Some (l, r)).
Proof.
  assert (∀ fuel t, 2 * String.length t ≤ fuel → t ≠ EmptyString → ∃ f, fuel = S f) as Hpos.
  { intros fuel [|a t] Hf Ht; [done|]. destruct fuel; [simpl in Hf; lia|by eexists]. }
  apply renders_mutind.
  - intros fuel r Hf _. by destruct (Hpos fuel "null" Hf) as [f ->].
  - intros b fuel r Hf _. destruct b; [by destruct (Hpos fuel "true" Hf) as [f ->]|].
    by destruct (Hpos fuel "false" Hf) as [f ->].
  - intros lit Hn fuel r Hf Hr. destruct (Hpos fuel lit Hf) as [f ->].
    + destruct Hn as [_ Hn]. by destruct lit.
    + by apply parse_value_number.
  - intros s raw Hq fuel r Hf Hr. destruct (Hpos fuel (quote_str raw) Hf) as [f ->]; [done|].
    unfold quote_str. simpl. rewrite str_app_assoc. simpl. by rewrite Hq.
  - intros w Hw fuel r Hf Hr. destruct (Hpos fuel ("[" +:+ w +:+ "]") Hf) as [f ->]; [done|].
    simpl. rewrite str_app_assoc. simpl. by rewrite (expect_hit 93 w "]").
  - intros l t Ht IH fuel r Hf Hr.
    destruct (Hpos fuel ("[" +:+ t +:+ "]") Hf) as [f ->]; [done|].
    simpl in Hf |- *. rewrite str_length_app in Hf. simpl in Hf. rewrite str_app_assoc. simpl.
    assert (expect 93 (t +:+ String "]" r) = None) as ->.
    { destruct Ht as [j w1 t w2 Hw1 Hj Hw2|j l w1 t w2 t' Hw1 Hj Hw2 _];
        rewrite !str_app_assoc, expect_ws by done; apply expect_not;
        try (by left); eapply starts_value_app, renders_starts, Hj. }
    specialize (IH f r ltac:(lia)). simpl in IH. by rewrite IH.
  - intros w Hw fuel r Hf Hr. destruct (Hpos fuel ("{" +:+ w +:+ "}") Hf) as [f ->]; [done|].
    simpl. rewrite str_app_assoc. simpl. by rewrite (expect_hit 125 w "}").
  - intros l t Ht IH fuel r Hf Hr.
    destruct (Hpos fuel ("{" +:+ t +:+ "}") Hf) as [f ->]; [done|].
    simpl in Hf |- *. rewrite str_length_app in Hf. simpl in Hf. rewrite str_app_assoc. simpl.
    assert (expect 125 (t +:+ String "}" r) = None) as ->.
    { destruct Ht; unfold quote_str; rewrite !str_app_assoc; simpl; by rewrite (expect_miss 125 w1 quote). }
    specialize (IH f r ltac:(lia)). simpl in IH. by rewrite IH.
  - intros j w1 t w2 Hw1 Hj IH Hw2 fuel r Hf. rewrite !str_app_assoc, !str_length_app in *.
    destruct fuel as [|fuel]; [lia|]. rewrite parse_elems_ws by done. cbn [parse_elems].
    rewrite IH by (lia || by apply stops_ws).
    simpl. by rewrite (expect_hit 93 w2 "]").
  - intros j l w1 t w2 t' Hw1 Hj IHj Hw2 Hl IHl fuel r Hf.
    rewrite !str_app_assoc, !str_length_app in *. simpl in Hf.
    destruct fuel as [|fuel]; [lia|]. rewrite parse_elems_ws by done. cbn [parse_elems].
    rewrite IHj by (lia || by apply stops_ws). simpl.
    rewrite (expect_miss 93 w2 ","), (expect_hit 44 w2 ",") by done.
    specialize (IHl fuel r ltac:(lia)). simpl in IHl. by rewrite IHl.
  - intros k raw j w1 w2 w3 t w4 Hw1 Hk Hw2 Hw3 Hj IH Hw4 fuel r Hf.
    unfold quote_str in *. rewrite !str_length_app in Hf. simpl in Hf. rewrite !str_length_app in Hf.
    destruct fuel as [|fuel]; [lia|]. rewrite !str_app_assoc. simpl. rewrite !str_app_assoc. simpl.
    cbn [parse_members]. rewrite (expect_hit 34 w1 quote), Hk by done.
    rewrite (expect_hit 58 w2 ":"), parse_value_ws, IH by (done || lia || by apply stops_ws).
    by rewrite (expect_hit 125 w4 "}").
  - intros k raw j l w1 w2 w3 t w4 t' Hw1 Hk Hw2 Hw3 Hj IH Hw4 Hl IHl fuel r Hf.
    unfold quote_str in *. rewrite !str_length_app in Hf. simpl in Hf. rewrite !str_length_app in Hf.
    simpl in Hf.
    destruct fuel as [|fuel]; [lia|]. rewrite !str_app_assoc. simpl. rewrite !str_app_assoc. simpl.
    cbn [parse_members]. rewrite (expect_hit 34 w1 quote), Hk by done.
    rewrite (expect_hit 58 w2 ":"), parse_value_ws, IH by (done || lia || by apply stops_ws).
    rewrite (expect_miss 125 w4 ","), (expect_hit 44 w4 ",") by done.
    specialize (IHl fuel r ltac:(lia)). simpl in IHl. by rewrite IHl.
Qed.

Lemma json_parse_renders j t w1 w2 :
  renders j t → ws w1 → ws w2 → json_parse (w1 +:+ t +:+ w2) = Some j.
Proof.
  intros Hr Hw1 Hw2. unfold json_parse. rewrite parse_value_ws by done.
  destruct parse_renders as [Hp _]. rewrite (Hp j t Hr).
  - rewrite <- (str_app_nil_r w2), skip_ws_app by done. by rewrite decide_True.
  - rewrite !str_length_app. lia.
  - rewrite <- (str_app_nil_r w2). by apply stops_ws.
Qed.

(** *** What Marshal writes is rendered *)

Lemma parse_encode_ascii a t :
  ascii7 a = true → parse_body (encode_ascii a +:+ t) = prepend (String a EmptyString) (parse_body t).
Proof. destruct a as [[] [] [] [] [] [] [] []]; intros H7; try discriminate H7; reflexivity. Qed.

Lemma not_ascii7 a : ascii7 a = false → 128 ≤ byte a.
Proof. unfold ascii7. by rewrite Nat.ltb_ge. Qed.

(** The branches of [parse_body] for a byte that is not ASCII. *)
Lemma parse_body_high a s :
  ascii7 a = false →
  parse_body (String a s) =
  match s with
  | String b s2 =>
      if rune2 a b then prepend (String a (String b EmptyString)) (parse_body s2)
      else match s2 with
      | String c s3 =>
          if rune3 a b c
          then prepend (String a (String b (String c EmptyString))) (parse_body s3)
          else match s3 with
          | String d s4 =>
              if rune4 a b c d
              then prepend (String a (String b (String c (String d EmptyString)))) (parse_body s4)
              else prepend replacement (parse_body s)
          | EmptyString => prepend replacement (parse_body s)
          end
      | EmptyString => prepend replacement (parse_body s)
      end
  | EmptyString => prepend replacement (parse_body s)
  end.
Proof.
  intros Ha. apply not_ascii7 in Ha as Hb. cbn [parse_body].
  destruct (Nat.eqb_spec (byte a) 34); [lia|]. destruct (Nat.eqb_spec (byte a) 92); [lia|].
  destruct (Nat.ltb_spec (byte a) 32); [lia|]. by rewrite Ha.
Qed.

Lemma byte_is_eq a n : byte_is a n = true → a = chr n.
Proof.
  unfold byte_is. intros Ha%Nat.eqb_eq. unfold chr. rewrite <- Ha.
  by rewrite ascii_nat_embedding.
Qed.

Lemma parse_encode3 a b c t :
  ascii7 a = false → rune2 a b = false → rune3 a b c = true →
  parse_body (encode3 a b c +:+ t) =
  prepend (String a (String b (String c EmptyString))) (parse_body t).
Proof.
  intros Ha H2 H3. unfold encode3.
  destruct (byte_is a 226 && byte_is b 128 && byte_is c 168) eqn:E1;
    [|destruct (byte_is a 226 && byte_is b 128 && byte_is c 169) eqn:E2].
  - apply andb_prop in E1 as [[->%byte_is_eq ->%byte_is_eq]%andb_prop ->%byte_is_eq]. reflexivity.
  - apply andb_prop in E2 as [[->%byte_is_eq ->%byte_is_eq]%andb_prop ->%byte_is_eq]. reflexivity.
  - change (String a (String b (String c EmptyString)) +:+ t)
      with (String a (String b (String c t))).
    rewrite parse_body_high by done. by rewrite H2, H3.
Qed.

Lemma encode_body_quoted s : valid_utf8 s = true → quoted s (encode_body s).
Proof.
  intros Hv r. remember (String.length s) as n eqn:Hn.
  assert (String.length s ≤ n) as Hle by lia. clear Hn. revert s Hv Hle.
  induction n as [|n IH]; intros [|a s1] Hv Hle; simpl in Hle; try lia; [done..|].
  simpl in Hv |- *. destruct (ascii7 a) eqn:Ha.
  { rewrite str_app_assoc, parse_encode_ascii, IH by (done || lia). done. }
  destruct s1 as [|b s2]; [done|]. simpl in Hle. destruct (rune2 a b) eqn:H2.
  { change (String a (String b (encode_body s2)) +:+ String quote r)
      with (String a (String b (encode_body s2 +:+ String quote r))).
    rewrite parse_body_high, H2, IH by (done || lia). done. }
  destruct s2 as [|c s3]; [done|]. simpl in Hle. destruct (rune3 a b c) eqn:H3.
  { rewrite str_app_assoc, parse_encode3, IH by (done || lia). done. }
  destruct s3 as [|d s4]; [done|]. simpl in Hle. apply andb_prop in Hv as [H4 Hv].
  rewrite H4.
  change (String a (String b (String c (String d (encode_body s4)))) +:+ String quote r)
    with (String a (String b (String c (String d (encode_body s4 +:+ String quote r))))).
  rewrite parse_body_high, H2, H3, H4, IH by (done || lia). done.
Qed.

(** The values Marshal can be given: text in UTF-8, numbers it formatted. *)
Inductive wf_json : json → Prop :=
  | wf_null : wf_json JNull
  | wf_bool b : wf_json (JBool b)
  | wf_num lit : number lit → wf_json (JNum lit)
  | wf_str s : valid_utf8 s = true → wf_json (JStr s)
  | wf_arr l : (∀ j, j ∈ l → wf_json j) → wf_json (JArr l)
  | wf_obj l : (∀ kv, kv ∈ l → valid_utf8 kv.1 = true) → (∀ kv, kv ∈ l → wf_json kv.2) →
      wf_json (JObj l).

Lemma ws_nil : ws EmptyString.
Proof. done. Qed.

Lemma ws_newline d : ws (newline d).
Proof.
  unfold ws, newline. simpl. induction (d + (d + (d + (d + 0)))) as [|n IH]; [done|]. apply IH.
Qed.
#[local] Hint Resolve ws_nil ws_newline : go_db.

(** Both sides of an equation between texts, associated to the right. *)
Ltac str_norm := unfold quote_str, encode_string; repeat (progress (simpl; rewrite ?str_app_assoc)).

(** Elements joined by a comma and white space. *)
Lemma renders_join_elems (w0 w1 w2 : string) (f : json → string) l :
  ws w0 → ws w1 → ws w2 → l ≠ [] → (∀ j, j ∈ l → renders j (f j)) →
  renders_elems l (w0 +:+ str_join ("," +:+ w1) (List.map f l) +:+ w2).
Proof.
  intros Hw0 Hw1 Hw2 Hne. revert w0 Hw0.
  induction l as [|j l IH]; intros w0 Hw0 Hall; [done|]. clear Hne.
  destruct l as [|j' l].
  { simpl. apply re_one; [done|apply Hall; left|done]. }
  cbn [List.map]. rewrite str_join_cons. rewrite !str_app_assoc.
  specialize (IH ltac:(done) w1 Hw1 ltac:(intros; apply Hall; by right)).
  eapply (re_cons _ _ _ _ EmptyString) in IH; [|exact Hw0|apply Hall; left|done].
  exact IH.
Qed.

Lemma renders_join_members (w0 w1 w2 w3 : string) (f : json → string) l :
  ws w0 → ws w1 → ws w2 → ws w3 → l ≠ [] →
  (∀ kv, kv ∈ l → valid_utf8 kv.1 = true ∧ renders kv.2 (f kv.2)) →
  renders_members l
    (w0 +:+ str_join ("," +:+ w1)
              (List.map (λ kv, encode_string kv.1 +:+ (":" +:+ w3) +:+ f kv.2) l) +:+ w2).
Proof.
  intros Hw0 Hw1 Hw2 Hw3 Hne. revert w0 Hw0.
  induction l as [|[k j] l IH]; intros w0 Hw0 Hall; [done|]. clear Hne.
  destruct (Hall (k, j) ltac:(left)) as [Hk Hj]. simpl in Hk, Hj.
  apply encode_body_quoted in Hk.
  destruct l as [|kv' l].
  { pose proof (rm_one k (encode_body k) j w0 EmptyString w3 (f j) w2 Hw0 Hk ws_nil Hw3 Hj Hw2)
      as H1. refine (eq_ind _ (renders_members _) H1 _ _). by str_norm. }
  cbn [List.map]. rewrite str_join_cons.
  specialize (IH ltac:(done) w1 Hw1 ltac:(intros; apply Hall; by right)).
  pose proof (rm_cons k (encode_body k) j _ w0 EmptyString w3 (f j) EmptyString _
    Hw0 Hk ws_nil Hw3 Hj ws_nil IH) as H1.
  refine (eq_ind _ (renders_members _) H1 _ _). cbn [List.map]. by str_norm.
Qed.

Lemma json_print_renders j : wf_json j → renders j (json_print j).
Proof.
  induction j as [|b|lit|s|l IH|l IH] using json_ind'; intros Hwf; inversion Hwf; subst.
  - constructor.
  - destruct b; [apply (r_bool true)|apply (r_bool false)].
  - by constructor.
  - apply (r_str s (encode_body s)). by apply encode_body_quoted.
  - destruct l as [|j l]; [by apply (r_nil EmptyString)|].
    change (json_print (JArr (j :: l))) with
      ("[" +:+ str_join ("," +:+ EmptyString) (List.map json_print (j :: l)) +:+ "]").
    pose proof (renders_join_elems EmptyString EmptyString EmptyString json_print (j :: l)) as Hr.
    rewrite str_app_nil_r in Hr. apply r_arr, Hr; auto with go_db.
    intros j' Hj'. rewrite Forall_forall in IH. auto.
  - destruct l as [|kv l]; [by apply (r_empty EmptyString)|].
    change (json_print (JObj (kv :: l))) with
      ("{" +:+ str_join ("," +:+ EmptyString)
        (List.map (λ kv, encode_string kv.1 +:+ (":" +:+ EmptyString) +:+ json_print kv.2)
           (kv :: l)) +:+ "}").
    pose proof (renders_join_members EmptyString EmptyString EmptyString EmptyString
      json_print (kv :: l)) as Hr.
    rewrite str_app_nil_r in Hr. apply r_obj, Hr; auto with go_db.
    intros kv' Hkv'. rewrite Forall_forall in IH.
    auto.
Qed.

Lemma block_assoc (o w0 items w2 c : string) :
  o +:+ w0 +:+ items +:+ w2 +:+ c = o +:+ (w0 +:+ items +:+ w2) +:+ c.
Proof. by rewrite !str_app_assoc. Qed.

Lemma json_indent_renders j d : wf_json j → renders j (json_indent d j).
Proof.
  revert d. induction j as [|b|lit|s|l IH|l IH] using json_ind'; intros d Hwf;
    try (by apply json_print_renders); inversion Hwf; subst.
  - destruct l as [|j l]; [by apply (r_nil EmptyString)|].
    change (json_indent d (JArr (j :: l))) with
      ("[" +:+ newline (S d) +:+
         str_join ("," +:+ newline (S d)) (List.map (json_indent (S d)) (j :: l))
         +:+ newline d +:+ "]").
    pose proof (renders_join_elems (newline (S d)) (newline (S d)) (newline d)
      (json_indent (S d)) (j :: l)) as Hr.
    rewrite block_assoc. apply r_arr, Hr; auto with go_db.
    intros j' Hj'. rewrite Forall_forall in IH. auto.
  - destruct l as [|kv l]; [by apply (r_empty EmptyString)|].
    change (json_indent d (JObj (kv :: l))) with
      ("{" +:+ newline (S d) +:+ str_join ("," +:+ newline (S d))
        (List.map (λ kv, encode_string kv.1 +:+ (":" +:+ " ") +:+ json_indent (S d) kv.2)
           (kv :: l)) +:+ newline d +:+ "}").
    pose proof (renders_join_members (newline (S d)) (newline (S d)) (newline d) " "
      (json_indent (S d)) (kv :: l)) as Hr.
    rewrite block_assoc. apply r_obj, Hr; auto with go_db.
    intros kv' Hkv'. rewrite Forall_forall in IH. auto.
Qed.

Lemma json_parse_print j : wf_json j → json_parse (json_print j) = Some j.
Proof.
  intros Hj. pose proof (json_parse_renders j _ EmptyString EmptyString
    (json_print_renders j Hj) ws_nil ws_nil) as H1.
  by rewrite str_app_nil_r in H1.
Qed.

Lemma json_parse_indent j d : wf_json j → json_parse (json_indent d j) = Some j.
Proof.
  intros Hj. pose proof (json_parse_renders j _ EmptyString EmptyString
    (json_indent_renders j d Hj) ws_nil ws_nil) as H1.
  by rewrite str_app_nil_r in H1.
Qed.

(** What Marshal and MarshalIndent write is read back: for every value
    whose strings are UTF-8, both texts parse to the value, whatever white space
    stands around them. *)
Theorem json_roundtrip j w1 w2 :
  wf_json j → ws w1 → ws w2 →
  json_parse (w1 +:+ json_print j +:+ w2) = Some j ∧
  json_parse (w1 +:+ json_indent 0 j +:+ w2) = Some j.
Proof.
  intros Hwf Hw1 Hw2. split; apply json_parse_renders; try done.
  - by apply json_print_renders.
  - by apply json_indent_renders.
Qed.

(** ** Integers (strconv.AppendInt, base 10) *)

Definition digit_char (d : Z) : ascii := chr (48 + Z.to_nat d).

(** The digits of [n] in front of [acc]; [fuel] bounds their number. *)
Fixpoint print_digits (fuel : nat) (n : Z) (acc : string) : string :=
  match fuel with
  | 0 => acc
  | S f =>
      let acc' := String (digit_char (n `mod` 10)) acc in
      if decide (n < 10)%Z then acc' else print_digits f (n `div` 10) acc'
  end.

Definition print_uint (n : Z) : string := print_digits (S (Z.to_nat (Z.log2 n))) n EmptyString.

Definition print_int (n : Z) : string :=
  if decide (n < 0)%Z then String (chr 45) (print_uint (- n)) else print_uint n.

(** strconv.ParseInt(s, 10, bits) on a JSON number. *)
Definition parse_int (bits : Z) (s : string) : result Z :=
  match s with
  | String a s' =>
      if (byte a =? 45)%nat then
        match s' with
        | EmptyString => inl err_syntax
        | _ => match parse_digits (2 ^ (bits - 1)) 0 s' with
               | inl e => inl e
               | inr n => inr (- n)%Z
               end
        end
      else parse_digits (2 ^ (bits - 1) - 1) 0 s
  | EmptyString => inl err_syntax
  end.

Lemma parse_int_range bits s r :
  (1 ≤ bits)%Z → parse_int bits s = inr r → (- 2 ^ (bits - 1) ≤ r < 2 ^ (bits - 1))%Z.
Proof.
  intros Hb. assert (0 < 2 ^ (bits - 1))%Z by (apply Z.pow_pos_nonneg; lia).
  destruct s as [|a s]; [done|]. simpl. destruct (byte a =? 45)%nat.
  - destruct s as [|b s]; [done|]. destruct (parse_digits _ 0 _) as [|n] eqn:E; [done|].
    apply parse_digits_range in E; [|lia]. intros [= <-]. lia.
  - intros E. apply (parse_digits_range _ _ (String a s)) in E; lia.
Qed.

Lemma digit_char_value d : (0 ≤ d < 10)%Z → digit_value (digit_char d) = Some d.
Proof.
  intros Hd. assert (d = 0 ∨ d = 1 ∨ d = 2 ∨ d = 3 ∨ d = 4 ∨ d = 5 ∨ d = 6 ∨ d = 7 ∨ d = 8 ∨ d = 9)%Z
    as H10 by lia. by repeat (destruct H10 as [->|H10]; [done|]); subst.
Qed.

Lemma print_digits_parse maxv fuel n acc :
  (0 ≤ n ≤ maxv)%Z → (n < 2 ^ Z.of_nat fuel)%Z →
  parse_digits maxv 0 (print_digits fuel n acc) = parse_digits maxv n acc.
Proof.
  revert n acc. induction fuel as [|fuel IH]; intros n acc Hn Hf.
  { simpl in *. by assert (n = 0)%Z as -> by lia. }
  assert (0 ≤ n `mod` 10 < 10)%Z as Hd by (apply Z.mod_pos_bound; lia).
  pose proof (Z.div_mod n 10 ltac:(lia)) as Hdm.
  cbn [print_digits]. case_decide as H10.
  - cbn [parse_digits]. rewrite digit_char_value by done.
    rewrite (Z.mod_small n 10) in * by lia. rewrite decide_False by lia. done.
  - rewrite IH; cbn [parse_digits].
    + rewrite digit_char_value by done.
      replace (n `div` 10 * 10 + n `mod` 10)%Z with n by lia. by rewrite decide_False by lia.
    + split; [apply Z.div_pos; lia|]. lia.
    + replace (Z.of_nat (S fuel)) with (1 + Z.of_nat fuel)%Z in Hf by lia.
      rewrite Z.pow_add_r in Hf by lia. lia.
Qed.

Lemma log2_fuel n : (0 ≤ n)%Z → (n < 2 ^ Z.of_nat (S (Z.to_nat (Z.log2 n))))%Z.
Proof.
  intros Hn. pose proof (Z.log2_nonneg n).
  replace (Z.of_nat (S (Z.to_nat (Z.log2 n)))) with (Z.succ (Z.log2 n)) by lia.
  destruct (decide (n = 0%Z)) as [->|]; [done|]. apply Z.log2_spec. lia.
Qed.

Lemma print_uint_ne n : print_uint n ≠ EmptyString.
Proof.
  unfold print_uint. cbn [print_digits]. case_decide; [done|].
  assert (∀ f m acc, acc ≠ EmptyString → print_digits f m acc ≠ EmptyString) as Hne; [|by apply Hne].
  induction f as [|f IH]; intros m acc Hacc; [done|]. cbn [print_digits].
  case_decide; [done|]. by apply IH.
Qed.

Lemma parse_print_uint maxv n : (0 ≤ n ≤ maxv)%Z → parse_digits maxv 0 (print_uint n) = inr n.
Proof.
  intros Hn. unfold print_uint. by rewrite print_digits_parse by (done || apply log2_fuel; lia).
Qed.

Lemma digit_value_digit a d : digit_value a = Some d → is_digit a = true.
Proof.
  unfold digit_value, is_digit, byte. case_decide as Hr; [intros _|discriminate].
  by rewrite andb_true_iff, !Nat.leb_le.
Qed.

Lemma print_digits_digits fuel n acc :
  (0 ≤ n)%Z → str_all is_digit acc = true → str_all is_digit (print_digits fuel n acc) = true.
Proof.
  revert n acc. induction fuel as [|fuel IH]; intros n acc Hn Hacc; [done|].
  assert (0 ≤ n `mod` 10 < 10)%Z as Hd by (apply Z.mod_pos_bound; lia).
  assert (str_all is_digit (String (digit_char (n `mod` 10)) acc) = true) as Hacc'.
  { cbn [str_all]. rewrite Hacc, andb_true_r. apply digit_char_value in Hd as Hv.
    by eapply digit_value_digit. }
  cbn [print_digits]. case_decide; [done|]. apply IH; [apply Z.div_pos; lia|done].
Qed.

Lemma print_digits_head fuel n acc :
  (0 < n)%Z → (n < 2 ^ Z.of_nat fuel)%Z →
  match print_digits fuel n acc with
  | String a _ => byte a ≠ 48
  | EmptyString => False
  end.
Proof.
  revert n acc. induction fuel as [|fuel IH]; intros n acc Hn Hf; [simpl in Hf; lia|].
  cbn [print_digits]. case_decide as H10.
  - rewrite Z.mod_small by lia. intros Hb.
    assert (digit_value (digit_char n) = Some n) as Hv by (apply digit_char_value; lia).
    assert (digit_char n = chr 48) as Hc.
    { unfold chr. rewrite <- Hb. symmetry. apply ascii_nat_embedding. }
    rewrite Hc in Hv. vm_compute in Hv. injection Hv as <-. lia.
  - apply IH; [apply Z.div_str_pos; lia|].
    replace (Z.of_nat (S fuel)) with (1 + Z.of_nat fuel)%Z in Hf by lia.
    rewrite Z.pow_add_r in Hf by lia. pose proof (Z.div_mod n 10 ltac:(lia)).
    pose proof (Z.mod_pos_bound n 10 ltac:(lia)). lia.
Qed.

Lemma span_digits_stop d r : str_all is_digit d = true → stops r → span_digits (d +:+ r) = (d, r).
Proof.
  intros Hd Hr. induction d as [|a d IH]; simpl in *.
  - destruct r as [|a r]; [done|]. destruct Hr as [Ha _]. simpl. by rewrite Ha.
  - apply andb_prop in Hd as [-> Hd]. by rewrite (IH Hd).
Qed.

Lemma num_tail_stop r : stops r → num_frac r = Some (EmptyString, r) ∧ num_exp r = Some (EmptyString, r).
Proof.
  intros Hr. destruct r as [|a r]; [done|]. destruct Hr as (_ & H1 & H2 & H3). simpl.
  destruct (Nat.eqb_spec (byte a) 46); [done|]. destruct (Nat.eqb_spec (byte a) 101); [done|].
  by destruct (Nat.eqb_spec (byte a) 69).
Qed.

(** The decimal digits of a number that is not negative, as [num_int] reads them. *)
Lemma num_int_uint n r : (0 ≤ n)%Z → stops r → num_int (print_uint n +:+ r) = Some (print_uint n, r).
Proof.
  intros Hn Hr. destruct (decide (n = 0%Z)) as [->|Hnz]; [done|].
  assert (str_all is_digit (print_uint n) = true) as Hd by (by apply print_digits_digits).
  pose proof (print_digits_head (S (Z.to_nat (Z.log2 n))) n EmptyString ltac:(lia)
    (log2_fuel n Hn)) as Hh. fold (print_uint n) in Hh.
  pose proof (span_digits_stop _ _ Hd Hr) as Hspan.
  destruct (print_uint n) as [|a d]; [done|]. cbn [String.append num_int] in *.
  destruct (Nat.eqb_spec (byte a) 48); [done|]. unfold digits1. by rewrite Hspan.
Qed.

Lemma number_uint n : (0 ≤ n)%Z → number (print_uint n).
Proof.
  intros Hn. pose proof (num_int_uint n) as Hint.
  assert (str_all is_digit (print_uint n) = true) as Hd by (by apply print_digits_digits).
  pose proof (print_uint_ne n). split.
  - intros r Hr. specialize (Hint r Hn Hr). unfold parse_number.
    destruct (print_uint n) as [|a d]; [done|]. cbn [str_all] in Hd.
    apply andb_prop in Hd as [Ha _]. unfold is_digit in Ha.
    rewrite andb_true_iff, !Nat.leb_le in Ha.
    change (String a d +:+ r) with (String a (d +:+ r)) in *.
    cbv beta iota. rewrite (proj2 (Nat.eqb_neq (byte a) 45)) by lia. rewrite Hint. simpl.
    destruct (num_tail_stop r Hr) as [-> Hexp]. simpl. rewrite Hexp. simpl.
    by rewrite !str_app_nil_r.
  - destruct (print_uint n) as [|a d]; [done|]. simpl in Hd. apply andb_prop in Hd as [Ha _].
    by left.
Qed.

Lemma number_int n : number (print_int n).
Proof.
  unfold print_int. case_decide as Hneg; [|apply number_uint; lia].
  split; [|by right]. intros r Hr. unfold parse_number.
  change (String (chr 45) (print_uint (- n)) +:+ r) with (String (chr 45) (print_uint (- n) +:+ r)).
  cbv beta iota. change (byte (chr 45) =? 45)%nat with true. cbv beta iota.
  rewrite num_int_uint by (done || lia). simpl.
  destruct (num_tail_stop r Hr) as [-> Hexp]. simpl. rewrite Hexp. simpl.
  by rewrite !str_app_nil_r.
Qed.

Lemma parse_print_int bits n :
  (0 < bits)%Z → (- 2 ^ (bits - 1) ≤ n < 2 ^ (bits - 1))%Z → parse_int bits (print_int n) = inr n.
Proof.
  intros Hb Hn. unfold print_int. case_decide as Hneg.
  - simpl. pose proof (print_uint_ne (- n)). pose proof (parse_print_uint (2 ^ (bits - 1)) (- n)) as Hp.
    destruct (print_uint (- n)); [done|]. rewrite Hp by lia. f_equal. lia.
  - pose proof (number_uint n ltac:(lia)) as [_ Hs]. pose proof (parse_print_uint (2 ^ (bits - 1) - 1) n) as Hp.
    assert (str_all is_digit (print_uint n) = true) as Hd by (apply print_digits_digits; [lia|done]).
    unfold parse_int. destruct (print_uint n) as [|a d]; [done|]. simpl in Hd.
    apply andb_prop in Hd as [Ha _]. unfold is_digit in Ha.
    rewrite andb_true_iff, !Nat.leb_le in Ha. destruct (Nat.eqb_spec (byte a) 45); [lia|].
    apply Hp. lia.
Qed.
