(* ===== verification/Logging.v ===== *)
(** * logging: levels, the threshold and the two outputs *)
From S2P Require Import Prelude GoStrings GoOs.

(** type Level uint32, its constants in order *)
Definition PanicLevel : Z := 0.
Definition ErrorLevel : Z := 1.
Definition WarningLevel : Z := 2.
Definition InfoLevel : Z := 3.
Definition DebugLevel : Z := 4.
Definition VerboseLevel : Z := 5.
Definition MaxLevel : Z := 6.
Definition UnknownLevel : Z := 7.

(** Level.String *)
Definition level_string (l : Z) : string :=
  if decide (l = PanicLevel) then "panic"
  else if decide (l = ErrorLevel) then "error"
  else if decide (l = WarningLevel) then "warning"
  else if decide (l = InfoLevel) then "info"
  else if decide (l = DebugLevel) then "debug"
  else if decide (l = VerboseLevel) then "verbose"
  else "unknown".

(** Where a line was written: standard error, or the open log file. *)
Inductive sink := Stderr | LogFp (path : string).

#[global] Instance sink_eq_dec : EqDecision sink.
Proof. solve_decision. Defined.

(** The package's variables, and the lines written so far, latest last: the
    output, the level in the header and the message. *)
Record log_state := LogState {
  loggingStderr : bool;
  loggingFp : option string;
  loggingLevel : Z;
  written_lines : list (sink * string * string)
}.

(** init *)
Definition log_init : log_state := LogState true None WarningLevel [].

Definition Printf (level : Z) (msg : string) (s : log_state) : log_state :=
  if decide (loggingLevel s < level)%Z then s
  else
    let to_stderr := if loggingStderr s then [(Stderr, level_string level, msg)] else [] in
    let to_file := match loggingFp s with
                   | Some p => [(LogFp p, level_string level, msg)]
                   | None => []
                   end in
    LogState (loggingStderr s) (loggingFp s) (loggingLevel s)
      (written_lines s ++ to_stderr ++ to_file).

Definition Verbosef (msg : string) : log_state → log_state := Printf VerboseLevel msg.
Definition Debugf (msg : string) : log_state → log_state := Printf DebugLevel msg.
Definition Infof (msg : string) : log_state → log_state := Printf InfoLevel msg.
Definition Warningf (msg : string) : log_state → log_state := Printf WarningLevel msg.

(** Errorf: the line, and the error that it returns whatever the threshold. *)
Definition Errorf (msg : string) (s : log_state) : error * log_state :=
  (ErrNew msg, Printf ErrorLevel msg s).

(** Panicf: it logs, with a stack trace, and returns. *)
Definition Panicf (msg stack : string) (s : log_state) : log_state :=
  let s := Printf PanicLevel msg s in
  let s := Printf PanicLevel "========= Stack trace output ========" s in
  let s := Printf PanicLevel stack s in
  Printf PanicLevel "========= Stack trace output end ========" s.

Definition GetLoggingLevel (levelStr : string) : Z :=
  let l := to_lower levelStr in
  if decide (l = "verbose") then VerboseLevel
  else if decide (l = "debug") then DebugLevel
  else if decide (l = "info") then InfoLevel
  else if decide (l = "warning") then WarningLevel
  else if decide (l = "error") then ErrorLevel
  else if decide (l = "panic") then PanicLevel
  else UnknownLevel.

Definition SetLogLevel (levelStr : string) (s : log_state) : log_state :=
  let level := GetLoggingLevel levelStr in
  if decide (level < MaxLevel)%Z
  then LogState (loggingStderr s) (loggingFp s) level (written_lines s) else s.

Definition SetLogStderr (enable : bool) (s : log_state) : log_state :=
  LogState enable (loggingFp s) (loggingLevel s) (written_lines s).

(** os.OpenFile(f, O_WRONLY|O_CREATE|O_APPEND, 0644) *)
Definition os_open_append (p : string) : go fs unit :=
  on_path SysWrite p (λ c f,
    match fs_lookup f c, fs_lookup f (cp_parent c) with
    | Some (File _ _), _ => (Ok tt, f)
    | Some Dir, _ => (Err (ErrOs EISDIR), f)
    | Some (Sock _), _ => (Err (ErrOs EIO), f)
    | None, Some Dir =>
        (Ok tt, fs_with_nodes f (<[c := File EmptyString (fs_now f)]> (fs_nodes f)))
    | None, Some _ => (Err (ErrOs ENOTDIR), f)
    | None, None => (Err (ErrOs ENOENT), f)
    end).

(** SetLogFile: a file that cannot be opened leaves logging without a file. *)
Definition SetLogFile (filename : string) : go (log_state * fs) unit :=
  if decide (filename = EmptyString) then mret tt
  else
    r ← attempt (on_snd (os_open_append filename));
    let fp := match r with inl _ => None | inr _ => Some filename end in
    on_fst (modify (λ s, LogState (loggingStderr s) fp (loggingLevel s) (written_lines s))).

(** ** Properties *)

Lemma level_cases l :
  (0 ≤ l ≤ 5)%Z → l = 0%Z ∨ l = 1%Z ∨ l = 2%Z ∨ l = 3%Z ∨ l = 4%Z ∨ l = 5%Z.
Proof. lia. Qed.

(** The names of the levels and the levels are one to one: the name of a
    level, in any case, sets that level; every other text leaves the threshold as
    it is. *)
Theorem SetLogLevel_spec s :
  (∀ l name, (0 ≤ l < MaxLevel)%Z → to_lower name = level_string l →
     loggingLevel (SetLogLevel name s) = l) ∧
  (∀ name, (∀ l, (0 ≤ l < MaxLevel)%Z → to_lower name ≠ level_string l) → SetLogLevel name s = s).
Proof.
  unfold SetLogLevel, GetLoggingLevel, MaxLevel. split.
  - intros l name Hl ->. destruct (level_cases l) as [->|[->|[->|[->|[->| ->]]]]]; [lia|done..].
  - intros name Hno.
    pose proof (Hno 0%Z ltac:(lia)) as N0. pose proof (Hno 1%Z ltac:(lia)) as N1.
    pose proof (Hno 2%Z ltac:(lia)) as N2. pose proof (Hno 3%Z ltac:(lia)) as N3.
    pose proof (Hno 4%Z ltac:(lia)) as N4. pose proof (Hno 5%Z ltac:(lia)) as N5.
    change (to_lower name ≠ "panic") in N0. change (to_lower name ≠ "error") in N1.
    change (to_lower name ≠ "warning") in N2. change (to_lower name ≠ "info") in N3.
    change (to_lower name ≠ "debug") in N4. change (to_lower name ≠ "verbose") in N5.
    assert (GetLoggingLevel name = UnknownLevel) as Hun
      by (unfold GetLoggingLevel; by rewrite !decide_False).
    unfold GetLoggingLevel in Hun. by rewrite Hun, decide_False.
Qed.

(** A message is written exactly when its level is at most the threshold, to
    standard error when that is enabled and to the log file when one is open; a
    level that is written stays written under every higher threshold. *)
Theorem Printf_threshold level msg s :
  (loggingLevel s < level → Printf level msg s = s)%Z ∧
  (level ≤ loggingLevel s →
   ∃ new, written_lines (Printf level msg s) = written_lines s ++ new ∧
     ∀ k n m, (k, n, m) ∈ new ↔
       n = level_string level ∧ m = msg ∧
       (k = Stderr ∧ loggingStderr s = true ∨ ∃ p, k = LogFp p ∧ loggingFp s = Some p))%Z.
Proof.
  unfold Printf. split; intros Hl; [by rewrite decide_True|].
  rewrite decide_False by lia. simpl. eexists. split; [done|]. intros k n m.
  rewrite elem_of_app. destruct (loggingStderr s), (loggingFp s) as [p|];
    rewrite ?elem_of_cons, ?elem_of_nil; naive_solver.
Qed.
