(* ===== verification/Types.v ===== *)
(** * The data model (pkg/types), and the data of the libraries it is made of

    One Module per Go struct, with the struct's field names.  Machine integers
    are values of Z; the width of a field is stated by the [wf] predicate of
    its struct.  Of the structs of other libraries (the CNI result and command
    arguments, the Kubernetes Pod) the fields this program reads are kept. *)
From S2P Require Import Prelude GoStrings Json.

Module MemifConf.
Record t := mk {
  Role : string;
  Mode : string;
  RxQueues : Z;        (* uint8 *)
  TxQueues : Z;        (* uint8 *)
  RingSize : Z;        (* uint32 *)
  BufferSize : Z;      (* uint16 *)
  Secret : string;
  NoZeroCopy : bool;
  UseDma : bool;
  Socketfile : string
}.
Definition zero : t := mk "" "" 0 0 0 0 "" false false "".
(** Assignments to single fields. *)
Definition set_Role (v : string) (c : t) : t :=
  mk v (Mode c) (RxQueues c) (TxQueues c) (RingSize c) (BufferSize c) (Secret c) (NoZeroCopy c)
     (UseDma c) (Socketfile c).
Definition set_Mode (v : string) (c : t) : t :=
  mk (Role c) v (RxQueues c) (TxQueues c) (RingSize c) (BufferSize c) (Secret c) (NoZeroCopy c)
     (UseDma c) (Socketfile c).
Definition set_RxQueues (v : Z) (c : t) : t :=
  mk (Role c) (Mode c) v (TxQueues c) (RingSize c) (BufferSize c) (Secret c) (NoZeroCopy c)
     (UseDma c) (Socketfile c).
Definition set_TxQueues (v : Z) (c : t) : t :=
  mk (Role c) (Mode c) (RxQueues c) v (RingSize c) (BufferSize c) (Secret c) (NoZeroCopy c)
     (UseDma c) (Socketfile c).
Definition set_RingSize (v : Z) (c : t) : t :=
  mk (Role c) (Mode c) (RxQueues c) (TxQueues c) v (BufferSize c) (Secret c) (NoZeroCopy c)
     (UseDma c) (Socketfile c).
Definition set_BufferSize (v : Z) (c : t) : t :=
  mk (Role c) (Mode c) (RxQueues c) (TxQueues c) (RingSize c) v (Secret c) (NoZeroCopy c)
     (UseDma c) (Socketfile c).
Definition set_Secret (v : string) (c : t) : t :=
  mk (Role c) (Mode c) (RxQueues c) (TxQueues c) (RingSize c) (BufferSize c) v (NoZeroCopy c)
     (UseDma c) (Socketfile c).
Definition set_NoZeroCopy (v : bool) (c : t) : t :=
  mk (Role c) (Mode c) (RxQueues c) (TxQueues c) (RingSize c) (BufferSize c) (Secret c) v
     (UseDma c) (Socketfile c).
Definition set_UseDma (v : bool) (c : t) : t :=
  mk (Role c) (Mode c) (RxQueues c) (TxQueues c) (RingSize c) (BufferSize c) (Secret c)
     (NoZeroCopy c) v (Socketfile c).
Definition set_Socketfile (v : string) (c : t) : t :=
  mk (Role c) (Mode c) (RxQueues c) (TxQueues c) (RingSize c) (BufferSize c) (Secret c)
     (NoZeroCopy c) (UseDma c) v.
Definition wf (c : t) : Prop :=
  (0 ≤ RxQueues c < 2 ^ 8)%Z ∧ (0 ≤ TxQueues c < 2 ^ 8)%Z ∧
  (0 ≤ RingSize c < 2 ^ 32)%Z ∧ (0 ≤ BufferSize c < 2 ^ 16)%Z.
#[global] Instance t_eq_dec : EqDecision t.
Proof. solve_decision. Defined.
End MemifConf.

Module VhostConf.
Record t := mk {
  Mode : string;
  Group : string;
  EnableGso : bool;
  EnablePacked : bool;
  EnableEventIdx : bool;
  IngressPolicingRate : Z;   (* int *)
  IngressPolicingBurst : Z;  (* int *)
  Socketfile : string
}.
Definition zero : t := mk "" "" false false false 0 0 "".
(** Assignments to single fields. *)
Definition set_Mode (v : string) (c : t) : t :=
  mk v (Group c) (EnableGso c) (EnablePacked c) (EnableEventIdx c) (IngressPolicingRate c)
     (IngressPolicingBurst c) (Socketfile c).
Definition set_Group (v : string) (c : t) : t :=
  mk (Mode c) v (EnableGso c) (EnablePacked c) (EnableEventIdx c) (IngressPolicingRate c)
     (IngressPolicingBurst c) (Socketfile c).
Definition set_EnableGso (v : bool) (c : t) : t :=
  mk (Mode c) (Group c) v (EnablePacked c) (EnableEventIdx c) (IngressPolicingRate c)
     (IngressPolicingBurst c) (Socketfile c).
Definition set_EnablePacked (v : bool) (c : t) : t :=
  mk (Mode c) (Group c) (EnableGso c) v (EnableEventIdx c) (IngressPolicingRate c)
     (IngressPolicingBurst c) (Socketfile c).
Definition set_EnableEventIdx (v : bool) (c : t) : t :=
  mk (Mode c) (Group c) (EnableGso c) (EnablePacked c) v (IngressPolicingRate c)
     (IngressPolicingBurst c) (Socketfile c).
Definition set_IngressPolicingRate (v : Z) (c : t) : t :=
  mk (Mode c) (Group c) (EnableGso c) (EnablePacked c) (EnableEventIdx c) v
     (IngressPolicingBurst c) (Socketfile c).
Definition set_IngressPolicingBurst (v : Z) (c : t) : t :=
  mk (Mode c) (Group c) (EnableGso c) (EnablePacked c) (EnableEventIdx c) (IngressPolicingRate c)
     v (Socketfile c).
Definition set_Socketfile (v : string) (c : t) : t :=
  mk (Mode c) (Group c) (EnableGso c) (EnablePacked c) (EnableEventIdx c) (IngressPolicingRate c)
     (IngressPolicingBurst c) v.
#[global] Instance t_eq_dec : EqDecision t.
Proof. solve_decision. Defined.
End VhostConf.

Module BridgeConf.
Record t := mk {
  BridgeName : string;
  BridgeId : Z;        (* int *)
  VlanId : Z;          (* int *)
  Trunks : list Z;     (* []int *)
  VlanMode : string
}.
Definition zero : t := mk "" 0 0 [] "".
(** Assignments to single fields. *)
Definition set_BridgeName (v : string) (c : t) : t :=
  mk v (BridgeId c) (VlanId c) (Trunks c) (VlanMode c).
Definition set_BridgeId (v : Z) (c : t) : t :=
  mk (BridgeName c) v (VlanId c) (Trunks c) (VlanMode c).
Definition set_VlanId (v : Z) (c : t) : t :=
  mk (BridgeName c) (BridgeId c) v (Trunks c) (VlanMode c).
Definition set_Trunks (v : list Z) (c : t) : t :=
  mk (BridgeName c) (BridgeId c) (VlanId c) v (VlanMode c).
Definition set_VlanMode (v : string) (c : t) : t :=
  mk (BridgeName c) (BridgeId c) (VlanId c) (Trunks c) v.
#[global] Instance t_eq_dec : EqDecision t.
Proof. solve_decision. Defined.
End BridgeConf.

Module UserSpaceConf.
Record t := mk {
  Engine : string;
  IfType : string;
  NetType : string;
  MTU : Z;             (* int *)
  MAC : string;
  MemifConf : MemifConf.t;
  VhostConf : VhostConf.t;
  BridgeConf : BridgeConf.t
}.
Definition zero : t := mk "" "" "" 0 "" MemifConf.zero VhostConf.zero BridgeConf.zero.
(** Assignments to single fields. *)
Definition set_Engine (v : string) (c : t) : t :=
  mk v (IfType c) (NetType c) (MTU c) (MAC c) (MemifConf c) (VhostConf c) (BridgeConf c).
Definition set_IfType (v : string) (c : t) : t :=
  mk (Engine c) v (NetType c) (MTU c) (MAC c) (MemifConf c) (VhostConf c) (BridgeConf c).
Definition set_NetType (v : string) (c : t) : t :=
  mk (Engine c) (IfType c) v (MTU c) (MAC c) (MemifConf c) (VhostConf c) (BridgeConf c).
Definition set_MTU (v : Z) (c : t) : t :=
  mk (Engine c) (IfType c) (NetType c) v (MAC c) (MemifConf c) (VhostConf c) (BridgeConf c).
Definition set_MAC (v : string) (c : t) : t :=
  mk (Engine c) (IfType c) (NetType c) (MTU c) v (MemifConf c) (VhostConf c) (BridgeConf c).
Definition set_MemifConf (v : MemifConf.t) (c : t) : t :=
  mk (Engine c) (IfType c) (NetType c) (MTU c) (MAC c) v (VhostConf c) (BridgeConf c).
Definition set_VhostConf (v : VhostConf.t) (c : t) : t :=
  mk (Engine c) (IfType c) (NetType c) (MTU c) (MAC c) (MemifConf c) v (BridgeConf c).
Definition set_BridgeConf (v : BridgeConf.t) (c : t) : t :=
  mk (Engine c) (IfType c) (NetType c) (MTU c) (MAC c) (MemifConf c) (VhostConf c) v.
#[global] Instance t_eq_dec : EqDecision t.
Proof. solve_decision. Defined.
End UserSpaceConf.

(** args.cni of the CNI configuration: raw JSON values by key, nil or a map. *)
Module PluginArgs.
Record t := mk { Cni : option (gmap string json) }.
End PluginArgs.

Module NetConf.
Record t := mk {
  IPAM_Type : string;             (* types.NetConf.IPAM.Type *)
  KubeConfig : string;
  SharedDir : string;
  LogFile : string;
  LogLevel : string;
  Args : option PluginArgs.t;     (* *PluginArgs *)
  Name : string;
  HostConf : UserSpaceConf.t;
  ContainerConf : UserSpaceConf.t
}.
Definition zero : t := mk "" "" "" "" "" None "" UserSpaceConf.zero UserSpaceConf.zero.
(** Assignments to single fields. *)
Definition set_IPAM_Type (v : string) (c : t) : t :=
  mk v (KubeConfig c) (SharedDir c) (LogFile c) (LogLevel c) (Args c) (Name c) (HostConf c)
     (ContainerConf c).
Definition set_KubeConfig (v : string) (c : t) : t :=
  mk (IPAM_Type c) v (SharedDir c) (LogFile c) (LogLevel c) (Args c) (Name c) (HostConf c)
     (ContainerConf c).
Definition set_SharedDir (v : string) (c : t) : t :=
  mk (IPAM_Type c) (KubeConfig c) v (LogFile c) (LogLevel c) (Args c) (Name c) (HostConf c)
     (ContainerConf c).
Definition set_LogFile (v : string) (c : t) : t :=
  mk (IPAM_Type c) (KubeConfig c) (SharedDir c) v (LogLevel c) (Args c) (Name c) (HostConf c)
     (ContainerConf c).
Definition set_LogLevel (v : string) (c : t) : t :=
  mk (IPAM_Type c) (KubeConfig c) (SharedDir c) (LogFile c) v (Args c) (Name c) (HostConf c)
     (ContainerConf c).
Definition set_Args (v : option PluginArgs.t) (c : t) : t :=
  mk (IPAM_Type c) (KubeConfig c) (SharedDir c) (LogFile c) (LogLevel c) v (Name c) (HostConf c)
     (ContainerConf c).
Definition set_Name (v : string) (c : t) : t :=
  mk (IPAM_Type c) (KubeConfig c) (SharedDir c) (LogFile c) (LogLevel c) (Args c) v (HostConf c)
     (ContainerConf c).
Definition set_HostConf (v : UserSpaceConf.t) (c : t) : t :=
  mk (IPAM_Type c) (KubeConfig c) (SharedDir c) (LogFile c) (LogLevel c) (Args c) (Name c) v
     (ContainerConf c).
Definition set_ContainerConf (v : UserSpaceConf.t) (c : t) : t :=
  mk (IPAM_Type c) (KubeConfig c) (SharedDir c) (LogFile c) (LogLevel c) (Args c) (Name c)
     (HostConf c) v.
End NetConf.

(** skel.CmdArgs *)
Module CmdArgs.
Record t := mk {
  ContainerID : string;
  Netns : string;
  IfName : string;
  Args : string;
  StdinData : string
}.
End CmdArgs.

(** The CNI result (types/100): addresses as bytes, masks as their size. *)
Module Result.
Record ip_net := IPNet { IP : list Z; Mask_ones : Z; Mask_bits : Z }.
Record ip_config := IPConfig { Address : ip_net; Gateway : string }.
Record interface := Interface { Name : string; Mac : string; Sandbox : string }.
Record t := mk {
  Interfaces : list interface;
  IPs : list ip_config;
  Routes : list (string * string)
}.
Definition zero : t := mk [] [] [].
#[global] Instance ip_net_eq_dec : EqDecision ip_net.
Proof. solve_decision. Defined.
#[global] Instance ip_config_eq_dec : EqDecision ip_config.
Proof. solve_decision. Defined.
#[global] Instance interface_eq_dec : EqDecision interface.
Proof. solve_decision. Defined.
#[global] Instance t_eq_dec : EqDecision t.
Proof. solve_decision. Defined.
End Result.

Module ConfigurationData.
Record t := mk {
  ContainerId : string;
  IfName : string;
  Name : string;
  Config : UserSpaceConf.t;
  IPResult : Result.t
}.
Definition zero : t := mk "" "" "" UserSpaceConf.zero Result.zero.
(** Assignments to single fields. *)
Definition set_ContainerId (v : string) (c : t) : t :=
  mk v (IfName c) (Name c) (Config c) (IPResult c).
Definition set_IfName (v : string) (c : t) : t :=
  mk (ContainerId c) v (Name c) (Config c) (IPResult c).
Definition set_Name (v : string) (c : t) : t :=
  mk (ContainerId c) (IfName c) v (Config c) (IPResult c).
Definition set_Config (v : UserSpaceConf.t) (c : t) : t :=
  mk (ContainerId c) (IfName c) (Name c) v (IPResult c).
Definition set_IPResult (v : Result.t) (c : t) : t :=
  mk (ContainerId c) (IfName c) (Name c) (Config c) v.
#[global] Instance t_eq_dec : EqDecision t.
Proof. solve_decision. Defined.
End ConfigurationData.

Definition DefaultSwIfIndex : Z := 4294967295.

(** v1.Pod: the fields the program reads and writes. *)
Module Pod.
Record volume := Volume {
  VolName : string;
  HostPath : option string;   (* *HostPathVolumeSource: its Path *)
  EmptyDir : bool             (* *EmptyDirVolumeSource is not nil *)
}.
Record volume_mount := VolumeMount { MountName : string; MountPath : string }.
Record container := Container { VolumeMounts : list volume_mount }.
Record t := mk {
  Namespace : string;
  Name : string;
  UID : string;
  Annotations : gmap string string;
  Volumes : list volume;
  Containers : list container
}.
Definition set_Annotations (v : gmap string string) (p : t) : t :=
  mk (Namespace p) (Name p) (UID p) v (Volumes p) (Containers p).
End Pod.
