(* ===== verification/JsonCodec.v ===== *)
(** * encoding/json and the structs of pkg/types

    Unmarshal fills a variable field by field: a key is matched to a field by
    its exact name or else without regard to case, unknown keys are ignored, a
    later key overwrites or merges into what an earlier one set, null leaves a
    field alone, and a value of the wrong type makes the whole call fail.  A
    decoder is therefore a function from the value and the variable's old
    contents.  Marshal leaves out the empty fields tagged omitempty.  The structs
    of the CNI library inside (the result, the base of NetConf) have their own
    codec, which is not part of the repository: the class [CniLib]. *)
From S2P Require Import Prelude GoStrings Json Types.

Notation decoder A := (json → A → result A).

Definition err_json_type : error := ErrNew "json: cannot unmarshal value into Go value".
Definition err_json_syntax : error := ErrNew "json: invalid character".

Definition d_string : decoder string := λ j old,
  match j with JNull => inr old | JStr s => inr s | _ => inl err_json_type end.

Definition d_bool : decoder bool := λ j old,
  match j with JNull => inr old | JBool b => inr b | _ => inl err_json_type end.

Definition d_uint (bits : Z) : decoder Z := λ j old,
  match j with
  | JNull => inr old
  | JNum lit => match parse_uint bits lit with inr n => inr n | inl _ => inl err_json_type end
  | _ => inl err_json_type
  end.

Definition d_int (bits : Z) : decoder Z := λ j old,
  match j with
  | JNull => inr old
  | JNum lit => match parse_int bits lit with inr n => inr n | inl _ => inl err_json_type end
  | _ => inl err_json_type
  end.

(** A slice: every element is decoded into a zero value. *)
Fixpoint d_elems {A} (zero : A) (d : decoder A) (l : list json) : result (list A) :=
  match l with
  | [] => inr []
  | j :: l' =>
      match d j zero with
      | inl e => inl e
      | inr a => match d_elems zero d l' with inl e => inl e | inr r => inr (a :: r) end
      end
  end.

Definition d_list {A} (zero : A) (d : decoder A) : decoder (list A) := λ j _,
  match j with
  | JNull => inr []
  | JArr l => d_elems zero d l
  | _ => inl err_json_type
  end.

(** A pointer: null makes it nil. *)
Definition d_ptr {A} (zero : A) (d : decoder A) : decoder (option A) := λ j old,
  match j with
  | JNull => inr None
  | _ => match d j (default zero old) with inl e => inl e | inr a => inr (Some a) end
  end.

(** A map with string keys and raw values; null makes it nil. *)
Definition d_raw_map : decoder (option (gmap string json)) := λ j old,
  match j with
  | JNull => inr None
  | JObj kvs => inr (Some (foldl (λ m kv, <[kv.1 := kv.2]> m) (default ∅ old) kvs))
  | _ => inl err_json_type
  end.

(** ** Structs *)

Notation field A := (string * decoder A)%type.

Definition find_field {A} (fs : list (field A)) (key : string) : option (decoder A) :=
  match List.find (λ f, bool_decide (f.1 = key)) fs with
  | Some f => Some f.2
  | None => snd <$> List.find (λ f, equal_fold key f.1) fs
  end.

Fixpoint d_members {A} (fs : list (field A)) (kvs : list (string * json)) (old : A) : result A :=
  match kvs with
  | [] => inr old
  | (k, v) :: kvs' =>
      match find_field fs k with
      | None => d_members fs kvs' old
      | Some d =>
          match d v old with
          | inl e => inl e
          | inr new => d_members fs kvs' new
          end
      end
  end.

Definition d_struct {A} (fs : list (field A)) : decoder A := λ j old,
  match j with
  | JNull => inr old
  | JObj kvs => d_members fs kvs old
  | _ => inl err_json_type
  end.

(** A field of a struct: how to read and assign it, and its type's decoder. *)
Definition fld {A B} (name : string) (get : A → B) (set : B → A → A) (d : decoder B) : field A :=
  (name, λ j old, match d j (get old) with inl e => inl e | inr b => inr (set b old) end).

(** json.Unmarshal(text, &v) *)
Definition unmarshal {A} (d : decoder A) (text : string) (old : A) : result A :=
  match json_parse text with
  | None => inl err_json_syntax
  | Some j => d j old
  end.

(** ** The structs of the CNI library *)

(** A result is an argument of json.Marshal and of json.Unmarshal.  Either may fail
    (an address whose length is not one of an address is an error of Marshal), and
    what is read need not be what was written (an address of four bytes comes back
    as sixteen). *)
Class CniLib := {
  result_to_json : Result.t → result json;
  result_of_json : decoder Result.t;
  (* types.NetConf, embedded in NetConf: IPAM.Type *)
  base_of_json : json → result string
}.

(** The output of json.Marshal is a JSON value, in UTF-8. *)
Class CniLibLaws `{CniLib} := {
  law_result_wf r j : result_to_json r = inr j → wf_json j
}.

(** ** The structs of pkg/types: decoding *)

Definition MemifConf_fields : list (field MemifConf.t) :=
  [fld "role" MemifConf.Role MemifConf.set_Role d_string;
   fld "mode" MemifConf.Mode MemifConf.set_Mode d_string;
   fld "rxQueues" MemifConf.RxQueues MemifConf.set_RxQueues (d_uint 8);
   fld "txQueues" MemifConf.TxQueues MemifConf.set_TxQueues (d_uint 8);
   fld "ringSize" MemifConf.RingSize MemifConf.set_RingSize (d_uint 32);
   fld "bufferSize" MemifConf.BufferSize MemifConf.set_BufferSize (d_uint 16);
   fld "secret" MemifConf.Secret MemifConf.set_Secret d_string;
   fld "noZeroCopy" MemifConf.NoZeroCopy MemifConf.set_NoZeroCopy d_bool;
   fld "useDma" MemifConf.UseDma MemifConf.set_UseDma d_bool;
   fld "socketfile" MemifConf.Socketfile MemifConf.set_Socketfile d_string].
Definition d_MemifConf : decoder MemifConf.t := d_struct MemifConf_fields.

Definition VhostConf_fields : list (field VhostConf.t) :=
  [fld "mode" VhostConf.Mode VhostConf.set_Mode d_string;
   fld "group" VhostConf.Group VhostConf.set_Group d_string;
   fld "enableGso" VhostConf.EnableGso VhostConf.set_EnableGso d_bool;
   fld "enablePacked" VhostConf.EnablePacked VhostConf.set_EnablePacked d_bool;
   fld "enableEventIdx" VhostConf.EnableEventIdx VhostConf.set_EnableEventIdx d_bool;
   fld "ingressPolicingRate" VhostConf.IngressPolicingRate VhostConf.set_IngressPolicingRate (d_int 64);
   fld "ingressPolicingBurst" VhostConf.IngressPolicingBurst VhostConf.set_IngressPolicingBurst (d_int 64);
   fld "socketfile" VhostConf.Socketfile VhostConf.set_Socketfile d_string].
Definition d_VhostConf : decoder VhostConf.t := d_struct VhostConf_fields.

Definition BridgeConf_fields : list (field BridgeConf.t) :=
  [fld "bridgeName" BridgeConf.BridgeName BridgeConf.set_BridgeName d_string;
   fld "bridgeId" BridgeConf.BridgeId BridgeConf.set_BridgeId (d_int 64);
   fld "vlanId" BridgeConf.VlanId BridgeConf.set_VlanId (d_int 64);
   fld "trunks" BridgeConf.Trunks BridgeConf.set_Trunks (d_list 0%Z (d_int 64));
   fld "vlanMode" BridgeConf.VlanMode BridgeConf.set_VlanMode d_string].
Definition d_BridgeConf : decoder BridgeConf.t := d_struct BridgeConf_fields.

Definition UserSpaceConf_fields : list (field UserSpaceConf.t) :=
  [fld "engine" UserSpaceConf.Engine UserSpaceConf.set_Engine d_string;
   fld "iftype" UserSpaceConf.IfType UserSpaceConf.set_IfType d_string;
   fld "netType" UserSpaceConf.NetType UserSpaceConf.set_NetType d_string;
   fld "mtu" UserSpaceConf.MTU UserSpaceConf.set_MTU (d_int 64);
   fld "mac" UserSpaceConf.MAC UserSpaceConf.set_MAC d_string;
   fld "memif" UserSpaceConf.MemifConf UserSpaceConf.set_MemifConf d_MemifConf;
   fld "vhost" UserSpaceConf.VhostConf UserSpaceConf.set_VhostConf d_VhostConf;
   fld "bridge" UserSpaceConf.BridgeConf UserSpaceConf.set_BridgeConf d_BridgeConf].
Definition d_UserSpaceConf : decoder UserSpaceConf.t := d_struct UserSpaceConf_fields.

Definition PluginArgs_fields : list (field PluginArgs.t) :=
  [fld "cni" PluginArgs.Cni (λ v _, PluginArgs.mk v) d_raw_map].
Definition d_PluginArgs : decoder PluginArgs.t := d_struct PluginArgs_fields.

Section Cni.
Context `{CniLib}.

Definition ConfigurationData_fields : list (field ConfigurationData.t) :=
  [fld "containerId" ConfigurationData.ContainerId ConfigurationData.set_ContainerId d_string;
   fld "ifName" ConfigurationData.IfName ConfigurationData.set_IfName d_string;
   fld "name" ConfigurationData.Name ConfigurationData.set_Name d_string;
   fld "config" ConfigurationData.Config ConfigurationData.set_Config d_UserSpaceConf;
   fld "ipResult" ConfigurationData.IPResult ConfigurationData.set_IPResult result_of_json].
Definition d_ConfigurationData : decoder ConfigurationData.t := d_struct ConfigurationData_fields.

(** The fields NetConf declares itself; those of the embedded types.NetConf
    are read from the same object. *)
Definition NetConf_fields : list (field NetConf.t) :=
  [fld "kubeconfig" NetConf.KubeConfig NetConf.set_KubeConfig d_string;
   fld "sharedDir" NetConf.SharedDir NetConf.set_SharedDir d_string;
   fld "logFile" NetConf.LogFile NetConf.set_LogFile d_string;
   fld "logLevel" NetConf.LogLevel NetConf.set_LogLevel d_string;
   fld "args" NetConf.Args NetConf.set_Args (d_ptr (PluginArgs.mk None) d_PluginArgs);
   fld "name" NetConf.Name NetConf.set_Name d_string;
   fld "host" NetConf.HostConf NetConf.set_HostConf d_UserSpaceConf;
   fld "container" NetConf.ContainerConf NetConf.set_ContainerConf d_UserSpaceConf].
Definition d_NetConf : decoder NetConf.t := λ j old,
  match d_struct NetConf_fields j old with
  | inl e => inl e
  | inr c =>
      match base_of_json j with
      | inl e => inl e
      | inr ipam => inr (NetConf.set_IPAM_Type ipam c)
      end
  end.
End Cni.

(** ** The structs of pkg/types: encoding *)

(** A field of the output; one tagged omitempty is left out when empty. *)
Definition omitempty (empty : bool) (name : string) (v : json) : list (string * json) :=
  if empty then [] else [(name, v)].

Definition e_string (name s : string) : list (string * json) :=
  omitempty (bool_decide (s = EmptyString)) name (JStr s).
Definition e_bool (name : string) (b : bool) : list (string * json) :=
  omitempty (negb b) name (JBool b).
Definition e_int (name : string) (n : Z) : list (string * json) :=
  omitempty (bool_decide (n = 0%Z)) name (JNum (print_int n)).

Definition e_MemifConf (c : MemifConf.t) : json := JObj
  (e_string "role" (MemifConf.Role c) ++
   e_string "mode" (MemifConf.Mode c) ++
   e_int "rxQueues" (MemifConf.RxQueues c) ++
   e_int "txQueues" (MemifConf.TxQueues c) ++
   e_int "ringSize" (MemifConf.RingSize c) ++
   e_int "bufferSize" (MemifConf.BufferSize c) ++
   e_string "secret" (MemifConf.Secret c) ++
   e_bool "noZeroCopy" (MemifConf.NoZeroCopy c) ++
   e_bool "useDma" (MemifConf.UseDma c) ++
   e_string "socketfile" (MemifConf.Socketfile c) ++ []).

Definition e_VhostConf (c : VhostConf.t) : json := JObj
  (e_string "mode" (VhostConf.Mode c) ++
   e_string "group" (VhostConf.Group c) ++
   e_bool "enableGso" (VhostConf.EnableGso c) ++
   e_bool "enablePacked" (VhostConf.EnablePacked c) ++
   e_bool "enableEventIdx" (VhostConf.EnableEventIdx c) ++
   e_int "ingressPolicingRate" (VhostConf.IngressPolicingRate c) ++
   e_int "ingressPolicingBurst" (VhostConf.IngressPolicingBurst c) ++
   e_string "socketfile" (VhostConf.Socketfile c) ++ []).

Definition e_BridgeConf (c : BridgeConf.t) : json := JObj
  (e_string "bridgeName" (BridgeConf.BridgeName c) ++
   e_int "bridgeId" (BridgeConf.BridgeId c) ++
   e_int "vlanId" (BridgeConf.VlanId c) ++
   omitempty (bool_decide (BridgeConf.Trunks c = [])) "trunks"
     (JArr ((λ n, JNum (print_int n)) <$> BridgeConf.Trunks c)) ++
   e_string "vlanMode" (BridgeConf.VlanMode c) ++ []).

Definition e_UserSpaceConf (c : UserSpaceConf.t) : json := JObj
  (e_string "engine" (UserSpaceConf.Engine c) ++
   e_string "iftype" (UserSpaceConf.IfType c) ++
   e_string "netType" (UserSpaceConf.NetType c) ++
   e_int "mtu" (UserSpaceConf.MTU c) ++
   e_string "mac" (UserSpaceConf.MAC c) ++
   omitempty false "memif" (e_MemifConf (UserSpaceConf.MemifConf c)) ++
   omitempty false "vhost" (e_VhostConf (UserSpaceConf.VhostConf c)) ++
   omitempty false "bridge" (e_BridgeConf (UserSpaceConf.BridgeConf c)) ++ []).

(** Marshal fails when the result inside cannot be written. *)
Definition e_ConfigurationData `{CniLib} (c : ConfigurationData.t) : result json :=
  match result_to_json (ConfigurationData.IPResult c) with
  | inl e => inl e
  | inr ip => inr (JObj
      (omitempty false "containerId" (JStr (ConfigurationData.ContainerId c)) ++
       omitempty false "ifName" (JStr (ConfigurationData.IfName c)) ++
       omitempty false "name" (JStr (ConfigurationData.Name c)) ++
       omitempty false "config" (e_UserSpaceConf (ConfigurationData.Config c)) ++
       omitempty false "ipResult" ip ++ []))
  end.

(** ** Reading back what was written *)

(** A field that was written, or left out, is read as its value. *)
Lemma d_members_field {A} (fs : list (field A)) (d : decoder A) name empty v kvs old new :
  find_field fs name = Some d → d v old = inr new → (empty = true → new = old) →
  d_members fs (omitempty empty name v ++ kvs) old = d_members fs kvs new.
Proof.
  intros Hf Hd He. unfold omitempty. destruct empty; [by rewrite He|].
  simpl. by rewrite Hf, Hd.
Qed.

Lemma d_int_print bits n old :
  (0 < bits)%Z → (- 2 ^ (bits - 1) ≤ n < 2 ^ (bits - 1))%Z →
  d_int bits (JNum (print_int n)) old = inr n.
Proof. intros Hb Hn. simpl. by rewrite parse_print_int. Qed.

Lemma d_uint_print bits n old :
  (0 ≤ n < 2 ^ bits)%Z → d_uint bits (JNum (print_int n)) old = inr n.
Proof.
  intros Hn. unfold d_uint, print_int. rewrite decide_False by lia. unfold parse_uint.
  pose proof (print_uint_ne n). pose proof (parse_print_uint (2 ^ bits - 1) n ltac:(lia)) as Hp.
  destruct (print_uint n); [done|]. by rewrite Hp.
Qed.

Lemma d_ints_print l :
  Forall (λ n, - 2 ^ 63 ≤ n < 2 ^ 63)%Z l →
  d_elems 0%Z (d_int 64) ((λ n, JNum (print_int n)) <$> l) = inr l.
Proof.
  induction 1 as [|n l Hn Hl IH]; [done|]. rewrite fmap_cons. cbn [d_elems].
  rewrite (d_int_print 64 n) by (done || lia). by rewrite IH.
Qed.

(** The field of a name, by position. *)
Lemma find_field_skip {A} (f : field A) fs name d :
  f.1 ≠ name → (∃ g, List.find (λ f, bool_decide (f.1 = name)) fs = Some g ∧ g.2 = d) →
  ∃ g, List.find (λ f, bool_decide (f.1 = name)) (f :: fs) = Some g ∧ g.2 = d.
Proof. intros Hne Hex. simpl. by rewrite bool_decide_false. Qed.

Lemma find_field_here {A} (f : field A) fs name :
  f.1 = name → ∃ g, List.find (λ f, bool_decide (f.1 = name)) (f :: fs) = Some g ∧ g.2 = f.2.
Proof. intros Heq. simpl. rewrite bool_decide_true by done. by exists f. Qed.

Lemma find_field_exact {A} (fs : list (field A)) name d :
  (∃ g, List.find (λ f, bool_decide (f.1 = name)) fs = Some g ∧ g.2 = d) →
  find_field fs name = Some d.
Proof. unfold find_field. by intros (g & -> & ->). Qed.

Section Fields.
Context {A : Type} (fs : list (field A)).

Lemma d_members_fld {B} name (get : A → B) set d empty v kvs old b :
  find_field fs name = Some (fld name get set d).2 → d v (get old) = inr b →
  (empty = true → set b old = old) →
  d_members fs (omitempty empty name v ++ kvs) old = d_members fs kvs (set b old).
Proof. intros Hf Hd He. eapply d_members_field; [exact Hf| |done]. simpl. by rewrite Hd. Qed.

Lemma d_members_string name get set s kvs old :
  find_field fs name = Some (fld name get set d_string).2 →
  (s = EmptyString → set s old = old) →
  d_members fs (e_string name s ++ kvs) old = d_members fs kvs (set s old).
Proof. intros Hf He. eapply d_members_fld; [exact Hf|done|]. by rewrite bool_decide_eq_true. Qed.

Lemma d_members_bool name get set b kvs old :
  find_field fs name = Some (fld name get set d_bool).2 →
  (b = false → set b old = old) →
  d_members fs (e_bool name b ++ kvs) old = d_members fs kvs (set b old).
Proof. intros Hf He. eapply d_members_fld; [exact Hf|done|]. by rewrite negb_true_iff. Qed.

Lemma d_members_uint bits name get set n kvs old :
  (0 ≤ n < 2 ^ bits)%Z →
  find_field fs name = Some (fld name get set (d_uint bits)).2 →
  (n = 0%Z → set n old = old) →
  d_members fs (e_int name n ++ kvs) old = d_members fs kvs (set n old).
Proof.
  intros Hn Hf He. eapply d_members_fld; [exact Hf|by apply d_uint_print|].
  by rewrite bool_decide_eq_true.
Qed.

Lemma d_members_int name get set n kvs old :
  (- 2 ^ 63 ≤ n < 2 ^ 63)%Z →
  find_field fs name = Some (fld name get set (d_int 64)).2 →
  (n = 0%Z → set n old = old) →
  d_members fs (e_int name n ++ kvs) old = d_members fs kvs (set n old).
Proof.
  intros Hn Hf He. eapply d_members_fld; [exact Hf|by apply (d_int_print 64)|].
  by rewrite bool_decide_eq_true.
Qed.

Lemma d_members_always {B} name (get : A → B) set d v kvs old b :
  find_field fs name = Some (fld name get set d).2 → d v (get old) = inr b →
  d_members fs ((name, v) :: kvs) old = d_members fs kvs (set b old).
Proof. intros Hf Hd. simpl. rewrite Hf. simpl. by rewrite Hd. Qed.
End Fields.

(** One field after the other, in the order of the struct. *)
Ltac by_lookup :=
  apply find_field_exact;
  repeat first [apply find_field_here; reflexivity | apply find_field_skip; [discriminate|]].
Ltac eval_old :=
  match goal with |- d_members ?fs ?kvs ?old = ?r =>
    let o := eval cbv in old in change (d_members fs kvs o = r) end.
Ltac f_string g s :=
  etrans; [apply (d_members_string _ _ g s); [by_lookup|by intros ->]|eval_old].
Ltac f_bool g s :=
  etrans; [apply (d_members_bool _ _ g s); [by_lookup|by intros ->]|eval_old].
Ltac f_uint n g s :=
  etrans; [apply (d_members_uint _ n _ g s); [done|by_lookup|by intros ->]|eval_old].
Ltac f_int g s :=
  etrans; [apply (d_members_int _ _ g s); [done|by_lookup|by intros ->]|eval_old].
Ltac f_struct g s d lem :=
  etrans; [apply (d_members_always _ _ g s d); [by_lookup|by apply lem]|eval_old].

Lemma codec_MemifConf c : MemifConf.wf c → d_MemifConf (e_MemifConf c) MemifConf.zero = inr c.
Proof.
  intros (H1 & H2 & H3 & H4). destruct c as [ro mo rx tx ri bu se nz ud so].
  f_string MemifConf.Role MemifConf.set_Role. f_string MemifConf.Mode MemifConf.set_Mode.
  f_uint 8%Z MemifConf.RxQueues MemifConf.set_RxQueues.
  f_uint 8%Z MemifConf.TxQueues MemifConf.set_TxQueues.
  f_uint 32%Z MemifConf.RingSize MemifConf.set_RingSize.
  f_uint 16%Z MemifConf.BufferSize MemifConf.set_BufferSize.
  f_string MemifConf.Secret MemifConf.set_Secret.
  f_bool MemifConf.NoZeroCopy MemifConf.set_NoZeroCopy.
  f_bool MemifConf.UseDma MemifConf.set_UseDma.
  f_string MemifConf.Socketfile MemifConf.set_Socketfile.
  reflexivity.
Qed.

Notation int64 n := (- 2 ^ 63 ≤ n < 2 ^ 63)%Z.

Definition VhostConf_wf (c : VhostConf.t) : Prop :=
  int64 (VhostConf.IngressPolicingRate c) ∧ int64 (VhostConf.IngressPolicingBurst c).

Lemma codec_VhostConf c : VhostConf_wf c → d_VhostConf (e_VhostConf c) VhostConf.zero = inr c.
Proof.
  intros (H1 & H2). destruct c as [mo gr gs pa ev ra bu so].
  f_string VhostConf.Mode VhostConf.set_Mode. f_string VhostConf.Group VhostConf.set_Group.
  f_bool VhostConf.EnableGso VhostConf.set_EnableGso.
  f_bool VhostConf.EnablePacked VhostConf.set_EnablePacked.
  f_bool VhostConf.EnableEventIdx VhostConf.set_EnableEventIdx.
  f_int VhostConf.IngressPolicingRate VhostConf.set_IngressPolicingRate.
  f_int VhostConf.IngressPolicingBurst VhostConf.set_IngressPolicingBurst.
  f_string VhostConf.Socketfile VhostConf.set_Socketfile.
  reflexivity.
Qed.

Definition BridgeConf_wf (c : BridgeConf.t) : Prop :=
  int64 (BridgeConf.BridgeId c) ∧ int64 (BridgeConf.VlanId c) ∧
  Forall (λ n, int64 n) (BridgeConf.Trunks c).

Lemma codec_BridgeConf c : BridgeConf_wf c → d_BridgeConf (e_BridgeConf c) BridgeConf.zero = inr c.
Proof.
  intros (H1 & H2 & H3). destruct c as [na id vl tr mo]. simpl in *.
  f_string BridgeConf.BridgeName BridgeConf.set_BridgeName.
  f_int BridgeConf.BridgeId BridgeConf.set_BridgeId.
  f_int BridgeConf.VlanId BridgeConf.set_VlanId.
  etrans; [apply (d_members_fld _ _ BridgeConf.Trunks BridgeConf.set_Trunks
    (d_list 0%Z (d_int 64)) _ _ _ _ tr); [by_lookup|by apply d_ints_print|]|].
  { rewrite bool_decide_eq_true. simpl. by intros ->. }
  eval_old.
  f_string BridgeConf.VlanMode BridgeConf.set_VlanMode.
  reflexivity.
Qed.

Definition UserSpaceConf_wf (c : UserSpaceConf.t) : Prop :=
  int64 (UserSpaceConf.MTU c) ∧ MemifConf.wf (UserSpaceConf.MemifConf c) ∧
  VhostConf_wf (UserSpaceConf.VhostConf c) ∧ BridgeConf_wf (UserSpaceConf.BridgeConf c).

Lemma codec_UserSpaceConf c :
  UserSpaceConf_wf c → d_UserSpaceConf (e_UserSpaceConf c) UserSpaceConf.zero = inr c.
Proof.
  intros (H1 & H2 & H3 & H4). destruct c as [en it nt mt ma me vh br]. simpl in *.
  f_string UserSpaceConf.Engine UserSpaceConf.set_Engine.
  f_string UserSpaceConf.IfType UserSpaceConf.set_IfType.
  f_string UserSpaceConf.NetType UserSpaceConf.set_NetType.
  f_int UserSpaceConf.MTU UserSpaceConf.set_MTU.
  f_string UserSpaceConf.MAC UserSpaceConf.set_MAC.
  f_struct UserSpaceConf.MemifConf UserSpaceConf.set_MemifConf d_MemifConf codec_MemifConf.
  f_struct UserSpaceConf.VhostConf UserSpaceConf.set_VhostConf d_VhostConf codec_VhostConf.
  f_struct UserSpaceConf.BridgeConf UserSpaceConf.set_BridgeConf d_BridgeConf codec_BridgeConf.
  reflexivity.
Qed.

(** ** Texts *)

(** The strings of a value are UTF-8 texts. *)
Definition text (s : string) : Prop := valid_utf8 s = true.

Definition MemifConf_text (c : MemifConf.t) : Prop :=
  Forall text [MemifConf.Role c; MemifConf.Mode c; MemifConf.Secret c; MemifConf.Socketfile c].
Definition VhostConf_text (c : VhostConf.t) : Prop :=
  Forall text [VhostConf.Mode c; VhostConf.Group c; VhostConf.Socketfile c].
Definition BridgeConf_text (c : BridgeConf.t) : Prop :=
  Forall text [BridgeConf.BridgeName c; BridgeConf.VlanMode c].
Definition UserSpaceConf_text (c : UserSpaceConf.t) : Prop :=
  Forall text [UserSpaceConf.Engine c; UserSpaceConf.IfType c; UserSpaceConf.NetType c;
               UserSpaceConf.MAC c] ∧
  MemifConf_text (UserSpaceConf.MemifConf c) ∧ VhostConf_text (UserSpaceConf.VhostConf c) ∧
  BridgeConf_text (UserSpaceConf.BridgeConf c).

(** What [wf_json] asks of the members of an object. *)
Definition wf_members (kvs : list (string * json)) : Prop :=
  Forall (λ kv, text kv.1 ∧ wf_json kv.2) kvs.

Lemma wf_json_obj kvs : wf_members kvs → wf_json (JObj kvs).
Proof.
  unfold wf_members. rewrite Forall_forall. intros Hall.
  apply wf_obj; intros kv Hkv; by apply Hall in Hkv as [??].
Qed.

Lemma wf_omitempty empty name v kvs :
  text name → wf_json v → wf_members kvs → wf_members (omitempty empty name v ++ kvs).
Proof. intros Hn Hv Hk. unfold omitempty. destruct empty; [done|]. by constructor. Qed.

Lemma wf_e_string name s kvs :
  text name → text s → wf_members kvs → wf_members (e_string name s ++ kvs).
Proof. intros. apply wf_omitempty; [done| |done]. by constructor. Qed.

Lemma wf_e_int name n kvs : text name → wf_members kvs → wf_members (e_int name n ++ kvs).
Proof. intros. apply wf_omitempty; [done| |done]. constructor. apply number_int. Qed.

Lemma wf_e_bool name b kvs : text name → wf_members kvs → wf_members (e_bool name b ++ kvs).
Proof. intros. apply wf_omitempty; [done| |done]. constructor. Qed.

Ltac wf_fields :=
  repeat first [apply wf_e_string; [done|done|] | apply wf_e_int; [done|]
               | apply wf_e_bool; [done|] | apply Forall_nil_2].

Lemma wf_e_MemifConf c : MemifConf_text c → wf_json (e_MemifConf c).
Proof.
  unfold MemifConf_text. rewrite !Forall_cons. intros (? & ? & ? & ? & _).
  apply wf_json_obj. wf_fields.
Qed.

Lemma wf_e_VhostConf c : VhostConf_text c → wf_json (e_VhostConf c).
Proof.
  unfold VhostConf_text. rewrite !Forall_cons. intros (? & ? & ? & _).
  apply wf_json_obj. wf_fields.
Qed.

Lemma wf_e_BridgeConf c : BridgeConf_text c → wf_json (e_BridgeConf c).
Proof.
  unfold BridgeConf_text. rewrite !Forall_cons. intros (? & ? & _).
  apply wf_json_obj. wf_fields. apply wf_omitempty; [done| |wf_fields].
  apply wf_arr. intros j (n & -> & _)%list_elem_of_fmap. constructor. apply number_int.
Qed.

Lemma wf_e_UserSpaceConf c : UserSpaceConf_text c → wf_json (e_UserSpaceConf c).
Proof.
  unfold UserSpaceConf_text. rewrite !Forall_cons.
  intros ((? & ? & ? & ? & _) & ?%wf_e_MemifConf & ?%wf_e_VhostConf & ?%wf_e_BridgeConf).
  apply wf_json_obj. wf_fields. repeat (apply wf_omitempty; [done|done|]). constructor.
Qed.

Section Roundtrip.
Context `{CniLibLaws}.

Definition ConfigurationData_text (c : ConfigurationData.t) : Prop :=
  Forall text [ConfigurationData.ContainerId c; ConfigurationData.IfName c;
               ConfigurationData.Name c] ∧
  UserSpaceConf_text (ConfigurationData.Config c).

Definition ConfigurationData_wf (c : ConfigurationData.t) : Prop :=
  ConfigurationData_text c ∧ UserSpaceConf_wf (ConfigurationData.Config c).

(** The data as it is read from its own text: every field of the repository's own
    types as it was, the IPResult as the CNI library reads what it wrote. *)
Definition read_back (c : ConfigurationData.t) : result ConfigurationData.t :=
  match result_to_json (ConfigurationData.IPResult c) with
  | inl e => inl e
  | inr ip =>
      match result_of_json ip Result.zero with
      | inl e => inl e
      | inr r => inr (ConfigurationData.set_IPResult r c)
      end
  end.

(** The result can be read from the text that is written for it. *)
Definition readable (c : ConfigurationData.t) : Prop := ∃ c', read_back c = inr c'.

Lemma codec_ConfigurationData c j :
  ConfigurationData_wf c → e_ConfigurationData c = inr j →
  d_ConfigurationData j ConfigurationData.zero = read_back c.
Proof.
  intros (_ & Hwf). unfold e_ConfigurationData, read_back.
  destruct (result_to_json _) as [e|ip]; [done|]. intros [= <-].
  destruct c as [id ifn na co re]. simpl in Hwf.
  f_struct ConfigurationData.ContainerId ConfigurationData.set_ContainerId d_string (@eq_refl (result string)).
  f_struct ConfigurationData.IfName ConfigurationData.set_IfName d_string (@eq_refl (result string)).
  f_struct ConfigurationData.Name ConfigurationData.set_Name d_string (@eq_refl (result string)).
  f_struct ConfigurationData.Config ConfigurationData.set_Config d_UserSpaceConf codec_UserSpaceConf.
  cbn. assert (find_field ConfigurationData_fields "ipResult" = Some (fld "ipResult"
    ConfigurationData.IPResult ConfigurationData.set_IPResult result_of_json).2) as -> by by_lookup.
  change (Result.mk [] [] []) with Result.zero. simpl. by destruct (result_of_json ip _).
Qed.

Lemma wf_e_ConfigurationData c j :
  ConfigurationData_wf c → e_ConfigurationData c = inr j → wf_json j.
Proof.
  unfold ConfigurationData_wf, ConfigurationData_text, e_ConfigurationData. rewrite !Forall_cons.
  intros (((? & ? & ? & _) & ?%wf_e_UserSpaceConf) & _).
  destruct (result_to_json _) as [e|ip] eqn:Hip; [done|]. intros [= <-].
  pose proof (law_result_wf _ _ Hip). apply wf_json_obj.
  repeat (apply Forall_cons; split; [split; [done|first [done|by constructor]]|]). constructor.
Qed.

(** C33: The configuration data handed to a container survives the way through its
    text.  Of any data whose strings are UTF-8, whose numbers fit the types of their
    fields and which can be marshalled, the text of MarshalIndent (the annotation)
    and that of Marshal (the file) are read by Unmarshal as the same data, but for
    the IPResult: this is what the CNI library makes of the text it wrote for it, and
    the only thing that can make the call fail. *)
Theorem ConfigurationData_roundtrip c j :
  ConfigurationData_wf c → e_ConfigurationData c = inr j →
  unmarshal d_ConfigurationData (json_print j) ConfigurationData.zero = read_back c ∧
  unmarshal d_ConfigurationData (json_indent 0 j) ConfigurationData.zero = read_back c.
Proof.
  intros Hwf Hj. pose proof (wf_e_ConfigurationData _ _ Hwf Hj).
  unfold unmarshal. rewrite json_parse_print, json_parse_indent by done.
  split; by apply codec_ConfigurationData.
Qed.
End Roundtrip.

(** ** The types of decoded values *)

(** A decoder that fills a variable of a type leaves it one of that type. *)
Definition respects {A} (P : A → Prop) (d : decoder A) : Prop :=
  ∀ j old new, P old → d j old = inr new → P new.

Lemma respects_uint bits : (0 ≤ bits)%Z → respects (λ n, 0 ≤ n < 2 ^ bits)%Z (d_uint bits).
Proof.
  intros Hb j old new Hold. destruct j; simpl; try done; [by intros [= <-]|].
  destruct (parse_uint bits lit) eqn:E; [done|]. intros [= <-]. by eapply parse_uint_range.
Qed.

Lemma respects_int bits :
  (1 ≤ bits)%Z → respects (λ n, - 2 ^ (bits - 1) ≤ n < 2 ^ (bits - 1))%Z (d_int bits).
Proof.
  intros Hb j old new Hold. destruct j; simpl; try done; [by intros [= <-]|].
  destruct (parse_int bits lit) eqn:E; [done|]. intros [= <-]. by eapply parse_int_range.
Qed.

Lemma respects_list {A} (P : A → Prop) zero d :
  P zero → respects P d → respects (Forall P) (d_list zero d).
Proof.
  intros Hz Hd j old new _. destruct j; simpl; try done; [by intros [= <-]|].
  revert new. induction l as [|x l IH]; intros new; simpl; [by intros [= <-]|].
  destruct (d x zero) eqn:E; [done|]. destruct (d_elems zero d l); [done|].
  intros [= <-]. constructor; [by eapply Hd|by apply IH].
Qed.

Lemma respects_struct {A} (P : A → Prop) fs :
  Forall (λ f : field A, respects P f.2) fs → respects P (d_struct fs).
Proof.
  intros Hfs j old new Hold. destruct j as [| | | | |kvs]; simpl; try done; [by intros [= <-]|].
  revert old Hold. induction kvs as [|[k v] kvs IH]; intros old Hold; simpl; [by intros [= <-]|].
  assert (∀ d, find_field fs k = Some d → respects P d) as Hfind.
  { rewrite Forall_forall in Hfs. unfold find_field.
    destruct (List.find _ fs) as [f|] eqn:E.
    - intros d [= <-]. apply List.find_some in E as [E _]. by apply Hfs, list_elem_of_In.
    - intros d. destruct (List.find (λ f, equal_fold k f.1) fs) as [f|] eqn:E'; [|done].
      intros [= <-]. apply List.find_some in E' as [E' _]. by apply Hfs, list_elem_of_In. }
  destruct (find_field fs k) as [d|]; [|by apply IH].
  destruct (d v old) eqn:E; [done|]. apply IH. by eapply Hfind.
Qed.

(** A field whose type has the invariant [Q]; one without an invariant. *)
Lemma respects_fld {A B} (P : A → Prop) (Q : B → Prop) name get set d :
  respects Q d → (∀ a, P a → Q (get a)) → (∀ a b, P a → Q b → P (set b a)) →
  respects P (fld name get set d).2.
Proof.
  intros Hd Hget Hset j old new Hold. simpl. destruct (d j (get old)) eqn:E; [done|].
  intros [= <-]. apply Hset; [done|]. eapply Hd; [|exact E]. by apply Hget.
Qed.

Lemma respects_any {A B} (P : A → Prop) name (get : A → B) set d :
  (∀ a b, P a → P (set b a)) → respects P (fld name get set d).2.
Proof.
  intros Hset j old new Hold. simpl. destruct (d j (get old)); [done|].
  intros [= <-]. by apply Hset.
Qed.

(** The fields of a struct, with what unfolds its invariant. *)
Ltac respects_field unf :=
  first
    [ apply respects_any; intros []; unf; simpl; tauto
    | eapply respects_fld;
      [ first [ eassumption | apply respects_uint; lia | apply respects_int; lia
              | apply (respects_list (λ n, int64 n)); [lia|apply (respects_int 64); lia] ]
      | intros []; unf; simpl; tauto
      | intros [] ?; unf; simpl; tauto ] ].
Ltac respects_fields unf :=
  apply respects_struct;
  repeat (apply Forall_cons; split; [respects_field unf|]); apply Forall_nil; exact I.

Lemma respects_MemifConf : respects MemifConf.wf d_MemifConf.
Proof. respects_fields ltac:(unfold MemifConf.wf). Qed.

Lemma respects_VhostConf : respects VhostConf_wf d_VhostConf.
Proof. respects_fields ltac:(unfold VhostConf_wf). Qed.

Lemma respects_BridgeConf : respects BridgeConf_wf d_BridgeConf.
Proof. respects_fields ltac:(unfold BridgeConf_wf). Qed.

Lemma respects_UserSpaceConf : respects UserSpaceConf_wf d_UserSpaceConf.
Proof.
  pose proof respects_MemifConf. pose proof respects_VhostConf. pose proof respects_BridgeConf.
  respects_fields ltac:(unfold UserSpaceConf_wf).
Qed.

Section Typed.
Context `{CniLib}.

(** What a configuration's machine integers are. *)
Definition NetConf_wf (c : NetConf.t) : Prop :=
  UserSpaceConf_wf (NetConf.HostConf c) ∧ UserSpaceConf_wf (NetConf.ContainerConf c).

Lemma UserSpaceConf_zero_wf : UserSpaceConf_wf UserSpaceConf.zero.
Proof.
  unfold UserSpaceConf_wf, MemifConf.wf, VhostConf_wf, BridgeConf_wf. simpl.
  split_and!; lia || constructor.
Qed.

(** Unmarshal fills a configuration with numbers of their fields' types. *)
Lemma unmarshal_NetConf_wf text c :
  unmarshal d_NetConf text NetConf.zero = inr c → NetConf_wf c.
Proof.
  pose proof respects_UserSpaceConf as HU. pose proof UserSpaceConf_zero_wf as Hz.
  unfold unmarshal. destruct (json_parse text) as [j|]; [|done].
  unfold d_NetConf. destruct (d_struct _ j _) as [|c0] eqn:E; [done|].
  destruct (base_of_json j) as [|ipam]; [done|]. intros [= <-].
  assert (respects NetConf_wf (d_struct NetConf_fields)) as Hd
    by (respects_fields ltac:(unfold NetConf_wf)).
  apply Hd in E; [|by split]. by destruct c0.
Qed.
End Typed.
