(* ===== verification/Annotations.v ===== *)
(** * pkg/annotations: the data a pod carries in its annotations and volumes *)
From S2P Require Import Prelude GoStrings GoOs Json Types JsonCodec.

Definition annotKeyNetwork : string := "k8s.v1.cni.cncf.io/networks".
Definition AnnotKeyUsrspConfigData : string := "userspace/configuration-data".
Definition AnnotKeyUsrspMappedDir : string := "userspace/mapped-dir".
Definition volMntKeySharedDir : string := "shared-dir".
Definition DefaultBaseCNIDir : string := "/var/lib/cni/usrspcni".
Definition DefaultLocalCNIDir : string := "/var/lib/cni/usrspcni/data".
Definition DefaultHostkubeletPodBaseDir : string := "/var/lib/kubelet/pods/".
Definition DefaultHostEmptyDirVolumeName : string := "volumes/kubernetes.io~empty-dir/".

(** The error types of the package. *)
Definition NoSharedDirProvidedError (msg : string) : error := ErrWrap "NoSharedDirProvidedError" (ErrNew msg).
Definition NoPodProvidedError : error :=
  ErrWrap "NoPodProvidedError" (ErrNew "Error: Pod not provided.").

Definition NoKubeClientProvidedError : error :=
  ErrWrap "NoKubeClientProvidedError" (ErrNew "Error: KubeClient not provided.").

(** ** The shared directory *)

(** The host directory of one volume. *)
Definition volume_dir (pod : Pod.t) (v : Pod.volume) : result string :=
  match Pod.HostPath v with
  | Some path => inr path
  | None =>
      if Pod.EmptyDir v then
        inr (DefaultHostkubeletPodBaseDir +:+ Pod.UID pod +:+ "/" +:+
             DefaultHostEmptyDirVolumeName +:+ volMntKeySharedDir)
      else inl (NoSharedDirProvidedError "Error: Volume is invalid")
  end.

(** The first volume named shared-dir decides. *)
Fixpoint shared_volume (pod : Pod.t) (vols : list Pod.volume) : result string :=
  match vols with
  | [] => inr EmptyString
  | v :: vols' =>
      if decide (Pod.VolName v = volMntKeySharedDir) then volume_dir pod v
      else shared_volume pod vols'
  end.

Definition GetPodVolumeMountHostSharedDir (pod : option Pod.t) : result string :=
  match pod with
  | None => inl NoPodProvidedError
  | Some pod =>
      match Pod.Volumes pod with
      | [] => inl (NoSharedDirProvidedError "Error: No Volumes")
      | vols =>
          match shared_volume pod vols with
          | inl err => inl err
          | inr dir =>
              if decide (dir = EmptyString)
              then inl (NoSharedDirProvidedError "Error: No shared-dir") else inr dir
          end
      end
  end.

(** Per container the first mount named shared-dir; the last container that has
    one decides. *)
Definition mapped_dir_step (mapped : string) (c : Pod.container) : string :=
  match List.find (λ m, bool_decide (Pod.MountName m = volMntKeySharedDir)) (Pod.VolumeMounts c) with
  | Some m => Pod.MountPath m
  | None => mapped
  end.

Definition getPodVolumeMountHostMappedSharedDir (pod : option Pod.t) : result string :=
  match pod with
  | None => inl NoPodProvidedError
  | Some pod =>
      match Pod.Containers pod with
      | [] => inl (NoSharedDirProvidedError "Error: No Containers")
      | cs =>
          let dir := foldl mapped_dir_step EmptyString cs in
          if decide (dir = EmptyString)
          then inl (NoSharedDirProvidedError "Error: No mapped shared-dir") else inr dir
      end
  end.

(** ** Writing annotations: the pod is changed in place *)

Definition annotation (pod : Pod.t) (key : string) : string :=
  default EmptyString (Pod.Annotations pod !! key).

Definition set_annotation (key v : string) (pod : Pod.t) : Pod.t :=
  Pod.set_Annotations (<[key := v]> (Pod.Annotations pod)) pod.

(** The result says whether the pod was modified; the pod may be nil. *)
Definition setPodAnnotationMappedDir (mappedDir : string) : go (option Pod.t) bool := λ pod,
  match pod with
  | None => (Err NoPodProvidedError, None)
  | Some p =>
      let annotDataStr := annotation p AnnotKeyUsrspMappedDir in
      if decide (annotDataStr ≠ EmptyString) then
        if decide (path_clean annotDataStr = path_clean mappedDir) then (Ok false, Some p)
        else (Err (ErrNew "SetPodAnnotationMappedDir: Input does not match existing"), Some p)
      else (Ok true, Some (set_annotation AnnotKeyUsrspMappedDir mappedDir p))
  end.

Definition lbracket (a : ascii) : bool := byte_is a 91.
Definition rbracket (a : ascii) : bool := byte_is a 93.

(** The new text of the annotation: the old one without its outer brackets, a
    comma, the new data, brackets around it all. *)
Definition appended_config (annotDataStr data : string) : string :=
  let old := if decide (annotDataStr ≠ EmptyString)
             then [trim_right_set rbracket (trim_left_set lbracket annotDataStr)] else [] in
  "[" +:+ str_join "," (old ++ [data]) +:+ "]".

Section Config.
Context `{CniLib}.

Definition setPodAnnotationConfigData (configData : option ConfigurationData.t)
  : go (option Pod.t) bool := λ pod,
  match pod with
  | None => (Err NoPodProvidedError, None)
  | Some p =>
      match configData with
      | None => (Ok false, Some p)
      | Some cd =>
          match e_ConfigurationData cd with
          | inl err => (Err (ErrWrap "SetPodAnnotationConfigData: error with Marshal Indent" err), Some p)
          | inr j =>
              let v := appended_config (annotation p AnnotKeyUsrspConfigData) (json_indent 0 j) in
              (Ok true, Some (set_annotation AnnotKeyUsrspConfigData v p))
          end
      end
  end.

(** ** Reading annotations in the container *)

(** logfmt.NewDecoder over a file's contents: its records of keys and values.
    The package is not part of the repository. *)
Class Logfmt := { logfmt_records : string → list (list (string * string)) }.
Context `{Logfmt}.

Definition getFileAnnotation (annotFile annotIndex : string) : go fs string :=
  r ← attempt (os_read_file annotFile);
  match r with
  | inl err => raise (ErrWrap "error reading" err)
  | inr fileData =>
      match List.find (λ kv, bool_decide (kv.1 = annotIndex)) (mjoin (logfmt_records fileData)) with
      | Some kv => mret kv.2
      | None => raise (ErrNew "ERROR: missing from pod annotation")
      end
  end.

Definition GetFileAnnotationMappedDir (annotFile : string) : go fs string :=
  getFileAnnotation annotFile AnnotKeyUsrspMappedDir.

(** A list of pointers: null elements are nil. *)
Definition d_ConfigurationData_list : decoder (list (option ConfigurationData.t)) :=
  d_list None (d_ptr ConfigurationData.zero d_ConfigurationData).

Definition json_start (a : ascii) : bool := existsb (byte_is a) [91; 123; 34].

Definition GetFileAnnotationConfigData (annotFile : string)
  : go fs (list (option ConfigurationData.t)) :=
  rawString ← getFileAnnotation annotFile AnnotKeyUsrspConfigData;
  if str_all (λ a, negb (json_start a)) rawString
  then raise (ErrNew "GetFileAnnotationConfigData: Invalid formatted JSON data")
  else
    match unmarshal d_ConfigurationData_list rawString [] with
    | inl err => raise (ErrWrap "GetFileAnnotationConfigData: Failed to parse" err)
    | inr l => mret l
    end.
End Config.

(** ** The shared directory *)

(** [v] is the first volume named shared-dir. *)
Definition first_shared (vols : list Pod.volume) (v : Pod.volume) : Prop :=
  ∃ vs1 vs2, vols = vs1 ++ v :: vs2 ∧ Pod.VolName v = volMntKeySharedDir ∧
    Forall (λ w, Pod.VolName w ≠ volMntKeySharedDir) vs1.

Lemma first_shared_cons w vols v :
  Pod.VolName w ≠ volMntKeySharedDir → first_shared vols v → first_shared (w :: vols) v.
Proof.
  intros Hw (vs1 & vs2 & -> & Hv & H1). exists (w :: vs1), vs2. split_and!; [done..|].
  by constructor.
Qed.

Lemma shared_volume_first pod vols :
  (∃ v, first_shared vols v ∧ shared_volume pod vols = volume_dir pod v) ∨
  Forall (λ w, Pod.VolName w ≠ volMntKeySharedDir) vols ∧ shared_volume pod vols = inr EmptyString.
Proof.
  induction vols as [|v vols IH]; simpl; [by right|]. case_decide as Hv.
  - left. exists v. split; [by exists [], vols|done].
  - destruct IH as [(w & ? & ?)|[? ?]]; [left|right].
    + exists w. split; [by apply first_shared_cons|done].
    + split; [by constructor|done].
Qed.

Lemma first_shared_unique vols v v' : first_shared vols v → first_shared vols v' → v = v'.
Proof.
  intros (vs1 & vs2 & -> & Hv & H1) (vs1' & vs2' & Heq & Hv' & H1').
  revert vs1' Heq H1'. induction H1 as [|x vs1 Hx H1 IH]; intros [|x' vs1'] Heq H1';
    simplify_eq/=; try done.
  - by apply Forall_cons in H1' as [? _].
  - apply Forall_cons in H1' as [_ ?]. by eapply IH.
Qed.

(** A pod's host shared directory is that of its first volume named
    shared-dir: a host path as it stands, an empty directory at the place where
    the kubelet keeps it for this pod.  The call is an error exactly when there is
    no such volume, it is of another kind, or its path is empty. *)
Theorem GetPodVolumeMountHostSharedDir_spec pod :
  match GetPodVolumeMountHostSharedDir (Some pod) with
  | inr dir => dir ≠ EmptyString ∧
      ∃ v, first_shared (Pod.Volumes pod) v ∧
        (Pod.HostPath v = Some dir ∨
         Pod.HostPath v = None ∧ Pod.EmptyDir v = true ∧
         dir = "/var/lib/kubelet/pods/" +:+ Pod.UID pod +:+
               "/volumes/kubernetes.io~empty-dir/shared-dir")
  | inl _ =>
      ∀ v, first_shared (Pod.Volumes pod) v →
        Pod.HostPath v = Some EmptyString ∨ Pod.HostPath v = None ∧ Pod.EmptyDir v = false
  end.
Proof.
  unfold GetPodVolumeMountHostSharedDir.
  pose proof (shared_volume_first pod (Pod.Volumes pod)) as Hfirst.
  destruct (Pod.Volumes pod) as [|v0 vols] eqn:Evol.
  { intros v (vs1 & vs2 & Heq & _). by destruct vs1. }
  rewrite <- Evol in Hfirst |- *. clear Evol v0 vols.
  destruct Hfirst as [(v & Hv & ->)|[Hno ->]]; cycle 1.
  { rewrite decide_True by done. intros v (vs1 & vs2 & Heq & Hv & _).
    rewrite Heq, Forall_app, Forall_cons in Hno. tauto. }
  unfold volume_dir. destruct (Pod.HostPath v) as [path|] eqn:Ep; [|destruct (Pod.EmptyDir v) eqn:Ee].
  - case_decide as Hp.
    + intros v' Hv'. left. rewrite (first_shared_unique _ _ _ Hv' Hv). congruence.
    + split; [done|]. exists v. tauto.
  - rewrite decide_False by done. split; [done|]. exists v. split_and!; [done|]. right. done.
  - intros v' Hv'. right. by rewrite (first_shared_unique _ _ _ Hv' Hv).
Qed.

(** ** Appending to the configuration data *)

Lemma trim_right_snoc p a s :
  trim_right_set p (s +:+ String a EmptyString) =
  if p a then trim_right_set p s else s +:+ String a EmptyString.
Proof.
  induction s as [|b s IH]; simpl; [by destruct (p a)|]. rewrite IH.
  destruct (p a); [done|]. by destruct s.
Qed.

(** A text in braces. *)
Definition braced (t : string) : Prop := ∃ u, t = "{" +:+ u +:+ "}".

Lemma indent_braced d kvs : braced (json_indent d (JObj kvs)).
Proof.
  cbn [json_indent]. destruct (List.map _ kvs) as [|x xs]; [by exists EmptyString|].
  exists (newline (S d) +:+ str_join ("," +:+ newline (S d)) (x :: xs) +:+ newline d).
  unfold block. by rewrite !str_app_assoc.
Qed.

Lemma join_braced l : l ≠ [] → Forall braced l → braced (str_join "," l).
Proof.
  intros Hne Hl. induction Hl as [|t l [u ->] Hl IH]; [done|]. destruct l as [|t' l].
  { by exists u. }
  destruct IH as [u' Hu']; [done|]. rewrite str_join_cons, Hu'.
  exists (u +:+ "}" +:+ "," +:+ "{" +:+ u'). by rewrite !str_app_assoc.
Qed.

(** Stripping the brackets off a list of objects gives the objects. *)
Lemma strip_brackets t :
  braced t → trim_right_set rbracket (trim_left_set lbracket ("[" +:+ t +:+ "]")) = t.
Proof.
  intros [u ->].
  change (trim_left_set lbracket ("[" +:+ ("{" +:+ u +:+ "}") +:+ "]"))
    with (("{" +:+ u +:+ "}") +:+ "]").
  rewrite trim_right_snoc. change (rbracket "]") with true. cbv iota.
  rewrite <- str_app_assoc, trim_right_snoc. done.
Qed.

Lemma str_join_snoc sep l x :
  l ≠ [] → str_join sep (l ++ [x]) = str_join sep [str_join sep l; x].
Proof.
  induction l as [|y l IH]; intros Hne; [done|]. destruct l as [|z l]; [done|].
  change ((y :: z :: l) ++ [x]) with (y :: (z :: (l ++ [x]))). rewrite str_join_cons.
  change (z :: l ++ [x]) with ((z :: l) ++ [x]). rewrite IH by done.
  rewrite !str_join_cons. by rewrite !str_app_assoc.
Qed.

Section Append.
Context `{CniLibLaws}.

(** The text of the annotation over the values [js]. *)
Definition annotation_text (js : list json) : string :=
  match js with
  | [] => EmptyString
  | _ => "[" +:+ str_join "," (json_indent 0 <$> js) +:+ "]"
  end.

(** The annotation as it stands after the data [l] was written. *)
Definition written (l : list ConfigurationData.t) (t : string) : Prop :=
  ∃ js, Forall2 (λ c j, e_ConfigurationData c = inr j) l js ∧ t = annotation_text js.

Lemma e_ConfigurationData_object c j :
  e_ConfigurationData c = inr j → ∃ kvs, j = JObj kvs.
Proof.
  unfold e_ConfigurationData. destruct (result_to_json _); [done|]. intros [= <-]. by eexists.
Qed.

Lemma appended_written l t c j :
  written l t → e_ConfigurationData c = inr j →
  written (l ++ [c]) (appended_config t (json_indent 0 j)).
Proof.
  intros (js & Hl & ->) Hj. exists (js ++ [j]). split; [by apply Forall2_app; [|constructor]|].
  unfold appended_config. destruct js as [|j0 js].
  { by rewrite decide_False by (by intros []). }
  assert (annotation_text ((j0 :: js) ++ [j]) =
    "[" +:+ str_join "," (json_indent 0 <$> (j0 :: js) ++ [j]) +:+ "]") as -> by done.
  unfold annotation_text. rewrite decide_True by done.
  rewrite strip_brackets; [|apply join_braced; [done|]].
  - rewrite fmap_app. simpl fmap at 3.
    by rewrite (str_join_snoc _ (json_indent 0 <$> j0 :: js)).
  - apply Forall_fmap, Forall_forall. intros x Hx.
    apply list_elem_of_lookup in Hx as [i Hx].
    destruct (Forall2_lookup_r _ _ _ _ _ Hl Hx) as (c0 & _ & Hc0).
    destruct (e_ConfigurationData_object _ _ Hc0) as [kvs ->]. apply indent_braced.
Qed.

(** The data [l] is read from its own texts as [l']. *)
Notation reads_as l l' := (Forall2 (λ c c', read_back c = inr c') l l').

Lemma d_elems_read l js l' :
  Forall ConfigurationData_wf l → Forall2 (λ c j, e_ConfigurationData c = inr j) l js →
  reads_as l l' →
  d_elems ConfigurationData.zero d_ConfigurationData js = inr l'.
Proof.
  intros Hwf Hl. revert l' Hwf. induction Hl as [|c j l js Hc Hl IH]; intros l' Hwf Hr.
  { by apply Forall2_nil_inv_l in Hr as ->. }
  apply Forall2_cons_inv_l in Hr as (c' & l'' & Hc' & Hr & ->).
  apply Forall_cons in Hwf as [Hwf Hwfs]. cbn [d_elems].
  by rewrite (codec_ConfigurationData _ _ Hwf Hc), Hc', (IH l'').
Qed.

(** What was written is read back. *)
Lemma written_read l t l' :
  l ≠ [] → Forall ConfigurationData_wf l → written l t → reads_as l l' →
  unmarshal (d_list ConfigurationData.zero d_ConfigurationData) t [] = inr l'.
Proof.
  intros Hne Hwf (js & Hl & ->) Hread.
  assert (js ≠ []) as Hjs by (intros ->; by apply Forall2_nil_inv_r in Hl).
  assert (renders (JArr js) (annotation_text js)) as Hr.
  { assert (annotation_text js = "[" +:+ (EmptyString +:+ str_join ("," +:+ EmptyString)
      (List.map (json_indent 0) js) +:+ EmptyString) +:+ "]") as ->.
    { rewrite str_app_nil_r. by destruct js. }
    apply r_arr, renders_join_elems; [done..|].
    intros j Hj. apply list_elem_of_lookup in Hj as [i Hj].
    destruct (Forall2_lookup_r _ _ _ _ _ Hl Hj) as (c & Hc%list_elem_of_lookup_2 & He).
    apply json_indent_renders. eapply wf_e_ConfigurationData; [|exact He].
    rewrite Forall_forall in Hwf. by apply Hwf. }
  pose proof (json_parse_renders _ _ EmptyString EmptyString Hr ws_nil ws_nil) as Hp.
  rewrite str_app_nil_r in Hp. change (EmptyString +:+ ?t) with t in Hp.
  unfold unmarshal. rewrite Hp. by eapply d_elems_read.
Qed.

(** Each interface of a pod adds its data to the annotation.  If the annotation is
    absent, or holds what earlier calls wrote for the data [l], and the new data can
    be marshalled, then the call succeeds, leaves the other annotations alone, and
    the new text reads back as [l] followed by the new data; data that cannot be
    marshalled is an error, and leaves the pod as it was. *)
Theorem setPodAnnotationConfigData_appends p l c :
  Forall ConfigurationData_wf l → ConfigurationData_wf c →
  written l (annotation p AnnotKeyUsrspConfigData) →
  match e_ConfigurationData c with
  | inl e => ∃ e', setPodAnnotationConfigData (Some c) (Some p) = (Err e', Some p)
  | inr _ => ∃ p', setPodAnnotationConfigData (Some c) (Some p) = (Ok true, Some p') ∧
      written (l ++ [c]) (annotation p' AnnotKeyUsrspConfigData) ∧
      (∀ l', reads_as (l ++ [c]) l' →
         unmarshal (d_list ConfigurationData.zero d_ConfigurationData)
           (annotation p' AnnotKeyUsrspConfigData) [] = inr l') ∧
      ∀ key, key ≠ AnnotKeyUsrspConfigData →
        Pod.Annotations p' !! key = Pod.Annotations p !! key
  end.
Proof.
  intros Hl Hc Hw. unfold setPodAnnotationConfigData.
  destruct (e_ConfigurationData c) as [e|j] eqn:Hj; [by eexists|].
  eexists. split; [done|].
  assert (∀ v, annotation (set_annotation AnnotKeyUsrspConfigData v p) AnnotKeyUsrspConfigData = v)
    as Hget by (intros v; unfold annotation, set_annotation; simpl; by rewrite lookup_insert_eq).
  rewrite Hget. pose proof (appended_written l _ c j Hw Hj) as Hw'. split_and!.
  - exact Hw'.
  - intros l'. apply written_read; [by destruct l|by apply Forall_app; split; [|constructor]|exact Hw'].
  - intros key Hkey. unfold set_annotation. simpl. by rewrite lookup_insert_ne.
Qed.
End Append.

(** The brackets are stripped as characters, not as a list: on an annotation
    that holds the empty list the call reports success, and leaves a text that is
    not JSON. *)
Theorem setPodAnnotationConfigData_empty_list `{CniLib} p c :
  annotation p AnnotKeyUsrspConfigData = "[]" → (∃ j, e_ConfigurationData c = inr j) →
  ∃ p', setPodAnnotationConfigData (Some c) (Some p) = (Ok true, Some p') ∧
    json_parse (annotation p' AnnotKeyUsrspConfigData) = None.
Proof.
  intros Hp [j Hj]. unfold setPodAnnotationConfigData. rewrite Hj. eexists. split; [done|].
  unfold annotation at 1, set_annotation. simpl Pod.Annotations. rewrite lookup_insert_eq, Hp.
  change (default EmptyString (Some ?t)) with t. unfold appended_config.
  rewrite decide_True by done.
  by generalize (json_indent 0 j); intros data.
Qed.

(** ** The mapped directory *)

(** The mapped directory is written once: a first call sets it, a later one
    with the same directory (up to cleaning) changes nothing, and one with
    another directory is an error that leaves the pod as it was. *)
Theorem setPodAnnotationMappedDir_spec p dir :
  let old := annotation p AnnotKeyUsrspMappedDir in
  match setPodAnnotationMappedDir dir (Some p) with
  | (Ok true, Some p') => old = EmptyString ∧ annotation p' AnnotKeyUsrspMappedDir = dir ∧
      (dir ≠ EmptyString → setPodAnnotationMappedDir dir (Some p') = (Ok false, Some p')) ∧
      ∀ key, key ≠ AnnotKeyUsrspMappedDir → Pod.Annotations p' !! key = Pod.Annotations p !! key
  | (Ok false, Some p') => p' = p ∧ old ≠ EmptyString ∧ path_clean old = path_clean dir
  | (Err _, Some p') => p' = p ∧ old ≠ EmptyString ∧ path_clean old ≠ path_clean dir
  | _ => False
  end.
Proof.
  simpl. unfold setPodAnnotationMappedDir. case_decide as Hold; [case_decide; done|].
  assert (annotation (set_annotation AnnotKeyUsrspMappedDir dir p) AnnotKeyUsrspMappedDir = dir)
    as Hget by (unfold annotation, set_annotation; simpl; by rewrite lookup_insert_eq).
  split_and!.
  - destruct (decide (annotation p AnnotKeyUsrspMappedDir = EmptyString)); [done|tauto].
  - done.
  - intros Hdir. by rewrite Hget, decide_True, decide_True.
  - intros key Hkey. unfold set_annotation. simpl. by rewrite lookup_insert_ne.
Qed.
