(* ===== verification/ConfigData.v ===== *)
(** * pkg/configdata and pkg/k8sclient: what a container is told

    The data for a container goes into an annotation of its pod (through the
    Kubernetes API, the class [KubeClient]) or into a file in the shared
    directory.  [FileCleanup] is the clean-up shared by both CNI engines. *)
From S2P Require Import Prelude GoStrings GoOs Json Types JsonCodec Annotations.

(** ** FileCleanup *)

(** The second half: a directory with nothing in it is removed. *)
Definition remove_if_empty (directory : string) : go fs unit :=
  if decide (directory ≠ EmptyString) then
    entries ← attempt (os_read_dir directory);
    match entries with
    | inr [] => os_remove directory
    | _ => mret tt
    end
  else mret tt.

Definition FileCleanup (directory filepath : string) : go fs unit :=
  (if decide (filepath ≠ EmptyString)
   then wrap_err "ERROR: Failed to delete file" (os_remove filepath) else mret tt) ;;
  remove_if_empty directory.

(** CleanupRemoteConfig: an error is only printed. *)
Definition CleanupRemoteConfig (sharedDir : string) : go fs unit :=
  ignore_err (os_remove_all sharedDir).

(** ** k8sclient.WritePodAnnotation *)

(** The clientset, and retry.RetryOnConflict with the default back-off.  The
    calls give a pod and an error, both of which the code assigns. *)
Class KubeClient := {
  kube : Type;
  kube_Get : string → string → kube → (Pod.t * option error) * kube;
  kube_UpdateStatus : Pod.t → kube → (Pod.t * option error) * kube;
  is_conflict : error → bool;
  RetryOnConflict {S} : go S unit → go S unit
}.

(** An attempt that ends the retrying: it succeeds, or fails with something else
    than a conflict. *)
Definition conclusive `{KubeClient} (o : outcome unit) : Prop :=
  o = Ok tt ∨ ∃ e, o = Err e ∧ is_conflict e = false.

(** What is documented of RetryOnConflict: an attempt that is conclusive is the
    last one, and after a first conflict there is a second attempt. *)
Class KubeLaws `{KubeClient} := {
  law_retry_first {S} (m : go S unit) s o s' :
    m s = (o, s') → conclusive o → RetryOnConflict m s = (o, s');
  law_retry_second {S} (m : go S unit) s e s1 o s2 :
    m s = (Err e, s1) → is_conflict e = true →
    m s1 = (o, s2) → conclusive o → RetryOnConflict m s = (o, s2)
}.

Section K8s.
Context `{KubeClient}.

(** The variables of WritePodAnnotation its closure shares: pod and err. *)
Notation attempt_vars := (Pod.t * option error)%type.

Definition kube_call (call : kube → (Pod.t * option error) * kube)
  : go (kube * attempt_vars) unit := λ s,
  let '(pe, k) := call s.1 in
  match pe.2 with
  | None => (Ok tt, (k, pe))
  | Some e => (Err e, (k, pe))
  end.

Definition update_attempt : go (kube * attempt_vars) unit :=
  vars ← gets snd;
  (if decide (vars.2 ≠ None)
   then kube_call (kube_Get (Pod.Namespace vars.1) (Pod.Name vars.1)) else mret tt) ;;
  vars ← gets snd;
  kube_call (kube_UpdateStatus vars.1).

Definition k8s_WritePodAnnotation (kubeClient : bool) (pod : option Pod.t) : go kube Pod.t := λ k,
  if negb kubeClient then (Err (ErrNew "WritePodAnnotation: No kubeClient"), k)
  else
  match pod with
  | None => (Err (ErrNew "WritePodAnnotation: No pod"), k)
  | Some p =>
      match RetryOnConflict update_attempt (k, (p, None)) with
      | (Ok _, (k', (p', _))) => (Ok p', k')
      | (Err e, (k', _)) => (Err (ErrWrap "status update failed for pod" e), k')
      | (Panicked w, (k', _)) => (Panicked w, k')
      | (Diverged, (k', _)) => (Diverged, k')
      end
  end.

(** ** annotations.WritePodAnnotation *)

Context `{CniLib}.

(** [pod] is changed in place; the pod returned is the API server's. *)
Definition WritePodAnnotation (kubeClient : bool) (configData : option ConfigurationData.t)
  : go (kube * option Pod.t) Pod.t :=
  pod ← gets snd;
  if decide (pod = None) then raise NoPodProvidedError
  else if negb kubeClient then raise NoKubeClientProvidedError
  else
    modifiedConfig ← on_snd (setPodAnnotationConfigData configData);
    pod ← gets snd;
    let mappedSharedDir := match getPodVolumeMountHostMappedSharedDir pod with
                           | inl _ => DefaultBaseCNIDir
                           | inr dir => dir
                           end in
    modifiedMappedDir ← on_snd (setPodAnnotationMappedDir mappedSharedDir);
    pod ← gets snd;
    if (modifiedConfig : bool) || (modifiedMappedDir : bool)
    then on_fst (k8s_WritePodAnnotation kubeClient pod)
    else match pod with
         | Some p => mret p
         | None => raise NoPodProvidedError
         end.
End K8s.

(** ** SaveRemoteConfig *)

(** The host's configuration turned around for the container. *)
Definition flip_memif (host conf : MemifConf.t) : MemifConf.t :=
  let conf := if decide (MemifConf.Role conf = EmptyString)
              then MemifConf.set_Role (if decide (MemifConf.Role host = "master") then "slave" else "master") conf
              else conf in
  let conf := if decide (MemifConf.Mode conf = EmptyString) then MemifConf.set_Mode (MemifConf.Mode host) conf
              else conf in
  MemifConf.set_Socketfile (MemifConf.Socketfile host) conf.

Definition flip_vhost (host conf : VhostConf.t) : VhostConf.t :=
  let conf := if decide (VhostConf.Mode conf = EmptyString)
              then VhostConf.set_Mode (if decide (VhostConf.Mode host = "client") then "server" else "client") conf
              else conf in
  VhostConf.set_Socketfile (VhostConf.Socketfile host) conf.

Definition container_config (host conf : UserSpaceConf.t) (ipResult : option Result.t) : UserSpaceConf.t :=
  let conf := if decide (UserSpaceConf.IfType conf = EmptyString) then UserSpaceConf.set_IfType (UserSpaceConf.IfType host) conf
              else conf in
  let conf := if decide (UserSpaceConf.NetType conf = EmptyString ∧ ipResult ≠ None)
              then UserSpaceConf.set_NetType "interface" conf else conf in
  if decide (UserSpaceConf.IfType conf = "memif") then
    UserSpaceConf.set_MemifConf (flip_memif (UserSpaceConf.MemifConf host) (UserSpaceConf.MemifConf conf)) conf
  else if decide (UserSpaceConf.IfType conf = "vhostuser") then
    UserSpaceConf.set_VhostConf (flip_vhost (UserSpaceConf.VhostConf host) (UserSpaceConf.VhostConf conf)) conf
  else conf.

Definition remote_config (conf : NetConf.t) (args : CmdArgs.t) (ipResult : option Result.t)
  : ConfigurationData.t :=
  ConfigurationData.mk (CmdArgs.ContainerID args) (CmdArgs.IfName args) (NetConf.Name conf)
    (container_config (NetConf.HostConf conf) (NetConf.ContainerConf conf) ipResult)
    (default Result.zero ipResult).

Section Save.
Context `{KubeClient} `{CniLib}.

(** The state of a save: the API server, the host's files and the pod. *)
Notation save_state := ((kube * option Pod.t) * fs)%type.

(** The file in the shared directory: configData-<containerID[:12]>-<ifName>.json *)
Definition save_file (args : CmdArgs.t) (sharedDir : string) (configData : ConfigurationData.t)
  : go fs unit :=
  ensure_dir sharedDir ;;
  id ← slice_to 12 (CmdArgs.ContainerID args);
  let fileName := "configData-" +:+ id +:+ "-" +:+ CmdArgs.IfName args +:+ ".json" in
  match e_ConfigurationData configData with
  | inl _ => raise (ErrNew "ERROR: serializing REMOTE NetConf data")
  | inr j => os_write_file (path_join [sharedDir; fileName]) (json_print j)
  end.

(** [kubeClient] says whether there is a client; conf and args may be nil. *)
Definition SaveRemoteConfig (conf : option NetConf.t) (args : option CmdArgs.t)
    (kubeClient : bool) (sharedDir : string) (ipResult : option Result.t)
  : go save_state (option Pod.t) :=
  match conf with
  | None => raise (ErrNew "SaveRemoteConfig(): Error conf is nil")
  | Some conf =>
  match args with
  | None => raise (ErrNew "SaveRemoteConfig(): Error args is nil")
  | Some args =>
      pod ← gets (λ s, s.1.2);
      if decide (pod = None) then raise (ErrNew "SaveRemoteConfig(): Error pod is nil")
      else
        let configData := remote_config conf args ipResult in
        if (kubeClient : bool) then
          p ← on_fst (WritePodAnnotation kubeClient (Some configData)); mret (Some p)
        else
          on_snd (save_file args sharedDir configData) ;;
          gets (λ s, s.1.2)
  end
  end.

(** ** GetRemoteConfig, in the container *)

Record InterfaceData := {
  id_Args : CmdArgs.t;
  id_NetConf : NetConf.t;
  id_IPResult : Result.t
}.

Definition interface_data (c : ConfigurationData.t) : InterfaceData := {|
  id_Args := CmdArgs.mk (ConfigurationData.ContainerId c) EmptyString
               (ConfigurationData.IfName c) EmptyString EmptyString;
  id_NetConf := NetConf.set_HostConf (ConfigurationData.Config c)
                  (NetConf.set_Name (ConfigurationData.Name c) NetConf.zero);
  id_IPResult := ConfigurationData.IPResult c |}.

Fixpoint interface_list (l : list (option ConfigurationData.t)) : go fs (list InterfaceData) :=
  match l with
  | [] => mret []
  | None :: _ => go_panic "nil pointer dereference"
  | Some c :: l' => rest ← interface_list l'; mret (interface_data c :: rest)
  end.

Context `{!Logfmt}.

Definition GetRemoteConfig (annotFile : string) : go fs (list InterfaceData * string) :=
  mappedDir ← GetFileAnnotationMappedDir annotFile;
  configDataList ← GetFileAnnotationConfigData annotFile;
  ifaceList ← interface_list configDataList;
  mret (ifaceList, mappedDir).
End Save.

(** ** FileCleanup *)

Definition empty_dir (f : fs) (dir : string) : Prop :=
  dir ≠ EmptyString ∧ fs_lookup f (path_parse dir) = Some Dir ∧ fs_children f (path_parse dir) = [].

#[export] Instance empty_dir_dec f dir : Decision (empty_dir f dir) := _.

Lemma remove_if_empty_run dir f :
  (∀ sc p, fs_fault f sc p = None) →
  remove_if_empty dir f =
  (Ok tt, if decide (empty_dir f dir)
          then fs_with_nodes f (delete (path_parse dir) (fs_nodes f)) else f).
Proof.
  intros Hnf. unfold remove_if_empty. case_decide as Hd.
  2:{ rewrite decide_False; [done|]. by intros [? _]. }
  rewrite run_bind, run_attempt. unfold os_read_dir, on_path.
  rewrite decide_False, Hnf by done.
  destruct (fs_lookup f (path_parse dir)) as [[| |]|] eqn:El; simpl;
    try (rewrite decide_False; [done|]; unfold empty_dir; rewrite El; by intros (_ & ? & _)).
  destruct (fs_children f (path_parse dir)) as [|x xs] eqn:Ec; simpl.
  - unfold os_remove, on_path. rewrite decide_False, Hnf, El, Ec by done.
    by rewrite decide_True.
  - rewrite decide_False; [done|]. unfold empty_dir. rewrite Ec. by intros (_ & _ & ?).
Qed.

(** When no system call fails by itself, FileCleanup removes the file that
    is named, then the directory that is named exactly when nothing is left in
    it, and touches nothing else; when the file cannot be removed (it is not
    there, or it is a directory with contents) it reports that and leaves the
    directory alone, too. *)
Theorem FileCleanup_spec dir file f :
  (∀ sc p, fs_fault f sc p = None) →
  match FileCleanup dir file f with
  | (Ok _, f') =>
      ∃ f1, f1 = (if decide (file = EmptyString) then f
                  else fs_with_nodes f (delete (path_parse file) (fs_nodes f))) ∧
      (file ≠ EmptyString → is_Some (fs_lookup f (path_parse file))) ∧
      (empty_dir f1 dir → f' = fs_with_nodes f1 (delete (path_parse dir) (fs_nodes f1))) ∧
      (¬ empty_dir f1 dir → f' = f1)
  | (Err _, f') => f' = f ∧ file ≠ EmptyString ∧
      (fs_lookup f (path_parse file) = None ∨
       fs_lookup f (path_parse file) = Some Dir ∧ fs_children f (path_parse file) ≠ [])
  | _ => False
  end.
Proof.
  intros Hnf. unfold FileCleanup. rewrite run_bind.
  assert (∀ f1, (∀ sc p, fs_fault f1 sc p = None) → remove_if_empty dir f1 =
    (Ok tt, if decide (empty_dir f1 dir)
            then fs_with_nodes f1 (delete (path_parse dir) (fs_nodes f1)) else f1)) as Htail
    by (intros; by apply remove_if_empty_run).
  case_decide as Hfile.
  - unfold wrap_err. destruct (os_remove_cases file f Hfile (Hnf _ _)) as [[Hl ->]|[Hl [e ->]]].
    + rewrite Htail by done. eexists. split; [done|]. rewrite decide_False by done.
      split_and!; [done|..]; by case_decide.
    + done.
  - simpl. rewrite Htail by done. exists f. rewrite decide_True by done.
    split_and!; [done|done|..]; by case_decide.
Qed.

(** ** The container's configuration *)

(** The container's side of a memif or vhost-user interface is the other end
    of the host's: what the container's configuration sets itself stands, an unset
    role or mode becomes the opposite of the host's (the memif mode the same as
    the host's), and the socket file is always the host's. *)
Theorem container_config_complements host conf ip :
  let c := container_config host conf ip in
  let kind := if decide (UserSpaceConf.IfType conf = EmptyString) then UserSpaceConf.IfType host
              else UserSpaceConf.IfType conf in
  UserSpaceConf.IfType c = kind ∧
  (kind = "memif" →
   let hm := UserSpaceConf.MemifConf host in
   let m := UserSpaceConf.MemifConf conf in
   let m' := UserSpaceConf.MemifConf c in
   (MemifConf.Role m ≠ EmptyString → MemifConf.Role m' = MemifConf.Role m) ∧
   (MemifConf.Role m = EmptyString → MemifConf.Role hm = "master" → MemifConf.Role m' = "slave") ∧
   (MemifConf.Role m = EmptyString → MemifConf.Role hm = "slave" → MemifConf.Role m' = "master") ∧
   (MemifConf.Mode m = EmptyString → MemifConf.Mode m' = MemifConf.Mode hm) ∧
   (MemifConf.Mode m ≠ EmptyString → MemifConf.Mode m' = MemifConf.Mode m) ∧
   MemifConf.Socketfile m' = MemifConf.Socketfile hm ∧
   UserSpaceConf.VhostConf c = UserSpaceConf.VhostConf conf) ∧
  (kind = "vhostuser" →
   let hv := UserSpaceConf.VhostConf host in
   let v := UserSpaceConf.VhostConf conf in
   let v' := UserSpaceConf.VhostConf c in
   (VhostConf.Mode v ≠ EmptyString → VhostConf.Mode v' = VhostConf.Mode v) ∧
   (VhostConf.Mode v = EmptyString → VhostConf.Mode hv = "client" → VhostConf.Mode v' = "server") ∧
   (VhostConf.Mode v = EmptyString → VhostConf.Mode hv = "server" → VhostConf.Mode v' = "client") ∧
   VhostConf.Socketfile v' = VhostConf.Socketfile hv ∧
   UserSpaceConf.MemifConf c = UserSpaceConf.MemifConf conf) ∧
  (kind ≠ "memif" → kind ≠ "vhostuser" →
   UserSpaceConf.MemifConf c = UserSpaceConf.MemifConf conf ∧
   UserSpaceConf.VhostConf c = UserSpaceConf.VhostConf conf).
Proof.
  intros c kind.
  set (c1 := if decide (UserSpaceConf.IfType conf = EmptyString)
             then UserSpaceConf.set_IfType (UserSpaceConf.IfType host) conf else conf).
  set (c2 := if decide (UserSpaceConf.NetType c1 = EmptyString ∧ ip ≠ None)
             then UserSpaceConf.set_NetType "interface" c1 else c1).
  assert (UserSpaceConf.IfType c2 = kind ∧
    UserSpaceConf.MemifConf c2 = UserSpaceConf.MemifConf conf ∧
    UserSpaceConf.VhostConf c2 = UserSpaceConf.VhostConf conf) as (Hk & Hm & Hv).
  { unfold c2, c1, kind. by repeat case_decide. }
  assert (c = if decide (kind = "memif") then
      UserSpaceConf.set_MemifConf (flip_memif (UserSpaceConf.MemifConf host)
                                     (UserSpaceConf.MemifConf conf)) c2
    else if decide (kind = "vhostuser") then
      UserSpaceConf.set_VhostConf (flip_vhost (UserSpaceConf.VhostConf host)
                                     (UserSpaceConf.VhostConf conf)) c2
    else c2) as ->.
  { by rewrite <- Hk, <- Hm, <- Hv. }
  clearbody c2 kind. split_and!.
  - by repeat case_decide.
  - intros ->. rewrite decide_True by done. unfold flip_memif. simpl.
    split_and!; try done; intros; repeat (simpl in *; case_decide); simplify_eq/=; congruence.
  - intros ->. rewrite decide_False, decide_True by done. unfold flip_vhost. simpl.
    split_and!; try done; intros; repeat (simpl in *; case_decide); simplify_eq/=; congruence.
  - intros Hn1 Hn2. by rewrite !decide_False.
Qed.

(** Only strings are filled in. *)
Lemma container_config_wf host conf ip :
  UserSpaceConf_wf conf → UserSpaceConf_wf (container_config host conf ip).
Proof.
  intros Hwf. unfold container_config. cbv zeta.
  set (c1 := if decide _ then _ else conf).
  assert (UserSpaceConf_wf c1) as Hc1 by (subst c1; by case_decide).
  clearbody c1. set (c2 := if decide (_ ∧ _) then _ else c1).
  assert (UserSpaceConf_wf c2) as (H1 & H2 & H3 & H4) by (subst c2; by case_decide).
  clearbody c2.
  assert (∀ host m, MemifConf.wf m → MemifConf.wf (flip_memif host m)) as Hm
    by (intros host' m ?; unfold flip_memif; cbv zeta; by repeat case_decide).
  assert (∀ host v, VhostConf_wf v → VhostConf_wf (flip_vhost host v)) as Hv
    by (intros host' v ?; unfold flip_vhost; cbv zeta; by repeat case_decide).
  destruct (decide (_ = "memif")); [|destruct (decide (_ = "vhostuser"))];
    (split; [exact H1|split; [simpl; auto|split; simpl; auto]]).
Qed.

(** ** The file in the shared directory *)

#[local] Arguments str_take : simpl never.

Section File.
Context `{KubeClient} `{CniLibLaws}.

(** Without a Kubernetes client the data goes into a file of the shared
    directory whose name is made of the container and the interface; a save that
    succeeds leaves the pod and the API server alone, and the file it wrote is read
    as the data of this interface ([read_back]: the IPResult goes through the CNI
    library). *)
Theorem SaveRemoteConfig_file conf args dir ip k pod f r s' :
  ConfigurationData_wf (remote_config conf args ip) → dir ≠ EmptyString →
  no_char slash (CmdArgs.ContainerID args) = true → no_char slash (CmdArgs.IfName args) = true →
  (∀ sc p, fs_fault f sc p = None) →
  SaveRemoteConfig (Some conf) (Some args) false dir ip ((k, Some pod), f) = (Ok r, s') →
  let path := path_join [dir; "configData-" +:+ str_take 12 (CmdArgs.ContainerID args) +:+ "-" +:+
                              CmdArgs.IfName args +:+ ".json"] in
  r = Some pod ∧ s'.1 = (k, Some pod) ∧
  ∃ text, os_read_file path s'.2 = (Ok text, s'.2) ∧
    unmarshal d_ConfigurationData text ConfigurationData.zero = read_back (remote_config conf args ip).
Proof.
  intros Hwf Hdir Hid Hif Hnf Hrun path. cbn [SaveRemoteConfig] in Hrun.
  apply bind_Ok_inv in Hrun as (p & s1 & Hp & Hrun). rewrite run_gets in Hp.
  simplify_eq/=.
  apply bind_Ok_inv in Hrun as ([] & s2 & Hsave & Hrun).
  rewrite run_gets in Hrun. unfold on_snd in Hsave. simpl in Hsave.
  destruct (save_file args dir (remote_config conf args ip) f) as [o f2] eqn:Es.
  simplify_eq/=. split_and!; [done..|].
  unfold save_file in Es.
  apply bind_Ok_inv in Es as ([] & f1 & Hens & Es).
  apply bind_Ok_inv in Es as (id & f1' & Hslice & Hw).
  unfold slice_to in Hslice. case_decide; [|done]. rewrite run_ret in Hslice. simplify_eq.
  destruct (e_ConfigurationData _) as [e|j] eqn:Hj; [done|].
  exists (json_print j).
  pose proof (ensure_dir_env dir f) as [_ Hfault]. rewrite Hens in Hfault. simpl in Hfault.
  split.
  - unfold path. eapply os_write_file_read; [exact Hw| |by rewrite <- Hfault].
    rewrite path_parse_join; [by intros [_ ?]%app_eq_nil|done|].
    apply plain_name_spec. split_and!; [|done..].
    unfold no_char. simpl. rewrite str_all_app. simpl. rewrite str_all_app.
    fold (no_char slash (str_take 12 (CmdArgs.ContainerID args))).
    fold (no_char slash (CmdArgs.IfName args)). by rewrite Hif, str_take_no_char.
  - unfold unmarshal. rewrite json_parse_print by (by eapply wf_e_ConfigurationData).
    by apply codec_ConfigurationData.
Qed.
End File.

(** ** Through the API server *)

Section Api.
Context `{KubeLaws} `{CniLibLaws}.

(** The first attempt sends the pod; one after a failure reads the pod again, by
    the name of the pod the failed call gave back. *)
Lemma update_attempt_first k p r k1 :
  kube_UpdateStatus p k = (r, k1) →
  update_attempt (k, (p, None)) =
    (match r.2 with None => Ok tt | Some e => Err e end, (k1, r)).
Proof.
  intros Hup. unfold update_attempt. rewrite run_bind, run_gets. simpl.
  rewrite run_bind. cbn. rewrite run_bind, run_gets. unfold kube_call. simpl. rewrite Hup. by destruct r as [q [e|]].
Qed.

Lemma update_attempt_retry k p e r k1 :
  kube_Get (Pod.Namespace p) (Pod.Name p) k = (r, k1) →
  update_attempt (k, (p, Some e)) =
    match r.2 with
    | None => update_attempt (k1, (r.1, None))
    | Some e' => (Err e', (k1, r))
    end.
Proof.
  intros Hget. unfold update_attempt. rewrite run_bind, run_gets. simpl.
  rewrite run_bind. unfold kube_call at 1. simpl. rewrite Hget.
  destruct r as [q [e'|]]; [done|]. simpl. by rewrite !run_bind, !run_gets.
Qed.

Lemma k8s_WritePodAnnotation_first p k q k' :
  kube_UpdateStatus p k = ((q, None), k') → k8s_WritePodAnnotation true (Some p) k = (Ok q, k').
Proof.
  intros Hup. pose proof (update_attempt_first _ _ _ _ Hup) as Hatt. simpl in Hatt.
  unfold k8s_WritePodAnnotation. simpl. by rewrite (law_retry_first _ _ _ _ Hatt) by (by left).
Qed.

(** The directory the container is told, without an annotation of its own. *)
Definition mapped_dir (pod : Pod.t) : string :=
  match getPodVolumeMountHostMappedSharedDir (Some pod) with
  | inr dir => dir
  | inl _ => "/var/lib/cni/usrspcni"
  end.

(** Once the data is in the pod, the directory is set and the pod is sent. *)
Lemma WritePodAnnotation_prepared c j pod k :
  e_ConfigurationData c = inr j →
  WritePodAnnotation true (Some c) (k, Some pod) =
    let p1 := set_annotation AnnotKeyUsrspConfigData
                (appended_config (annotation pod AnnotKeyUsrspConfigData) (json_indent 0 j)) pod in
    match setPodAnnotationMappedDir (mapped_dir pod) (Some p1) with
    | (Ok _, p) => on_fst (k8s_WritePodAnnotation true p) (k, p)
    | (Err e, p) => (Err e, (k, p))
    | (Panicked w, p) => (Panicked w, (k, p))
    | (Diverged, p) => (Diverged, (k, p))
    end.
Proof.
  intros Hj. cbv zeta. set (p1 := set_annotation AnnotKeyUsrspConfigData _ pod).
  unfold WritePodAnnotation. rewrite run_bind, run_gets. cbn [snd]. rewrite decide_False by done.
  cbn [negb]. rewrite run_bind. unfold on_snd at 1. simpl. rewrite Hj. fold p1.
  rewrite run_bind, run_gets. simpl. rewrite run_bind. unfold on_snd at 1. simpl.
  change (Pod.Containers p1) with (Pod.Containers pod). fold (mapped_dir pod).
  destruct (decide _); [destruct (decide _)|]; simpl; try done; by rewrite run_bind, run_gets.
Qed.

(** C35: What WritePodAnnotation sends.  For data that can be marshalled, and a pod
    whose annotation of the mapped directory is absent or names the directory of its
    shared-dir mount (/var/lib/cni/usrspcni without one), it makes one request: a
    status update with this very pod, in which only the text of the configuration data
    is new (the old list with this data appended) and the mapped directory, where it
    was absent.  If the update is accepted, its answer is returned.  With another
    mapped directory, or data that cannot be marshalled, the call is an error and no
    request is made. *)
Theorem WritePodAnnotation_accepted c pod k :
  let dir := mapped_dir pod in
  let mapped := annotation pod AnnotKeyUsrspMappedDir in
  match e_ConfigurationData c with
  | inl _ => ∃ e, WritePodAnnotation true (Some c) (k, Some pod) = (Err e, (k, Some pod))
  | inr j =>
      let old := annotation pod AnnotKeyUsrspConfigData in
      let text := appended_config old (json_indent 0 j) in
      (∀ l, written l old → written (l ++ [c]) text) ∧
      let p1 := set_annotation AnnotKeyUsrspConfigData text pod in
      let p := if decide (mapped = EmptyString) then set_annotation AnnotKeyUsrspMappedDir dir p1 else p1 in
      if decide (mapped = EmptyString ∨ path_clean mapped = path_clean dir)
      then ∀ q k', kube_UpdateStatus p k = ((q, None), k') →
             WritePodAnnotation true (Some c) (k, Some pod) = (Ok q, (k', Some p))
      else ∃ e, WritePodAnnotation true (Some c) (k, Some pod) = (Err e, (k, Some p1))
  end.
Proof.
  cbv zeta. destruct (e_ConfigurationData c) as [e|j] eqn:Hj.
  { unfold WritePodAnnotation. rewrite run_bind, run_gets. cbn [snd]. rewrite decide_False by done.
    cbn [negb]. rewrite run_bind. unfold on_snd at 1. simpl. rewrite Hj. by eexists. }
  split; [intros l Hl; by apply appended_written|].
  rewrite (WritePodAnnotation_prepared _ _ _ _ Hj). cbv zeta.
  set (p1 := set_annotation AnnotKeyUsrspConfigData _ pod).
  set (mapped := annotation pod AnnotKeyUsrspMappedDir).
  assert (annotation p1 AnnotKeyUsrspMappedDir = mapped) as Hm1.
  { unfold annotation, p1, set_annotation. simpl. by rewrite lookup_insert_ne. }
  cbn [setPodAnnotationMappedDir]. rewrite Hm1. generalize (mapped_dir pod). intros dir.
  clearbody mapped p1. clear Hm1.
  assert (∀ p q k', kube_UpdateStatus p k = ((q, None), k') →
    on_fst (k8s_WritePodAnnotation true (Some p)) (k, Some p) = (Ok q, (k', Some p))) as Hsent.
  { intros p q k' Hup. unfold on_fst. simpl. by rewrite (k8s_WritePodAnnotation_first _ _ _ _ Hup). }
  destruct (decide (mapped = EmptyString)) as [->|Hne].
  - rewrite decide_True by (by left). rewrite decide_False by (by intros []). apply Hsent.
  - rewrite (decide_True _ _ Hne). destruct (decide (path_clean mapped = path_clean dir)) as [Hc|Hc].
    + rewrite decide_True by (by right). apply Hsent.
    + rewrite decide_False by (by intros [?|?]). by eexists.
Qed.

(** C36: A conflict is not recovered from.  When the API server refuses the first
    update as a conflict and gives the pod p0 back (client-go gives an empty one), the
    second attempt asks for the pod of p0's name: if that fails, so does the call; if it
    is answered, the pod is sent as it was read, without the annotations, and the call
    reports the success of that update. *)
Theorem WritePodAnnotation_conflict p k p0 e k1 :
  kube_UpdateStatus p k = ((p0, Some e), k1) → is_conflict e = true →
  (∀ x e' k2, kube_Get (Pod.Namespace p0) (Pod.Name p0) k1 = ((x, Some e'), k2) →
     is_conflict e' = false →
     ∃ e2, k8s_WritePodAnnotation true (Some p) k = (Err e2, k2)) ∧
  (∀ fresh k2 q k3, kube_Get (Pod.Namespace p0) (Pod.Name p0) k1 = ((fresh, None), k2) →
     kube_UpdateStatus fresh k2 = ((q, None), k3) →
     k8s_WritePodAnnotation true (Some p) k = (Ok q, k3)).
Proof.
  intros Hup Hc. pose proof (update_attempt_first _ _ _ _ Hup) as Hfst. simpl in Hfst. split.
  - intros x e' k2 Hget He. pose proof (update_attempt_retry _ _ e _ _ Hget) as Hsnd. simpl in Hsnd.
    unfold k8s_WritePodAnnotation. simpl.
    rewrite (law_retry_second _ _ _ _ _ _ Hfst Hc Hsnd) by (right; by exists e'). by eexists.
  - intros fresh k2 q k3 Hget Hup2. pose proof (update_attempt_retry _ _ e _ _ Hget) as Hsnd.
    simpl in Hsnd. rewrite (update_attempt_first _ _ _ _ Hup2) in Hsnd. simpl in Hsnd.
    unfold k8s_WritePodAnnotation. simpl.
    by rewrite (law_retry_second _ _ _ _ _ _ Hfst Hc Hsnd) by (by left).
Qed.
End Api.
