(* ===== verification/LocalDb.v ===== *)
(** * cnivpp/localdb.go: what ADD saves on the host for DEL

    One file per container and interface in the local directory, holding the
    JSON of VppSavedData; reading it back removes it. *)
From S2P Require Import Prelude GoStrings GoOs Json Types JsonCodec Annotations ConfigData.

Module VppSavedData.
Record t := mk {
  InterfaceSwIfIndex : Z;   (* uint32, json swIfIndex *)
  MemifSocketId : Z         (* uint32, json memifSocketId *)
}.
Definition zero : t := mk 0 0.
Definition set_InterfaceSwIfIndex (v : Z) (d : t) : t := mk v (MemifSocketId d).
Definition set_MemifSocketId (v : Z) (d : t) : t := mk (InterfaceSwIfIndex d) v.
Definition wf (d : t) : Prop :=
  (0 ≤ InterfaceSwIfIndex d < 2 ^ 32)%Z ∧ (0 ≤ MemifSocketId d < 2 ^ 32)%Z.
End VppSavedData.

Definition VppSavedData_fields : list (field VppSavedData.t) :=
  [fld "swIfIndex" VppSavedData.InterfaceSwIfIndex VppSavedData.set_InterfaceSwIfIndex (d_uint 32);
   fld "memifSocketId" VppSavedData.MemifSocketId VppSavedData.set_MemifSocketId (d_uint 32)].
Definition d_VppSavedData : decoder VppSavedData.t := d_struct VppSavedData_fields.

Definition e_VppSavedData (d : VppSavedData.t) : json := JObj
  (omitempty false "swIfIndex" (JNum (print_int (VppSavedData.InterfaceSwIfIndex d))) ++
   omitempty false "memifSocketId" (JNum (print_int (VppSavedData.MemifSocketId d))) ++ []).

(** local-<containerID[:12]>-<ifName>.json; cniovs/localdb.go uses the same name, and
    its two functions differ from these in the data they hold only. *)
Definition local_file (id ifName : string) : string := "local-" +:+ id +:+ "-" +:+ ifName +:+ ".json".

Section LocalData.
Context {A : Type}.
Variable engine : string.
Variable d_data : decoder A.
Variable e_data : A → json.

(** SaveVppConfig and SaveConfig *)
Definition save_local (args : CmdArgs.t) (data : A) : go fs unit :=
  id ← slice_to 12 (CmdArgs.ContainerID args);
  ensure_dir DefaultLocalCNIDir ;;
  os_write_file (path_join [DefaultLocalCNIDir; local_file id (CmdArgs.IfName args)])
    (json_print (e_data data)).

(** LoadVppConfig and LoadConfig; [data] is left as it is when there is no file. *)
Definition load_local (args : CmdArgs.t) (data : A) : go fs A :=
  id ← slice_to 12 (CmdArgs.ContainerID args);
  let path := path_join [DefaultLocalCNIDir; local_file id (CmdArgs.IfName args)] in
  st ← attempt (os_stat path);
  match st with
  | inl _ =>
      ignore_err (FileCleanup DefaultLocalCNIDir EmptyString) ;;
      mret data
  | inr _ =>
      dataBytes ← wrap_err ("ERROR: Failed to read " +:+ engine +:+ " saved data") (os_read_file path);
      data' ← wrap_err ("ERROR: Failed to parse " +:+ engine +:+ " saved data")
                (of_result (unmarshal d_data dataBytes data));
      ignore_err (FileCleanup DefaultLocalCNIDir path) ;;
      mret data'
  end.
End LocalData.

Definition SaveVppConfig : CmdArgs.t → VppSavedData.t → go fs unit := save_local e_VppSavedData.
Definition LoadVppConfig : CmdArgs.t → VppSavedData.t → go fs VppSavedData.t :=
  load_local "VPP" d_VppSavedData.

(** ** The round trip *)

Lemma codec_VppSavedData d old :
  VppSavedData.wf d → d_VppSavedData (e_VppSavedData d) old = inr d.
Proof.
  intros [H1 H2]. destruct d as [i s].
  f_struct VppSavedData.InterfaceSwIfIndex VppSavedData.set_InterfaceSwIfIndex (d_uint 32) d_uint_print.
  f_struct VppSavedData.MemifSocketId VppSavedData.set_MemifSocketId (d_uint 32) d_uint_print.
  reflexivity.
Qed.

Lemma wf_e_VppSavedData d : wf_json (e_VppSavedData d).
Proof.
  apply wf_json_obj. do 2 (apply wf_omitempty; [done|constructor; apply number_int|]). constructor.
Qed.

(** The file of a container and an interface. *)
Definition local_path (args : CmdArgs.t) : string :=
  path_join [DefaultLocalCNIDir; local_file (str_take 12 (CmdArgs.ContainerID args)) (CmdArgs.IfName args)].

(** Names that stay inside the directory. *)
Definition plain_args (args : CmdArgs.t) : Prop :=
  no_char slash (CmdArgs.ContainerID args) = true ∧ no_char slash (CmdArgs.IfName args) = true.

#[local] Arguments str_take : simpl never.

Lemma local_path_parse args :
  plain_args args →
  path_parse (local_path args) =
  CPath true (cp_comps (path_parse DefaultLocalCNIDir) ++
              [local_file (str_take 12 (CmdArgs.ContainerID args)) (CmdArgs.IfName args)]).
Proof.
  intros [Hid Hif]. unfold local_path. rewrite path_parse_join; [done|done|].
  apply plain_name_spec. split_and!; [|done..].
  unfold no_char, local_file. simpl. rewrite str_all_app. simpl. rewrite str_all_app.
  fold (no_char slash (str_take 12 (CmdArgs.ContainerID args))).
  fold (no_char slash (CmdArgs.IfName args)). by rewrite Hif, str_take_no_char.
Qed.

Lemma save_local_Ok {A} (e_data : A → json) args data f f' :
  save_local e_data args data f = (Ok tt, f') → plain_args args →
  12 ≤ String.length (CmdArgs.ContainerID args) ∧ fs_env f f' ∧
  fs_lookup f' (path_parse (local_path args)) = Some (File (json_print (e_data data)) (fs_now f)).
Proof.
  intros Hrun Hargs. unfold save_local in Hrun.
  apply bind_Ok_inv in Hrun as (id & f1 & Hslice & Hrun).
  unfold slice_to in Hslice. case_decide; [|done]. rewrite run_ret in Hslice. simplify_eq.
  apply bind_Ok_inv in Hrun as ([] & f2 & Hens & Hw%os_write_file_ok).
  pose proof (ensure_dir_env DefaultLocalCNIDir f1) as [Hnow Hfault]. rewrite Hens in Hnow, Hfault.
  simpl in Hnow, Hfault. fold (local_path args) in Hw. subst f'. split_and!; [done|by split|].
  rewrite Hnow. apply fs_lookup_insert. rewrite local_path_parse by done. by intros [_ ?]%app_eq_nil.
Qed.

Section RoundTrip.
Context {A : Type}.
Variable engine : string.
Variable d_data : decoder A.
Variable e_data : A → json.

Lemma load_local_run args old data f n :
  (∀ sc p, fs_fault f sc p = None) → plain_args args →
  wf_json (e_data data) → d_data (e_data data) old = inr data →
  12 ≤ String.length (CmdArgs.ContainerID args) →
  fs_lookup f (path_parse (local_path args)) = Some (File (json_print (e_data data)) n) →
  ∃ f1, f1 = fs_with_nodes f (delete (path_parse (local_path args)) (fs_nodes f)) ∧
    load_local engine d_data args old f =
    (Ok data, if decide (empty_dir f1 DefaultLocalCNIDir)
              then fs_with_nodes f1 (delete (path_parse DefaultLocalCNIDir) (fs_nodes f1)) else f1).
Proof.
  intros Hnf Hargs Hwf Hdec Hlen Hl. eexists. split; [done|].
  assert (local_path args ≠ EmptyString) as Hne.
  { intros E. pose proof (local_path_parse args Hargs) as Hp. rewrite E in Hp. done. }
  pose proof (os_stat_lookup _ _ _ Hne (Hnf _ _) Hl) as Hst.
  pose proof (os_read_file_lookup _ _ _ _ Hne (Hnf _ _) Hl) as Hrd.
  pose proof (os_remove_file _ _ _ Hne (Hnf _ _) Hl ltac:(done)) as Hrm.
  unfold load_local, slice_to. rewrite decide_True by done.
  rewrite run_bind, run_ret. fold (local_path args). cbv zeta.
  rewrite run_bind, run_attempt, Hst, (bind_Ok _ _ _ _ _ (wrap_err_Ok _ _ _ _ _ Hrd)).
  unfold unmarshal. rewrite json_parse_print by done. rewrite Hdec.
  erewrite bind_Ok by (apply wrap_err_Ok; reflexivity).
  unfold ignore_err, FileCleanup. rewrite decide_True by done.
  rewrite !run_bind, run_attempt, run_bind, (wrap_err_Ok _ _ _ _ _ Hrm), remove_if_empty_run by done.
  done.
Qed.

Lemma local_roundtrip args data old f f' :
  (∀ sc p, fs_fault f sc p = None) → plain_args args →
  wf_json (e_data data) → d_data (e_data data) old = inr data →
  save_local e_data args data f = (Ok tt, f') →
  ∃ f'', load_local engine d_data args old f' = (Ok data, f'') ∧
    fs_lookup f'' (path_parse (local_path args)) = None ∧
    ∀ c, c ≠ path_parse (local_path args) → c ≠ path_parse DefaultLocalCNIDir →
      fs_nodes f'' !! c = fs_nodes f' !! c.
Proof.
  intros Hnf Hargs Hwf Hdec (Hlen & [_ Hfault] & Hl)%save_local_Ok; [|done].
  destruct (load_local_run args old data f' (fs_now f)) as (f1 & Hf1 & Hrun);
    [by intros; rewrite <- Hfault|done..|].
  eexists. split; [exact Hrun|].
  assert (path_parse (local_path args) ≠ path_parse DefaultLocalCNIDir) as Hne.
  { rewrite local_path_parse by done. by intros [=]. }
  assert (cp_comps (path_parse (local_path args)) ≠ []) as Hnn
    by (rewrite local_path_parse by done; by intros [_ ?]%app_eq_nil).
  split.
  - unfold fs_lookup. destruct (cp_comps _) eqn:E; [done|]. case_decide; simpl; subst f1; simpl.
    + by rewrite lookup_delete_ne, lookup_delete_eq.
    + by rewrite lookup_delete_eq.
  - intros c Hc1 Hc2. case_decide; simpl; subst f1; simpl; by rewrite ?lookup_delete_ne.
Qed.
End RoundTrip.

(** What ADD saves, DEL loads: after a save that succeeded, the load gives
    the saved data whatever the variable held before, removes the file (and the
    directory if it is empty now), and leaves every other file alone. *)
Theorem VppConfig_roundtrip args data old f f' :
  (∀ sc p, fs_fault f sc p = None) → plain_args args → VppSavedData.wf data →
  SaveVppConfig args data f = (Ok tt, f') →
  ∃ f'', LoadVppConfig args old f' = (Ok data, f'') ∧
    fs_lookup f'' (path_parse (local_path args)) = None ∧
    ∀ c, c ≠ path_parse (local_path args) → c ≠ path_parse DefaultLocalCNIDir →
      fs_nodes f'' !! c = fs_nodes f' !! c.
Proof.
  intros Hnf Hargs Hwf. apply local_roundtrip; [done..|apply wf_e_VppSavedData|].
  by apply codec_VppSavedData.
Qed.
