(* ===== verification/VppApi.v ===== *)
(** * The interface to VPP (govpp)

    VPP and the govpp binary API are not part of the repository: they are the
    operations of the class [VppApi], over an abstract VPP state.  A request
    may also change the file system (VPP creates and unlinks the socket files
    of its interfaces), so operations run on a [node]: VPP and the host's files.
    [VppLaws] states what the code relies on, in terms of what a dump shows. *)
From S2P Require Import Prelude GoStrings GoOs Types.

(** ** Messages *)

Definition MEMIF_ROLE_API_MASTER : Z := 0.
Definition MEMIF_ROLE_API_SLAVE : Z := 1.
Definition MEMIF_MODE_API_ETHERNET : Z := 0.
Definition MEMIF_MODE_API_IP : Z := 1.
Definition MEMIF_MODE_API_PUNT_INJECT : Z := 2.
Definition IF_STATUS_API_FLAG_ADMIN_UP : Z := 1.

(** An ethernet_types.MacAddress: six bytes. *)
Notation mac := (list Z).
Definition mac_zero : mac := [0; 0; 0; 0; 0; 0]%Z.

Record MemifCreateV2 := {
  mc_Role : Z;
  mc_Mode : Z;
  mc_RxQueues : Z;
  mc_TxQueues : Z;
  mc_ID : Z;
  mc_SocketID : Z;
  mc_RingSize : Z;
  mc_BufferSize : Z;
  mc_NoZeroCopy : bool;
  mc_UseDma : bool;
  mc_Secret : string;
  mc_HwAddr : mac
}.

Record CreateVhostUserIfV2 := {
  vc_IsServer : bool;
  vc_SockFilename : string;
  vc_EnableGso : bool;
  vc_EnablePacked : bool;
  vc_EnableEventIdx : bool;
  vc_UseCustomMac : bool;
  vc_MacAddress : mac
}.

Record BridgeDomainAddDelV2 := {
  bd_BdID : Z;
  bd_Flood : bool;
  bd_UuFlood : bool;
  bd_Forward : bool;
  bd_Learn : bool;
  bd_IsAdd : bool
}.

(** An address with its prefix length: the bytes given to ip_types.NewAddress. *)
Record address_with_prefix := { ap_Address : list Z; ap_Len : Z }.

Inductive request :=
  | ReqMemifCreateV2 (r : MemifCreateV2)
  | ReqMemifDelete (sw_if_index : Z)
  | ReqMemifSocketFilenameAddDelV2 (is_add : bool) (socket_id : Z) (filename : string)
  | ReqSwInterfaceSetFlags (sw_if_index flags : Z)
  | ReqSwInterfaceSetMtu (sw_if_index : Z) (mtu : list Z)
  | ReqSwInterfaceAddDelAddress (sw_if_index : Z) (is_add : bool) (prefix : address_with_prefix)
  | ReqSwInterfaceSetL2Bridge (bd_id rx_sw_if_index : Z) (enable : bool)
  | ReqBridgeDomainAddDelV2 (r : BridgeDomainAddDelV2)
  | ReqCreateVhostUserIfV2 (r : CreateVhostUserIfV2)
  | ReqDeleteVhostUserIf (sw_if_index : Z).

Record MemifDetails := {
  md_SwIfIndex : Z;
  md_ID : Z;
  md_SocketID : Z;
  md_Role : Z;
  md_Mode : Z
}.

Record MemifSocketFilenameDetails := { sd_SocketID : Z; sd_SocketFilename : string }.

Record BridgeDomainDetails := { bdd_BdID : Z; bdd_NSwIfs : Z }.

#[global] Instance MemifDetails_eq_dec : EqDecision MemifDetails.
Proof. solve_decision. Defined.
#[global] Instance MemifSocketFilenameDetails_eq_dec : EqDecision MemifSocketFilenameDetails.
Proof. solve_decision. Defined.
#[global] Instance MemifCreateV2_eq_dec : EqDecision MemifCreateV2.
Proof. solve_decision. Defined.

(** What one ReceiveReply of a multi-part request gives: the next message, an
    error, or the end of the dump. *)
Inductive recv (D : Type) := RMsg (d : D) | RErr (e : error) | RStop.
Arguments RMsg {D} _.
Arguments RErr {D} _.
Arguments RStop {D}.

(** ** The operations *)

Class VppApi := {
  vpp : Type;
  (* ch.SendRequest(req).ReceiveReply(reply): the reply's SwIfIndex, or 0 *)
  SendRequest : request → vpp * fs → result Z * (vpp * fs);
  (* ch.SendMultiRequest(dump): the n-th ReceiveReply *)
  MemifDump : vpp → nat → recv MemifDetails;
  MemifSocketFilenameDump : vpp → nat → recv MemifSocketFilenameDetails;
  BridgeDomainDump : Z → vpp → nat → recv BridgeDomainDetails;
  (* ethernet_types.ParseMacAddress *)
  ParseMacAddress : string → result mac;
  (* govpp.Connect, conn.NewAPIChannel: the error, if a connection or a channel
     cannot be opened *)
  Connect : vpp → option error;
  OpenChannel : vpp → option error
}.

Notation node := (vpp * fs)%type.

(** One request and its reply, as a call that can fail. *)
Definition send `{VppApi} (r : request) : go node Z := λ n,
  let '(res, n') := SendRequest r n in
  match res with inl e => (Err e, n') | inr i => (Ok i, n') end.

Definition send_ `{VppApi} (r : request) : go node unit := send r ;; mret tt.

(** ** Receiving a dump

    [for { stop, err := ReceiveReply(reply); ... }] where [on_err] and [on_msg]
    are the loop's body: go on with a new accumulator, or leave the loop with
    a final outcome. *)
Inductive loop_step (B C : Type) := Continue (b : B) | Break (c : outcome C).
Arguments Continue {B C} _.
Arguments Break {B C} _.

Section Recv.
Context {D B C : Type}.
Variable stream : nat → recv D.
Variable on_err : B → error → loop_step B C.
Variable on_msg : B → D → loop_step B C.
Variable on_stop : B → outcome C.

Fixpoint recv_loop (fuel i : nat) (acc : B) : outcome C :=
  match fuel with
  | 0 => Diverged
  | S f =>
      match stream i with
      | RStop => on_stop acc
      | RErr e =>
          match on_err acc e with
          | Continue b => recv_loop f (S i) b
          | Break c => c
          end
      | RMsg d =>
          match on_msg acc d with
          | Continue b => recv_loop f (S i) b
          | Break c => c
          end
      end
  end.

(** The loop's body over a list of messages: what a healthy dump computes. *)
Fixpoint recv_list (l : list D) (acc : B) : outcome C :=
  match l with
  | [] => on_stop acc
  | d :: l' => match on_msg acc d with Continue b => recv_list l' b | Break c => c end
  end.
End Recv.

(** A dump that delivers the messages [l] and then stops. *)
Definition delivers {D} (stream : nat → recv D) (l : list D) : Prop :=
  (∀ i d, l !! i = Some d → stream i = RMsg d) ∧ stream (length l) = RStop.

(** A dump whose every reply is an error (a VPP that stopped answering). *)
Definition never_answers {D} (stream : nat → recv D) : Prop :=
  ∀ i, ∃ e, stream i = RErr e.

Lemma delivers_tail {D} (stream : nat → recv D) x l :
  delivers stream (x :: l) → delivers (λ i, stream (S i)) l.
Proof. intros [H1 H2]. split; [|done]. intros i d Hi. by apply (H1 (S i)). Qed.

Lemma recv_loop_shift {D B C} (stream : nat → recv D) (oe : B → error → loop_step B C)
    (om : B → D → loop_step B C) (os : B → outcome C) fuel i acc :
  recv_loop stream oe om os fuel (S i) acc =
  recv_loop (λ j, stream (S j)) oe om os fuel i acc.
Proof.
  revert i acc. induction fuel as [|fuel IH]; intros i acc; [done|]. simpl.
  destruct (stream (S i)); [destruct (om _ _)|destruct (oe _ _)|]; auto.
Qed.

(** Enough fuel for a healthy dump: one more than its messages. *)
Lemma recv_loop_delivers {D B C} (stream : nat → recv D) (oe : B → error → loop_step B C)
    (om : B → D → loop_step B C) (os : B → outcome C) l fuel acc :
  delivers stream l → length l < fuel →
  recv_loop stream oe om os fuel 0 acc = recv_list om os l acc.
Proof.
  revert stream fuel acc. induction l as [|x l IH]; intros stream fuel acc Hd Hf.
  - destruct fuel as [|fuel]; [simpl in Hf; lia|]. simpl.
    destruct Hd as [_ Hstop]. simpl in Hstop. by rewrite Hstop.
  - destruct fuel as [|fuel]; [simpl in Hf; lia|]. simpl.
    rewrite (proj1 Hd 0 x eq_refl). destruct (om acc x); [|done].
    rewrite recv_loop_shift. apply IH; [by eapply delivers_tail|simpl in Hf; lia].
Qed.

(** More fuel does not change a result: what a loop returns on a healthy dump
    is what its body computes over the messages. *)
Lemma recv_loop_mono {D B C} (stream : nat → recv D) (oe : B → error → loop_step B C)
    (om : B → D → loop_step B C) (os : B → outcome C) fuel fuel' i acc :
  fuel ≤ fuel' →
  recv_loop stream oe om os fuel i acc ≠ Diverged →
  recv_loop stream oe om os fuel' i acc = recv_loop stream oe om os fuel i acc.
Proof.
  revert fuel' i acc. induction fuel as [|fuel IH]; intros fuel' i acc Hle Hnd; [done|].
  destruct fuel' as [|fuel']; [lia|]. simpl in *.
  destruct (stream i); [destruct (om _ _)|destruct (oe _ _)|]; auto with lia.
Qed.

Lemma recv_loop_result {D B C} (stream : nat → recv D) (oe : B → error → loop_step B C)
    (om : B → D → loop_step B C) (os : B → outcome C) l fuel acc c :
  delivers stream l → recv_loop stream oe om os fuel 0 acc = Ok c →
  recv_list om os l acc = Ok c.
Proof.
  intros Hd Hrun. rewrite <- (recv_loop_delivers _ oe om os l (fuel + S (length l)) acc Hd) by lia.
  by rewrite (recv_loop_mono _ _ _ _ fuel), Hrun by (lia || by rewrite Hrun).
Qed.

(** ** What the code relies on *)

Definition node_vpp `{VppApi} (n : node) : vpp := n.1.
Definition node_fs `{VppApi} (n : node) : fs := n.2.

(** Requests that do not concern memif interfaces or their sockets. *)
Definition memif_neutral (r : request) : Prop :=
  match r with
  | ReqMemifCreateV2 _ | ReqMemifDelete _ | ReqMemifSocketFilenameAddDelV2 _ _ _ => False
  | _ => True
  end.

(** What VPP shows after it carried a request out: [i] is the index or 0 of the reply. *)
Definition carried_out `{VppApi} (memifs : vpp → list MemifDetails)
    (sockets : vpp → list MemifSocketFilenameDetails) (r : request) (i : Z) (v v' : vpp) : Prop :=
  match r with
  (* memif_create_v2: a new interface with the requested attributes *)
  | ReqMemifCreateV2 c =>
      memifs v' ≡ₚ
        {| md_SwIfIndex := i; md_ID := mc_ID c; md_SocketID := mc_SocketID c;
           md_Role := mc_Role c; md_Mode := mc_Mode c |} :: memifs v ∧
      sockets v' = sockets v
  (* memif_delete *)
  | ReqMemifDelete j =>
      memifs v' ≡ₚ filter (λ d, md_SwIfIndex d ≠ j) (memifs v) ∧ sockets v' = sockets v
  (* memif_socket_filename_add_del_v2; an identical registration is accepted silently *)
  | ReqMemifSocketFilenameAddDelV2 true id f =>
      memifs v' = memifs v ∧
      ({| sd_SocketID := id; sd_SocketFilename := f |} ∈ sockets v ∧ sockets v' = sockets v ∨
       sockets v' ≡ₚ {| sd_SocketID := id; sd_SocketFilename := f |} :: sockets v)
  | ReqMemifSocketFilenameAddDelV2 false id _ =>
      memifs v' = memifs v ∧ sockets v' ≡ₚ filter (λ d, sd_SocketID d ≠ id) (sockets v)
  (* a request about something else *)
  | _ => memifs v' = memifs v ∧ sockets v' = sockets v
  end.

Class VppLaws `{VppApi} := {
  (* the interfaces and sockets a dump shows *)
  memifs : vpp → list MemifDetails;
  sockets : vpp → list MemifSocketFilenameDetails;
  law_memif_dump v : delivers (MemifDump v) (memifs v);
  law_socket_dump v : delivers (MemifSocketFilenameDump v) (sockets v);
  (* an interface has one index, a socket one id *)
  law_sw_if_index_nodup v : NoDup (md_SwIfIndex <$> memifs v);
  law_socket_id_nodup v : NoDup (sd_SocketID <$> sockets v);
  (* indexes are uint32, and ~0 is not an index *)
  law_sw_if_index_range v d : d ∈ memifs v → (0 ≤ md_SwIfIndex d < 2 ^ 32 - 1)%Z;
  (* an interface stands on a registered socket *)
  law_memif_socket v d : d ∈ memifs v → ∃ s, s ∈ sockets v ∧ sd_SocketID s = md_SocketID d;
  (* a request that is answered without an error was carried out *)
  law_reply r n i n' :
    SendRequest r n = (inr i, n') → carried_out memifs sockets r i (node_vpp n) (node_vpp n');
  (* one that ends in an error was carried out or not: VPP refused it, or the reply did
     not come in time *)
  law_error r n e n' :
    SendRequest r n = (inl e, n') →
    (memifs (node_vpp n') = memifs (node_vpp n) ∧ sockets (node_vpp n') = sockets (node_vpp n)) ∨
    ∃ i, carried_out memifs sockets r i (node_vpp n) (node_vpp n')
}.

Section Carried.
Context `{VppLaws}.

Lemma law_create r n i n' :
  SendRequest (ReqMemifCreateV2 r) n = (inr i, n') →
  memifs (node_vpp n') ≡ₚ
    {| md_SwIfIndex := i; md_ID := mc_ID r; md_SocketID := mc_SocketID r;
       md_Role := mc_Role r; md_Mode := mc_Mode r |} :: memifs (node_vpp n) ∧
  sockets (node_vpp n') = sockets (node_vpp n).
Proof. intros Hs. exact (law_reply _ _ _ _ Hs). Qed.

Lemma law_delete i n x n' :
  SendRequest (ReqMemifDelete i) n = (inr x, n') →
  memifs (node_vpp n') ≡ₚ filter (λ d, md_SwIfIndex d ≠ i) (memifs (node_vpp n)) ∧
  sockets (node_vpp n') = sockets (node_vpp n).
Proof. intros Hs. exact (law_reply _ _ _ _ Hs). Qed.

Lemma law_socket_add id f n x n' :
  SendRequest (ReqMemifSocketFilenameAddDelV2 true id f) n = (inr x, n') →
  memifs (node_vpp n') = memifs (node_vpp n) ∧
  ({| sd_SocketID := id; sd_SocketFilename := f |} ∈ sockets (node_vpp n) ∧
   sockets (node_vpp n') = sockets (node_vpp n) ∨
   sockets (node_vpp n') ≡ₚ
     {| sd_SocketID := id; sd_SocketFilename := f |} :: sockets (node_vpp n)).
Proof. intros Hs. exact (law_reply _ _ _ _ Hs). Qed.

Lemma law_socket_del id f n x n' :
  SendRequest (ReqMemifSocketFilenameAddDelV2 false id f) n = (inr x, n') →
  memifs (node_vpp n') = memifs (node_vpp n) ∧
  sockets (node_vpp n') ≡ₚ filter (λ d, sd_SocketID d ≠ id) (sockets (node_vpp n)).
Proof. intros Hs. exact (law_reply _ _ _ _ Hs). Qed.

(** A request about something else changes neither, whatever becomes of it. *)
Lemma law_neutral r n x n' :
  memif_neutral r → SendRequest r n = (x, n') →
  memifs (node_vpp n') = memifs (node_vpp n) ∧ sockets (node_vpp n') = sockets (node_vpp n).
Proof.
  intros Hr Hs. destruct x as [e|i].
  - destruct (law_error _ _ _ _ Hs) as [?|[i Hc]]; [done|]. by destruct r.
  - apply law_reply in Hs. by destruct r.
Qed.
End Carried.

Lemma send_Ok `{VppApi} r n i n' : send r n = (Ok i, n') ↔ SendRequest r n = (inr i, n').
Proof. unfold send. destruct (SendRequest r n) as [[e|j] n1]; naive_solver. Qed.

Lemma send_Err `{VppApi} r n e n' : send r n = (Err e, n') ↔ SendRequest r n = (inl e, n').
Proof. unfold send. destruct (SendRequest r n) as [[e1|j] n1]; naive_solver. Qed.

Lemma send_cases `{VppApi} r n :
  (∃ i n', send r n = (Ok i, n')) ∨ (∃ e n', send r n = (Err e, n')).
Proof. unfold send. destruct (SendRequest r n) as [[e|i] n']; eauto. Qed.

(** The memif state: what every request about something else leaves alone. *)
Definition same_memifs `{VppLaws} (n1 n2 : node) : Prop :=
  memifs (node_vpp n1) = memifs (node_vpp n2) ∧ sockets (node_vpp n1) = sockets (node_vpp n2).

#[export] Instance same_memifs_equivalence `{VppLaws} : Equivalence same_memifs.
Proof. split; [by split|by intros ?? []; split|]. intros ??? [] []. split; congruence. Qed.

Lemma send_neutral_keeps `{VppLaws} r : memif_neutral r → keeps same_memifs (send r).
Proof.
  intros Hr n. unfold send. destruct (SendRequest r n) as [x n'] eqn:E.
  destruct (law_neutral r n x n' Hr E) as [E1 E2].
  destruct x; split; simpl; congruence.
Qed.

Lemma send__neutral_keeps `{VppLaws} r : memif_neutral r → keeps same_memifs (send_ r).
Proof. intros Hr. apply keeps_bind; [apply _|by apply send_neutral_keeps|]. intros. by apply keeps_ret, _. Qed.

Lemma on_snd_keeps `{VppLaws} {A} (m : go fs A) : keeps same_memifs (on_snd m : go node A).
Proof. intros n. unfold on_snd. destruct (m n.2) as [o f]. by split. Qed.
#[export] Hint Resolve on_snd_keeps : go_db.
#[export] Hint Resolve send_neutral_keeps send__neutral_keeps : go_db.

Lemma sw_if_index_unique `{VppLaws} v d1 d2 :
  d1 ∈ memifs v → d2 ∈ memifs v → md_SwIfIndex d1 = md_SwIfIndex d2 → d1 = d2.
Proof. apply NoDup_fmap_unique, law_sw_if_index_nodup. Qed.

Lemma socket_id_unique `{VppLaws} v s1 s2 :
  s1 ∈ sockets v → s2 ∈ sockets v → sd_SocketID s1 = sd_SocketID s2 → s1 = s2.
Proof. apply NoDup_fmap_unique, law_socket_id_nodup. Qed.

(** There are fewer interfaces than a uint32 counts. *)
Lemma memifs_few `{VppLaws} v : (Z.of_nat (length (memifs v)) < 2 ^ 32)%Z.
Proof.
  rewrite <- (length_fmap md_SwIfIndex).
  assert ((md_SwIfIndex <$> memifs v) ⊆+ seqZ 0 (2 ^ 32 - 1)) as Hsub%submseteq_length.
  { apply NoDup_submseteq; [apply law_sw_if_index_nodup|].
    intros i (d & -> & Hd)%list_elem_of_fmap.
    apply law_sw_if_index_range in Hd. apply elem_of_seqZ. lia. }
  rewrite length_seqZ in Hsub. lia.
Qed.
