(* ===== verification/Memif.v ===== *)
(** * cnivpp/api/memif: memif sockets and interfaces of a VPP

    The wrappers over the binary API.  Every loop over a dump runs on fuel; the
    lemmas say how much is enough for a VPP that answers, and what happens when
    it does not. *)
From S2P Require Import Prelude GoStrings GoOs Types VppApi.

Definition RoleMaster : Z := 0.
Definition RoleSlave : Z := 1.
Definition ModeEthernet : Z := 0.
Definition ModeIP : Z := 1.
Definition ModePuntInject : Z := 2.

Record CreateParams := {
  cp_SocketID : Z;
  cp_Role : Z;
  cp_Mode : Z;
  cp_RxQueues : Z;
  cp_TxQueues : Z;
  cp_RingSize : Z;
  cp_BufferSize : Z;
  cp_Secret : string;
  cp_NoZeroCopy : bool;
  cp_UseDma : bool;
  cp_HwAddr : string
}.

(** [if x == 0 { x = d }] *)
Definition or_default (d x : Z) : Z := if decide (x = 0)%Z then d else x.

(** SocketFileName: the override, or memif-<containerID[:12]>-<ifName>.sock *)
Definition SocketFileName (override containerID ifName : string) : string :=
  if decide (override ≠ EmptyString) then override
  else
    let cid := if decide (12 < String.length containerID) then str_take 12 containerID
               else containerID in
    "memif-" +:+ cid +:+ "-" +:+ ifName +:+ ".sock".

(** ** Searching for a free socket id

    [used] are the ids of the sockets that do not match; the search starts at 1
    and counts up (in uint32) past the used ones. *)
Fixpoint free_socket_id (fuel : nat) (used : list Z) (id : Z) : outcome Z :=
  match fuel with
  | 0 => Diverged
  | S f => if decide (id ∈ used) then free_socket_id f used (u32 (id + 1)) else Ok id
  end.

Section Memif.
Context `{VppApi}.
Variable fuel : nat.

(** CreateMemifInterface: the request it sends, or the error before it. *)
Definition memif_create_request (p : CreateParams) : result MemifCreateV2 :=
  let req hw := {|
    mc_Role := cp_Role p;
    mc_Mode := cp_Mode p;
    mc_RxQueues := or_default 1 (cp_RxQueues p);
    mc_TxQueues := or_default 1 (cp_TxQueues p);
    mc_ID := 0;
    mc_SocketID := cp_SocketID p;
    mc_RingSize := or_default 1024 (cp_RingSize p);
    mc_BufferSize := or_default 2048 (cp_BufferSize p);
    mc_NoZeroCopy := cp_NoZeroCopy p;
    mc_UseDma := cp_UseDma p;
    mc_Secret := cp_Secret p;
    mc_HwAddr := hw |} in
  if decide (cp_HwAddr p ≠ EmptyString) then
    match ParseMacAddress (cp_HwAddr p) with
    | inl perr => inl (ErrWrap "memif: invalid HwAddr" perr)
    | inr hw => inr (req hw)
    end
  else inr (req mac_zero).

Definition CreateMemifInterface (p : CreateParams) : go node Z :=
  req ← of_result (memif_create_request p);
  send (ReqMemifCreateV2 req).

(** DeleteMemifSocket *)
Definition DeleteMemifSocket (socketId : Z) : go node unit :=
  send_ (ReqMemifSocketFilenameAddDelV2 false socketId EmptyString).

(** findMemifInterface: the last match wins, errors are passed over. *)
Definition findMemifInterface (swIfIndex : Z) : go node (Z * bool) :=
  look (λ n, recv_loop (MemifDump (node_vpp n))
     (λ acc _, Continue acc)
     (λ acc d, Continue (if decide (swIfIndex = md_SwIfIndex d)
                         then (md_SocketID d, true) else acc))
     Ok fuel 0 (0%Z, false)).

(** findMemifSocketCnt *)
Definition findMemifSocketCnt (socketId : Z) : go node Z :=
  look (λ n, recv_loop (MemifDump (node_vpp n))
     (λ acc _, Continue acc)
     (λ acc d, Continue (if decide (socketId = md_SocketID d) then u32 (acc + 1) else acc))
     Ok fuel 0 0%Z).

(** findMemifSocket: (found, id of the socket or a free id).  On an error the
    reply is the zero message, which the comparison below the error sees. *)
Definition socket_step (socketFilename : string) (used : list Z)
    (d : MemifSocketFilenameDetails) : loop_step (list Z) (bool * Z) :=
  if decide (socketFilename = sd_SocketFilename d)
  then Break (Ok (true, sd_SocketID d))
  else Continue (used ++ [sd_SocketID d]).

Definition zero_socket_details : MemifSocketFilenameDetails :=
  {| sd_SocketID := 0; sd_SocketFilename := EmptyString |}.

Definition findMemifSocket (socketFilename : string) : go node (bool * Z) :=
  look (λ n, recv_loop (MemifSocketFilenameDump (node_vpp n))
     (λ used _, socket_step socketFilename used zero_socket_details)
     (socket_step socketFilename)
     (λ used, match free_socket_id (S (length used)) used 1 with
              | Ok id => Ok (false, id)
              | Err e => Err e
              | Panicked w => Panicked w
              | Diverged => Diverged
              end)
     fuel 0 []).

(** FindMemifBySocket *)
Definition FindMemifBySocket (socketFilename : string) : go node (Z * bool) :=
  '(ok, socketId) ← findMemifSocket socketFilename;
  if (ok : bool) then
    look (λ n, recv_loop (MemifDump (node_vpp n))
            (λ acc _, Continue acc)
            (λ (acc : unit) d, if decide (md_SocketID d = socketId)
                               then Break (Ok (md_SwIfIndex d, true)) else Continue acc)
            (λ _, Ok (0%Z, false)) fuel 0 tt)
  else mret (0%Z, false).

(** CreateMemifSocket: find the socket, or make its directory and register the
    file under a free id.  The id is returned with the error, too. *)
Definition CreateMemifSocket (socketFile : string) : go node Z :=
  '(found, socketId) ← findMemifSocket socketFile;
  if (found : bool) then mret socketId
  else
    on_snd (ensure_dir (path_dir socketFile)) ;;
    send (ReqMemifSocketFilenameAddDelV2 true socketId socketFile) ;;
    mret socketId.

(** DeleteMemifInterface: nothing to do for an absent interface; otherwise
    delete it, and its socket when no other interface uses it. *)
Definition DeleteMemifInterface (swIfIndex : Z) : go node unit :=
  '(socketId, exists_) ← findMemifInterface swIfIndex;
  if negb exists_ then mret tt
  else
    send (ReqMemifDelete swIfIndex) ;;
    if decide (socketId ≠ 0)%Z then
      count ← findMemifSocketCnt socketId;
      if decide (count = 0)%Z then DeleteMemifSocket socketId else mret tt
    else mret tt.
End Memif.

(** ** The search for a free id *)

Lemma seqZ_pigeonhole (used : list Z) (k : Z) :
  (∀ j, (1 ≤ j ≤ k)%Z → j ∈ used) → (k ≤ Z.of_nat (length used))%Z.
Proof.
  intros Hin. destruct (decide (k ≤ 0)%Z); [lia|].
  assert (seqZ 1 k ⊆+ used) as Hsub%submseteq_length.
  { apply NoDup_submseteq; [apply NoDup_seqZ|].
    intros j Hj%elem_of_seqZ. apply Hin. lia. }
  rewrite length_seqZ in Hsub. lia.
Qed.

Lemma free_socket_id_from used fuel id :
  (Z.of_nat (length used) < 2 ^ 32 - 1)%Z →
  (1 ≤ id)%Z → (∀ j, (1 ≤ j < id)%Z → j ∈ used) →
  (Z.of_nat (length used) + 1 < id + Z.of_nat fuel)%Z →
  ∃ r, free_socket_id fuel used id = Ok r ∧ (r ∉ used) ∧
       (1 ≤ r ≤ Z.of_nat (length used) + 1)%Z ∧ (∀ j, (1 ≤ j < r)%Z → j ∈ used).
Proof.
  intros Hlen. revert id. induction fuel as [|fuel IH]; intros id Hid Hbelow Hfuel.
  - pose proof (seqZ_pigeonhole used (id - 1)) as Hp.
    assert (id - 1 ≤ Z.of_nat (length used))%Z by (apply Hp; intros; apply Hbelow; lia). lia.
  - cbn [free_socket_id]. case_decide as Hin.
    + assert (id ≤ Z.of_nat (length used))%Z.
      { apply seqZ_pigeonhole. intros j Hj. destruct (decide (j = id)) as [->|]; [done|].
        apply Hbelow. lia. }
      rewrite u32_small by lia. apply IH; [lia| |lia].
      intros j Hj. destruct (decide (j = id)) as [->|]; [done|]. apply Hbelow. lia.
    + exists id. split_and!; [done|done|lia| |done].
      enough (id - 1 ≤ Z.of_nat (length used))%Z by lia.
      apply seqZ_pigeonhole. intros. apply Hbelow. lia.
Qed.

(** The fuel the code's loop is given is enough, and the id found is the
    smallest positive one not in use. *)
Lemma free_socket_id_least used :
  (Z.of_nat (length used) < 2 ^ 32 - 1)%Z →
  ∃ r, free_socket_id (S (length used)) used 1 = Ok r ∧ (r ∉ used) ∧
       (1 ≤ r ≤ Z.of_nat (length used) + 1)%Z ∧ (∀ j, (1 ≤ j < r)%Z → j ∈ used).
Proof. intros. apply free_socket_id_from; [done|lia| |lia]. intros. lia. Qed.

(** ** The loops over a healthy dump *)

Lemma recv_list_socket f os l used :
  recv_list (socket_step f) os l used =
  match list_find (λ d, f = sd_SocketFilename d) l with
  | Some (_, d) => Ok (true, sd_SocketID d)
  | None => os (used ++ (sd_SocketID <$> l))
  end.
Proof.
  revert used. induction l as [|d l IH]; intros used; simpl; [by rewrite app_nil_r|].
  unfold socket_step at 1. case_decide; [done|]. rewrite IH, <- app_assoc. simpl.
  by destruct (list_find _ l) as [[]|].
Qed.

Lemma free_socket_id_fresh fuel used id r :
  free_socket_id fuel used id = Ok r → r ∉ used.
Proof.
  revert id. induction fuel as [|fuel IH]; intros id; cbn [free_socket_id]; [done|].
  case_decide; [apply IH|]. by intros [= <-].
Qed.

(** The last interface with the index, or the accumulator. *)
Lemma recv_list_interface (i : Z) l acc :
  ∃ r, recv_list (λ acc d, Continue (if decide (i = md_SwIfIndex d)
                                     then (md_SocketID d, true) else acc)) Ok l acc = Ok r ∧
    ((r = acc ∧ ∀ d, d ∈ l → md_SwIfIndex d ≠ i) ∨
     (r.2 = true ∧ ∃ d, d ∈ l ∧ md_SwIfIndex d = i ∧ md_SocketID d = r.1)).
Proof.
  revert acc. induction l as [|d l IH]; intros acc; cbn [recv_list].
  { exists acc. split; [done|]. left. split; [done|]. intros d Hd. by apply elem_of_nil in Hd. }
  destruct (IH (if decide (i = md_SwIfIndex d) then (md_SocketID d, true) else acc))
    as (r & -> & [[-> Hno]|[Hr (d' & ? & ? & ?)]]); eexists; (split; [done|]).
  - case_decide as Hi.
    + right. split; [done|]. exists d. split_and!; [left|done..].
    + left. split; [done|]. intros d' [->|Hd']%elem_of_cons; [congruence|by apply Hno].
  - right. split; [done|]. exists d'. split_and!; [by right|done..].
Qed.

Lemma recv_list_count (s : Z) l acc :
  (0 ≤ acc)%Z → (acc + Z.of_nat (length l) < 2 ^ 32)%Z →
  recv_list (λ acc d, Continue (if decide (s = md_SocketID d) then u32 (acc + 1) else acc))
    Ok l acc =
  Ok (acc + Z.of_nat (length (filter (λ d, s = md_SocketID d) l)))%Z.
Proof.
  revert acc. induction l as [|d l IH]; intros acc Hacc Hb; cbn [recv_list].
  { simpl. by rewrite Z.add_0_r. }
  simpl in Hb. rewrite filter_cons. case_decide.
  - rewrite u32_small by lia. rewrite IH by lia. simpl. f_equal. lia.
  - rewrite IH by lia. done.
Qed.

Lemma recv_list_by_socket (s : Z) l :
  recv_list (λ (acc : unit) d, if decide (md_SocketID d = s)
                               then Break (Ok (md_SwIfIndex d, true)) else Continue acc)
    (λ _, Ok (0%Z, false)) l tt =
  Ok match list_find (λ d, md_SocketID d = s) l with
     | Some (_, d) => (md_SwIfIndex d, true)
     | None => (0%Z, false)
     end.
Proof.
  induction l as [|d l IH]; simpl; [done|]. case_decide; [done|]. rewrite IH.
  by destruct (list_find _ l) as [[]|].
Qed.

(** ** The wrappers on a VPP that answers *)

#[local] Arguments free_socket_id : simpl never.

Section Laws.
Context `{VppLaws}.

(** The fuel is enough for the dumps, and there is a free socket id. *)
Definition enough (fuel : nat) (n : node) : Prop :=
  length (memifs (node_vpp n)) < fuel ∧ length (sockets (node_vpp n)) < fuel ∧
  (Z.of_nat (length (sockets (node_vpp n))) < 2 ^ 32 - 1)%Z.

(** findMemifSocket: what its result means. *)
Definition socket_answer (f : string) (v : vpp) (r : bool * Z) : Prop :=
  if r.1 then {| sd_SocketID := r.2; sd_SocketFilename := f |} ∈ sockets v
  else ∀ d, d ∈ sockets v → sd_SocketFilename d ≠ f ∧ sd_SocketID d ≠ r.2.

Lemma findMemifSocket_Ok fuel f n r n' :
  findMemifSocket fuel f n = (Ok r, n') → n' = n ∧ socket_answer f (node_vpp n) r.
Proof.
  unfold findMemifSocket, look. intros [= Hrun <-]. split; [done|].
  eapply recv_loop_result in Hrun; [|apply law_socket_dump].
  rewrite recv_list_socket in Hrun. destruct (list_find _ _) as [[i d]|] eqn:E.
  - apply list_find_Some in E as (Hl & -> & _). simplify_eq/=. unfold socket_answer. simpl.
    destruct d. by eapply list_elem_of_lookup_2.
  - apply list_find_None in E. rewrite Forall_forall in E.
    destruct (free_socket_id _ _ _) as [id|?|?|] eqn:Hfree; simplify_eq.
    apply free_socket_id_fresh in Hfree. intros d Hd. simpl. split; [by intros Heq; apply (E d)|].
    intros <-. apply Hfree. by apply list_elem_of_fmap_2.
Qed.

(** With enough fuel the search returns, and a free id is the least one. *)
Lemma findMemifSocket_total fuel f n :
  enough fuel n →
  ∃ r, findMemifSocket fuel f n = (Ok r, n) ∧
    (r.1 = false →
      (1 ≤ r.2 ≤ Z.of_nat (length (sockets (node_vpp n))) + 1)%Z ∧
      ∀ j, (1 ≤ j < r.2)%Z → ∃ d, d ∈ sockets (node_vpp n) ∧ sd_SocketID d = j).
Proof.
  intros (_ & Hf & Hfew). unfold findMemifSocket, look.
  rewrite (recv_loop_delivers _ _ _ _ _ _ _ (law_socket_dump _)) by done.
  rewrite recv_list_socket. destruct (list_find _ _) as [[i d]|]; [by eexists|].
  destruct (free_socket_id_least (sd_SocketID <$> sockets (node_vpp n)))
    as (r & Hr & _ & Hrange & Hleast); [by rewrite length_fmap|].
  rewrite length_fmap in Hrange. cbn [app]. rewrite Hr. eexists. split; [done|]. intros _.
  split; [done|]. intros j Hj. apply Hleast in Hj as Hj'.
  apply list_elem_of_fmap in Hj' as (d & -> & ?). by exists d.
Qed.

(** C31: findMemifSocket returns (on a dump the fuel covers), and its answer is
    right: either the id under which the file is registered, or that no socket
    has the file, with the least id from 1 that no socket uses. *)
Theorem findMemifSocket_spec fuel f n :
  enough fuel n →
  ∃ found id, findMemifSocket fuel f n = (Ok (found, id), n) ∧
    if (found : bool)
    then {| sd_SocketID := id; sd_SocketFilename := f |} ∈ sockets (node_vpp n)
    else (∀ d, d ∈ sockets (node_vpp n) → sd_SocketFilename d ≠ f ∧ sd_SocketID d ≠ id) ∧
         (1 ≤ id ≤ Z.of_nat (length (sockets (node_vpp n))) + 1)%Z ∧
         (∀ j, (1 ≤ j < id)%Z → ∃ d, d ∈ sockets (node_vpp n) ∧ sd_SocketID d = j).
Proof.
  intros Hen. destruct (findMemifSocket_total fuel f n Hen) as ([found id] & Hrun & Hleast).
  exists found, id. split; [done|]. apply findMemifSocket_Ok in Hrun as [_ Hans].
  destruct found; [done|]. split; [done|]. by apply Hleast.
Qed.

(** findMemifInterface: what its result means. *)
Lemma findMemifInterface_Ok fuel i n r n' :
  findMemifInterface fuel i n = (Ok r, n') →
  n' = n ∧
  if r.2
  then ∃ d, d ∈ memifs (node_vpp n) ∧ md_SwIfIndex d = i ∧ md_SocketID d = r.1
  else ∀ d, d ∈ memifs (node_vpp n) → md_SwIfIndex d ≠ i.
Proof.
  unfold findMemifInterface, look. intros [= Hrun <-]. split; [done|].
  eapply recv_loop_result in Hrun; [|apply law_memif_dump].
  destruct (recv_list_interface i (memifs (node_vpp n)) (0%Z, false))
    as (r' & Heq & Hr'); rewrite Heq in Hrun; simplify_eq.
  destruct Hr' as [[-> Hno]|[-> Hd]]; done.
Qed.

Lemma findMemifSocketCnt_Ok fuel s n c n' :
  findMemifSocketCnt fuel s n = (Ok c, n') →
  n' = n ∧ (c = 0%Z ↔ ∀ d, d ∈ memifs (node_vpp n) → md_SocketID d ≠ s).
Proof.
  unfold findMemifSocketCnt, look. intros [= Hrun <-]. split; [done|].
  eapply recv_loop_result in Hrun; [|apply law_memif_dump].
  pose proof (memifs_few (node_vpp n)).
  rewrite recv_list_count in Hrun by lia. injection Hrun as <-.
  rewrite Z.add_0_l, <- Nat2Z.inj_0, Nat2Z.inj_iff, length_zero_iff_nil, list_filter_none.
  naive_solver.
Qed.

Lemma look_same {A} (g : node → outcome A) n : (look g n).2 = n.
Proof. done. Qed.

(** A request that ends in an error was carried out or not. *)
Lemma send_Err_cases r n e n' :
  send r n = (Err e, n') →
  same_memifs n n' ∨ ∃ i, carried_out memifs sockets r i (node_vpp n) (node_vpp n').
Proof. intros [[Hm Hs]|Hc]%send_Err%law_error; [by left|by right]. Qed.

Lemma send_effect r n :
  let s := send r n in
  (is_ok s.1 = false ∧ same_memifs n s.2) ∨
  ∃ i, carried_out memifs sockets r i (node_vpp n) (node_vpp s.2) ∧ ∀ j, s.1 = Ok j → j = i.
Proof.
  intros s. subst s. destruct (send_cases r n) as [(i & n' & E)|(e & n' & E)]; rewrite E; simpl.
  - right. exists i. split; [by apply law_reply, send_Ok|]. by intros j [= ->].
  - apply send_Err_cases in E as [?|[i Hc]]; [by left|]. right. by exists i.
Qed.

(** ** Registering a socket *)

(** The file came to be registered under [id], which was free, as the file was not
    registered; nothing else changed. *)
Definition registered (f : string) (id : Z) (n n' : node) : Prop :=
  memifs (node_vpp n') = memifs (node_vpp n) ∧
  (∀ d, d ∈ sockets (node_vpp n) → sd_SocketFilename d ≠ f ∧ sd_SocketID d ≠ id) ∧
  sockets (node_vpp n') ≡ₚ {| sd_SocketID := id; sd_SocketFilename := f |} :: sockets (node_vpp n).

Lemma registered_sockets f id n n' s :
  registered f id n n' → s ∈ sockets (node_vpp n) → s ∈ sockets (node_vpp n').
Proof. intros (_ & _ & ->) Hs. by right. Qed.

(** A registration that fails leaves VPP as it was, or the file is registered. *)
Lemma CreateMemifSocket_not_ok fuel f n o n' :
  CreateMemifSocket fuel f n = (o, n') → is_ok o = false →
  same_memifs n n' ∨ ∃ id, registered f id n n'.
Proof.
  unfold CreateMemifSocket. rewrite run_bind.
  destruct (findMemifSocket fuel f n) as [[[[] id]|?|?|] n0] eqn:Hf.
  1: by intros [= <- <-].
  2-4: unfold findMemifSocket, look in Hf; injection Hf as _ <-; intros [= <- <-] _; by left.
  apply findMemifSocket_Ok in Hf as [-> Hans]. cbn [fst snd] in Hans. rewrite run_bind.
  pose proof (on_snd_keeps (ensure_dir (path_dir f)) n) as Hk.
  destruct (on_snd (ensure_dir (path_dir f)) n) as [[[]|?|?|] n1]; simpl in Hk;
    [|by intros [= <- <-] _; left..].
  rewrite run_bind.
  destruct (send_cases (ReqMemifSocketFilenameAddDelV2 true id f) n1)
    as [(x & n2 & ->)|(e & n2 & Hs)]; [by intros [= <- <-]|].
  rewrite Hs. intros [= <- <-] _. destruct Hk as [Em Es].
  apply send_Err_cases in Hs as [[Em' Es']|[i [Em' Hs]]]; [left; split; congruence|].
  rewrite <- Es in Hs. destruct Hs as [[Hin _]|Hs]; [by destruct (Hans _ Hin)|].
  right. exists id. split; [congruence|]. split; [apply Hans|exact Hs].
Qed.

Lemma CreateMemifSocket_Ok fuel f n id n' :
  CreateMemifSocket fuel f n = (Ok id, n') →
  memifs (node_vpp n') = memifs (node_vpp n) ∧
  ((n' = n ∧ {| sd_SocketID := id; sd_SocketFilename := f |} ∈ sockets (node_vpp n)) ∨
   ((∀ d, d ∈ sockets (node_vpp n) → sd_SocketFilename d ≠ f ∧ sd_SocketID d ≠ id) ∧
    sockets (node_vpp n') ≡ₚ
      {| sd_SocketID := id; sd_SocketFilename := f |} :: sockets (node_vpp n))).
Proof.
  intros Hrun. unfold CreateMemifSocket in Hrun.
  apply bind_Ok_inv in Hrun as ([found id0] & n1 & [-> Hans]%findMemifSocket_Ok & Hrun).
  destruct found; go_inv; [by auto|].
  match goal with H : on_snd _ _ = (Ok _, ?n1) |- _ =>
    pose proof (on_snd_keeps (ensure_dir (path_dir f)) n) as [Hm Hs];
    rewrite H in Hm, Hs; simpl in Hm, Hs end.
  match goal with H : send _ _ = (Ok _, _) |- _ =>
    apply send_Ok, law_socket_add in H as [Hm1 Hs1] end.
  split; [congruence|]. right. split; [apply Hans|]. rewrite <- Hs in Hs1.
  destruct Hs1 as [[Hin _]|Hs1]; [|done]. by destruct (Hans _ Hin).
Qed.

(** After registering, the file has an id, and the sockets known before keep
    theirs. *)
Lemma CreateMemifSocket_sockets fuel f n id n' :
  CreateMemifSocket fuel f n = (Ok id, n') →
  {| sd_SocketID := id; sd_SocketFilename := f |} ∈ sockets (node_vpp n') ∧
  (∀ s, s ∈ sockets (node_vpp n) → s ∈ sockets (node_vpp n')).
Proof.
  intros [_ [[-> Hin]|[_ Hs]]]%CreateMemifSocket_Ok; [done|].
  setoid_rewrite Hs. split; [left|]. intros s ?. by right.
Qed.

(** CreateMemifSocket registers a socket file at most once.  Whatever the
    first call did (found the file, or registered it under a fresh id), a second
    call finds the same id and changes nothing. *)
Theorem CreateMemifSocket_idempotent fuel f n id n' :
  enough fuel n' →
  CreateMemifSocket fuel f n = (Ok id, n') →
  CreateMemifSocket fuel f n' = (Ok id, n').
Proof.
  intros Hen Hrun. destruct (CreateMemifSocket_Ok _ _ _ _ _ Hrun) as [_ [[-> _]|[Hnew Hs]]];
    [done|].
  unfold CreateMemifSocket at 1.
  destruct (findMemifSocket_total fuel f n' Hen) as ([found id'] & Hfind & _).
  rewrite (bind_Ok _ _ _ _ _ Hfind). apply findMemifSocket_Ok in Hfind as [_ Hans].
  unfold socket_answer in Hans. destruct found; simpl in Hans.
  - rewrite Hs in Hans. apply elem_of_cons in Hans as [[= ->]|Hold]; [done|].
    by destruct (Hnew _ Hold).
  - destruct (Hans {| sd_SocketID := id; sd_SocketFilename := f |}); [|done].
    rewrite Hs. left.
Qed.

(** ** Finding an interface by its socket *)

(** What an answer means. *)
Definition by_socket (f : string) (v : vpp) (r : Z * bool) : Prop :=
  if r.2
  then ∃ d s, d ∈ memifs v ∧ s ∈ sockets v ∧ md_SwIfIndex d = r.1 ∧
              md_SocketID d = sd_SocketID s ∧ sd_SocketFilename s = f
  else (∀ s, s ∈ sockets v → sd_SocketFilename s ≠ f) ∨
       (∃ s, s ∈ sockets v ∧ sd_SocketFilename s = f ∧
             ∀ d, d ∈ memifs v → md_SocketID d ≠ sd_SocketID s).

Lemma FindMemifBySocket_Ok fuel f n r n' :
  FindMemifBySocket fuel f n = (Ok r, n') → n' = n ∧ by_socket f (node_vpp n) r.
Proof.
  unfold FindMemifBySocket. intros Hrun.
  apply bind_Ok_inv in Hrun as ([ok s] & n1 & [-> Hans]%findMemifSocket_Ok & Hrun).
  unfold socket_answer in Hans. destruct ok; simpl in Hans.
  - rewrite run_look in Hrun. injection Hrun as Hrun <-. split; [done|].
    eapply recv_loop_result in Hrun; [|apply law_memif_dump].
    rewrite recv_list_by_socket in Hrun. unfold by_socket.
    destruct (list_find _ _) as [[k d]|] eqn:E; injection Hrun as <-.
    + apply list_find_Some in E as (?%list_elem_of_lookup_2 & ? & _).
      by exists d, {| sd_SocketID := s; sd_SocketFilename := f |}.
    + apply list_find_None in E. rewrite Forall_forall in E. right.
      by exists {| sd_SocketID := s; sd_SocketFilename := f |}.
  - go_inv. split; [done|]. left. intros d Hd. by apply Hans.
Qed.

(** FindMemifBySocket returns, and answers from the live state of VPP: the
    interface it returns stands on a socket registered for the file, and when it
    reports that there is none, no interface stands on the id it found for the
    file. *)
Theorem FindMemifBySocket_spec fuel f n :
  enough fuel n →
  ∃ i found, FindMemifBySocket fuel f n = (Ok (i, found), n) ∧ by_socket f (node_vpp n) (i, found).
Proof.
  intros Hen. enough (∃ i found, FindMemifBySocket fuel f n = (Ok (i, found), n)) as (i & found & Hrun).
  { exists i, found. split; [done|]. by apply FindMemifBySocket_Ok in Hrun as [_ ?]. }
  unfold FindMemifBySocket. destruct (findMemifSocket_total fuel f n Hen) as ([ok s] & Hfind & _).
  rewrite (bind_Ok _ _ _ _ _ Hfind). destruct ok; [|by do 2 eexists].
  rewrite run_look, (recv_loop_delivers _ _ _ _ _ _ _ (law_memif_dump _)) by apply Hen.
  rewrite recv_list_by_socket. destruct (list_find _ _) as [[k d]|]; by do 2 eexists.
Qed.

(** ** Deleting an interface *)

(** The sockets a delete of the interface [i] leaves without a user: the
    socket of [i], unless it is socket 0 or another interface stands on it. *)
Definition orphaned (n : node) (i id : Z) : Prop :=
  id ≠ 0%Z ∧
  (∃ d, d ∈ memifs (node_vpp n) ∧ md_SwIfIndex d = i ∧ md_SocketID d = id) ∧
  (∀ d, d ∈ memifs (node_vpp n) → md_SocketID d = id → md_SwIfIndex d = i).

(** Once [i] is gone, its socket is the one without a user. *)
Lemma orphaned_after n n1 i sid d id :
  d ∈ memifs (node_vpp n) → md_SwIfIndex d = i → md_SocketID d = sid →
  memifs (node_vpp n1) ≡ₚ filter (λ d, md_SwIfIndex d ≠ i) (memifs (node_vpp n)) →
  orphaned n i id ↔
  id = sid ∧ sid ≠ 0%Z ∧ ∀ d', d' ∈ memifs (node_vpp n1) → md_SocketID d' ≠ sid.
Proof.
  intros Hd Hdi Hds Hm1. setoid_rewrite Hm1. setoid_rewrite list_elem_of_filter. split.
  - intros (Hid & (d1 & Hd1 & Hi1 & Hs1) & Hothers).
    assert (d1 = d) as -> by (apply (sw_if_index_unique (node_vpp n)); congruence).
    split_and!; [congruence..|]. intros d' [Hne Hd'] Hsid. apply Hne, Hothers; congruence.
  - intros (-> & Hnz & Hothers). split_and!; [done|by exists d|].
    intros d' Hd' Hsid. destruct (decide (md_SwIfIndex d' = i)); [done|].
    by destruct (Hothers d').
Qed.

(** DeleteMemifInterface removes exactly the interface, keeps every other
    one, and unregisters exactly the socket that is left without a user (never
    socket 0); an interface that is already absent is a success. *)
Lemma DeleteMemifInterface_ok fuel i n n' :
  DeleteMemifInterface fuel i n = (Ok tt, n') →
  memifs (node_vpp n') ≡ₚ filter (λ d, md_SwIfIndex d ≠ i) (memifs (node_vpp n)) ∧
  ∀ s, s ∈ sockets (node_vpp n') ↔
       s ∈ sockets (node_vpp n) ∧ ¬ orphaned n i (sd_SocketID s).
Proof.
  intros Hrun. unfold DeleteMemifInterface in Hrun.
  apply bind_Ok_inv in Hrun as ([sid e] & n0 & [-> Hspec]%findMemifInterface_Ok & Hrun).
  destruct e; simpl in Hspec, Hrun.
  2:{ go_inv. split.
      - rewrite list_filter_all; [done|]. by apply Forall_forall.
      - intros s. split; [|tauto]. intros Hs. split; [done|].
        intros (_ & (d & Hd & Hi & _) & _). by apply (Hspec d). }
  destruct Hspec as (d & Hd & Hdi & Hds).
  apply bind_Ok_inv in Hrun as (x & n1 & [Hm1 Hs1]%send_Ok%law_delete & Hrun).
  pose proof (λ id, orphaned_after n n1 i sid d id Hd Hdi Hds Hm1) as Horph.
  clear Hd Hdi Hds. case_decide as Hnz.
  - apply bind_Ok_inv in Hrun as (c & n2 & [-> Hc]%findMemifSocketCnt_Ok & Hrun).
    case_decide as Hc0.
    + apply bind_Ok_inv in Hrun as (y & n3 & [Hm2 Hs2]%send_Ok%law_socket_del & Hrun). go_inv.
      split; [by rewrite Hm2|]. intros s. rewrite Hs2, list_elem_of_filter, Hs1, Horph. tauto.
    + go_inv. split; [done|]. intros s. rewrite Hs1, Horph. tauto.
  - go_inv. split; [done|]. intros s. rewrite Hs1, Horph. tauto.
Qed.

(** Whatever the call ends in, the interfaces are as before or without [i],
    and the sockets of the interfaces that are left stay registered. *)
Lemma DeleteMemifInterface_any fuel i n o n' :
  DeleteMemifInterface fuel i n = (o, n') →
  (is_ok o = false ∧ same_memifs n n') ∨
  memifs (node_vpp n') ≡ₚ filter (λ d, md_SwIfIndex d ≠ i) (memifs (node_vpp n)) ∧
  (∀ s, s ∈ sockets (node_vpp n') → s ∈ sockets (node_vpp n)) ∧
  (∀ s d, s ∈ sockets (node_vpp n) → d ∈ memifs (node_vpp n') →
          md_SocketID d = sd_SocketID s → s ∈ sockets (node_vpp n')).
Proof.
  destruct (is_ok o) eqn:Eo.
  { destruct o as [[]|?|?|]; [|done..]. intros Hrun. right.
    apply DeleteMemifInterface_ok in Hrun as [Hm Hs]. split; [done|].
    split; [by intros s [? _]%Hs|]. intros s d Hin Hd Heq. apply Hs. split; [done|].
    intros (_ & _ & Hno). rewrite Hm in Hd. apply list_elem_of_filter in Hd as [Hi Hd].
    by apply Hi, (Hno d). }
  unfold DeleteMemifInterface. rewrite run_bind. unfold findMemifInterface, look.
  destruct (recv_loop _ _ _ _ _ _ _) as [[sid []]|?|?|];
    intros Hrun; simplify_eq/=; try (by left).
  2:{ rewrite run_ret in Hrun. by simplify_eq. }
  rewrite run_bind in Hrun. destruct (send_cases (ReqMemifDelete i) n)
    as [(x & n1 & Hs)|(e' & n1 & Hs)]; rewrite Hs in Hrun;
    [|simplify_eq; apply send_Err_cases in Hs as [?|[i' [Hm Hs]]]; [by left|right]];
    [|split_and!; [done|by rewrite Hs|by rewrite Hs]].
  apply send_Ok, law_delete in Hs as [Hm Hs]. case_decide; [|by rewrite run_ret in Hrun; simplify_eq].
  right. assert (∀ n', same_memifs n1 n' →
    memifs (node_vpp n') ≡ₚ filter (λ d, md_SwIfIndex d ≠ i) (memifs (node_vpp n)) ∧
    (∀ s, s ∈ sockets (node_vpp n') → s ∈ sockets (node_vpp n)) ∧
    (∀ s d, s ∈ sockets (node_vpp n) → d ∈ memifs (node_vpp n') →
            md_SocketID d = sd_SocketID s → s ∈ sockets (node_vpp n'))) as Hsame.
  { intros n2 [Em Es]. rewrite <- Em, <- Es, Hs. split_and!; [done|done|naive_solver]. }
  rewrite run_bind in Hrun. destruct (findMemifSocketCnt fuel sid n1) as [[c|?|?|] n2] eqn:Hc;
    [|by unfold findMemifSocketCnt, look in Hc; simplify_eq; apply Hsame..].
  apply findMemifSocketCnt_Ok in Hc as [-> Hc].
  case_decide; [|rewrite run_ret in Hrun; simplify_eq; by apply Hsame].
  unfold DeleteMemifSocket, send_ in Hrun. rewrite run_bind in Hrun.
  destruct (send_cases (ReqMemifSocketFilenameAddDelV2 false sid EmptyString) n1)
    as [(y & n2 & Hd)|(e' & n2 & Hd)]; rewrite Hd in Hrun;
    [by rewrite run_ret in Hrun; simplify_eq|].
  simplify_eq. apply send_Err_cases in Hd as [?|[j [Em Es]]]; [by apply Hsame|].
  rewrite Em. split; [done|]. split.
  - intros s. rewrite Es, Hs. by intros [_ ?]%list_elem_of_filter.
  - intros s d Hin Hd Heq. rewrite Es, Hs. apply list_elem_of_filter. split; [|done].
    rewrite <- Heq. by apply Hc.
Qed.

(** ** Creating an interface *)

(** What the request takes over from the parameters. *)
Lemma memif_create_request_inr p req :
  memif_create_request p = inr req →
  mc_SocketID req = cp_SocketID p ∧ mc_Role req = cp_Role p ∧ mc_Mode req = cp_Mode p ∧
  mc_ID req = 0%Z.
Proof.
  unfold memif_create_request. case_decide; [destruct (ParseMacAddress _); [done|]|];
    by intros [= <-].
Qed.

(** A creation that fails leaves VPP as it was, or the interface is there. *)
Lemma CreateMemifInterface_not_ok p n o n' :
  CreateMemifInterface p n = (o, n') → is_ok o = false →
  same_memifs n n' ∨
  ∃ req i, memif_create_request p = inr req ∧
    carried_out memifs sockets (ReqMemifCreateV2 req) i (node_vpp n) (node_vpp n').
Proof.
  unfold CreateMemifInterface. rewrite run_bind.
  destruct (memif_create_request p) as [e|req]; simpl; [by intros [= <- <-] _; left|].
  destruct (send_cases (ReqMemifCreateV2 req) n) as [(x & n1 & ->)|(e & n1 & Hs)].
  - by intros [= <- <-].
  - rewrite Hs. intros [= <- <-] _. apply send_Err_cases in Hs as [?|[i Hc]]; [by left|].
    right. by exists req, i.
Qed.

Lemma CreateMemifInterface_Ok p n i n' :
  CreateMemifInterface p n = (Ok i, n') →
  ∃ req, memif_create_request p = inr req ∧
    SendRequest (ReqMemifCreateV2 req) n = (inr i, n').
Proof.
  intros Hrun. apply bind_Ok_inv in Hrun as (req & n1 & Hreq & Hsend%send_Ok).
  destruct (memif_create_request p) as [e|r]; simpl in Hreq; go_inv. by exists req.
Qed.
End Laws.

(** ** A VPP that does not answer *)

(** The search for a socket does not return when every reply is an error
    (a VPP that stopped answering): the loop passes over the error and receives
    again, so the reply timeout does not bound the call. *)
Theorem findMemifSocket_unanswered `{VppApi} fuel f n :
  never_answers (MemifSocketFilenameDump (node_vpp n)) → f ≠ EmptyString →
  findMemifSocket fuel f n = (Diverged, n).
Proof.
  intros Hnever Hf. unfold findMemifSocket, look. f_equal.
  generalize 0, (@nil Z). induction fuel as [|fuel IH]; intros k used; [done|].
  simpl. destruct (Hnever k) as [e ->]. unfold socket_step at 1.
  simpl. by rewrite decide_False.
Qed.
