(* ===== verification/Bridge.v ===== *)
(** * cnivpp/api/bridge, interface and vhostuser: the other VPP wrappers *)
From S2P Require Import Prelude GoStrings GoOs Types VppApi.

(** ** Bridge domains (cnivpp/api/bridge) *)

Section Bridge.
Context `{VppApi}.
Variable fuel : nat.

(** findBridge: (exists, number of its interfaces).  An error ends the loop. *)
Definition findBridge (bridgeDomain : Z) : go node (bool * Z) :=
  look (λ n, recv_loop (BridgeDomainDump bridgeDomain (node_vpp n))
     (λ acc _, Break (Ok acc))
     (λ _ d, Continue (true, bdd_NSwIfs d))
     Ok fuel 0 (false, 0%Z)).

Definition CreateBridge (bridgeDomain : Z) : go node unit :=
  '(exists_, _) ← findBridge bridgeDomain;
  if (exists_ : bool) then mret tt
  else send_ (ReqBridgeDomainAddDelV2
    {| bd_BdID := bridgeDomain; bd_Flood := true; bd_UuFlood := true; bd_Forward := true;
       bd_Learn := true; bd_IsAdd := true |}).

Definition DeleteBridge (bridgeDomain : Z) : go node unit :=
  '(exists_, count) ← findBridge bridgeDomain;
  if decide (exists_ = false ∨ count ≠ 0%Z) then mret tt
  else send_ (ReqBridgeDomainAddDelV2
    {| bd_BdID := bridgeDomain; bd_Flood := false; bd_UuFlood := false; bd_Forward := false;
       bd_Learn := false; bd_IsAdd := false |}).

Definition AddBridgeInterface (bridgeDomain swIfId : Z) : go node unit :=
  CreateBridge bridgeDomain ;;
  send_ (ReqSwInterfaceSetL2Bridge bridgeDomain swIfId true).

Definition RemoveBridgeInterface (bridgeDomain swIfId : Z) : go node unit :=
  send_ (ReqSwInterfaceSetL2Bridge bridgeDomain swIfId false) ;;
  DeleteBridge bridgeDomain.
End Bridge.

(** ** Interface flags, MTU and addresses (cnivpp/api/interface) *)

Section Interface.
Context `{VppApi}.

Definition SetState (swIfIndex isUp : Z) : go node unit :=
  send_ (ReqSwInterfaceSetFlags swIfIndex isUp).

Definition SetMtu (swIfIndex mtu : Z) : go node unit :=
  if decide (mtu = 0)%Z then mret tt
  else send_ (ReqSwInterfaceSetMtu swIfIndex [mtu; 0; 0; 0]%Z).

(** net.IP: To4 and To16, nil being the empty list. *)
Definition v4_in_v6_prefix : list Z := [0; 0; 0; 0; 0; 0; 0; 0; 0; 0; 255; 255]%Z.

Definition To4 (ip : list Z) : list Z :=
  if decide (length ip = 4) then ip
  else if decide (length ip = 16 ∧ take 12 ip = v4_in_v6_prefix) then drop 12 ip
  else [].

Definition To16 (ip : list Z) : list Z :=
  if decide (length ip = 4) then v4_in_v6_prefix ++ ip
  else if decide (length ip = 16) then ip
  else [].

Definition zero_prefix : address_with_prefix := {| ap_Address := []; ap_Len := 0 |}.

(** The prefix AddDelIpAddress puts in its request.  The loop compares the size
    of the mask (the prefix length) with 4 and with 16, and every branch of its
    body leaves the loop, so only the first address is looked at. *)
Definition request_prefix (ips : list Result.ip_config) : address_with_prefix :=
  match ips with
  | [] => zero_prefix
  | ip :: _ =>
      let addr := Result.Address ip in
      if decide (Result.Mask_ones addr = 4)%Z then
        {| ap_Address := To4 (Result.IP addr); ap_Len := 4 |}
      else if decide (Result.Mask_ones addr = 16)%Z then
        {| ap_Address := To16 (Result.IP addr); ap_Len := 16 |}
      else zero_prefix
  end.

Definition AddDelIpAddress (swIfIndex : Z) (isAdd : bool) (ipResult : Result.t) : go node unit :=
  send_ (ReqSwInterfaceAddDelAddress swIfIndex isAdd
           (request_prefix (Result.IPs ipResult))).
End Interface.

(** ** vhost-user interfaces (cnivpp/api/vhostuser) *)

Record VhostCreateParams := {
  vp_IsServer : bool;
  vp_SockFilename : string;
  vp_EnableGso : bool;
  vp_EnablePacked : bool;
  vp_EnableEventIdx : bool;
  vp_MAC : string
}.

Section VhostUser.
Context `{VppApi}.

Definition vhost_create_request (p : VhostCreateParams) : result CreateVhostUserIfV2 :=
  let req custom hw := {|
    vc_IsServer := vp_IsServer p;
    vc_SockFilename := vp_SockFilename p;
    vc_EnableGso := vp_EnableGso p;
    vc_EnablePacked := vp_EnablePacked p;
    vc_EnableEventIdx := vp_EnableEventIdx p;
    vc_UseCustomMac := custom;
    vc_MacAddress := hw |} in
  if decide (vp_MAC p ≠ EmptyString) then
    match ParseMacAddress (vp_MAC p) with
    | inl perr => inl (ErrWrap "vhostuser: invalid MAC" perr)
    | inr hw => inr (req true hw)
    end
  else inr (req false mac_zero).

Definition CreateVhostUserInterface (p : VhostCreateParams) : go node Z :=
  req ← of_result (vhost_create_request p);
  send (ReqCreateVhostUserIfV2 req).

Definition DeleteVhostUserInterface (swIfIndex : Z) : go node unit :=
  send_ (ReqDeleteVhostUserIf swIfIndex).
End VhostUser.

(** ** Lemmas: requests that leave the memifs alone *)

Section Keeps.
Context `{VppLaws}.

Lemma findBridge_keeps fuel b : keeps same_memifs (findBridge fuel b).
Proof. apply keeps_look, _. Qed.
Hint Resolve findBridge_keeps : go_db.

Lemma CreateBridge_keeps fuel b : keeps same_memifs (CreateBridge fuel b).
Proof.
  apply keeps_bind; [apply _|auto with go_db|]. intros [[] ?]; [by apply keeps_ret, _|].
  by apply send__neutral_keeps.
Qed.

Lemma AddBridgeInterface_keeps fuel b i : keeps same_memifs (AddBridgeInterface fuel b i).
Proof. apply keeps_bind; [apply _|apply CreateBridge_keeps|]. intros. by apply send__neutral_keeps. Qed.

Lemma DeleteBridge_keeps fuel b : keeps same_memifs (DeleteBridge fuel b).
Proof.
  apply keeps_bind; [apply _|auto with go_db|]. intros [e c]. case_decide.
  - by apply keeps_ret, _.
  - by apply send__neutral_keeps.
Qed.

Lemma RemoveBridgeInterface_keeps fuel b i : keeps same_memifs (RemoveBridgeInterface fuel b i).
Proof. apply keeps_bind; [apply _|by apply send__neutral_keeps|]. intros. apply DeleteBridge_keeps. Qed.

Lemma SetState_keeps i u : keeps same_memifs (SetState i u).
Proof. by apply send__neutral_keeps. Qed.

Lemma SetMtu_keeps i m : keeps same_memifs (SetMtu i m).
Proof. unfold SetMtu. case_decide; [by apply keeps_ret, _|by apply send__neutral_keeps]. Qed.

Lemma AddDelIpAddress_keeps i a r : keeps same_memifs (AddDelIpAddress i a r).
Proof. by apply send__neutral_keeps. Qed.
End Keeps.
#[export] Hint Resolve AddBridgeInterface_keeps RemoveBridgeInterface_keeps SetState_keeps
  SetMtu_keeps AddDelIpAddress_keeps : go_db.

(** ** What the bridge wrappers rely on and achieve *)

Definition bd_neutral (r : request) : Prop :=
  match r with
  | ReqBridgeDomainAddDelV2 _ | ReqSwInterfaceSetL2Bridge _ _ true => False
  | _ => True
  end.

Class VppBridgeLaws `{VppApi} := {
  (* the members of each existing bridge domain *)
  bridges : vpp → gmap Z (gset Z);
  law_bd_dump b v :
    delivers (BridgeDomainDump b v)
      match bridges v !! b with
      | Some s => [{| bdd_BdID := b; bdd_NSwIfs := Z.of_nat (size s) |}]
      | None => []
      end;
  law_bd_add r n x n' :
    bd_IsAdd r = true → SendRequest (ReqBridgeDomainAddDelV2 r) n = (inr x, n') →
    bridges (node_vpp n') = <[bd_BdID r := default ∅ (bridges (node_vpp n) !! bd_BdID r)]>
                              (bridges (node_vpp n));
  law_bd_del r n x n' :
    bd_IsAdd r = false → SendRequest (ReqBridgeDomainAddDelV2 r) n = (inr x, n') →
    bridges (node_vpp n') = delete (bd_BdID r) (bridges (node_vpp n));
  (* an interface is a member of one domain at most: joining leaves the others (and
     makes the domain when it is missing), and leaving does not depend on the domain
     named in the request *)
  law_l2_join b i n x n' :
    SendRequest (ReqSwInterfaceSetL2Bridge b i true) n = (inr x, n') →
    bridges (node_vpp n') =
      <[b := {[i]} ∪ default ∅ (bridges (node_vpp n) !! b)]>
        ((λ s, s ∖ {[i]}) <$> bridges (node_vpp n));
  law_l2_leave b i n x n' :
    SendRequest (ReqSwInterfaceSetL2Bridge b i false) n = (inr x, n') →
    bridges (node_vpp n') = (λ s, s ∖ {[i]}) <$> bridges (node_vpp n);
  (* no other request makes or deletes a domain, whatever becomes of it *)
  law_bd_other r n x n' :
    bd_neutral r → SendRequest r n = (x, n') →
    dom (bridges (node_vpp n')) = dom (bridges (node_vpp n));
  (* one that ends in an error was carried out or not *)
  law_bd_error r n e n' :
    SendRequest (ReqBridgeDomainAddDelV2 r) n = (inl e, n') →
    bridges (node_vpp n') = bridges (node_vpp n) ∨
    bridges (node_vpp n') =
      if bd_IsAdd r
      then <[bd_BdID r := default ∅ (bridges (node_vpp n) !! bd_BdID r)]> (bridges (node_vpp n))
      else delete (bd_BdID r) (bridges (node_vpp n))
}.

Section BridgeLaws.
Context `{VppBridgeLaws}.

Lemma findBridge_run fuel b n :
  1 < fuel →
  findBridge fuel b n =
  (Ok match bridges (node_vpp n) !! b with
      | Some s => (true, Z.of_nat (size s))
      | None => (false, 0%Z)
      end, n).
Proof.
  intros Hf. unfold findBridge, look. f_equal.
  rewrite (recv_loop_delivers _ _ _ _ _ _ _ (law_bd_dump b _)).
  - by destruct (_ !! b).
  - destruct (_ !! b); simpl; lia.
Qed.

Lemma CreateBridge_ok fuel b n n' :
  1 < fuel → CreateBridge fuel b n = (Ok tt, n') →
  bridges (node_vpp n') = <[b := default ∅ (bridges (node_vpp n) !! b)]> (bridges (node_vpp n)).
Proof.
  intros Hf Hrun. unfold CreateBridge in Hrun.
  rewrite (bind_Ok _ _ _ _ _ (findBridge_run fuel b n Hf)) in Hrun.
  destruct (_ !! b) as [s|] eqn:E.
  - go_inv. simpl. by rewrite insert_id.
  - unfold send_ in Hrun. apply bind_Ok_inv in Hrun as (x & n1 & Hs%send_Ok & Hr).
    go_inv. apply law_bd_add in Hs; [|done]. simpl in Hs. by rewrite Hs, E.
Qed.

Lemma AddBridgeInterface_members fuel b i n n' :
  1 < fuel → AddBridgeInterface fuel b i n = (Ok tt, n') →
  bridges (node_vpp n') !! b = Some ({[i]} ∪ default ∅ (bridges (node_vpp n) !! b)).
Proof.
  intros Hf Hrun. unfold AddBridgeInterface in Hrun.
  apply bind_Ok_inv in Hrun as ([] & n1 & Hc%CreateBridge_ok & Hrun); [|done].
  unfold send_ in Hrun. apply bind_Ok_inv in Hrun as (x & n2 & Hs%send_Ok & Hr). go_inv.
  apply law_l2_join in Hs. by rewrite Hs, Hc, !lookup_insert_eq.
Qed.

(** AddBridgeInterface creates the bridge domain when it is missing, makes
    the interface a member of it, takes it out of every other domain, and keeps
    every other membership. *)
Theorem AddBridgeInterface_ok fuel b i n n' :
  1 < fuel → AddBridgeInterface fuel b i n = (Ok tt, n') →
  bridges (node_vpp n') !! b = Some ({[i]} ∪ default ∅ (bridges (node_vpp n) !! b)) ∧
  ∀ b', b' ≠ b →
    bridges (node_vpp n') !! b' = (λ s, s ∖ {[i]}) <$> bridges (node_vpp n) !! b'.
Proof.
  intros Hf Hrun. split; [by eapply AddBridgeInterface_members|]. intros b' Hb.
  unfold AddBridgeInterface in Hrun.
  apply bind_Ok_inv in Hrun as ([] & n1 & Hc%CreateBridge_ok & Hrun); [|done].
  unfold send_ in Hrun. apply bind_Ok_inv in Hrun as (x & n2 & Hs%send_Ok & Hr). go_inv.
  apply law_l2_join in Hs. by rewrite Hs, Hc, lookup_insert_ne, lookup_fmap, lookup_insert_ne.
Qed.

(** RemoveBridgeInterface takes the interface out of its domain, and
    deletes the named domain exactly when it has no member left; a domain with
    other members keeps them. *)
Theorem RemoveBridgeInterface_ok fuel b i n n' :
  1 < fuel → RemoveBridgeInterface fuel b i n = (Ok tt, n') →
  (∀ b' s, bridges (node_vpp n') !! b' = Some s → i ∉ s) ∧
  bridges (node_vpp n') !! b =
    (s ← bridges (node_vpp n) !! b; if decide (s ∖ {[i]} = ∅) then None else Some (s ∖ {[i]})) ∧
  ∀ b', b' ≠ b →
    bridges (node_vpp n') !! b' = (λ s, s ∖ {[i]}) <$> bridges (node_vpp n) !! b'.
Proof.
  intros Hf Hrun. unfold RemoveBridgeInterface in Hrun.
  apply bind_Ok_inv in Hrun as ([] & n1 & Hleave & Hrun).
  unfold send_ in Hleave. apply bind_Ok_inv in Hleave as (x & n2 & Hs%send_Ok%law_l2_leave & Hr).
  go_inv. unfold DeleteBridge in Hrun.
  rewrite (bind_Ok _ _ _ _ _ (findBridge_run fuel b n1 Hf)) in Hrun.
  rewrite Hs, lookup_fmap in Hrun. destruct (bridges (node_vpp n) !! b) as [s|] eqn:E.
  - simpl in Hrun. case_decide as Hcount.
    + go_inv. rewrite Hs. split_and!.
      * intros b' s' (s0 & <- & _)%lookup_fmap_Some.
        rewrite elem_of_difference, elem_of_singleton. tauto.
      * rewrite lookup_fmap, E. simpl. rewrite decide_False; [done|].
        intros He. destruct Hcount as [?|Hc]; [done|]. by rewrite He in Hc.
      * intros b' _. by rewrite lookup_fmap.
    + unfold send_ in Hrun. apply bind_Ok_inv in Hrun as (y & n3 & Hd%send_Ok & Hr). go_inv.
      apply law_bd_del in Hd; [|done]. simpl in Hd. rewrite Hd, Hs. split_and!.
      * intros b' s' [_ (s0 & <- & _)%lookup_fmap_Some]%lookup_delete_Some.
        rewrite elem_of_difference, elem_of_singleton. tauto.
      * rewrite lookup_delete_eq. simpl. rewrite decide_True; [done|].
        apply leibniz_equiv, size_empty_inv. lia.
      * intros b' Hb. by rewrite lookup_delete_ne, lookup_fmap.
  - simpl in Hrun. go_inv. rewrite Hs. split_and!.
    + intros b' s' (s0 & <- & _)%lookup_fmap_Some.
        rewrite elem_of_difference, elem_of_singleton. tauto.
    + by rewrite lookup_fmap, E.
    + intros b' _. by rewrite lookup_fmap.
Qed.
End BridgeLaws.
