(* ===== verification/CniVpp.v ===== *)
(** * cnivpp/cnivpp.go: the CNI engine for VPP

    AddOnHost and DelFromHost run on the configuration, which they fill in (the
    socket file's name, the default mode), and on the node.  [fuel] bounds the
    loops over the dumps of VPP. *)
From S2P Require Import Prelude GoStrings GoOs Json Types JsonCodec Annotations ConfigData.
From S2P Require Import LocalDb VppApi Memif Bridge.

(** os/user.LookupGroup: the group's id, as a text. *)
Class UserDb := { LookupGroup : string → result string }.

(** strconv.Atoi *)
Definition atoi (s : string) : result Z :=
  match s with
  | String a ((String _ _) as s') =>
      if decide (a = "+"%char) then parse_digits (2 ^ 63 - 1) 0 s' else parse_int 64 s
  | _ => parse_int 64 s
  end.

(** Assignments to parts of conf.HostConf. *)
Definition upd_host (f : UserSpaceConf.t → UserSpaceConf.t) (conf : NetConf.t) : NetConf.t :=
  NetConf.set_HostConf (f (NetConf.HostConf conf)) conf.
Definition upd_memif (f : MemifConf.t → MemifConf.t) : NetConf.t → NetConf.t :=
  upd_host (λ h, UserSpaceConf.set_MemifConf (f (UserSpaceConf.MemifConf h)) h).
Definition upd_vhost (f : VhostConf.t → VhostConf.t) : NetConf.t → NetConf.t :=
  upd_host (λ h, UserSpaceConf.set_VhostConf (f (UserSpaceConf.VhostConf h)) h).

Notation host_memif conf := (UserSpaceConf.MemifConf (NetConf.HostConf conf)).
Notation host_vhost conf := (UserSpaceConf.VhostConf (NetConf.HostConf conf)).
Notation host_bridge conf := (UserSpaceConf.BridgeConf (NetConf.HostConf conf)).

(** ** Socket files *)

Definition getMemifSocketfileName (sharedDir containerID ifName : string) : go NetConf.t string :=
  modify (upd_memif (λ m, MemifConf.set_Socketfile
                            (SocketFileName (MemifConf.Socketfile m) containerID ifName) m)) ;;
  conf ← gets id;
  mret (path_join [sharedDir; MemifConf.Socketfile (host_memif conf)]).

Definition getVhostSocketfileName (sharedDir containerID ifName : string) : go NetConf.t string :=
  conf ← gets id;
  (if decide (VhostConf.Socketfile (host_vhost conf) = EmptyString) then
     id ← slice_to 12 containerID;
     modify (upd_vhost (VhostConf.set_Socketfile (id +:+ "-" +:+ ifName)))
   else mret tt) ;;
  conf ← gets id;
  mret (path_join [sharedDir; VhostConf.Socketfile (host_vhost conf)]).

Section CniVpp.
Context `{VppApi} `{UserDb}.
Variable fuel : nat.

Notation host_state := (NetConf.t * node)%type.

(** What VppOpenCh (file Infra) does to VPP: nothing, but it can be refused. *)
Definition open_channel : go node unit :=
  look (λ n, match Connect (node_vpp n) with
             | Some err => Err err
             | None => match OpenChannel (node_vpp n) with
                       | Some err => Err err
                       | None => Ok tt
                       end
             end).

Definition chgrpSocket (socketPath group : string) : go fs unit :=
  gidText ← of_result (LookupGroup group);
  gid ← of_result (atoi gidText);
  os_chgrp socketPath gid.

(** ** Creating and deleting the interface *)

Definition vhost_params (conf : NetConf.t) (isServer : bool) (socketPath : string)
  : VhostCreateParams := {|
  vp_IsServer := isServer;
  vp_SockFilename := socketPath;
  vp_EnableGso := VhostConf.EnableGso (host_vhost conf);
  vp_EnablePacked := VhostConf.EnablePacked (host_vhost conf);
  vp_EnableEventIdx := VhostConf.EnableEventIdx (host_vhost conf);
  vp_MAC := UserSpaceConf.MAC (NetConf.HostConf conf) |}.

Definition addLocalDeviceVhostUser (args : CmdArgs.t) (sharedDir : string)
    (data : VppSavedData.t) : go host_state VppSavedData.t :=
  socketPath ← on_fst (getVhostSocketfileName sharedDir (CmdArgs.ContainerID args)
                         (CmdArgs.IfName args));
  conf ← gets fst;
  let isServer := negb (bool_decide (VhostConf.Mode (host_vhost conf) = "client")) in
  idx ← on_snd (CreateVhostUserInterface (vhost_params conf isServer socketPath));
  (if isServer && negb (bool_decide (VhostConf.Group (host_vhost conf) = EmptyString))
   then on_snd (on_snd (ignore_err (chgrpSocket socketPath (VhostConf.Group (host_vhost conf)))))
   else mret tt) ;;
  mret (VppSavedData.set_InterfaceSwIfIndex idx data).

Definition delLocalDeviceVhostUser (args : CmdArgs.t) (sharedDir : string)
    (data : VppSavedData.t) : go host_state unit :=
  on_snd (DeleteVhostUserInterface (VppSavedData.InterfaceSwIfIndex data)) ;;
  path ← on_fst (getVhostSocketfileName sharedDir (CmdArgs.ContainerID args) (CmdArgs.IfName args));
  on_snd (on_snd (ignore_err (FileCleanup EmptyString path))).

Definition memif_role (role : string) : result Z :=
  if decide (role = "master") then inr RoleMaster
  else if decide (role = "slave") then inr RoleSlave
  else inl (ErrNew ("ERROR: Invalid MEMIF Role: " +:+ role)).

Definition memif_mode (mode : string) : result Z :=
  if decide (mode = "ethernet") then inr ModeEthernet
  else if decide (mode = "ip") then inr ModeIP
  else if decide (mode = "inject-punt") then inr ModePuntInject
  else inl (ErrNew ("ERROR: Invalid MEMIF Mode: " +:+ mode)).

Definition default_mode (m : MemifConf.t) : MemifConf.t :=
  if decide (MemifConf.Mode m = EmptyString) then MemifConf.set_Mode "ethernet" m else m.

Definition memif_params (conf : NetConf.t) (role mode socketID : Z) : CreateParams := {|
  cp_SocketID := socketID;
  cp_Role := role;
  cp_Mode := mode;
  cp_RxQueues := MemifConf.RxQueues (host_memif conf);
  cp_TxQueues := MemifConf.TxQueues (host_memif conf);
  cp_RingSize := MemifConf.RingSize (host_memif conf);
  cp_BufferSize := MemifConf.BufferSize (host_memif conf);
  cp_Secret := MemifConf.Secret (host_memif conf);
  cp_NoZeroCopy := MemifConf.NoZeroCopy (host_memif conf);
  cp_UseDma := MemifConf.UseDma (host_memif conf);
  cp_HwAddr := UserSpaceConf.MAC (NetConf.HostConf conf) |}.

Definition addLocalDeviceMemif (args : CmdArgs.t) (sharedDir : string)
    (data : VppSavedData.t) : go host_state VppSavedData.t :=
  memifSocketPath ← on_fst (getMemifSocketfileName sharedDir (CmdArgs.ContainerID args)
                              (CmdArgs.IfName args));
  conf ← gets fst;
  memifRole ← of_result (memif_role (MemifConf.Role (host_memif conf)));
  on_fst (modify (upd_memif default_mode)) ;;
  conf ← gets fst;
  memifMode ← of_result (memif_mode (MemifConf.Mode (host_memif conf)));
  socketId ← on_snd (CreateMemifSocket fuel memifSocketPath);
  idx ← on_snd (CreateMemifInterface (memif_params conf memifRole memifMode socketId));
  mret (VppSavedData.mk idx socketId).

(** The deferred removal of the socket file; its error is only logged. *)
Definition cleanup_socket (path : string) (s : host_state) : host_state :=
  (s.1, (s.2.1, (FileCleanup EmptyString path s.2.2).2)).

Definition delLocalDeviceMemif (args : CmdArgs.t) (sharedDir : string)
    (data : VppSavedData.t) (memifGone : bool) : go host_state unit :=
  memifSocketPath ← on_fst (getMemifSocketfileName sharedDir (CmdArgs.ContainerID args)
                              (CmdArgs.IfName args));
  with_defer
    (if memifGone then mret tt
     else wrap_err "delLocalDeviceMemif(vpp): Error deleting memif inteface"
            (on_snd (DeleteMemifInterface fuel (VppSavedData.InterfaceSwIfIndex data))))
    (cleanup_socket memifSocketPath).

(** ** ADD *)

(** The domain of BridgeId, or the one BridgeName spells. *)
Definition bridge_domain (b : BridgeConf.t) : result Z :=
  if decide (BridgeConf.BridgeName b ≠ EmptyString)
  then parse_uint 32 (BridgeConf.BridgeName b)
  else inr (if decide (BridgeConf.BridgeId b ≠ 0)%Z then u32 (BridgeConf.BridgeId b) else 0%Z).

(** Add Interface to Local Network *)
Definition join_network (conf : NetConf.t) (idx : Z) (ipResult : option Result.t) : go node unit :=
  let netType := UserSpaceConf.NetType (NetConf.HostConf conf) in
  if decide (netType = "bridge") then
    bridgeDomain ← of_result (bridge_domain (host_bridge conf));
    AddBridgeInterface fuel bridgeDomain idx
  else if decide (netType = "interface") then
    match ipResult with
    | Some r => if decide (Result.IPs r = []) then mret tt else AddDelIpAddress idx true r
    | None => mret tt
    end
  else if decide (netType ≠ EmptyString)
  then raise (ErrNew ("ERROR: Unknown HostConf.NetType:" +:+ netType))
  else raise (ErrNew "ERROR: NetType must be provided").

(** From the interface's state to its network. *)
Definition set_up (conf : NetConf.t) (idx : Z) (ipResult : option Result.t) : go node unit :=
  SetState idx 1 ;;
  (let mtu := UserSpaceConf.MTU (NetConf.HostConf conf) in
   if decide (0 < mtu)%Z then SetMtu idx (u32 mtu) else mret tt) ;;
  join_network conf idx ipResult.

Definition add_local_device (args : CmdArgs.t) (sharedDir : string)
  : go host_state VppSavedData.t :=
  conf ← gets fst;
  let ifType := UserSpaceConf.IfType (NetConf.HostConf conf) in
  if decide (ifType = "memif") then addLocalDeviceMemif args sharedDir VppSavedData.zero
  else if decide (ifType = "vhostuser") then addLocalDeviceVhostUser args sharedDir VppSavedData.zero
  else raise (ErrNew ("ERROR: Unknown HostConf.IfType:" +:+ ifType)).

Definition AddOnHost (args : CmdArgs.t) (sharedDir : string) (ipResult : option Result.t)
  : go host_state unit :=
  _ ← slice_to 12 (CmdArgs.ContainerID args);
  on_snd open_channel ;;
  data ← add_local_device args sharedDir;
  conf ← gets fst;
  on_snd (set_up conf (VppSavedData.InterfaceSwIfIndex data) ipResult) ;;
  on_snd (on_snd (SaveVppConfig args data)).

(** ** DEL *)

(** Remove L2 Network if supplied; an error is only logged. *)
Definition leave_network (conf : NetConf.t) (idx : Z) (memifGone : bool) : go node unit :=
  if bool_decide (UserSpaceConf.NetType (NetConf.HostConf conf) = "bridge") && negb memifGone then
    ignore_err (RemoveBridgeInterface fuel (u32 (BridgeConf.BridgeId (host_bridge conf))) idx)
  else mret tt.

Definition DelFromHost (args : CmdArgs.t) (sharedDir : string) : go host_state unit :=
  _ ← slice_to 12 (CmdArgs.ContainerID args);
  on_snd open_channel ;;
  data ← on_snd (on_snd (LoadVppConfig args VppSavedData.zero));
  conf ← gets fst;
  let ifType := UserSpaceConf.IfType (NetConf.HostConf conf) in
  '(data, memifGone) ←
    (if decide (ifType = "memif") then
       socketPath ← on_fst (getMemifSocketfileName sharedDir (CmdArgs.ContainerID args)
                              (CmdArgs.IfName args));
       '(idx, found) ← on_snd (FindMemifBySocket fuel socketPath);
       mret (if (found : bool) then (VppSavedData.set_InterfaceSwIfIndex idx data, false)
             else (data, true))
     else mret (data, false));
  conf ← gets fst;
  on_snd (leave_network conf (VppSavedData.InterfaceSwIfIndex data) memifGone) ;;
  if decide (ifType = "memif") then delLocalDeviceMemif args sharedDir data memifGone
  else if decide (ifType = "vhostuser") then delLocalDeviceVhostUser args sharedDir data
  else raise (ErrNew ("ERROR: Unknown HostConf.IfType: " +:+ ifType)).
End CniVpp.

(** ** The container's side *)

Definition AddOnContainer `{KubeClient} `{CniLib} (conf : NetConf.t) (args : CmdArgs.t)
    (kubeClient : bool) (sharedDir : string) (ipResult : option Result.t)
  : go ((kube * option Pod.t) * fs) (option Pod.t) :=
  _ ← slice_to 12 (CmdArgs.ContainerID args);
  SaveRemoteConfig (Some conf) (Some args) kubeClient sharedDir ipResult.

Definition DelFromContainer (args : CmdArgs.t) (sharedDir : string) : go fs unit :=
  _ ← slice_to 12 (CmdArgs.ContainerID args);
  ignore_err (FileCleanup sharedDir EmptyString).

(** ** The configuration filled in *)

Section Filled.
Variable dir : string.
Variable args : CmdArgs.t.

Definition with_socketfile (conf : NetConf.t) : NetConf.t :=
  upd_memif (λ m, MemifConf.set_Socketfile
    (SocketFileName (MemifConf.Socketfile m) (CmdArgs.ContainerID args) (CmdArgs.IfName args)) m) conf.

(** What ADD leaves in the configuration of a memif. *)
Definition filled (conf : NetConf.t) : NetConf.t := upd_memif default_mode (with_socketfile conf).

(** The path of a memif's socket. *)
Definition memif_path (conf : NetConf.t) : string :=
  path_join [dir; SocketFileName (MemifConf.Socketfile (host_memif conf))
                    (CmdArgs.ContainerID args) (CmdArgs.IfName args)].

Lemma getMemifSocketfileName_run conf :
  getMemifSocketfileName dir (CmdArgs.ContainerID args) (CmdArgs.IfName args) conf =
  (Ok (memif_path conf), with_socketfile conf).
Proof. done. Qed.

Lemma SocketFileName_ne o c i : SocketFileName o c i ≠ EmptyString.
Proof. unfold SocketFileName. by case_decide. Qed.

Lemma SocketFileName_idemp o c i : SocketFileName (SocketFileName o c i) c i = SocketFileName o c i.
Proof.
  unfold SocketFileName at 1. rewrite decide_True; [done|]. apply SocketFileName_ne.
Qed.

(** Naming the socket file again changes nothing: DEL may see either form. *)
Lemma memif_path_filled conf : memif_path (with_socketfile conf) = memif_path conf.
Proof. unfold memif_path. simpl. by rewrite SocketFileName_idemp. Qed.
End Filled.

Section Laws.
Context `{VppLaws} `{UserDb}.
Variable fuel : nat.

Lemma set_up_keeps conf idx ip : keeps same_memifs (set_up fuel conf idx ip).
Proof.
  unfold set_up, join_network. cbv zeta.
  apply keeps_bind; [apply _|auto with go_db|intros _].
  apply keeps_bind; [apply _|case_decide; auto with go_db|intros _].
  case_decide.
  { apply keeps_bind; [apply _|auto with go_db|intros; auto with go_db]. }
  case_decide.
  { destruct ip as [r|]; [case_decide|]; auto with go_db. }
  case_decide; auto with go_db.
Qed.

(** The device steps of ADD for a memif. *)
Lemma addLocalDeviceMemif_Ok args dir data conf n d s' :
  addLocalDeviceMemif fuel args dir data (conf, n) = (Ok d, s') →
  ∃ role mode sid i n1,
    memif_role (MemifConf.Role (host_memif conf)) = inr role ∧
    memif_mode (MemifConf.Mode (host_memif (filled args conf))) = inr mode ∧
    CreateMemifSocket fuel (memif_path dir args conf) n = (Ok sid, n1) ∧
    CreateMemifInterface (memif_params (filled args conf) role mode sid) n1 = (Ok i, s'.2) ∧
    s'.1 = filled args conf ∧ d = VppSavedData.mk i sid.
Proof.
  unfold addLocalDeviceMemif. intros Hrun.
  apply bind_Ok_inv in Hrun as (path & s1 & [Hp Hs1]%on_fst_inv & Hrun).
  rewrite getMemifSocketfileName_run in Hp. injection Hp as <- Hc. destruct s1 as [c1 n1].
  simpl in Hc, Hs1. subst c1 n1.
  apply bind_Ok_inv in Hrun as (c2 & s2 & Hg & Hrun). rewrite run_gets in Hg. injection Hg as <- <-.
  apply bind_Ok_inv in Hrun as (role & s2 & Hrole & Hrun).
  destruct (memif_role _) as [e|role'] eqn:Er in Hrole; [done|]. injection Hrole as -> <-.
  apply bind_Ok_inv in Hrun as ([] & s3 & [Hm Hs3]%on_fst_inv & Hrun).
  destruct s3 as [c3 n3]. rewrite run_modify in Hm. simpl in Hm, Hs3. injection Hm as <-. subst n3.
  apply bind_Ok_inv in Hrun as (c2 & s2 & Hg & Hrun). rewrite run_gets in Hg. injection Hg as <- <-.
  apply bind_Ok_inv in Hrun as (mode & s2 & Hmode & Hrun).
  destruct (memif_mode _) as [e|mode'] eqn:Em in Hmode; [done|]. injection Hmode as -> <-.
  apply bind_Ok_inv in Hrun as (sid & s4 & [Hsock Hs4]%on_snd_inv & Hrun).
  apply bind_Ok_inv in Hrun as (i & s5 & [Hif Hs5]%on_snd_inv & Hrun).
  rewrite run_ret in Hrun. injection Hrun as <- <-.
  exists role, mode, sid, i, s4.2. split_and!; [done..|by rewrite Hs5, Hs4|done].
Qed.

(** The new interface. *)
Lemma addLocalDeviceMemif_memifs args dir data conf n d s' :
  addLocalDeviceMemif fuel args dir data (conf, n) = (Ok d, s') →
  ∃ role mode,
    memif_role (MemifConf.Role (host_memif conf)) = inr role ∧
    memif_mode (MemifConf.Mode (host_memif (filled args conf))) = inr mode ∧
    memifs (node_vpp s'.2) ≡ₚ
      {| md_SwIfIndex := VppSavedData.InterfaceSwIfIndex d; md_ID := 0;
         md_SocketID := VppSavedData.MemifSocketId d; md_Role := role; md_Mode := mode |}
      :: memifs (node_vpp n) ∧
    {| sd_SocketID := VppSavedData.MemifSocketId d;
       sd_SocketFilename := memif_path dir args conf |} ∈ sockets (node_vpp s'.2) ∧
    (∀ s, s ∈ sockets (node_vpp n) → s ∈ sockets (node_vpp s'.2)) ∧
    s'.1 = filled args conf.
Proof.
  intros (role & mode & sid & i & n1 & Hrole & Hmode & Hsock & Hif & Hc & ->)%addLocalDeviceMemif_Ok.
  exists role, mode. simpl.
  pose proof (CreateMemifSocket_sockets _ _ _ _ _ Hsock) as [Hin Hgrow].
  apply CreateMemifSocket_Ok in Hsock as [Hm1 _].
  apply CreateMemifInterface_Ok in Hif as (req & Hreq & [Hm2 Hs2]%law_create).
  apply memif_create_request_inr in Hreq as (Hsid & Hro & Hmo & Hid). simpl in Hsid, Hro, Hmo.
  rewrite Hm2, Hm1, Hs2, Hsid, Hro, Hmo, Hid. split_and!; done.
Qed.

(** AddOnHost taken apart. *)
Lemma AddOnHost_memif_Ok args dir ip conf n s' :
  AddOnHost fuel args dir ip (conf, n) = (Ok tt, s') →
  UserSpaceConf.IfType (NetConf.HostConf conf) = "memif" →
  ∃ d n1 n2,
    addLocalDeviceMemif fuel args dir VppSavedData.zero (conf, n) = (Ok d, (filled args conf, n1)) ∧
    set_up fuel (filled args conf) (VppSavedData.InterfaceSwIfIndex d) ip n1 = (Ok tt, n2) ∧
    SaveVppConfig args d n2.2 = (Ok tt, s'.2.2) ∧ s'.2.1 = n2.1 ∧ s'.1 = filled args conf.
Proof.
  unfold AddOnHost. intros Hrun Hif.
  apply bind_Ok_inv in Hrun as (id & s1 & Hslice & Hrun).
  unfold slice_to in Hslice. case_decide; [|done]. rewrite run_ret in Hslice. injection Hslice as <- <-.
  apply bind_Ok_inv in Hrun as ([] & s2 & [Hopen Hs2]%on_snd_inv & Hrun). destruct s2 as [c2 n2].
  unfold open_channel in Hopen. rewrite run_look in Hopen. injection Hopen as _ Hn. simpl in Hn, Hs2. subst c2 n2.
  apply bind_Ok_inv in Hrun as (d & s3 & Hdev & Hrun).
  unfold add_local_device in Hdev. apply bind_Ok_inv in Hdev as (c & s2 & Hg & Hdev).
  rewrite run_gets in Hg. injection Hg as <- <-. cbv zeta in Hdev. simpl in Hdev. rewrite decide_True in Hdev by done.
  pose proof (addLocalDeviceMemif_Ok _ _ _ _ _ _ _ Hdev) as (_ & _ & _ & _ & _ & _ & _ & _ & _ & Hc3 & _).
  destruct s3 as [c3 n3]. simpl in Hc3. subst c3.
  apply bind_Ok_inv in Hrun as (c & s2 & Hg & Hrun). rewrite run_gets in Hg. injection Hg as <- <-.
  apply bind_Ok_inv in Hrun as ([] & s4 & [Hset Hs4]%on_snd_inv & Hrun).
  apply on_snd_inv in Hrun as [[Hsave Hn5]%on_snd_inv Hs5].
  exists d, n3, s4.2. split_and!; [done..|]. rewrite Hs5. by rewrite Hs4.
Qed.

(** C12: A successful ADD of a memif has made exactly one interface, with the
    role and the mode of the configuration, on the socket whose path is the shared
    directory and the name of the socket file (made of the container and the
    interface unless the configuration names it); every interface and socket there
    was is still there; the configuration names the socket file and a mode now; and
    the interface's index and socket id are in the local file, for DEL. *)
Theorem AddOnHost_memif args dir ip conf n conf' n' :
  AddOnHost fuel args dir ip (conf, n) = (Ok tt, (conf', n')) →
  UserSpaceConf.IfType (NetConf.HostConf conf) = "memif" → plain_args args →
  ∃ role mode i sid t,
    memif_role (MemifConf.Role (host_memif conf)) = inr role ∧
    memif_mode (MemifConf.Mode (host_memif conf')) = inr mode ∧
    memifs (node_vpp n') ≡ₚ
      {| md_SwIfIndex := i; md_ID := 0; md_SocketID := sid; md_Role := role; md_Mode := mode |}
      :: memifs (node_vpp n) ∧
    {| sd_SocketID := sid; sd_SocketFilename := memif_path dir args conf |} ∈ sockets (node_vpp n') ∧
    (∀ s, s ∈ sockets (node_vpp n) → s ∈ sockets (node_vpp n')) ∧
    conf' = filled args conf ∧
    fs_lookup (node_fs n') (path_parse (local_path args)) =
      Some (File (json_print (e_VppSavedData (VppSavedData.mk i sid))) t).
Proof.
  intros Hrun Hif Hargs.
  apply AddOnHost_memif_Ok in Hrun as (d & n1 & n2 & Hdev & Hset & Hsave & Hn & Hc); [|done].
  apply addLocalDeviceMemif_memifs in Hdev as (role & mode & Hrole & Hmode & Hm & Hin & Hgrow & _).
  pose proof (set_up_keeps (filled args conf) (VppSavedData.InterfaceSwIfIndex d) ip n1) as [Hm2 Hs2].
  rewrite Hset in Hm2, Hs2. apply save_local_Ok in Hsave as (_ & _ & Hl); [|done].
  simpl in *. unfold node_vpp, node_fs in *. simpl in *. destruct d as [i sid].
  exists role, mode, i, sid, (fs_now n2.2). subst conf'. rewrite Hn, <- Hm2, <- Hs2. split_and!; done.
Qed.

(** ** DEL of a memif *)

Lemma delLocalDeviceMemif_run args dir data gone conf n :
  delLocalDeviceMemif fuel args dir data gone (conf, n) =
  with_defer
    (if gone then mret tt
     else wrap_err "delLocalDeviceMemif(vpp): Error deleting memif inteface"
            (on_snd (DeleteMemifInterface fuel (VppSavedData.InterfaceSwIfIndex data))))
    (cleanup_socket (memif_path dir args conf)) (with_socketfile args conf, n).
Proof. done. Qed.

(** The index DEL works with: the live one. *)
Definition live_data (data : VppSavedData.t) (r : Z * bool) : VppSavedData.t :=
  if r.2 then VppSavedData.set_InterfaceSwIfIndex r.1 data else data.

(** What is left of DEL once the channel is open, the saved data loaded and the
    interface looked up. *)
Lemma DelFromHost_memif_eq args dir conf n data f1 r n1 :
  UserSpaceConf.IfType (NetConf.HostConf conf) = "memif" →
  12 ≤ String.length (CmdArgs.ContainerID args) →
  open_channel n = (Ok tt, n) →
  LoadVppConfig args VppSavedData.zero n.2 = (Ok data, f1) →
  FindMemifBySocket fuel (memif_path dir args conf) (n.1, f1) = (Ok r, n1) →
  DelFromHost fuel args dir (conf, n) =
  (on_snd (leave_network fuel (with_socketfile args conf)
             (VppSavedData.InterfaceSwIfIndex (live_data data r)) (negb r.2)) ;;
   delLocalDeviceMemif fuel args dir (live_data data r) (negb r.2))
    (with_socketfile args conf, n1).
Proof.
  intros Hif Hlen Hopen Hload Hfind. unfold DelFromHost.
  unfold slice_to. rewrite decide_True by done. rewrite run_bind, run_ret.
  rewrite (bind_Ok _ _ _ _ _ (on_snd_run _ _ _ _ _ Hopen)).
  rewrite (bind_Ok _ _ _ data (conf, (n.1, f1))).
  2:{ destruct n as [v f]. by apply on_snd_run, on_snd_run. }
  erewrite bind_Ok by apply run_gets. cbv zeta. simpl fst.
  rewrite !(decide_True _ _ Hif).
  erewrite (bind_Ok _ _ _ (live_data data r, negb r.2) (with_socketfile args conf, n1)).
  - rewrite (bind_Ok _ _ _ _ _ (run_gets _ _)). by rewrite decide_True by done.
  - rewrite (bind_Ok _ _ _ _ _ (on_fst_run _ _ _ _ _ (getMemifSocketfileName_run dir args conf))).
    rewrite (bind_Ok _ _ _ _ _ (on_snd_run _ _ _ _ _ Hfind)).
    by destruct r as [i []].
Qed.

(** A DEL that did not end before the teardown has done all of this. *)
Lemma DelFromHost_memif_inv args dir conf n s' :
  DelFromHost fuel args dir (conf, n) = (Ok tt, s') →
  UserSpaceConf.IfType (NetConf.HostConf conf) = "memif" →
  ∃ data f1 r n2,
    LoadVppConfig args VppSavedData.zero n.2 = (Ok data, f1) ∧
    by_socket (memif_path dir args conf) n.1 r ∧
    leave_network fuel (with_socketfile args conf)
      (VppSavedData.InterfaceSwIfIndex (live_data data r)) (negb r.2) (n.1, f1) = (Ok tt, n2) ∧
    delLocalDeviceMemif fuel args dir (live_data data r) (negb r.2)
      (with_socketfile args conf, n2) = (Ok tt, s').
Proof.
  intros Hrun Hif. pose proof Hrun as Hrun0. unfold DelFromHost in Hrun0.
  apply bind_Ok_inv in Hrun0 as (id & s1 & Hslice & Hrun0).
  unfold slice_to in Hslice. case_decide as Hlen; [|done].
  rewrite run_ret in Hslice. injection Hslice as <- <-.
  apply bind_Ok_inv in Hrun0 as ([] & [c2 n2] & [Hopen Hs2]%on_snd_inv & Hrun0). simpl in Hopen, Hs2. subst c2.
  assert (n2 = n) as -> by (unfold open_channel in Hopen; rewrite run_look in Hopen; by injection Hopen).
  apply bind_Ok_inv in Hrun0 as (data & [c3 [v3 f3]] & [[Hload Hs3]%on_snd_inv Hc3]%on_snd_inv & Hrun0).
  simpl in Hload, Hs3, Hc3. subst v3 c3.
  apply bind_Ok_inv in Hrun0 as (c & s4 & Hg & Hrun0). rewrite run_gets in Hg. injection Hg as <- <-.
  cbv zeta in Hrun0. simpl fst in Hrun0. rewrite !(decide_True _ _ Hif) in Hrun0.
  apply bind_Ok_inv in Hrun0 as (x & s5 & Hres & _).
  apply bind_Ok_inv in Hres as (path & [c6 n6] & [Hp Hn6]%on_fst_inv & Hres).
  rewrite getMemifSocketfileName_run in Hp. injection Hp as <- Hc6. simpl in Hn6. subst n6.
  apply bind_Ok_inv in Hres as (r & s7 & [Hfind _]%on_snd_inv & _). simpl in Hfind.
  rewrite (DelFromHost_memif_eq _ _ _ _ _ _ _ _ Hif Hlen Hopen Hload Hfind) in Hrun.
  apply FindMemifBySocket_Ok in Hfind as [Hn7 Hby].
  apply bind_Ok_inv in Hrun as ([] & [c8 n8] & [Hleave Hc8]%on_snd_inv & Hdel).
  simpl in Hleave, Hc8. subst c8. rewrite Hn7 in Hleave.
  by exists data, f3, r, n8.
Qed.

(** The bridge wrappers end in a return, an error, or not at all. *)
Lemma RemoveBridgeInterface_no_panic b i n w n' :
  RemoveBridgeInterface fuel b i n ≠ (Panicked w, n').
Proof.
  assert (∀ r s w s', send_ r s ≠ (Panicked w, s')) as Hsend.
  { intros r s w0 s0. unfold send_. rewrite run_bind.
    by destruct (send_cases r s) as [(x & s1 & ->)|(e & s1 & ->)]. }
  unfold RemoveBridgeInterface. rewrite run_bind.
  destruct (send_ _ n) as [[[]|?|?|] n1] eqn:E; [|done|by apply Hsend in E|done].
  unfold DeleteBridge, findBridge. rewrite run_bind, run_look.
  assert (∀ k acc w, recv_loop (BridgeDomainDump b (node_vpp n1)) (λ acc _, Break (Ok acc))
    (λ _ d, Continue (true, bdd_NSwIfs d)) Ok fuel k acc ≠ Panicked w) as Hloop.
  { clear. induction fuel as [|f IH]; intros k acc w; simpl; [done|].
    by destruct (BridgeDomainDump _ _ _). }
  destruct (recv_loop _ _ _ _ _ _ _) as [[e c]|?|?|] eqn:El; [|done|by apply Hloop in El|done].
  case_decide; [done|]. apply Hsend.
Qed.

Lemma leave_network_keeps conf idx gone : keeps same_memifs (leave_network fuel conf idx gone).
Proof. unfold leave_network. case_match; auto with go_db. Qed.

Lemma FileCleanup_gone path f :
  let f' := (FileCleanup EmptyString path f).2 in
  fs_fault f' SysRemove (path_parse path) = None →
  fs_lookup f' (path_parse path) = None ∨ fs_lookup f' (path_parse path) = Some Dir.
Proof.
  intros f' Hnf. destruct (decide (path = EmptyString)) as [->|Hne]; [by right|].
  assert (f' = (os_remove path f).2) as Hf'.
  { unfold f', FileCleanup. rewrite decide_True by done. rewrite run_bind. unfold wrap_err.
    destruct (os_remove path f) as [[[]|?|?|] f1]; [|done..].
    unfold remove_if_empty. by rewrite decide_False by tauto. }
  pose proof (os_remove_env path f) as [_ Hfault]. rewrite <- Hf' in Hfault. rewrite <- Hfault in Hnf.
  destruct (os_remove_cases path f Hne Hnf) as [[Hl Hr]|[Hcase [e Hr]]]; rewrite Hr in Hf'; simpl in Hf'.
  - rewrite Hf'. destruct (cp_comps (path_parse path)) eqn:E.
    + right. unfold fs_lookup. by rewrite E.
    + left. apply fs_lookup_delete. by rewrite E.
  - rewrite Hf'. destruct Hcase as [?|[? _]]; auto.
Qed.

Lemma with_defer_fst {S A} (m : go S A) g s :
  (with_defer m g s).1 = (m s).1 ∧
  ((m s).1 ≠ Diverged → (with_defer m g s).2 = g (m s).2).
Proof. unfold with_defer. by destruct (m s) as [[?|?|?|] s']. Qed.

(** The interfaces and the socket file after a DEL. *)
Lemma DelFromHost_memif_after args dir conf n conf' n' :
  DelFromHost fuel args dir (conf, n) = (Ok tt, (conf', n')) →
  UserSpaceConf.IfType (NetConf.HostConf conf) = "memif" →
  ∃ r f, by_socket (memif_path dir args conf) (node_vpp n) r ∧
    memifs (node_vpp n') ≡ₚ
      (if r.2 then filter (λ x, md_SwIfIndex x ≠ r.1) (memifs (node_vpp n))
       else memifs (node_vpp n)) ∧
    (∀ s, s ∈ sockets (node_vpp n') ↔
       s ∈ sockets (node_vpp n) ∧ (r.2 = true → ¬ orphaned n r.1 (sd_SocketID s))) ∧
    node_fs n' = (FileCleanup EmptyString (memif_path dir args conf) f).2.
Proof.
  intros Hrun Hif. set (path := memif_path dir args conf).
  apply DelFromHost_memif_inv in Hrun as (data & f1 & r & n2 & _ & Hby & Hleave & Hdel); [|done].
  pose proof (leave_network_keeps (with_socketfile args conf)
    (VppSavedData.InterfaceSwIfIndex (live_data data r)) (negb r.2) (n.1, f1)) as [Hm2 Hs2].
  rewrite Hleave in Hm2, Hs2. unfold node_vpp in Hm2, Hs2. simpl in Hm2, Hs2.
  rewrite delLocalDeviceMemif_run, memif_path_filled in Hdel. fold path in Hby, Hdel.
  match type of Hdel with with_defer ?m _ ?s = _ =>
    destruct (with_defer_fst m (cleanup_socket path) s) as [Ho Hs]; rewrite Hdel in Ho, Hs;
    destruct (m s) as [o [c3 n3]] eqn:Em end.
  simpl in Ho, Hs. subst o. specialize (Hs ltac:(done)). injection Hs as -> ->. simpl.
  exists r, n3.2. unfold orphaned, node_vpp in *. simpl.
  destruct r as [i []]; simpl in *.
  - apply wrap_err_Ok_inv, on_snd_inv in Em as [[Hm3 Hs3]%DeleteMemifInterface_ok _].
    unfold orphaned, node_vpp in Hm3, Hs3. simpl in Hm3, Hs3. rewrite <- Hm2 in Hm3, Hs3.
    rewrite <- Hs2 in Hs3. split_and!; [done..| |done]. intros s. rewrite (Hs3 s). naive_solver.
  - rewrite run_ret in Em. injection Em as <- <-. rewrite Hm2, Hs2.
    split_and!; [done..| |done]. naive_solver.
Qed.

(** C16: DEL of a memif removes the interface that stands on the socket now,
    whatever index was saved at ADD (the daemon may have made it anew since), and
    no other; when nothing stands on the socket it touches no interface; and the
    socket file is gone afterwards. *)
Theorem DelFromHost_memif args dir conf n conf' n' :
  DelFromHost fuel args dir (conf, n) = (Ok tt, (conf', n')) →
  UserSpaceConf.IfType (NetConf.HostConf conf) = "memif" →
  let path := memif_path dir args conf in
  ((∃ d s, d ∈ memifs (node_vpp n) ∧ s ∈ sockets (node_vpp n) ∧
      md_SocketID d = sd_SocketID s ∧ sd_SocketFilename s = path ∧
      memifs (node_vpp n') ≡ₚ filter (λ x, md_SwIfIndex x ≠ md_SwIfIndex d) (memifs (node_vpp n))) ∨
   (by_socket path (node_vpp n) (0%Z, false) ∧
    memifs (node_vpp n') ≡ₚ memifs (node_vpp n))) ∧
  (fs_fault (node_fs n') SysRemove (path_parse path) = None →
   fs_lookup (node_fs n') (path_parse path) = None ∨
   fs_lookup (node_fs n') (path_parse path) = Some Dir).
Proof.
  intros Hrun Hif path.
  apply DelFromHost_memif_after in Hrun as (r & f & Hby & Hm & _ & ->); [|done]. fold path in Hby.
  split; [|apply FileCleanup_gone]. unfold by_socket in Hby. destruct r as [i []]; simpl in *.
  - left. destruct Hby as (d & s & Hd & Hs & <- & Hsid & Hname). by exists d, s.
  - by right.
Qed.

(** C23: Once DEL has opened its channel, loaded the saved data and looked the
    interface up, the socket file goes away however the rest of the teardown ends:
    an error or a panic of VPP's calls does not keep it. *)
Theorem DelFromHost_cleans_socket args dir conf n data f1 r n1 o conf' n' :
  UserSpaceConf.IfType (NetConf.HostConf conf) = "memif" →
  12 ≤ String.length (CmdArgs.ContainerID args) →
  open_channel n = (Ok tt, n) →
  LoadVppConfig args VppSavedData.zero n.2 = (Ok data, f1) →
  let path := memif_path dir args conf in
  FindMemifBySocket fuel path (n.1, f1) = (Ok r, n1) →
  DelFromHost fuel args dir (conf, n) = (o, (conf', n')) → o ≠ Diverged →
  fs_fault (node_fs n') SysRemove (path_parse path) = None →
  fs_lookup (node_fs n') (path_parse path) = None ∨
  fs_lookup (node_fs n') (path_parse path) = Some Dir.
Proof.
  intros Hif Hlen Hopen Hload path Hfind Hrun Ho.
  rewrite (DelFromHost_memif_eq _ _ _ _ _ _ _ _ Hif Hlen Hopen Hload Hfind) in Hrun.
  rewrite run_bind in Hrun. unfold on_snd at 1 in Hrun. simpl in Hrun.
  assert (∃ n2, delLocalDeviceMemif fuel args dir (live_data data r) (negb r.2)
    (with_socketfile args conf, n2) = (o, (conf', n'))) as [n2 Hdel].
  { unfold leave_network in Hrun. destruct (_ && _); [|eexists; exact Hrun].
    unfold ignore_err in Hrun. rewrite run_bind, run_attempt in Hrun.
    destruct (RemoveBridgeInterface _ _ _ n1) as [[?|?|?|] n2] eqn:Er; simpl in Hrun;
      [eexists; exact Hrun|eexists; exact Hrun| |by injection Hrun as <-].
    by apply RemoveBridgeInterface_no_panic in Er. }
  rewrite delLocalDeviceMemif_run, memif_path_filled in Hdel. fold path in Hdel.
  match type of Hdel with with_defer ?m _ ?s = _ =>
    destruct (with_defer_fst m (cleanup_socket path) s) as [Ho' Hs]; rewrite Hdel in Ho', Hs;
    destruct (m s) as [o' [c3 n3]] eqn:Em end.
  simpl in Ho', Hs. subst o'. specialize (Hs Ho). injection Hs as -> ->. apply FileCleanup_gone.
Qed.

(** ADD on a socket of its own. *)
Lemma AddOnHost_memif_fresh args dir ip conf n conf1 n1 :
  AddOnHost fuel args dir ip (conf, n) = (Ok tt, (conf1, n1)) →
  UserSpaceConf.IfType (NetConf.HostConf conf) = "memif" →
  (∀ s, s ∈ sockets (node_vpp n) → sd_SocketFilename s ≠ memif_path dir args conf) →
  ∃ new sid, md_SocketID new = sid ∧
    memifs (node_vpp n1) ≡ₚ new :: memifs (node_vpp n) ∧
    sockets (node_vpp n1) ≡ₚ
      {| sd_SocketID := sid; sd_SocketFilename := memif_path dir args conf |}
      :: sockets (node_vpp n) ∧
    (∀ s, s ∈ sockets (node_vpp n) → sd_SocketID s ≠ sid).
Proof.
  intros Hadd Hif Hnew.
  apply AddOnHost_memif_Ok in Hadd as (d & na & nb & Hdev & Hset & _ & Hvpp & _); [|done].
  pose proof (set_up_keeps (filled args conf) (VppSavedData.InterfaceSwIfIndex d) ip na) as [Hma Hsa].
  rewrite Hset in Hma, Hsa. unfold node_vpp in *. simpl in *. rewrite Hvpp, <- Hma, <- Hsa.
  apply addLocalDeviceMemif_Ok in Hdev as (role & mode & sid & i & n0 & _ & _ & Hsock & Hcreate & _ & ->).
  apply CreateMemifSocket_Ok in Hsock as [Hm0 [[_ Hin]|[Hfresh Hs0]]]; [by apply Hnew in Hin|].
  apply CreateMemifInterface_Ok in Hcreate as (req & Hreq & [Hm Hs]%law_create).
  unfold node_vpp in *. simpl in *. apply memif_create_request_inr in Hreq as (Hsid & _). simpl in Hsid.
  eexists _, sid. split; [|split; [by rewrite Hm, Hm0|split; [by rewrite Hs, Hs0|]]]; [done|].
  intros s Hin. by apply Hfresh.
Qed.

(** What stands on that socket is the interface of the ADD. *)
Lemma by_socket_own (n n2 : node) new sid path r :
  md_SocketID new = sid →
  memifs (node_vpp n2) ≡ₚ new :: memifs (node_vpp n) →
  sockets (node_vpp n2) ≡ₚ
    {| sd_SocketID := sid; sd_SocketFilename := path |} :: sockets (node_vpp n) →
  (∀ s, s ∈ sockets (node_vpp n) → sd_SocketID s ≠ sid) →
  (∀ s, s ∈ sockets (node_vpp n) → sd_SocketFilename s ≠ path) →
  by_socket path (node_vpp n2) r → r.2 = true ∧ r.1 = md_SwIfIndex new.
Proof.
  intros Hsid Hm1 Hs1 Hfresh Hnew Hby.
  assert (∀ s, s ∈ sockets (node_vpp n2) → sd_SocketFilename s = path → sd_SocketID s = sid) as Honly.
  { intros s. rewrite Hs1. intros [->|Hin]%elem_of_cons Hf; [done|]. by apply Hnew in Hf. }
  unfold by_socket in Hby. destruct r as [i []]; simpl in *.
  - destruct Hby as (x & s & Hx & Hs & <- & Hxs & Hf). rewrite (Honly s Hs Hf) in Hxs.
    rewrite Hm1 in Hx. apply elem_of_cons in Hx as [->|Hx]; [done|]. exfalso.
    destruct (law_memif_socket _ _ Hx) as (s' & Hin & Heq). apply (Hfresh s' Hin). congruence.
  - exfalso. destruct Hby as [Hno|(s & Hs & Hf & Hno)].
    + apply (Hno {| sd_SocketID := sid; sd_SocketFilename := path |}); [|done]. rewrite Hs1. left.
    + apply (Hno new); [rewrite Hm1; left|]. by rewrite (Honly s).
Qed.

(** ADD and DEL cancel out: when ADD registered a socket of its own, and VPP
    still has what ADD left, a DEL with the same configuration leaves exactly the
    interfaces there were before the ADD, and, on a VPP with its default socket 0,
    the sockets. *)
Theorem AddOnHost_DelFromHost_memifs args dir ip conf n conf1 n1 n2 conf3 n3 :
  AddOnHost fuel args dir ip (conf, n) = (Ok tt, (conf1, n1)) →
  UserSpaceConf.IfType (NetConf.HostConf conf) = "memif" →
  (∀ s, s ∈ sockets (node_vpp n) → sd_SocketFilename s ≠ memif_path dir args conf) →
  same_memifs n1 n2 →
  DelFromHost fuel args dir (conf, n2) = (Ok tt, (conf3, n3)) →
  memifs (node_vpp n3) ≡ₚ memifs (node_vpp n) ∧
  (0%Z ∈ sd_SocketID <$> sockets (node_vpp n) → sockets (node_vpp n3) ≡ₚ sockets (node_vpp n)).
Proof.
  intros Hadd Hif Hnew [Hm12 Hs12] Hdel.
  apply AddOnHost_memif_fresh in Hadd as (new & sid & Hsid & Hm1 & Hs1 & Hfresh); [|done..].
  rewrite Hm12 in Hm1. rewrite Hs12 in Hs1.
  apply DelFromHost_memif_after in Hdel as (r & _ & Hby & Hm3 & Hs3 & _); [|done].
  destruct (by_socket_own _ _ _ _ _ _ Hsid Hm1 Hs1 Hfresh Hnew Hby) as [Er Ei].
  rewrite Er, Ei in Hm3, Hs3.
  assert (∀ y, y ∈ memifs (node_vpp n) → md_SwIfIndex y ≠ md_SwIfIndex new) as Hother.
  { intros y Hy Heq. pose proof (law_sw_if_index_nodup (node_vpp n2)) as Hnd. rewrite Hm1 in Hnd. simpl in Hnd.
    apply NoDup_cons in Hnd as [Hnot _]. apply Hnot. rewrite <- Heq. by apply list_elem_of_fmap_2. }
  split.
  - rewrite Hm1, filter_cons_False in Hm3 by tauto.
    rewrite Hm3, list_filter_all; [done|]. by apply Forall_forall.
  - intros (s0 & Hs0 & Hin0)%list_elem_of_fmap. pose proof (Hfresh _ Hin0) as Hnz. rewrite <- Hs0 in Hnz.
    apply NoDup_Permutation; [apply (NoDup_fmap_1 sd_SocketID), law_socket_id_nodup..|].
    intros s. rewrite (Hs3 s), Hs1, elem_of_cons. split.
    + intros [[->|Hs] Horph]; [|done]. exfalso. apply Horph; [done|]. unfold orphaned. simpl.
      split; [by intros ->|]. split; [exists new; split_and!; [rewrite Hm1; left|done..]|].
      intros d. rewrite Hm1. intros [->|Hd]%elem_of_cons Hds; [done|]. exfalso.
      destruct (law_memif_socket _ _ Hd) as (s' & Hin & Heq). apply (Hfresh s' Hin). congruence.
    + intros Hs. split; [by right|]. intros _ (_ & (d & Hd & Hi & Hds) & _).
      rewrite Hm1 in Hd. apply elem_of_cons in Hd as [->|Hd]; [|by apply (Hother d)].
      apply (Hfresh s Hs). congruence.
Qed.
End Laws.

(** ** The bridge domain after DEL *)

Section BridgeLeak.
Context `{VppLaws} `{!VppBridgeLaws} `{UserDb}.
Variable fuel : nat.

(** A bridge domain that exists goes on existing. *)
Definition domain_stays (b : Z) (n1 n2 : node) : Prop :=
  b ∈ dom (bridges (node_vpp n1)) → b ∈ dom (bridges (node_vpp n2)).

#[local] Instance domain_stays_preorder b : PreOrder (domain_stays b).
Proof. unfold domain_stays. split; [by intros ?|]. intros ???; tauto. Qed.

Lemma send_domain_stays b r : bd_neutral r → keeps (domain_stays b) (send r).
Proof.
  intros Hr n. unfold send, domain_stays. destruct (SendRequest r n) as [x n'] eqn:E.
  pose proof (law_bd_other r n x n' Hr E) as Hd. destruct x; simpl; by rewrite Hd.
Qed.
Lemma send__domain_stays b r : bd_neutral r → keeps (domain_stays b) (send_ r).
Proof.
  intros Hr. apply keeps_bind; [apply _|by apply send_domain_stays|]. intros. by apply keeps_ret, _.
Qed.
Lemma look_domain_stays {A} b (g : node → outcome A) : keeps (domain_stays b) (look g).
Proof. by apply keeps_look, _. Qed.
Lemma fs_domain_stays {A} b (m : go fs A) : keeps (domain_stays b) (on_snd m : go node A).
Proof. intros n. unfold on_snd, domain_stays. by destruct (m n.2). Qed.
Hint Resolve send_domain_stays send__domain_stays look_domain_stays fs_domain_stays : go_db.

Lemma RemoveBridgeInterface_domain_stays b b' i :
  b ≠ b' → keeps (domain_stays b) (RemoveBridgeInterface fuel b' i).
Proof.
  intros Hne. apply keeps_bind; [apply _|by apply send__domain_stays|intros _].
  apply keeps_bind; [apply _|apply look_domain_stays|intros [e c]].
  case_decide; [by apply keeps_ret, _|]. intros n. unfold domain_stays, send_. rewrite run_bind.
  unfold send. destruct (SendRequest _ n) as [[e'|x] n'] eqn:E; simpl.
  - apply law_bd_error in E as [-> | ->]; [done|]. simpl. rewrite dom_delete_L. set_solver.
  - apply law_bd_del in E; [|done]. rewrite E. simpl. rewrite dom_delete_L. set_solver.
Qed.

Lemma DeleteMemifInterface_domain_stays b i : keeps (domain_stays b) (DeleteMemifInterface fuel i).
Proof.
  apply keeps_bind; [apply _|apply look_domain_stays|intros [s e]].
  destruct (negb e); [by apply keeps_ret, _|].
  apply keeps_bind; [apply _|by apply send_domain_stays|intros _].
  case_decide; [|by apply keeps_ret, _]. apply keeps_bind; [apply _|apply look_domain_stays|intros c].
  case_decide; [by apply send__domain_stays|by apply keeps_ret, _].
Qed.

(** ADD with a bridge: the domain it names has the interface. *)
Lemma AddOnHost_bridge_domain args dir ip conf n conf1 n1 b :
  1 < fuel →
  AddOnHost fuel args dir ip (conf, n) = (Ok tt, (conf1, n1)) →
  UserSpaceConf.IfType (NetConf.HostConf conf) = "memif" →
  UserSpaceConf.NetType (NetConf.HostConf conf) = "bridge" →
  bridge_domain (host_bridge conf) = inr b →
  b ∈ dom (bridges (node_vpp n1)).
Proof.
  intros Hfuel Hadd Hif Hnet Hb.
  apply AddOnHost_memif_Ok in Hadd as (d & na & nb & _ & Hset & _ & Hvpp & _); [|done].
  simpl in Hvpp. unfold node_vpp. rewrite Hvpp. unfold set_up in Hset. cbv zeta in Hset.
  apply bind_Ok_inv in Hset as ([] & s1 & _ & Hset).
  apply bind_Ok_inv in Hset as ([] & s2 & _ & Hset).
  unfold join_network in Hset. cbv zeta in Hset. simpl in Hset. rewrite decide_True in Hset by done.
  rewrite Hb in Hset. apply bind_Ok_inv in Hset as (b' & s3 & Hr & Hset).
  injection Hr as <- <-.
  apply AddBridgeInterface_members in Hset; [|done]. unfold node_vpp in Hset.
  apply elem_of_dom. by rewrite Hset.
Qed.

(** DEL looks at bridgeId only, while ADD lets bridgeName decide: the bridge
    domain that an ADD made by name is still there after the DEL, even when the
    interface was its last member. *)
Theorem DelFromHost_leaves_bridge args dir ip conf n conf1 n1 n2 conf3 n3 b :
  1 < fuel →
  AddOnHost fuel args dir ip (conf, n) = (Ok tt, (conf1, n1)) →
  UserSpaceConf.IfType (NetConf.HostConf conf) = "memif" →
  UserSpaceConf.NetType (NetConf.HostConf conf) = "bridge" →
  bridge_domain (host_bridge conf) = inr b →
  b ≠ u32 (BridgeConf.BridgeId (host_bridge conf)) →
  bridges (node_vpp n2) = bridges (node_vpp n1) →
  DelFromHost fuel args dir (conf, n2) = (Ok tt, (conf3, n3)) →
  is_Some (bridges (node_vpp n3) !! b).
Proof.
  intros Hfuel Hadd Hif Hnet Hb Hne Hn2 Hdel.
  apply AddOnHost_bridge_domain with (b := b) in Hadd; [|done..]. rewrite <- Hn2 in Hadd. clear Hn2.
  apply elem_of_dom. apply DelFromHost_memif_inv in Hdel as (data & f1 & r & n4 & _ & _ & Hleave & Hd);
    [|done].
  assert (b ∈ dom (bridges (node_vpp n4))) as H4.
  { assert (keeps (domain_stays b) (leave_network fuel (with_socketfile args conf)
      (VppSavedData.InterfaceSwIfIndex (live_data data r)) (negb r.2))) as Hk.
    { unfold leave_network. destruct (_ && _); [|by apply keeps_ret, _].
      apply keeps_ignore_err; [apply _|]. by apply RemoveBridgeInterface_domain_stays. }
    specialize (Hk (n2.1, f1)). rewrite Hleave in Hk. by apply Hk. }
  rewrite delLocalDeviceMemif_run in Hd.
  match type of Hd with with_defer ?m ?g ?s = _ =>
    destruct (with_defer_fst m g s) as [Ho Hst]; rewrite Hd in Ho, Hst;
    destruct (m s) as [o [c5 n5]] eqn:Em end.
  simpl in Ho, Hst. subst o. specialize (Hst ltac:(done)). injection Hst as -> ->.
  unfold node_vpp in *. simpl. destruct (negb r.2).
  - rewrite run_ret in Em. by injection Em as <- <-.
  - apply wrap_err_Ok_inv, on_snd_inv in Em as [Em _]. simpl in Em.
    pose proof (DeleteMemifInterface_domain_stays b
      (VppSavedData.InterfaceSwIfIndex (live_data data r)) n4) as Hk.
    rewrite Em in Hk. by apply Hk.
Qed.
End BridgeLeak.
