(* ===== verification/Infra.v ===== *)
(** * cnivpp/api/infra: the connection to VPP

    What a process has open towards VPP is a ledger of connections and channels
    beside the node.  VppOpenCh and VppCloseCh work on it; the engine's calls
    are written once more inside their bracket, and proved to be the calls of file
    CniVpp that leave nothing open. *)
From S2P Require Import Prelude GoStrings GoOs Types VppApi Memif Bridge LocalDb CniVpp.

Record ConnectionData := {
  conn : option nat;
  disconnectFlag : bool;
  Ch : option nat;
  closeFlag : bool
}.

Definition ConnectionData_zero : ConnectionData :=
  {| conn := None; disconnectFlag := false; Ch := None; closeFlag := false |}.

(** Seconds. *)
Definition replyTimeout : Z := 5.

(** A channel: its connection, and the reply timeout when one was set. *)
Record channel := { ch_conn : nat; ch_timeout : option Z }.

(** What is open, and the number the next connection or channel gets. *)
Record handles := {
  h_next : nat;
  h_conns : gset nat;
  h_chans : gmap nat channel
}.

Definition handles_none : handles := {| h_next := 0; h_conns := ∅; h_chans := ∅ |}.

(** Numbers are not given twice. *)
Definition handles_wf (h : handles) : Prop :=
  (∀ c, c ∈ h_conns h → c < h_next h) ∧ (∀ c, is_Some (h_chans h !! c) → c < h_next h).

(** The same connections and channels are open. *)
Definition same_open (h1 h2 : handles) : Prop :=
  h_conns h1 = h_conns h2 ∧ h_chans h1 = h_chans h2.

(** [defer cleanup()] where the cleanup is a call: what it panics with replaces
    the result. *)
Definition deferred {S A} (m : go S A) (cleanup : go S unit) : go S A := λ s,
  match m s with
  | (Diverged, s') => (Diverged, s')
  | (o, s') =>
      match cleanup s' with
      | (Panicked w, s'') => (Panicked w, s'')
      | (Diverged, s'') => (Diverged, s'')
      | (_, s'') => (o, s'')
      end
  end.

Section Infra.
Context `{VppApi}.

Notation session := (handles * node)%type.

(** ** The calls of govpp, on the ledger *)

Definition govpp_Connect : go session nat := λ s,
  match Connect (node_vpp s.2) with
  | Some err => (Err err, s)
  | None =>
      let id := h_next s.1 in
      (Ok id, ({| h_next := S id; h_conns := {[ id ]} ∪ h_conns (s.1);
                  h_chans := h_chans (s.1) |}, s.2))
  end.

Definition NewAPIChannel (c : nat) : go session nat := λ s,
  match OpenChannel (node_vpp s.2) with
  | Some err => (Err err, s)
  | None =>
      let id := h_next s.1 in
      (Ok id, ({| h_next := S id; h_conns := h_conns (s.1);
                  h_chans := <[id := {| ch_conn := c; ch_timeout := None |}]> (h_chans (s.1)) |},
               s.2))
  end.

Definition SetReplyTimeout (ch : nat) (t : Z) : go session unit :=
  on_fst (modify (λ h, {| h_next := h_next h; h_conns := h_conns h;
    h_chans := alter (λ c, {| ch_conn := ch_conn c; ch_timeout := Some t |}) ch (h_chans h) |})).

Definition ch_Close (ch : nat) : go session unit :=
  on_fst (modify (λ h, {| h_next := h_next h; h_conns := h_conns h;
                          h_chans := delete ch (h_chans h) |})).

Definition conn_Disconnect (c : nat) : go session unit :=
  on_fst (modify (λ h, {| h_next := h_next h; h_conns := h_conns h ∖ {[ c ]};
                          h_chans := h_chans h |})).

(** A method call through a handle that may be nil. *)
Definition via {A} (p : option nat) (f : nat → go session A) : go session A :=
  match p with Some x => f x | None => go_panic "nil pointer dereference" end.

(** ** VppOpenCh and VppCloseCh *)

(** The flags are reset in the callee's copy only. *)
Definition VppCloseCh (vppCh : ConnectionData) : go session unit :=
  (if closeFlag vppCh then via (Ch vppCh) ch_Close else mret tt) ;;
  (if disconnectFlag vppCh then via (conn vppCh) conn_Disconnect else mret tt).

Definition VppOpenCh : go session (ConnectionData * option error) :=
  r ← attempt govpp_Connect;
  match r with
  | inl err => mret (ConnectionData_zero, Some err)
  | inr c =>
      let vppCh := {| conn := Some c; disconnectFlag := true; Ch := None; closeFlag := false |} in
      r ← attempt (NewAPIChannel c);
      match r with
      | inl err => VppCloseCh vppCh ;; mret (vppCh, Some err)
      | inr ch =>
          SetReplyTimeout ch replyTimeout ;;
          mret ({| conn := Some c; disconnectFlag := true; Ch := Some ch; closeFlag := true |},
                None)
      end
  end.
End Infra.

(** ** The engine's calls inside the bracket *)

Section Bracket.
Context `{VppApi} `{UserDb}.
Variable fuel : nat.

Notation host_state := (NetConf.t * node)%type.
Notation session := (handles * node)%type.

(** A computation on the host, the ledger beside it. *)
Definition on_host {A} (m : go host_state A) : go (NetConf.t * session) A := λ s,
  let '(o, (c, n)) := m (s.1, s.2.2) in (o, (c, (s.2.1, n))).

(** [vppCh, err = VppOpenCh(); if err != nil { return err }; defer VppCloseCh(vppCh)] *)
Definition with_channel {A} (body : go host_state A) : go (NetConf.t * session) A :=
  '(vppCh, err) ← on_snd VppOpenCh;
  match err with
  | Some e => raise e
  | None => deferred (on_host body) (on_snd (VppCloseCh vppCh))
  end.

(** AddOnHost and DelFromHost once the channel is open. *)
Definition add_on_channel (args : CmdArgs.t) (sharedDir : string) (ipResult : option Result.t)
  : go host_state unit :=
  data ← add_local_device fuel args sharedDir;
  conf ← gets fst;
  on_snd (set_up fuel conf (VppSavedData.InterfaceSwIfIndex data) ipResult) ;;
  on_snd (on_snd (SaveVppConfig args data)).

Definition del_on_channel (args : CmdArgs.t) (sharedDir : string) : go host_state unit :=
  data ← on_snd (on_snd (LoadVppConfig args VppSavedData.zero));
  conf ← gets fst;
  let ifType := UserSpaceConf.IfType (NetConf.HostConf conf) in
  '(data, memifGone) ←
    (if decide (ifType = "memif") then
       socketPath ← on_fst (getMemifSocketfileName sharedDir (CmdArgs.ContainerID args)
                              (CmdArgs.IfName args));
       '(idx, found) ← on_snd (FindMemifBySocket fuel socketPath);
       mret (if (found : bool) then (VppSavedData.set_InterfaceSwIfIndex idx data, false)
             else (data, true))
     else mret (data, false));
  conf ← gets fst;
  on_snd (leave_network fuel conf (VppSavedData.InterfaceSwIfIndex data) memifGone) ;;
  if decide (ifType = "memif") then delLocalDeviceMemif fuel args sharedDir data memifGone
  else if decide (ifType = "vhostuser") then delLocalDeviceVhostUser args sharedDir data
  else raise (ErrNew ("ERROR: Unknown HostConf.IfType: " +:+ ifType)).

Definition AddOnHost_ch (args : CmdArgs.t) (sharedDir : string) (ipResult : option Result.t)
  : go (NetConf.t * session) unit :=
  _ ← slice_to 12 (CmdArgs.ContainerID args);
  with_channel (add_on_channel args sharedDir ipResult).

Definition DelFromHost_ch (args : CmdArgs.t) (sharedDir : string)
  : go (NetConf.t * session) unit :=
  _ ← slice_to 12 (CmdArgs.ContainerID args);
  with_channel (del_on_channel args sharedDir).

Lemma AddOnHost_split args sharedDir ipResult :
  AddOnHost fuel args sharedDir ipResult =
  (_ ← slice_to 12 (CmdArgs.ContainerID args);
   on_snd open_channel ;; add_on_channel args sharedDir ipResult).
Proof. reflexivity. Qed.

Lemma DelFromHost_split args sharedDir :
  DelFromHost fuel args sharedDir =
  (_ ← slice_to 12 (CmdArgs.ContainerID args);
   on_snd open_channel ;; del_on_channel args sharedDir).
Proof. reflexivity. Qed.
End Bracket.

(** ** What is open *)

#[export] Instance same_open_equivalence : Equivalence same_open.
Proof. split; [by split|by intros ?? []; split|]. intros ??? [] []. split; congruence. Qed.

Lemma same_open_wf h1 h2 :
  same_open h2 h1 → h_next h1 ≤ h_next h2 → handles_wf h1 → handles_wf h2.
Proof.
  intros [Ec Eh] Hle [Hc Hh]. unfold handles_wf. rewrite Ec, Eh.
  split; intros c Hin; [specialize (Hc c Hin)|specialize (Hh c Hin)]; lia.
Qed.

Section Open.
Context `{VppApi} `{UserDb}.

(** VppOpenCh against its abstraction: it fails exactly when VPP refuses, and then
    leaves nothing open; when it does not, the channel it gives is open, with the
    reply timeout, and VppCloseCh brings the ledger back. *)
Lemma VppOpenCh_run h n :
  handles_wf h →
  ∃ d r h1, VppOpenCh (h, n) = (Ok (d, r), (h1, n)) ∧ h_next h ≤ h_next h1 ∧ handles_wf h1 ∧
    match r with
    | Some e => open_channel n = (Err e, n) ∧ same_open h1 h
    | None => open_channel n = (Ok tt, n) ∧
        (∃ ch c, Ch d = Some ch ∧ c ∈ h_conns h1 ∧
           h_chans h1 !! ch = Some {| ch_conn := c; ch_timeout := Some replyTimeout |}) ∧
        ∀ n', ∃ h2, VppCloseCh d (h1, n') = (Ok tt, (h2, n')) ∧ same_open h2 h ∧
                    h_next h ≤ h_next h2
    end.
Proof.
  intros Hwf. pose proof Hwf as [Hconns Hchans]. unfold VppOpenCh, open_channel, look.
  rewrite run_bind, run_attempt. unfold govpp_Connect. simpl.
  destruct (Connect (node_vpp n)) as [e|]; simpl.
  { eexists _, (Some e), h. split_and!; [done|lia|done|done|done]. }
  rewrite run_bind, run_attempt. unfold NewAPIChannel. simpl.
  assert (h_next h ∉ h_conns h) as Hf1 by (intros ?%Hconns; lia).
  assert (h_chans h !! S (h_next h) = None) as Hf2.
  { apply eq_None_not_Some. intros ?%Hchans. lia. }
  destruct (OpenChannel (node_vpp n)) as [e|]; simpl.
  { eexists _, (Some e), _. split_and!; [reflexivity|simpl; lia| |done|].
    - split; simpl; [|intros c Hc%Hchans; lia]. intros c Hc. assert (c ∈ h_conns h) as ?%Hconns by set_solver. lia.
    - split; simpl; [|done]. set_solver. }
  eexists _, None, _. split_and!; [reflexivity|simpl; lia| |done| |].
  - split; simpl.
    + intros c [->%elem_of_singleton|Hc%Hconns]%elem_of_union; lia.
    + intros c. destruct (decide (c = S (h_next h))) as [->|Hc]; [lia|].
      rewrite lookup_alter_ne, lookup_insert_ne by done. intros ?%Hchans. lia.
  - exists (S (h_next h)), (h_next h). split_and!; [done|simpl; set_solver|]. simpl.
    by rewrite lookup_alter_eq, lookup_insert_eq.
  - intros n'. eexists. split_and!; [reflexivity| |simpl; lia]. split; simpl; [set_solver|].
    apply map_eq. intros i. destruct (decide (i = S (h_next h))) as [->|Hi].
    + by rewrite lookup_delete_eq.
    + by rewrite lookup_delete_ne, lookup_alter_ne, lookup_insert_ne.
Qed.

(** A body in the bracket is the body after [open_channel], and whatever it ends
    in, nothing stays open. *)
Lemma with_channel_run {A} (body : go (NetConf.t * node) A) c h n o c' n' :
  handles_wf h →
  (on_snd open_channel ;; body) (c, n) = (o, (c', n')) →
  ∃ h', with_channel body (c, (h, n)) = (o, (c', (h', n'))) ∧ handles_wf h' ∧
        (o ≠ Diverged → same_open h' h).
Proof.
  intros Hwf. destruct (VppOpenCh_run h n Hwf) as (d & r & h1 & Hopen & Hle & Hwf1 & Hr).
  unfold with_channel. rewrite !run_bind, (on_snd_run _ c _ _ _ Hopen).
  destruct r as [e|].
  - destruct Hr as [Hr Hsame]. rewrite (on_snd_run _ c _ _ _ Hr). intros [= <- <- <-].
    by exists h1.
  - destruct Hr as (Hr & _ & Hclose). rewrite (on_snd_run _ c _ _ _ Hr).
    unfold deferred, on_host. cbn [fst snd]. destruct (body (c, n)) as [o1 [c1 n1]].
    destruct (Hclose n1) as (h2 & Hrun & Hsame & Hle2).
    assert (handles_wf h2) as Hwf2 by (by apply (same_open_wf h)).
    intros [= <- <- <-].
    destruct o1; [rewrite (on_snd_run _ c1 _ _ _ Hrun)..|]; by eexists.
Qed.

(** C22: The engine opens and closes its connection as it means to: inside the
    bracket of VppOpenCh and VppCloseCh, AddOnHost and DelFromHost do what they do
    without it, and whatever they return, an error, a panic and a connection that
    could not be had included, the connections and channels that are open are those
    that were open before. *)
Theorem engine_closes_channel fuel args dir ip c h n :
  handles_wf h →
  (∀ o c' n', AddOnHost fuel args dir ip (c, n) = (o, (c', n')) →
     ∃ h', AddOnHost_ch fuel args dir ip (c, (h, n)) = (o, (c', (h', n'))) ∧
           handles_wf h' ∧ (o ≠ Diverged → same_open h' h)) ∧
  (∀ o c' n', DelFromHost fuel args dir (c, n) = (o, (c', n')) →
     ∃ h', DelFromHost_ch fuel args dir (c, (h, n)) = (o, (c', (h', n'))) ∧
           handles_wf h' ∧ (o ≠ Diverged → same_open h' h)).
Proof.
  intros Hwf. rewrite AddOnHost_split, DelFromHost_split.
  unfold AddOnHost_ch, DelFromHost_ch, slice_to.
  split; intros o c' n'; rewrite !run_bind;
    (case_decide; [intros Hrun; by apply with_channel_run|intros [= <- <- <-]; by exists h]).
Qed.
End Open.
