(* ===== verification/TestPrograms.v ===== *)
(** * cnivpp/test: the manual programs against a live VPP

    memifAddDel, ipAddDel and vhostUserAddDel, with the Dump functions of
    cnivpp/api, which only these programs call.  What a Dump function prints is the
    value it returns here: a row per message, with the columns the messages of file
    VppApi carry, and the count; the other console lines are left out. *)
From S2P Require Import Prelude GoStrings GoOs Types VppApi Memif Bridge Infra.

(** ** The Dump functions *)

(** modeStr and roleStr: arrays indexed by a reply's fields. *)
Definition modeStr : list string := ["eth"; "ip "; "pnt"].
Definition roleStr : list string := ["master"; "slave "].

Record memif_row := {
  mr_SwIfIndex : Z;
  mr_ID : Z;
  mr_SocketID : Z;
  mr_Role : string;
  mr_Mode : string
}.

Definition zero_memif_details : MemifDetails :=
  {| md_SwIfIndex := 0; md_ID := 0; md_SocketID := 0; md_Role := 0; md_Mode := 0 |}.

(** The row of one reply; an index out of the arrays' range panics. *)
Definition dump_memif_row (acc : list memif_row * Z) (d : MemifDetails)
  : loop_step (list memif_row * Z) (list memif_row * Z) :=
  match roleStr !! Z.to_nat (md_Role d), modeStr !! Z.to_nat (md_Mode d) with
  | Some role, Some mode =>
      Continue (acc.1 ++ [{| mr_SwIfIndex := md_SwIfIndex d; mr_ID := md_ID d;
                             mr_SocketID := md_SocketID d; mr_Role := role; mr_Mode := mode |}],
                (acc.2 + 1)%Z)
  | _, _ => Break (Panicked "index out of range")
  end.

(** The reply of sw_interface_vhost_user_dump: the printed fields. *)
Record VhostUserDetails := {
  vd_SwIfIndex : Z;
  vd_IsServer : bool;
  vd_InterfaceName : string;
  vd_NumRegions : Z;
  vd_SockErrno : Z;
  vd_FeaturesFirst32 : Z;
  vd_FeaturesLast32 : Z;
  vd_VirtioNetHdrSz : Z;
  vd_SockFilename : string
}.

Definition zero_vhost_details : VhostUserDetails := {|
  vd_SwIfIndex := 0; vd_IsServer := false; vd_InterfaceName := ""; vd_NumRegions := 0;
  vd_SockErrno := 0; vd_FeaturesFirst32 := 0; vd_FeaturesLast32 := 0; vd_VirtioNetHdrSz := 0;
  vd_SockFilename := "" |}.

(** The reply of bridge_domain_dump for one domain: the printed fields. *)
Record BridgeReply := {
  br_Flood : bool;
  br_UuFlood : bool;
  br_Forward : bool;
  br_Learn : bool;
  br_ArpTerm : bool;
  br_MacAge : Z;
  br_BviSwIfIndex : Z;
  br_NSwIfs : Z;
  br_BdTag : string;
  br_SwIfDetails : list (Z * Z)   (* SwIfIndex, Shg *)
}.

(** Replies only the Dump functions read. *)
Class VppDump `{VppApi} := {
  VhostUserDump : vpp → nat → recv VhostUserDetails;
  (* ch.SendRequest(BridgeDomainDump).ReceiveReply: the first reply, or an error *)
  BridgeDomainFirst : Z → vpp → result BridgeReply
}.

Section Dumps.
Context `{VppDump}.
Variable fuel : nat.

(** An error of ReceiveReply is logged, and the zero message is printed. *)
Definition DumpMemif : go node (list memif_row * Z) :=
  look (λ n, recv_loop (MemifDump (node_vpp n))
     (λ acc _, dump_memif_row acc zero_memif_details) dump_memif_row Ok fuel 0 ([], 0%Z)).

Definition DumpMemifSocket : go node (list MemifSocketFilenameDetails * Z) :=
  let row acc d := Continue (acc.1 ++ [d], (acc.2 + 1)%Z) in
  look (λ n, recv_loop (MemifSocketFilenameDump (node_vpp n))
     (λ acc _, row acc zero_socket_details) row Ok fuel 0 ([], 0%Z)).

Definition DumpVhostUser : go node (list VhostUserDetails * Z) :=
  let row acc d := Continue (acc.1 ++ [d], (acc.2 + 1)%Z) in
  look (λ n, recv_loop (VhostUserDump (node_vpp n))
     (λ acc _, row acc zero_vhost_details) row Ok fuel 0 ([], 0%Z)).

(** The members printed: reply.SwIfDetails[i] for i below reply.NSwIfs. *)
Fixpoint bridge_members (count i : nat) (details : list (Z * Z)) : outcome (list (Z * Z)) :=
  match count with
  | 0 => Ok []
  | S count' =>
      match details !! i with
      | None => Panicked "index out of range"
      | Some d =>
          match bridge_members count' (S i) details with
          | Ok l => Ok (d :: l)
          | o => o
          end
      end
  end.

(** Nothing for a domain that "does NOT Exist". *)
Definition DumpBridge (bridgeDomain : Z) : go node (option (BridgeReply * list (Z * Z))) :=
  look (λ n, match BridgeDomainFirst bridgeDomain (node_vpp n) with
     | inl _ => Ok None
     | inr reply =>
         match bridge_members (Z.to_nat (br_NSwIfs reply)) 0 (br_SwIfDetails reply) with
         | Ok l => Ok (Some (reply, l))
         | Err e => Err e
         | Panicked w => Panicked w
         | Diverged => Diverged
         end
     end).
End Dumps.

(** ** The programs

    An error of a program is os.Exit(1), after the error was printed: the deferred
    VppCloseCh does not run.  On a return and on a panic it does. *)
Definition deferred_main {S} (m : go S unit) (cleanup : go S unit) : go S unit := λ s,
  match m s with
  | (Err e, s') => (Err e, s')
  | (Diverged, s') => (Diverged, s')
  | (o, s') => match cleanup s' with (Panicked w, s'') => (Panicked w, s'') | (_, s'') => (o, s'') end
  end.

Definition test_socket_file : string := "/var/run/vpp/123456/memif-3.sock".
Definition test_vhost_file : string := "/var/run/vpp/123456/vhost3.sock".
Definition test_bridge_domain : Z := 4.

(** CreateParams{SocketID, Role, Mode} *)
Definition test_memif_params (socketId role mode : Z) : CreateParams := {|
  cp_SocketID := socketId; cp_Role := role; cp_Mode := mode; cp_RxQueues := 0; cp_TxQueues := 0;
  cp_RingSize := 0; cp_BufferSize := 0; cp_Secret := ""; cp_NoZeroCopy := false;
  cp_UseDma := false; cp_HwAddr := "" |}.

(** CreateParams{IsServer, SockFilename} *)
Definition test_vhost_params (isServer : bool) (sockFilename : string) : VhostCreateParams := {|
  vp_IsServer := isServer; vp_SockFilename := sockFilename; vp_EnableGso := false;
  vp_EnablePacked := false; vp_EnableEventIdx := false; vp_MAC := "" |}.

Section Programs.
Context `{VppDump}.
Variable fuel : nat.

Notation session := (handles * node)%type.

Definition test_main (body : go node unit) : go session unit :=
  '(vppCh, err) ← VppOpenCh;
  match err with
  | Some e => raise e
  | None => deferred_main (on_snd body) (VppCloseCh vppCh)
  end.

(** The interface both memif programs start with. *)
Definition test_create_memif : go node Z :=
  memifSocketId ← CreateMemifSocket fuel test_socket_file;
  DumpMemifSocket fuel ;;
  swIfIndex ← CreateMemifInterface (test_memif_params memifSocketId 0 0);
  DumpMemif fuel ;;
  mret swIfIndex.

(** And what they end with. *)
Definition test_delete_memif (swIfIndex : Z) : go node unit :=
  DeleteMemifInterface fuel swIfIndex ;;
  DumpMemif fuel ;;
  DumpMemifSocket fuel ;;
  mret tt.

Definition test_join_bridge (swIfIndex : Z) : go node unit :=
  AddBridgeInterface fuel test_bridge_domain swIfIndex ;;
  DumpBridge test_bridge_domain ;;
  RemoveBridgeInterface fuel test_bridge_domain swIfIndex ;;
  DumpBridge test_bridge_domain ;;
  mret tt.

Definition memifAddDel : go session unit :=
  test_main (swIfIndex ← test_create_memif;
             test_join_bridge swIfIndex ;;
             test_delete_memif swIfIndex).

(** AddDelIpAddress through a pointer. *)
Definition AddDelIpAddress_ptr (swIfIndex : Z) (isAdd : bool) (ipResult : option Result.t)
  : go node unit :=
  match ipResult with
  | Some r => AddDelIpAddress swIfIndex isAdd r
  | None => go_panic "nil pointer dereference"
  end.

(** [var ipResult *current.Result] is never assigned. *)
Definition ipAddDel : go session unit :=
  test_main (
    let ipResult := None in
    swIfIndex ← test_create_memif;
    SetState swIfIndex 1 ;;
    AddDelIpAddress_ptr swIfIndex true ipResult ;;
    AddDelIpAddress_ptr swIfIndex false ipResult ;;
    test_delete_memif swIfIndex).

Definition vhostUserAddDel : go session unit :=
  test_main (
    swIfIndex ← CreateVhostUserInterface (test_vhost_params true test_vhost_file);
    DumpVhostUser fuel ;;
    test_join_bridge swIfIndex ;;
    DeleteVhostUserInterface swIfIndex ;;
    DumpVhostUser fuel ;;
    mret tt).
End Programs.

(** ** What they leave behind *)

Section Laws.
Context `{VppDump} `{!VppLaws}.
Variable fuel : nat.

Lemma test_main_Ok body h n h' n' :
  handles_wf h → test_main body (h, n) = (Ok tt, (h', n')) →
  body n = (Ok tt, n') ∧ same_open h' h.
Proof.
  intros Hwf. destruct (VppOpenCh_run h n Hwf) as (d & r & h1 & Hopen & _ & _ & Hr).
  unfold test_main. rewrite run_bind, Hopen. destruct r as [e|]; [done|].
  destruct Hr as (_ & _ & Hclose). unfold deferred_main, on_snd. cbn [fst snd].
  destruct (body n) as [o n1]. destruct (Hclose n1) as (h2 & Hrun & Hsame & _).
  destruct o as [[]|e|w|]; [rewrite Hrun|done|rewrite Hrun; done|done].
  by intros [= <- <-].
Qed.

Lemma test_create_memif_Ok n i n' :
  test_create_memif fuel n = (Ok i, n') →
  ∃ id, memifs (node_vpp n') ≡ₚ
      {| md_SwIfIndex := i; md_ID := 0; md_SocketID := id; md_Role := 0; md_Mode := 0 |}
      :: memifs (node_vpp n) ∧
    ((sockets (node_vpp n') = sockets (node_vpp n) ∧
      {| sd_SocketID := id; sd_SocketFilename := test_socket_file |} ∈ sockets (node_vpp n)) ∨
     sockets (node_vpp n') ≡ₚ
      {| sd_SocketID := id; sd_SocketFilename := test_socket_file |} :: sockets (node_vpp n)).
Proof.
  unfold test_create_memif. intros Hrun. go_inv.
  repeat match goal with
  | H : DumpMemifSocket _ _ = _ |- _ => unfold DumpMemifSocket in H; rewrite run_look in H
  | H : DumpMemif _ _ = _ |- _ => unfold DumpMemif in H; rewrite run_look in H
  end. simplify_eq.
  match goal with H : CreateMemifSocket _ _ _ = _ |- _ =>
    apply CreateMemifSocket_Ok in H as [Hm Hs] end.
  match goal with H : CreateMemifInterface _ _ = _ |- _ =>
    apply send_Ok, law_create in H as [Hm1 Hs1] end.
  eexists. split; [rewrite Hm1, Hm; reflexivity|]. rewrite Hs1.
  destruct Hs as [[-> Hin]|[_ Hs]]; [by left|by right].
Qed.

Lemma test_join_bridge_keeps i : keeps same_memifs (test_join_bridge fuel i).
Proof.
  unfold test_join_bridge.
  apply keeps_bind; [apply _|auto with go_db|intros _].
  apply keeps_bind; [apply _|by apply keeps_look, _|intros _].
  apply keeps_bind; [apply _|auto with go_db|intros _].
  apply keeps_bind; [apply _|by apply keeps_look, _|intros _]. by apply keeps_ret, _.
Qed.

(** memifAddDel cleans up after itself: a run to its end leaves the memif
    interfaces, the socket registrations of other files and the open connections as
    they were. *)
Theorem memifAddDel_restores h n h' n' :
  handles_wf h → memifAddDel fuel (h, n) = (Ok tt, (h', n')) →
  memifs (node_vpp n') ≡ₚ memifs (node_vpp n) ∧ same_open h' h ∧
  ∀ s, sd_SocketFilename s ≠ test_socket_file →
       s ∈ sockets (node_vpp n') ↔ s ∈ sockets (node_vpp n).
Proof.
  intros Hwf Hrun. apply test_main_Ok in Hrun as [Hrun Hsame]; [|done].
  apply bind_Ok_inv in Hrun as (i & n1 & Hadd & Hrun).
  apply bind_Ok_inv in Hrun as ([] & n2 & Hbr & Hrun).
  apply test_create_memif_Ok in Hadd as (id & Hm1 & Hs1).
  pose proof (test_join_bridge_keeps i n1) as [Hm2 Hs2]. rewrite Hbr in Hm2, Hs2. simpl in Hm2, Hs2.
  unfold test_delete_memif in Hrun. apply bind_Ok_inv in Hrun as ([] & n3 & Hdel & Hrun).
  assert (n3 = n') as ->.
  { apply bind_Ok_inv in Hrun as (? & ? & [= _ <-] & Hrun).
    apply bind_Ok_inv in Hrun as (? & ? & [= _ <-] & Hrun). by go_inv. }
  apply DeleteMemifInterface_ok in Hdel as [Hm3 Hs3].
  pose proof (law_sw_if_index_nodup (node_vpp n1)) as Hnd.
  rewrite (fmap_Permutation _ _ _ Hm1) in Hnd. simpl in Hnd. apply NoDup_cons in Hnd as [Hnew _].
  split_and!; [|done|].
  - rewrite Hm3, <- Hm2, Hm1, filter_cons_False by (simpl; tauto).
    rewrite list_filter_all; [done|]. apply Forall_forall. intros d Hd Heq. apply Hnew.
    rewrite <- Heq. by apply list_elem_of_fmap_2.
  - intros s Hs. rewrite Hs3, <- Hs2. split.
    + intros [Hin _]. destruct Hs1 as [[<- _]|Hs1]; [done|].
      rewrite Hs1 in Hin. apply elem_of_cons in Hin as [->|?]; [by destruct Hs|done].
    + intros Hin. assert (s ∈ sockets (node_vpp n1)) as Hin1.
      { destruct Hs1 as [[-> _]|Hs1]; [done|]. rewrite Hs1. by right. }
      split; [done|]. intros (_ & (d & Hd & Hdi & Hds) & _). rewrite <- Hm2 in Hd.
      assert (d = {| md_SwIfIndex := i; md_ID := 0; md_SocketID := id; md_Role := 0;
                     md_Mode := 0 |}) as ->.
      { apply (sw_if_index_unique (node_vpp n1)); [done|rewrite Hm1; left|done]. }
      simpl in Hds. apply Hs.
      assert (s = {| sd_SocketID := id; sd_SocketFilename := test_socket_file |}) as ->; [|done].
      apply (socket_id_unique (node_vpp n1)); [done| |done].
      destruct Hs1 as [[-> ?]|Hs1]; [done|]. rewrite Hs1. left.
Qed.

(** ipAddDel never gets through: the result it hands to AddDelIpAddress is a nil
    pointer, and the interface it made by then stays. *)
Lemma ipAddDel_never h n h' n' : handles_wf h → ipAddDel fuel (h, n) ≠ (Ok tt, (h', n')).
Proof.
  intros Hwf Hrun. apply test_main_Ok in Hrun as [Hrun _]; [|done]. cbv zeta in Hrun. unfold AddDelIpAddress_ptr in Hrun. by go_inv.
Qed.
End Laws.
