(* ===== verification/OvsDb.v ===== *)
(** * cniovs/ovsdb.go: the OVSDB client

    The operations are built as the code builds them; the server (and libovsdb,
    which carries them) is not part of the repository: the class [OvsApi].
    [OvsLaws] states what the code relies on, in terms of the bridges by name and
    the ports of each. *)
From S2P Require Import Prelude GoStrings GoOs.

(** The values of a row, as libovsdb represents them. *)
#[warnings="-register-all"]
Inductive ovs_value :=
  | VStr (s : string)
  | VInt (z : Z)
  | VUUID (u : string)
  | VSet (l : list ovs_value)
  | VMap (m : gmap string string).

Notation row := (gmap string ovs_value).

(** A condition, and a mutation: column, function or mutator, value. *)
Record condition := Condition { cond_Column : string; cond_Function : string; cond_Value : ovs_value }.
Record mutation := Mutation { mut_Column : string; mut_Mutator : string; mut_Value : ovs_value }.

Record operation := Operation {
  op_Op : string;
  op_Table : string;
  op_Row : row;
  op_UUIDName : string;
  op_Mutations : list mutation;
  op_Where : list condition;
  op_Columns : list string
}.

Record op_result := OpResult { res_Rows : list row; res_Error : string; res_Details : string }.

Class OvsApi := {
  ovsdb : Type;
  (* the client's model, endpoint and connection *)
  ovs_connect : ovsdb → option error;
  ovs_transact : list operation → ovsdb → result (list op_result) * ovsdb
}.

Definition defaultOVSSocketDir : string := "/usr/local/var/run/openvswitch/".
Definition tblOpenvSwitch : string := "Open_vSwitch".
Definition tblBridge : string := "Bridge".
Definition tblPort : string := "Port".
Definition tblInterface : string := "Interface".
Definition ovsCNIOwner : string := "userspace-cni".
Definition zeroUUID : ovs_value := VUUID "00000000-0000-0000-0000-000000000000".

(** ** The operations the code sends *)

Definition by_name (name : string) : condition := Condition "name" "==" (VStr name).

Definition op_select (table : string) (cond : condition) (columns : list string) : operation :=
  Operation "select" table ∅ EmptyString [] [cond] columns.
Definition op_insert (table : string) (r : row) (uuidName : string) : operation :=
  Operation "insert" table r uuidName [] [] [].
Definition op_delete (table : string) (cond : condition) : operation :=
  Operation "delete" table ∅ EmptyString [] [cond] [].
Definition op_mutate (table : string) (m : mutation) (cond : condition) : operation :=
  Operation "mutate" table ∅ EmptyString [m] [cond] [].

Definition any_switch : condition := Condition "_uuid" "!=" zeroUUID.

Definition createBridge_ops (bridgeName : string) : list operation :=
  [op_insert tblBridge {[ "name" := VStr bridgeName; "datapath_type" := VStr "netdev" ]} "newbridge";
   op_mutate tblOpenvSwitch (Mutation "bridges" "insert" (VSet [VUUID "newbridge"])) any_switch].

Definition deleteBridge_ops (bridgeName : string) (uuid : ovs_value) : list operation :=
  [op_delete tblBridge (by_name bridgeName);
   op_mutate tblOpenvSwitch (Mutation "bridges" "delete" (VSet [uuid])) any_switch].

Record vhostPortConfig := VhostPortConfig {
  containerID : string;
  ifName : string;
  ovnPort : string;
  mtu : Z;
  vlanID : Z;
  trunks : list Z;
  vlanMode : string;
  ingressRate : Z;
  ingressBurst : Z
}.

(** [if c { row[k] = v }] *)
Definition put_if (c : bool) (k : string) (v : ovs_value) (r : row) : row :=
  if c then <[k := v]> r else r.

Definition external_ids (cfg : vhostPortConfig) : gmap string string :=
  let m : gmap string string :=
    {[ "owner" := ovsCNIOwner; "container-id" := containerID cfg; "interface" := ifName cfg ]} in
  if decide (ovnPort cfg ≠ EmptyString) then <["iface-id" := ovnPort cfg]> m else m.

Definition interface_row (sockDir sockName : string) (vhostClient : bool) (cfg : vhostPortConfig)
  : row :=
  let r : row :=
    {[ "name" := VStr sockName;
       "type" := VStr (if vhostClient then "dpdkvhostuserclient" else "dpdkvhostuser");
       "external_ids" := VMap (external_ids cfg) ]} in
  let r := put_if (bool_decide (0 < mtu cfg)%Z) "mtu_request" (VInt (mtu cfg)) r in
  let r := if decide (0 < ingressRate cfg)%Z then
             put_if (bool_decide (0 < ingressBurst cfg)%Z) "ingress_policing_burst"
               (VInt (ingressBurst cfg))
               (<["ingress_policing_rate" := VInt (ingressRate cfg)]> r)
           else r in
  put_if vhostClient "options"
    (VMap {[ "vhost-server-path" := path_join [sockDir; sockName] ]}) r.

Definition port_row (sockName : string) (cfg : vhostPortConfig) : row :=
  let r : row := {[ "name" := VStr sockName; "interfaces" := VSet [VUUID "newintf"] ]} in
  let r := put_if (bool_decide (vlanMode cfg ≠ EmptyString)) "vlan_mode" (VStr (vlanMode cfg)) r in
  let r := put_if (bool_decide (0 < vlanID cfg)%Z) "tag" (VInt (vlanID cfg)) r in
  put_if (bool_decide (trunks cfg ≠ [])) "trunks" (VSet (VInt <$> trunks cfg)) r.

Definition createVhostPort_ops (sockDir sockName : string) (vhostClient : bool)
    (bridgeName : string) (cfg : vhostPortConfig) : list operation :=
  [op_insert tblInterface (interface_row sockDir sockName vhostClient cfg) "newintf";
   op_insert tblPort (port_row sockName cfg) "newport";
   op_mutate tblBridge (Mutation "ports" "insert" (VSet [VUUID "newport"])) (by_name bridgeName)].

Definition deleteVhostPort_ops (sockName bridgeName : string) (uuid : ovs_value) : list operation :=
  [op_delete tblInterface (by_name sockName);
   op_delete tblPort (by_name sockName);
   op_mutate tblBridge (Mutation "ports" "delete" (VSet [uuid])) (by_name bridgeName)].

(** ** Decoding rows *)

Definition portsSetNonEmpty (r : row) : bool :=
  match r !! "ports" with
  | Some (VSet l) => bool_decide (0 < length l)
  | Some (VUUID _) => true
  | _ => false
  end.

Definition macFromValue (v : ovs_value) : string :=
  match v with
  | VStr s => s
  | VSet (VStr s :: _) => s
  | _ => EmptyString
  end.

Section OvsDb.
Context `{OvsApi}.

(** The package's variables: ovsClientOnce has run (its error, if any) or not;
    and the server. *)
Record ovs_state := OvsState { ovs_once : option (option error); ovs_db : ovsdb }.

Definition getOvsClient : go ovs_state unit := λ s,
  match ovs_once s with
  | Some None => (Ok tt, s)
  | Some (Some e) => (Err e, s)
  | None =>
      let r := ovs_connect (ovs_db s) in
      (match r with None => Ok tt | Some e => Err e end, OvsState (Some r) (ovs_db s))
  end.

(** The first operation that failed. *)
Fixpoint op_error (rs : list op_result) : option string :=
  match rs with
  | [] => None
  | r :: rs' => if decide (res_Error r ≠ EmptyString)
                then Some (res_Error r +:+ " — " +:+ res_Details r) else op_error rs'
  end.

Definition transact (ops : list operation) : go ovs_state (list op_result) :=
  getOvsClient ;;
  reply ← (λ s, let '(r, db) := ovs_transact ops (ovs_db s) in
                (match r with inl e => Err (ErrWrap "OVSDB transact" e) | inr l => Ok l end,
                 OvsState (ovs_once s) db));
  if decide (length reply < length ops) then
    raise (ErrNew "OVSDB transact: fewer replies than ops")
  else
    match op_error reply with
    | Some msg => raise (ErrNew ("OVSDB op: " +:+ msg))
    | None => mret reply
    end.

Definition selectRows (table : string) (cond : condition) (columns : list string)
  : go ovs_state (list row) :=
  reply ← transact [op_select table cond columns];
  match reply with
  | r :: _ => mret (res_Rows r)
  | [] => go_panic "index out of range"
  end.

(** ** Bridges *)

Definition bridgeUUID (bridgeName : string) : go ovs_state ovs_value :=
  rows ← selectRows tblBridge (by_name bridgeName) ["_uuid"];
  match rows with
  | [] => raise (ErrNew ("bridge not found: " +:+ bridgeName))
  | r :: _ =>
      match r !! "_uuid" with
      | Some (VUUID u) => mret (VUUID u)
      | _ => raise (ErrNew "bridge: _uuid has unexpected type")
      end
  end.

Definition createBridge (bridgeName : string) : go ovs_state unit :=
  wrap_err "createBridge" (transact (createBridge_ops bridgeName)) ;; mret tt.

Definition deleteBridge (bridgeName : string) : go ovs_state unit :=
  uuid ← bridgeUUID bridgeName;
  wrap_err "deleteBridge" (transact (deleteBridge_ops bridgeName uuid)) ;; mret tt.

Definition ovs_findBridge (bridgeName : string) : go ovs_state bool :=
  r ← attempt (selectRows tblBridge (by_name bridgeName) ["name"]);
  mret match r with inl _ => false | inr rows => bool_decide (0 < length rows) end.

Definition doesBridgeContainInterfaces (bridgeName : string) : go ovs_state bool :=
  r ← attempt (selectRows tblBridge (by_name bridgeName) ["ports"]);
  mret match r with
       | inl _ | inr [] => false
       | inr (row :: _) => portsSetNonEmpty row
       end.

(** ** Ports *)

Definition portUUID (portName : string) : go ovs_state ovs_value :=
  rows ← selectRows tblPort (by_name portName) ["_uuid"];
  match rows with
  | [] => raise (ErrNew ("port not found: " +:+ portName))
  | r :: _ =>
      match r !! "_uuid" with
      | Some (VUUID u) => mret (VUUID u)
      | _ => raise (ErrNew "port: _uuid has unexpected type")
      end
  end.

(** The port, and in server mode the socket moved to where the pod sees it (an
    error of the move is only logged). *)
Definition createVhostPort (sockDir sockName : string) (vhostClient : bool) (bridgeName : string)
    (cfg : vhostPortConfig) : go (ovs_state * fs) string :=
  on_fst (wrap_err "createVhostPort"
    (transact (createVhostPort_ops sockDir sockName vhostClient bridgeName cfg))) ;;
  (if negb vhostClient
   then on_snd (ignore_err (os_rename (path_join [defaultOVSSocketDir; sockName])
                              (path_join [sockDir; sockName])))
   else mret tt) ;;
  mret sockName.

(** A port that is not found, and one that cannot be looked up, is taken as gone. *)
Definition deleteVhostPort (sockName bridgeName : string) : go ovs_state unit :=
  r ← attempt (portUUID sockName);
  match r with
  | inl _ => mret tt
  | inr uuid =>
      wrap_err "deleteVhostPort" (transact (deleteVhostPort_ops sockName bridgeName uuid)) ;; mret tt
  end.

Definition getVhostPortMac (sockName : string) : go ovs_state string :=
  rows ← wrap_err "getVhostPortMac" (selectRows tblPort (by_name sockName) ["mac"]);
  match rows with
  | [] => raise (ErrNew ("port not found: " +:+ sockName))
  | r :: _ => mret match r !! "mac" with None => EmptyString | Some v => macFromValue v end
  end.
End OvsDb.

(** ** What the code relies on *)

Definition no_errors (rs : list op_result) : Prop := Forall (λ r, res_Error r = EmptyString) rs.

(** libovsdb's form of a set of references: one of them may come bare. *)
Definition set_of_refs (v : ovs_value) (n : nat) : Prop :=
  (∃ l, v = VSet l ∧ length l = n) ∨ ((∃ u, v = VUUID u) ∧ n = 1).

Class OvsLaws `{OvsApi} := {
  (* the bridges and the names of the ports of each *)
  ov_bridges : ovsdb → gmap string (gset string);
  (* a select changes nothing, and finds the bridge of a name *)
  law_select o db r db' :
    op_Op o = "select" → ovs_transact [o] db = (r, db') → ov_bridges db' = ov_bridges db;
  law_select_bridge n cols db r rs db' :
    ovs_transact [Operation "select" "Bridge" ∅ EmptyString [] [Condition "name" "==" (VStr n)] cols] db
      = (inr (r :: rs), db') →
    res_Error r = EmptyString →
    match ov_bridges db !! n with
    | None => res_Rows r = []
    | Some ps => ∃ rw, res_Rows r = [rw] ∧
                   ("ports" ∈ cols → ∃ v, rw !! "ports" = Some v ∧ set_of_refs v (size ps))
    end;
  law_select_port n cols db r rs db' :
    ovs_transact [Operation "select" "Port" ∅ EmptyString [] [Condition "name" "==" (VStr n)] cols] db
      = (inr (r :: rs), db') →
    res_Error r = EmptyString →
    match res_Rows r with
    | [] => ∀ b ps, ov_bridges db !! b = Some ps → n ∉ ps
    | rw :: _ => "_uuid" ∈ cols → ∃ u, rw !! "_uuid" = Some (VUUID u)
    end;
  (* a new bridge, referenced by the switch; the name was free *)
  law_add_bridge row u n cond db rs db' :
    ovs_transact [Operation "insert" "Bridge" row u [] [] [];
                  Operation "mutate" "Open_vSwitch" ∅ EmptyString
                    [Mutation "bridges" "insert" (VSet [VUUID u])] [cond] []] db = (inr rs, db') →
    no_errors rs → row !! "name" = Some (VStr n) →
    ov_bridges db !! n = None ∧ ov_bridges db' = <[n := ∅]> (ov_bridges db);
  (* a bridge and the switch's reference to it, deleted *)
  law_del_bridge n u cond db rs db' :
    ovs_transact [Operation "delete" "Bridge" ∅ EmptyString [] [Condition "name" "==" (VStr n)] [];
                  Operation "mutate" "Open_vSwitch" ∅ EmptyString
                    [Mutation "bridges" "delete" (VSet [u])] [cond] []] db = (inr rs, db') →
    no_errors rs →
    ov_bridges db' = delete n (ov_bridges db);
  (* a new port with its interface, attached to a bridge: its name was free (a port
     that no bridge refers to does not stay) *)
  law_add_port ri rp ui up p b db rs db' :
    ovs_transact [Operation "insert" "Interface" ri ui [] [] [];
                  Operation "insert" "Port" rp up [] [] [];
                  Operation "mutate" "Bridge" ∅ EmptyString
                    [Mutation "ports" "insert" (VSet [VUUID up])] [Condition "name" "==" (VStr b)] []] db
      = (inr rs, db') →
    no_errors rs → rp !! "name" = Some (VStr p) → rp !! "interfaces" = Some (VSet [VUUID ui]) →
    ov_bridges db' = alter (λ s, {[p]} ∪ s) b (ov_bridges db) ∧
    (is_Some (ov_bridges db !! b) → ∀ b' ps, ov_bridges db !! b' = Some ps → p ∉ ps);
  (* a port detached from a bridge and deleted: referential integrity refuses this
     while another bridge refers to the port *)
  law_del_port p b u db rs db' :
    ovs_transact [Operation "delete" "Interface" ∅ EmptyString [] [Condition "name" "==" (VStr p)] [];
                  Operation "delete" "Port" ∅ EmptyString [] [Condition "name" "==" (VStr p)] [];
                  Operation "mutate" "Bridge" ∅ EmptyString
                    [Mutation "ports" "delete" (VSet [u])] [Condition "name" "==" (VStr b)] []] db
      = (inr rs, db') →
    no_errors rs →
    ov_bridges db' = alter (λ s, s ∖ {[p]}) b (ov_bridges db) ∧
    ∀ b' ps, b' ≠ b → ov_bridges db !! b' = Some ps → p ∉ ps
}.

(** A transaction takes place as a whole or not at all, whatever its reply says and
    also when the reply is lost (RFC 7047, 4.1.3). *)
Class OvsAtomic `{OvsLaws} := {
  law_add_bridge_atomic row u n cond db r db' :
    ovs_transact [Operation "insert" "Bridge" row u [] [] [];
                  Operation "mutate" "Open_vSwitch" ∅ EmptyString
                    [Mutation "bridges" "insert" (VSet [VUUID u])] [cond] []] db = (r, db') →
    row !! "name" = Some (VStr n) →
    ov_bridges db' = ov_bridges db ∨
    (ov_bridges db !! n = None ∧ ov_bridges db' = <[n := ∅]> (ov_bridges db));
  law_add_port_atomic ri rp ui up p b db r db' :
    ovs_transact [Operation "insert" "Interface" ri ui [] [] [];
                  Operation "insert" "Port" rp up [] [] [];
                  Operation "mutate" "Bridge" ∅ EmptyString
                    [Mutation "ports" "insert" (VSet [VUUID up])] [Condition "name" "==" (VStr b)] []] db
      = (r, db') →
    rp !! "name" = Some (VStr p) → rp !! "interfaces" = Some (VSet [VUUID ui]) →
    ov_bridges db' = ov_bridges db ∨
    (ov_bridges db' = alter (λ s, {[p]} ∪ s) b (ov_bridges db) ∧
     (is_Some (ov_bridges db !! b) → ∀ b' ps, ov_bridges db !! b' = Some ps → p ∉ ps));
  law_del_port_atomic p b u db r db' :
    ovs_transact [Operation "delete" "Interface" ∅ EmptyString [] [Condition "name" "==" (VStr p)] [];
                  Operation "delete" "Port" ∅ EmptyString [] [Condition "name" "==" (VStr p)] [];
                  Operation "mutate" "Bridge" ∅ EmptyString
                    [Mutation "ports" "delete" (VSet [u])] [Condition "name" "==" (VStr b)] []] db
      = (r, db') →
    ov_bridges db' = ov_bridges db ∨
    (ov_bridges db' = alter (λ s, s ∖ {[p]}) b (ov_bridges db) ∧
     ∀ b' ps, b' ≠ b → ov_bridges db !! b' = Some ps → p ∉ ps)
}.

Section OvsFacts.
Context `{OvsLaws}.

Notation bridges_of s := (ov_bridges (ovs_db s)).

Lemma set_size_pos (ps : gset string) : ps ≠ ∅ → 0 < size ps.
Proof.
  intros Hne. apply set_choose_L in Hne as [x Hx]. destruct (decide (size ps = 0)) as [E|]; [|lia].
  apply size_empty_inv in E. set_solver.
Qed.

Lemma op_error_None rs : op_error rs = None ↔ no_errors rs.
Proof.
  unfold no_errors. induction rs as [|r rs IH]; simpl; [done|]. rewrite Forall_cons, <- IH.
  case_decide; naive_solver.
Qed.

(** A transaction that went through. *)
Lemma transact_Ok ops s rs s' :
  transact ops s = (Ok rs, s') →
  ovs_transact ops (ovs_db s) = (inr rs, ovs_db s') ∧ no_errors rs ∧ length ops ≤ length rs.
Proof.
  intros ([] & s1 & Hc & Hrun)%bind_Ok_inv.
  assert (ovs_db s1 = ovs_db s) as Hdb.
  { unfold getOvsClient in Hc. destruct (ovs_once s) as [[]|]; simplify_eq/=; [done|].
    by destruct (ovs_connect _); simplify_eq. }
  apply bind_Ok_inv in Hrun as (reply & s2 & Ht & Hrun). rewrite <- Hdb.
  destruct (ovs_transact ops (ovs_db s1)) as [[e|l] db]; simplify_eq/=.
  case_decide; [done|]. destruct (op_error reply) eqn:E; [done|]. go_ret.
  split_and!; [done|by apply op_error_None|lia].
Qed.

(** A select, whatever it ends in, changes nothing. *)
Lemma transact_select_same o s :
  op_Op o = "select" → bridges_of (transact [o] s).2 = bridges_of s.
Proof.
  intros Ho. unfold transact. rewrite run_bind.
  destruct (getOvsClient s) as [[[]|?|?|] s1] eqn:E;
    (assert (bridges_of s1 = bridges_of s) as Hs1;
      [unfold getOvsClient in E; destruct (ovs_once s) as [[]|]; simplify_eq/=; [done..|];
       by destruct (ovs_connect _); simplify_eq|]); try done.
  rewrite run_bind. destruct (ovs_transact [o] (ovs_db s1)) as [r db] eqn:Et.
  apply law_select in Et; [|done]. simpl. rewrite <- Hs1, <- Et.
  destruct r; [done|]. case_decide; [done|]. by destruct (op_error _).
Qed.

Lemma selectRows_same table cond cols s :
  bridges_of (selectRows table cond cols s).2 = bridges_of s.
Proof.
  unfold selectRows. rewrite run_bind.
  pose proof (transact_select_same (op_select table cond cols) s eq_refl) as Hs.
  destruct (transact _ s) as [[[|r rs]|?|?|] s1]; done.
Qed.

Lemma selectRows_Ok table cond cols s rows s' :
  selectRows table cond cols s = (Ok rows, s') →
  ∃ r rs, ovs_transact [op_select table cond cols] (ovs_db s) = (inr (r :: rs), ovs_db s') ∧
    res_Error r = EmptyString ∧ rows = res_Rows r.
Proof.
  intros ([|r rs] & s1 & (Ht & He & _)%transact_Ok & Hrun)%bind_Ok_inv; [done|]. go_ret.
  exists r, rs. split_and!; [done|by inversion He|done].
Qed.

(** *** Bridges *)

Lemma ovs_findBridge_same b s : bridges_of (ovs_findBridge b s).2 = bridges_of s.
Proof.
  unfold ovs_findBridge. rewrite run_bind, run_attempt.
  pose proof (selectRows_same tblBridge (by_name b) ["name"] s) as Hs.
  by destruct (selectRows _ _ _ s) as [[?|?|?|] s1].
Qed.

(** A bridge that is found is there. *)
Lemma ovs_findBridge_true b s s' :
  ovs_findBridge b s = (Ok true, s') → is_Some (bridges_of s !! b) ∧ bridges_of s' = bridges_of s.
Proof.
  intros Hrun. pose proof (ovs_findBridge_same b s) as Hsame. rewrite Hrun in Hsame.
  split; [|exact Hsame]. unfold ovs_findBridge in Hrun.
  apply bind_Ok_inv in Hrun as (r & s1 & Hsel%attempt_Ok_inv & [= Hlen <-]).
  destruct r as [e|rows]; [done|]. apply bool_decide_eq_true in Hlen.
  apply selectRows_Ok in Hsel as (r & rs & Ht & He & ->).
  apply law_select_bridge in Ht; [|done]. destruct (bridges_of s !! b); [done|].
  rewrite Ht in Hlen. simpl in Hlen. lia.
Qed.

Lemma createBridge_Ok b s s' :
  createBridge b s = (Ok tt, s') →
  bridges_of s !! b = None ∧ bridges_of s' = <[b := ∅]> (bridges_of s).
Proof.
  intros (rs & s1 & (Ht & He & _)%wrap_err_Ok_inv%transact_Ok & [= <-])%bind_Ok_inv.
  by eapply law_add_bridge in Ht.
Qed.

(** *** Ports *)

Lemma createVhostPort_Ok dir sock client b cfg s f name s' f' :
  createVhostPort dir sock client b cfg (s, f) = (Ok name, (s', f')) →
  name = sock ∧ bridges_of s' = alter (λ ps, {[sock]} ∪ ps) b (bridges_of s) ∧
  (is_Some (bridges_of s !! b) → ∀ b' ps, bridges_of s !! b' = Some ps → sock ∉ ps).
Proof.
  intros (rs & [s1 f1] & [Ht%wrap_err_Ok_inv%transact_Ok Hf]%on_fst_inv & Hrun)%bind_Ok_inv.
  simpl in *. destruct Ht as (Ht & He & _).
  apply bind_Ok_inv in Hrun as ([] & [s2 f2] & Hmove & [= <- <- <-]).
  assert (s2 = s1) as ->.
  { destruct client; [by injection Hmove|]. by apply on_snd_inv in Hmove as [_ ?]. }
  split; [done|]. eapply law_add_port in Ht; [exact Ht|exact He|..].
  - unfold port_row, put_if. repeat case_match; rewrite ?lookup_insert_ne by done; done.
  - unfold port_row, put_if. repeat case_match; rewrite ?lookup_insert_ne by done; done.
Qed.

Lemma getVhostPortMac_same sock s : bridges_of (getVhostPortMac sock s).2 = bridges_of s.
Proof.
  unfold getVhostPortMac, wrap_err. rewrite run_bind.
  pose proof (selectRows_same tblPort (by_name sock) ["mac"] s) as Hs.
  destruct (selectRows _ _ _ s) as [[[|? ?]|?|?|] s1]; done.
Qed.

Lemma portUUID_same sock s : bridges_of (portUUID sock s).2 = bridges_of s.
Proof.
  unfold portUUID. rewrite run_bind.
  pose proof (selectRows_same tblPort (by_name sock) ["_uuid"] s) as Hs.
  destruct (selectRows _ _ _ s) as [[[|r ?]|?|?|] s1]; try done.
  by destruct (r !! "_uuid") as [[]|].
Qed.

(** A port that is deleted was on no other bridge; otherwise nothing changed. *)
Lemma deleteVhostPort_Ok sock b s s' :
  deleteVhostPort sock b s = (Ok tt, s') →
  bridges_of s' = bridges_of s ∨
  (bridges_of s' = alter (λ ps, ps ∖ {[sock]}) b (bridges_of s) ∧
   ∀ b' ps, b' ≠ b → bridges_of s !! b' = Some ps → sock ∉ ps).
Proof.
  intros (r & s1 & Hu%attempt_Ok_inv & Hrun)%bind_Ok_inv.
  pose proof (portUUID_same sock s) as Hsame.
  destruct r as [e|uuid]; rewrite Hu in Hsame; simpl in Hsame.
  { left. by injection Hrun as <-. }
  right. apply bind_Ok_inv in Hrun as (rs & s2 & (Ht & He & _)%wrap_err_Ok_inv%transact_Ok & [= <-]).
  rewrite <- Hsame. by eapply law_del_port in Ht.
Qed.

(** *** A server that answers *)

(** The connection opens, and a select is answered without an error. *)
Definition answers (s : ovs_state) : Prop :=
  (∀ db, ovs_connect db = None) ∧ (ovs_once s = None ∨ ovs_once s = Some None) ∧
  ∀ o db, op_Op o = "select" → ∃ x rs db', ovs_transact [o] db = (inr (x :: rs), db') ∧
    no_errors (x :: rs).

Definition answering (s1 s2 : ovs_state) : Prop := answers s1 → answers s2.

#[export] Instance answering_preorder : PreOrder answering.
Proof. split; [by intros ??|]. intros ??? H12 H23 Ha. auto. Qed.

Lemma getOvsClient_answers s :
  answers s → getOvsClient s = (Ok tt, OvsState (Some None) (ovs_db s)).
Proof.
  intros (Hc & Ho & _). unfold getOvsClient. destruct s as [o db]. simpl in *.
  destruct Ho as [-> | ->]; [by rewrite Hc|done].
Qed.

Lemma transact_answering ops : keeps answering (transact ops).
Proof.
  intros s Ha. unfold transact. rewrite run_bind, getOvsClient_answers by done.
  destruct Ha as (Hc & Ho & Hs). rewrite run_bind. simpl.
  destruct (ovs_transact ops (ovs_db s)) as [[e|l] db]; simpl.
  - split; [done|]. split; [by right|done].
  - case_decide; [|destruct (op_error l)]; (split; [done|]; split; [by right|done]).
Qed.

Lemma selectRows_answering table cond cols : keeps answering (selectRows table cond cols).
Proof.
  apply keeps_bind; [apply _|apply transact_answering|]. intros [|? ?]; auto with go_db.
Qed.

Lemma deleteVhostPort_answering sock b : keeps answering (deleteVhostPort sock b).
Proof.
  unfold deleteVhostPort, portUUID. pose proof selectRows_answering. pose proof transact_answering.
  apply keeps_bind; [apply _| |].
  - apply keeps_attempt. apply keeps_bind; [apply _|done|]. intros [|r ?]; [auto with go_db|].
    destruct (r !! "_uuid") as [[]|]; auto with go_db.
  - intros [?|uuid]; [auto with go_db|]. apply keeps_bind; [apply _|by apply keeps_wrap_err|].
    auto with go_db.
Qed.

(** A select is answered with what the server has. *)
Lemma selectRows_answers table cond cols s :
  answers s → ∃ r rs s', selectRows table cond cols s = (Ok (res_Rows r), s') ∧
    ovs_transact [op_select table cond cols] (ovs_db s) = (inr (r :: rs), ovs_db s') ∧
    res_Error r = EmptyString.
Proof.
  intros Ha. unfold selectRows, transact. rewrite !run_bind, getOvsClient_answers by done.
  destruct Ha as (Hc & Ho & Hs). rewrite run_bind. simpl.
  destruct (Hs (op_select table cond cols) (ovs_db s) eq_refl) as (x & rs & db' & Ht & Hok).
  rewrite Ht. rewrite decide_False by (simpl; lia). apply op_error_None in Hok as Hno. rewrite Hno.
  exists x, rs, (OvsState (Some None) db'). by apply Forall_cons in Hok as [Hx _].
Qed.

(** Deleting a port that is on some bridge, when that succeeds. *)
Lemma deleteVhostPort_answers sock b b0 s s' ps :
  answers s → bridges_of s !! b0 = Some ps → sock ∈ ps →
  deleteVhostPort sock b s = (Ok tt, s') →
  bridges_of s' = alter (λ ps, ps ∖ {[sock]}) b (bridges_of s) ∧ b0 = b.
Proof.
  intros Ha Hb Hin Hrun. unfold deleteVhostPort, portUUID in Hrun.
  apply bind_Ok_inv in Hrun as (u & s1 & Hu%attempt_Ok_inv & Hrun).
  pose proof (selectRows_same tblPort (by_name sock) ["_uuid"] s) as Hsame.
  destruct (selectRows_answers tblPort (by_name sock) ["_uuid"] s Ha) as (r & rs & s2 & Hsel & Ht & He).
  rewrite Hsel in Hsame. simpl in Hsame. apply law_select_port in Ht; [|done].
  destruct (res_Rows r) as [|rw rws]; [by destruct (Ht b0 ps)|].
  destruct (Ht ltac:(left)) as [uu Huu].
  destruct u as [e|uuid]; rewrite (bind_Ok _ _ _ _ _ Hsel), Huu in Hu; [done|].
  injection Hu as <- <-. rewrite <- Hsame.
  apply bind_Ok_inv in Hrun as (rs' & s3 & (Ht' & He' & _)%wrap_err_Ok_inv%transact_Ok & [= <-]).
  eapply law_del_port in Ht' as [Ht' Hno]; [|done]. split; [done|].
  destruct (decide (b0 = b)) as [|Hne]; [done|]. rewrite <- Hsame in Hb. by destruct (Hno b0 ps Hne Hb).
Qed.

(** The bridge's interfaces are seen. *)
Lemma doesBridgeContainInterfaces_answers b s ps :
  answers s → bridges_of s !! b = Some ps →
  ∃ s', doesBridgeContainInterfaces b s = (Ok (bool_decide (ps ≠ ∅)), s') ∧
    bridges_of s' = bridges_of s.
Proof.
  intros Ha Hb. unfold doesBridgeContainInterfaces. rewrite run_bind, run_attempt.
  pose proof (selectRows_same tblBridge (by_name b) ["ports"] s) as Hsame.
  destruct (selectRows_answers tblBridge (by_name b) ["ports"] s Ha) as (r & rs & s1 & Hsel & Ht & He).
  rewrite Hsel in Hsame |- *. apply law_select_bridge in Ht; [|done]. rewrite Hb in Ht.
  destruct Ht as (rw & -> & Hports). destruct (Hports ltac:(left)) as (v & Hv & Hset).
  exists s1. split; [|done]. unfold portsSetNonEmpty. rewrite Hv.
  destruct Hset as [(l & -> & Hl)|[[u ->] Hl]]; rewrite run_ret; do 2 f_equal.
  - apply bool_decide_ext. rewrite Hl. split; [|apply set_size_pos].
    intros Hpos ->. rewrite size_empty in Hpos. lia.
  - symmetry. apply bool_decide_eq_true. intros ->. by rewrite size_empty in Hl.
Qed.

Lemma doesBridgeContainInterfaces_true b s s' :
  doesBridgeContainInterfaces b s = (Ok true, s') → bridges_of s !! b ≠ Some ∅.
Proof.
  intros (r & s1 & Hsel%attempt_Ok_inv & [= Hr <-])%bind_Ok_inv Hb.
  destruct r as [e|[|rw rows]]; [done..|]. apply selectRows_Ok in Hsel as (r & rs & Ht & He & Hrows).
  apply law_select_bridge in Ht; [|done]. rewrite Hb in Ht. destruct Ht as (rw' & Hrw & Hports).
  rewrite Hrw in Hrows. injection Hrows as -> ->. destruct (Hports ltac:(left)) as (v & Hv & Hset).
  unfold portsSetNonEmpty in Hr. rewrite Hv in Hr. rewrite size_empty in Hset.
  destruct Hset as [(l & -> & Hl%nil_length_inv)|[_ Hlen]]; [by subst|done].
Qed.

Lemma doesBridgeContainInterfaces_same b s :
  bridges_of (doesBridgeContainInterfaces b s).2 = bridges_of s.
Proof.
  unfold doesBridgeContainInterfaces. rewrite run_bind, run_attempt.
  pose proof (selectRows_same tblBridge (by_name b) ["ports"] s) as Hs.
  by destruct (selectRows _ _ _ s) as [[[|? ?]|?|?|] s1].
Qed.

Lemma deleteBridge_Ok b s s' :
  deleteBridge b s = (Ok tt, s') → bridges_of s' = delete b (bridges_of s).
Proof.
  intros (u & s1 & Hu & Hrun)%bind_Ok_inv. unfold bridgeUUID in Hu.
  apply bind_Ok_inv in Hu as (rows & s2 & Hsel & Hu).
  pose proof (selectRows_same tblBridge (by_name b) ["_uuid"] s) as Hsame.
  rewrite Hsel in Hsame. simpl in Hsame.
  assert (s1 = s2) as ->.
  { destruct rows as [|r rows]; [done|]. destruct (r !! "_uuid") as [[]|]; try done. by injection Hu. }
  rewrite <- Hsame.
  apply bind_Ok_inv in Hrun as (rs' & s3 & (Ht & He & _)%wrap_err_Ok_inv%transact_Ok & [= <-]).
  by eapply law_del_bridge in Ht.
Qed.
End OvsFacts.
