(* ===== verification/CniOvs.v ===== *)
(** * cniovs: the CNI engine for OVS-DPDK

    cniovs.go, ovn.go and localdb.go.  Mounts, the group database, the random
    number generator and the CNI library's parser of CNI_ARGS are not part of the
    repository: the class [OvsHost]. *)
From S2P Require Import Prelude GoStrings GoOs GoRegexp Json Types JsonCodec Annotations.
From S2P Require Import ConfigData LocalDb VppApi CniVpp OvsDb.

Definition defaultBridge : string := "br0".
Definition DefaultHostVhostuserBaseDir : string := "/var/lib/vhost_sockets/".
Definition ovnIntegrationBridge : string := "br-int".

Class OvsHost := {
  (* unix.Mount(source, target, bind) and unix.Unmount *)
  bind_mount : string → string → go fs unit;
  unmount : string → go fs unit;
  (* rand.Read of six bytes; what it fails with does not matter *)
  rand_bytes : option (list Z);
  (* cnitypes.LoadArgs into envArgs: OvnPort and MAC *)
  load_env_args : string → result (string * string);
  match_other : string → string → bool
}.

(** ** localdb.go *)

Module OvsSavedData.
Record t := mk { Vhostname : string; VhostMac : string; IfMac : string }.
Definition zero : t := mk "" "" "".
Definition set_Vhostname (v : string) (d : t) : t := mk v (VhostMac d) (IfMac d).
Definition set_VhostMac (v : string) (d : t) : t := mk (Vhostname d) v (IfMac d).
Definition set_IfMac (v : string) (d : t) : t := mk (Vhostname d) (VhostMac d) v.
End OvsSavedData.

Definition OvsSavedData_fields : list (field OvsSavedData.t) :=
  [fld "vhostname" OvsSavedData.Vhostname OvsSavedData.set_Vhostname d_string;
   fld "vhostmac" OvsSavedData.VhostMac OvsSavedData.set_VhostMac d_string;
   fld "ifmac" OvsSavedData.IfMac OvsSavedData.set_IfMac d_string].
Definition d_OvsSavedData : decoder OvsSavedData.t := d_struct OvsSavedData_fields.

Definition e_OvsSavedData (d : OvsSavedData.t) : json := JObj
  (omitempty false "vhostname" (JStr (OvsSavedData.Vhostname d)) ++
   omitempty false "vhostmac" (JStr (OvsSavedData.VhostMac d)) ++
   omitempty false "ifmac" (JStr (OvsSavedData.IfMac d)) ++ []).

Definition SaveConfig : CmdArgs.t → OvsSavedData.t → go fs unit := save_local e_OvsSavedData.
Definition LoadConfig : CmdArgs.t → OvsSavedData.t → go fs OvsSavedData.t :=
  load_local "OVS" d_OvsSavedData.

(** ** ovn.go *)

Definition decodeArgString (raw : json) : option string :=
  match d_string raw EmptyString with inl _ => None | inr s => Some s end.

(** The loop over conf.Args.Cni; [entries] is the map in the order the iteration
    takes.  The values and the two flags are what the loop carries. *)
Fixpoint fallback_loop (entries : list (string * json)) (mac port : string)
    (wantMAC wantOvnPort : bool) : string * string :=
  match entries with
  | [] => (mac, port)
  | (k, raw) :: rest =>
      let '(mac, wantMAC) :=
        if bool_decide (to_lower k = "mac") && wantMAC then
          match decodeArgString raw with Some v => (v, false) | None => (mac, wantMAC) end
        else (mac, wantMAC) in
      let '(port, wantOvnPort) :=
        if bool_decide (to_lower k = "ovnport") && wantOvnPort then
          match decodeArgString raw with Some v => (v, false) | None => (port, wantOvnPort) end
        else (port, wantOvnPort) in
      if negb wantMAC && negb wantOvnPort then (mac, port)
      else fallback_loop rest mac port wantMAC wantOvnPort
  end.

(** The map of conf.Args.Cni, nil for none. *)
Definition conf_cni_args (conf : NetConf.t) : option (gmap string json) :=
  match NetConf.Args conf with Some a => PluginArgs.Cni a | None => None end.

Definition applyConfArgsFallback (entries : list (string * json)) (mac port : string)
  : string * string :=
  let wantMAC := bool_decide (mac = EmptyString) in
  let wantOvnPort := bool_decide (port = EmptyString) in
  if negb wantMAC && negb wantOvnPort then (mac, port)
  else fallback_loop entries mac port wantMAC wantOvnPort.

Section CniOvs.
Context `{OvsApi} `{OvsHost} `{UserDb}.

(** (ovnPort, mac); the order of a map's iteration is any order. *)
Definition resolveOvnArgs (order : gmap string json → list (string * json))
    (conf : NetConf.t) (args : CmdArgs.t) : string * string :=
  let '(port, mac) :=
    if decide (CmdArgs.Args args = EmptyString) then (EmptyString, EmptyString)
    else match load_env_args (CmdArgs.Args args) with
         | inl _ => (EmptyString, EmptyString)
         | inr e => e
         end in
  if bool_decide (port = EmptyString) || bool_decide (mac = EmptyString) then
    match conf_cni_args conf with
    | None => (port, mac)
    | Some m => let '(mac', port') := applyConfArgsFallback (order m) mac port in (port', mac')
    end
  else (port, mac).

(** ** Small helpers of cniovs.go *)

Definition hex_char (n : Z) : ascii :=
  ascii_of_nat (Z.to_nat (if decide (n < 10)%Z then 48 + n else 87 + n)).

(** %02x of a byte. *)
Definition hex2 (b : Z) : string :=
  String (hex_char (Z.shiftr b 4)) (String (hex_char (Z.land b 15)) EmptyString).

Definition colon : string := ":".

Definition generateRandomMacAddress : string :=
  match rand_bytes with
  | Some [b0; b1; b2; b3; b4; b5] =>
      str_join colon (hex2 <$> [Z.land (Z.lor b0 2) 254; b1; b2; b3; b4; b5])
  | _ => EmptyString
  end.

Definition getShortSharedDir {S} (sharedDir : string) : go S string :=
  if bool_decide (89 ≤ String.length sharedDir) && str_contains sharedDir "empty-dir" then
    match split_char slash sharedDir !! 5 with
    | Some podID => mret (path_join [DefaultHostVhostuserBaseDir; podID])
    | None => go_panic "index out of range"
    end
  else mret sharedDir.

Definition createSharedDir (sharedDir oldSharedDir : string) : go fs unit :=
  st ← attempt (os_stat sharedDir);
  match st with
  | inr _ => mret tt
  | inl err =>
      if is_not_exist err then
        os_mkdir_all sharedDir ;;
        if str_contains sharedDir DefaultHostVhostuserBaseDir
        then bind_mount oldSharedDir sharedDir else mret tt
      else raise err
  end.

Definition setSharedDirGroup (sharedDir group : string) : go fs unit :=
  gidText ← of_result (LookupGroup group);
  gid ← of_result (atoi gidText);
  os_chgrp DefaultHostVhostuserBaseDir gid ;;
  os_chgrp sharedDir gid.

(** ** The interface *)

Notation host_state := (NetConf.t * (ovs_state * fs))%type.

Definition upd_bridge (f : BridgeConf.t → BridgeConf.t) : NetConf.t → NetConf.t :=
  upd_host (λ h, UserSpaceConf.set_BridgeConf (f (UserSpaceConf.BridgeConf h)) h).

(** The name the plugin gives a socket. *)
Definition vhost_name (args : CmdArgs.t) : go host_state string :=
  id ← slice_to 12 (CmdArgs.ContainerID args);
  mret (id +:+ "-" +:+ CmdArgs.IfName args).

Definition port_config (conf : NetConf.t) (args : CmdArgs.t) (ovn_port : string)
  : vhostPortConfig := {|
  containerID := CmdArgs.ContainerID args;
  ifName := CmdArgs.IfName args;
  ovnPort := ovn_port;
  mtu := UserSpaceConf.MTU (NetConf.HostConf conf);
  vlanID := BridgeConf.VlanId (host_bridge conf);
  trunks := BridgeConf.Trunks (host_bridge conf);
  vlanMode := BridgeConf.VlanMode (host_bridge conf);
  ingressRate := VhostConf.IngressPolicingRate (host_vhost conf);
  ingressBurst := VhostConf.IngressPolicingBurst (host_vhost conf) |}.

(** The MAC for the application: annotation, configuration, or a random one. *)
Definition if_mac (conf : NetConf.t) (ovnMac : string) : string :=
  if decide (ovnMac ≠ EmptyString) then ovnMac
  else if decide (UserSpaceConf.MAC (NetConf.HostConf conf) ≠ EmptyString)
  then UserSpaceConf.MAC (NetConf.HostConf conf)
  else generateRandomMacAddress.

Definition addLocalDeviceVhost (args : CmdArgs.t) (actualSharedDir ovn_port ovnMac : string)
  : go host_state OvsSavedData.t :=
  conf ← gets fst;
  (if decide (VhostConf.Socketfile (host_vhost conf) = EmptyString) then
     name ← vhost_name args;
     on_fst (modify (upd_vhost (VhostConf.set_Socketfile name)))
   else mret tt) ;;
  sharedDir ← getShortSharedDir actualSharedDir;
  on_snd (on_snd (createSharedDir sharedDir actualSharedDir)) ;;
  conf ← gets fst;
  let group := VhostConf.Group (host_vhost conf) in
  (if decide (group ≠ EmptyString)
   then on_snd (on_snd (setSharedDirGroup sharedDir group)) else mret tt) ;;
  let clientMode := bool_decide (VhostConf.Mode (host_vhost conf) = "client") in
  vhostName ← on_snd (createVhostPort sharedDir (VhostConf.Socketfile (host_vhost conf)) clientMode
                        (BridgeConf.BridgeName (host_bridge conf)) (port_config conf args ovn_port));
  vhostPortMac ← on_snd (on_fst (getVhostPortMac vhostName));
  mret (OvsSavedData.mk vhostName vhostPortMac (if_mac conf ovnMac)).

Definition addLocalNetworkBridge : go host_state unit :=
  conf ← gets fst;
  let name := BridgeConf.BridgeName (host_bridge conf) in
  found ← on_snd (on_fst (ovs_findBridge name));
  if (found : bool) then mret tt else on_snd (on_fst (createBridge name)).

Definition delLocalNetworkBridge : go host_state unit :=
  conf ← gets fst;
  let name := BridgeConf.BridgeName (host_bridge conf) in
  contain ← on_snd (on_fst (doesBridgeContainInterfaces name));
  if (contain : bool) then mret tt else on_snd (on_fst (deleteBridge name)).

(** The loop over the files of the shared directory; it counts the removals.  A
    name that matches both patterns is removed twice, which fails. *)
Fixpoint remove_matching (sharedDir fileBaseName socketfile : string)
    (files : list string) (numDeleted : nat) : go fs nat :=
  match files with
  | [] => mret numDeleted
  | fileName :: rest =>
      let file := path_join [sharedDir; fileName] in
      n ← (if regexp_match match_other (fileBaseName +:+ "*") fileName
           then os_remove file ;; mret (S numDeleted) else mret numDeleted);
      n ← (if bool_decide (socketfile ≠ fileBaseName) &&
              regexp_match match_other (socketfile +:+ "*") fileName
           then os_remove file ;; mret (S n) else mret n);
      remove_matching sharedDir fileBaseName socketfile rest n
  end.

(** The shared directory is a bind mount of the plugin's. *)
Definition unmount_shared (sharedDir : string) : go fs unit :=
  st ← attempt (os_stat sharedDir);
  if match st with inl err => is_not_exist err | inr _ => false end then mret tt
  else unmount sharedDir ;; os_remove sharedDir.

(** The shared directory is the pod's own. *)
Definition clean_shared (args : CmdArgs.t) (sharedDir socketfile : string) : go fs unit :=
  entries ← os_read_dir sharedDir;
  id ← slice_to 12 (CmdArgs.ContainerID args);
  let files := entries.*1 in
  n ← remove_matching sharedDir (id +:+ "-" +:+ CmdArgs.IfName args) socketfile files 0;
  if decide (n = length files) then os_remove sharedDir else mret tt.

Definition delLocalDeviceVhost (args : CmdArgs.t) (actualSharedDir : string)
    (data : OvsSavedData.t) : go host_state unit :=
  sharedDir ← getShortSharedDir actualSharedDir;
  conf ← gets fst;
  on_snd (on_fst (deleteVhostPort (OvsSavedData.Vhostname data)
                    (BridgeConf.BridgeName (host_bridge conf)))) ;;
  on_snd (on_snd (if str_contains sharedDir DefaultHostVhostuserBaseDir then unmount_shared sharedDir
                  else clean_shared args sharedDir (VhostConf.Socketfile (host_vhost conf)))).

(** ** ADD and DEL *)

Definition default_bridge (name : string) (conf : NetConf.t) : NetConf.t :=
  if decide (BridgeConf.BridgeName (host_bridge conf) = EmptyString)
  then upd_bridge (BridgeConf.set_BridgeName name) conf else conf.

Definition ovs_AddOnHost (order : gmap string json → list (string * json)) (args : CmdArgs.t)
    (sharedDir : string) : go host_state unit :=
  _ ← slice_to 12 (CmdArgs.ContainerID args);
  conf ← gets fst;
  let '(ovn_port, ovnMac) := resolveOvnArgs order conf args in
  on_fst (modify (default_bridge
    (if decide (ovn_port ≠ EmptyString) then ovnIntegrationBridge else defaultBridge))) ;;
  addLocalNetworkBridge ;;
  conf ← gets fst;
  data ← (if decide (UserSpaceConf.IfType (NetConf.HostConf conf) = "vhostuser")
          then addLocalDeviceVhost args sharedDir ovn_port ovnMac
          else raise (ErrNew ("ERROR: Unknown HostConf.IfType:" +:+
                              UserSpaceConf.IfType (NetConf.HostConf conf))));
  let netType := UserSpaceConf.NetType (NetConf.HostConf conf) in
  if decide (netType = "interface") then
    raise (ErrNew "ERROR: HostConf.NetType interface not supported.")
  else if decide (netType ≠ "bridge" ∧ netType ≠ EmptyString) then
    raise (ErrNew ("ERROR: Unknown HostConf.NetType:" +:+ netType))
  else on_snd (on_snd (SaveConfig args data)).

Definition ovs_DelFromHost (args : CmdArgs.t) (sharedDir : string) : go host_state unit :=
  _ ← slice_to 12 (CmdArgs.ContainerID args);
  data ← on_snd (on_snd (LoadConfig args OvsSavedData.zero));
  on_fst (modify (default_bridge defaultBridge)) ;;
  conf ← gets fst;
  (if decide (UserSpaceConf.IfType (NetConf.HostConf conf) = "vhostuser")
   then delLocalDeviceVhost args sharedDir data
   else raise (ErrNew ("ERROR: Unknown HostConf.Type:" +:+
                       UserSpaceConf.IfType (NetConf.HostConf conf)))) ;;
  delLocalNetworkBridge.
End CniOvs.

Definition ovs_AddOnContainer `{KubeClient} `{CniLib} (conf : NetConf.t) (args : CmdArgs.t)
    (kubeClient : bool) (sharedDir : string) (ipResult : option Result.t)
  : go ((kube * option Pod.t) * fs) (option Pod.t) :=
  _ ← slice_to 12 (CmdArgs.ContainerID args);
  SaveRemoteConfig (Some conf) (Some args) kubeClient sharedDir ipResult.

Definition ovs_DelFromContainer (args : CmdArgs.t) (sharedDir : string) : go fs unit :=
  _ ← slice_to 12 (CmdArgs.ContainerID args);
  ignore_err (FileCleanup sharedDir EmptyString).
