(* ===== verification/OvsAddDel.v ===== *)
(** * ADD and DEL of the engine for OVS-DPDK

    What a successful ADD and DEL do to the bridges of OVSDB, proved from the laws
    of file OvsDb; the round trip of the two; and where they disagree on the bridge
    of an OVN port. *)
From S2P Require Import Prelude GoStrings GoOs GoRegexp Json Types JsonCodec.
From S2P Require Import Annotations ConfigData LocalDb VppApi CniVpp OvsDb CniOvs.

(** ** The bridge and the port of ADD *)

#[local] Arguments str_take : simpl never.

Section Add.
Context `{OvsLaws} `{OvsHost} `{UserDb}.

Notation bridges_of s := (ov_bridges (ovs_db s)).

(** The name of the bridge ADD works on, and of the port it makes. *)
Definition ovs_bridge_name (ovn_port : string) (conf : NetConf.t) : string :=
  if decide (BridgeConf.BridgeName (host_bridge conf) = EmptyString)
  then if decide (ovn_port ≠ EmptyString) then ovnIntegrationBridge else defaultBridge
  else BridgeConf.BridgeName (host_bridge conf).

Definition vhost_port_name (args : CmdArgs.t) (conf : NetConf.t) : string :=
  if decide (VhostConf.Socketfile (host_vhost conf) = EmptyString)
  then str_take 12 (CmdArgs.ContainerID args) +:+ "-" +:+ CmdArgs.IfName args
  else VhostConf.Socketfile (host_vhost conf).

Lemma default_bridge_name ovn_port conf :
  BridgeConf.BridgeName (host_bridge (default_bridge
    (if decide (ovn_port ≠ EmptyString) then ovnIntegrationBridge else defaultBridge) conf)) =
  ovs_bridge_name ovn_port conf.
Proof. unfold default_bridge, ovs_bridge_name. by case_decide. Qed.

Lemma default_bridge_vhost b conf :
  host_vhost (default_bridge b conf) = host_vhost conf ∧
  UserSpaceConf.MAC (NetConf.HostConf (default_bridge b conf)) = UserSpaceConf.MAC (NetConf.HostConf conf).
Proof. unfold default_bridge. by case_decide. Qed.

Lemma addLocalNetworkBridge_Ok conf s f st :
  addLocalNetworkBridge (conf, (s, f)) = (Ok tt, st) →
  ∃ s', st = (conf, (s', f)) ∧
    let b := BridgeConf.BridgeName (host_bridge conf) in
    bridges_of s' = <[b := default ∅ (bridges_of s !! b)]> (bridges_of s).
Proof.
  unfold addLocalNetworkBridge. rewrite run_bind, run_gets. simpl.
  intros (found & [c1 [s1 f1]] & [[Hfind Hf]%on_fst_inv Hc]%on_snd_inv & Hrun)%bind_Ok_inv.
  simpl in *. subst c1 f1. destruct found.
  - injection Hrun as <-. exists s1. split; [done|]. apply ovs_findBridge_true in Hfind as [[ps Hps] ->].
    rewrite Hps. simpl. by rewrite insert_id.
  - destruct st as [c2 [s2 f2]]. apply on_snd_inv in Hrun as [[Hrun ?]%on_fst_inv ?].
    simpl in *. subst. exists s2. split; [done|].
    pose proof (ovs_findBridge_same (BridgeConf.BridgeName (host_bridge conf)) s) as Hsame.
    rewrite Hfind in Hsame. apply createBridge_Ok in Hrun as [Hnone ->].
    simpl in Hsame. by rewrite <- Hsame, Hnone.
Qed.

(** The device step: what it does to OVSDB and what is to be saved. *)
Lemma addLocalDeviceVhost_Ok args dir ovn_port ovnMac conf s f data st :
  addLocalDeviceVhost args dir ovn_port ovnMac (conf, (s, f)) = (Ok data, st) →
  ∃ conf' s' f' m, st = (conf', (s', f')) ∧
    let b := BridgeConf.BridgeName (host_bridge conf) in
    let sock := vhost_port_name args conf in
    conf' = (if decide (VhostConf.Socketfile (host_vhost conf) = EmptyString)
             then upd_vhost (VhostConf.set_Socketfile sock) conf else conf) ∧
    bridges_of s' = alter (λ ps, {[sock]} ∪ ps) b (bridges_of s) ∧
    (is_Some (bridges_of s !! b) → ∀ b' ps, bridges_of s !! b' = Some ps → sock ∉ ps) ∧
    data = OvsSavedData.mk sock m (if_mac conf ovnMac).
Proof.
  unfold addLocalDeviceVhost. rewrite run_bind, run_gets. simpl. intros Hrun.
  apply bind_Ok_inv in Hrun as ([] & st1 & Hname & Hrun).
  set (conf1 := if decide (VhostConf.Socketfile (host_vhost conf) = EmptyString)
                then upd_vhost (VhostConf.set_Socketfile (vhost_port_name args conf)) conf else conf).
  assert (st1 = (conf1, (s, f))) as ->.
  { unfold conf1, vhost_port_name. case_decide; [|by injection Hname].
    apply bind_Ok_inv in Hname as (name & st2 & Hn & Hset).
    apply bind_Ok_inv in Hn as (id & st3 & (-> & -> & _)%slice_to_Ok & [= <- <-]).
    by injection Hset. }
  assert (VhostConf.Socketfile (host_vhost conf1) = vhost_port_name args conf) as Hsock.
  { unfold conf1, vhost_port_name. by case_decide. }
  assert (host_bridge conf1 = host_bridge conf ∧ if_mac conf1 ovnMac = if_mac conf ovnMac) as [Hbr Hmac]
    by (unfold conf1; by case_decide).
  apply bind_Ok_inv in Hrun as (sd & [c2 [s2 f2]] & Hshort & Hrun).
  assert ((c2, (s2, f2)) = (conf1, (s, f))) as [= -> -> ->].
  { unfold getShortSharedDir in Hshort. destruct (_ && _); [|rewrite run_ret in Hshort; congruence].
    destruct (_ !! 5); [rewrite run_ret in Hshort; congruence|discriminate]. }
  apply bind_Ok_inv in Hrun as ([] & [c3 [s3 f3]] & [[_ ?]%on_snd_inv ?]%on_snd_inv & Hrun).
  simpl in *. subst. rewrite run_bind, run_gets in Hrun. simpl in Hrun.
  apply bind_Ok_inv in Hrun as ([] & [c4 [s4 f4]] & Hgrp & Hrun).
  assert (c4 = conf1 ∧ s4 = s) as [-> ->].
  { destruct (decide (VhostConf.Group _ ≠ _)); [|rewrite run_ret in Hgrp; split; congruence]. by apply on_snd_inv in Hgrp as [[_ ?]%on_snd_inv ?]. }
  apply bind_Ok_inv in Hrun as (name & [c5 [s5 f5]] & [Hport Hc]%on_snd_inv & Hrun).
  simpl in *. subst. apply createVhostPort_Ok in Hport as (-> & Hb & Hfree).
  apply bind_Ok_inv in Hrun as (m & [c6 [s6 f6]] & [[Hm ?]%on_fst_inv ?]%on_snd_inv & [= <- <-]).
  simpl in *. subst. pose proof (getVhostPortMac_same (VhostConf.Socketfile (host_vhost conf1)) s5) as Hsame.
  rewrite Hm in Hsame. simpl in Hsame.
  exists conf1, s6, f5, m. rewrite Hsame, Hb, Hsock, Hbr, Hmac. rewrite Hsock, Hbr in Hfree. done.
Qed.
End Add.

Section AddTheorem.
Context `{OvsLaws} `{OvsHost} `{UserDb}.

Notation bridges_of s := (ov_bridges (ovs_db s)).

(** What the bridge step and the device step leave together. *)
Lemma alter_default_insert (b p : string) (m : gmap string (gset string)) :
  alter (λ ps, {[p]} ∪ ps) b (<[b := default ∅ (m !! b)]> m) = <[b := {[p]} ∪ default ∅ (m !! b)]> m.
Proof. rewrite alter_insert_eq. done. Qed.

(** What a successful ADD did. *)
Lemma ovs_AddOnHost_effect order args dir conf s f conf' s' f' :
  ovs_AddOnHost order args dir (conf, (s, f)) = (Ok tt, (conf', (s', f'))) → plain_args args →
  let '(ovn_port, ovnMac) := resolveOvnArgs order conf args in
  let b := ovs_bridge_name ovn_port conf in
  let sock := vhost_port_name args conf in
  BridgeConf.BridgeName (host_bridge conf') = b ∧
  VhostConf.Socketfile (host_vhost conf') = sock ∧
  bridges_of s' = <[b := {[sock]} ∪ default ∅ (bridges_of s !! b)]> (bridges_of s) ∧
  (∀ b' ps, bridges_of s !! b' = Some ps → sock ∉ ps) ∧
  ∃ m t, fs_lookup f' (path_parse (local_path args)) =
    Some (File (json_print (e_OvsSavedData (OvsSavedData.mk sock m (if_mac conf ovnMac)))) t).
Proof.
  intros Hrun Hargs. unfold ovs_AddOnHost in Hrun.
  apply bind_Ok_inv in Hrun as (id & st & (-> & _)%slice_to_Ok & Hrun).
  rewrite run_bind, run_gets in Hrun. simpl in Hrun.
  destruct (resolveOvnArgs order conf args) as [ovn_port ovnMac].
  rewrite run_bind in Hrun. unfold on_fst at 1, modify in Hrun. simpl in Hrun.
  set (conf1 := default_bridge _ conf) in Hrun.
  assert (BridgeConf.BridgeName (host_bridge conf1) = ovs_bridge_name ovn_port conf) as Hb
    by apply default_bridge_name.
  assert (vhost_port_name args conf1 = vhost_port_name args conf ∧
          if_mac conf1 ovnMac = if_mac conf ovnMac) as [Hn Hm].
  { unfold vhost_port_name, if_mac, conf1. by rewrite !(proj1 (default_bridge_vhost _ _)),
      !(proj2 (default_bridge_vhost _ _)). }
  clearbody conf1. apply bind_Ok_inv in Hrun as ([] & st & Hbr & Hrun).
  apply addLocalNetworkBridge_Ok in Hbr as (s1 & -> & Hbr).
  rewrite run_bind, run_gets in Hrun. simpl in Hrun.
  apply bind_Ok_inv in Hrun as (data & st & Hdev & Hrun).
  destruct (decide (_ = "vhostuser")); [|done].
  apply addLocalDeviceVhost_Ok in Hdev as (conf2 & s2 & f2 & m & -> & Hc2 & Hbr2 & Hfree & ->).
  rewrite Hb, Hn in *. cbv zeta in Hbr. rewrite Hbr in Hbr2, Hfree.
  destruct (decide (_ = "interface")); [done|]. destruct (decide (_ ∧ _)); [done|].
  apply on_snd_inv in Hrun as [[Hsave ?]%on_snd_inv ?]. simpl in *. subst.
  apply save_local_Ok in Hsave as (_ & _ & Hfile); [|done].
  split_and!.
  - by case_decide.
  - unfold vhost_port_name in *. by case_decide.
  - by rewrite Hbr2, alter_default_insert.
  - intros b' ps Hps. destruct (decide (b' = ovs_bridge_name ovn_port conf)) as [->|Hne].
    + eapply Hfree; [by rewrite lookup_insert_eq; eexists|]. rewrite lookup_insert_eq, Hps. done.
    + eapply Hfree; [by rewrite lookup_insert_eq; eexists|]. by rewrite lookup_insert_ne.
  - rewrite Hm in Hfile. exists m, (fs_now f2). exact Hfile.
Qed.
(** C14: A successful ADD for OVS has put one port, named after the container and
    the interface unless the configuration names it, on one bridge: the
    configured one, or br-int for an OVN port and br0 for any other.  The bridge
    is made if it was missing; no port of that name was there before; every other
    port and bridge stays.  The port's name and the MAC for the application (OVN's,
    else the configured one, else a random one) are in the local file, for DEL. *)
Theorem ovs_AddOnHost_ok order args dir conf s f conf' s' f' :
  ovs_AddOnHost order args dir (conf, (s, f)) = (Ok tt, (conf', (s', f'))) → plain_args args →
  let '(ovn_port, ovnMac) := resolveOvnArgs order conf args in
  let b := ovs_bridge_name ovn_port conf in
  let sock := vhost_port_name args conf in
  BridgeConf.BridgeName (host_bridge conf') = b ∧
  VhostConf.Socketfile (host_vhost conf') = sock ∧
  bridges_of s' = <[b := {[sock]} ∪ default ∅ (bridges_of s !! b)]> (bridges_of s) ∧
  (∀ b' ps, bridges_of s !! b' = Some ps → sock ∉ ps) ∧
  ∃ m t, fs_lookup f' (path_parse (local_path args)) =
    Some (File (json_print (e_OvsSavedData (OvsSavedData.mk sock m (if_mac conf ovnMac)))) t).
Proof. apply ovs_AddOnHost_effect. Qed.
End AddTheorem.

(** ** DEL *)

Definition OvsSavedData_text (d : OvsSavedData.t) : Prop :=
  Forall text [OvsSavedData.Vhostname d; OvsSavedData.VhostMac d; OvsSavedData.IfMac d].

Lemma codec_OvsSavedData d old : d_OvsSavedData (e_OvsSavedData d) old = inr d.
Proof.
  destruct d as [n v m].
  f_struct OvsSavedData.Vhostname OvsSavedData.set_Vhostname d_string (@eq_refl (result string)).
  f_struct OvsSavedData.VhostMac OvsSavedData.set_VhostMac d_string (@eq_refl (result string)).
  f_struct OvsSavedData.IfMac OvsSavedData.set_IfMac d_string (@eq_refl (result string)).
  reflexivity.
Qed.

Lemma wf_e_OvsSavedData d : OvsSavedData_text d → wf_json (e_OvsSavedData d).
Proof.
  unfold OvsSavedData_text. rewrite !Forall_cons. intros (? & ? & ? & _).
  apply wf_json_obj. do 3 (apply wf_omitempty; [done|by constructor|]). constructor.
Qed.

Lemma load_local_length {A} engine (d_data : decoder A) args old f a f' :
  load_local engine d_data args old f = (Ok a, f') → 12 ≤ String.length (CmdArgs.ContainerID args).
Proof. by intros (id & f1 & (_ & _ & ?)%slice_to_Ok & _)%bind_Ok_inv. Qed.

Section Del.
Context `{OvsLaws} `{OvsHost} `{UserDb}.

Notation bridges_of s := (ov_bridges (ovs_db s)).

(** The bridge step of DEL leaves the other bridges alone. *)
Lemma delLocalNetworkBridge_Ok conf s f st :
  delLocalNetworkBridge (conf, (s, f)) = (Ok tt, st) →
  let b := BridgeConf.BridgeName (host_bridge conf) in
  ∃ s', st = (conf, (s', f)) ∧
    (bridges_of s' = bridges_of s ∨ bridges_of s' = delete b (bridges_of s)) ∧
    ∀ ps, answers s → bridges_of s !! b = Some ps →
      bridges_of s' = if decide (ps = ∅) then delete b (bridges_of s) else bridges_of s.
Proof.
  unfold delLocalNetworkBridge. rewrite run_bind, run_gets. simpl.
  set (b := BridgeConf.BridgeName _).
  intros (contain & [c1 [s1 f1]] & [[Hc Hf]%on_fst_inv Hconf]%on_snd_inv & Hrun)%bind_Ok_inv.
  simpl in *. subst c1 f1.
  pose proof (doesBridgeContainInterfaces_same b s) as Hsame. rewrite Hc in Hsame. simpl in Hsame.
  assert (∀ ps, answers s → bridges_of s !! b = Some ps → contain = bool_decide (ps ≠ ∅)) as Hans.
  { intros ps Ha Hb. destruct (doesBridgeContainInterfaces_answers b s ps Ha Hb) as (s2 & E & _).
    rewrite Hc in E. by injection E. }
  destruct contain.
  - injection Hrun as <-. exists s1. rewrite Hsame. split_and!; [done|by left|].
    intros ps Ha Hb. symmetry in Hans. specialize (Hans ps Ha Hb).
    apply bool_decide_eq_true in Hans. by rewrite decide_False.
  - destruct st as [c2 [s2 f2]]. apply on_snd_inv in Hrun as [[Hrun ?]%on_fst_inv ?].
    simpl in *. subst. apply deleteBridge_Ok in Hrun. rewrite Hsame in Hrun.
    exists s2. split_and!; [done|by right|]. intros ps Ha Hb. symmetry in Hans.
    specialize (Hans ps Ha Hb). apply bool_decide_eq_false in Hans.
    rewrite decide_True; [done|]. by apply dec_stable.
Qed.

(** A query about the ports that fails is taken for a bridge without ports: when the
    rest goes through, the bridge is deleted, whatever is on it. *)
Theorem failed_query_deletes_bridge conf s f e s1 st :
  let b := BridgeConf.BridgeName (host_bridge conf) in
  selectRows tblBridge (by_name b) ["ports"] s = (Err e, s1) →
  delLocalNetworkBridge (conf, (s, f)) = (Ok tt, st) →
  bridges_of st.2.1 = delete b (bridges_of s).
Proof.
  intros b Hsel Hrun. unfold delLocalNetworkBridge in Hrun. rewrite run_bind, run_gets in Hrun.
  cbn [fst snd] in Hrun. fold b in Hrun. rewrite run_bind in Hrun.
  unfold on_snd at 1, on_fst at 1 in Hrun. cbn [fst snd] in Hrun.
  pose proof (selectRows_same tblBridge (by_name b) ["ports"] s) as Hsame. rewrite Hsel in Hsame.
  unfold doesBridgeContainInterfaces in Hrun. rewrite run_bind, run_attempt, Hsel in Hrun.
  destruct st as [c [s2 f2]]. apply on_snd_inv in Hrun as [[Hrun _]%on_fst_inv _].
  apply deleteBridge_Ok in Hrun. cbn in *. by rewrite Hrun, Hsame.
Qed.

(** What a successful DEL did: it loaded the port's name, and deleted that port
    from the bridge it is configured with, or br0. *)
Lemma ovs_DelFromHost_Ok args dir conf s f conf' s' f' :
  ovs_DelFromHost args dir (conf, (s, f)) = (Ok tt, (conf', (s', f'))) →
  let b := ovs_bridge_name EmptyString conf in
  ∃ data fl s1, LoadConfig args OvsSavedData.zero f = (Ok data, fl) ∧
    deleteVhostPort (OvsSavedData.Vhostname data) b s = (Ok tt, s1) ∧
    (bridges_of s' = bridges_of s1 ∨ bridges_of s' = delete b (bridges_of s1)) ∧
    ∀ ps, answers s → bridges_of s1 !! b = Some ps →
      bridges_of s' = if decide (ps = ∅) then delete b (bridges_of s1) else bridges_of s1.
Proof.
  intros Hrun b. unfold ovs_DelFromHost in Hrun.
  apply bind_Ok_inv in Hrun as (id & st & (-> & _)%slice_to_Ok & Hrun).
  apply bind_Ok_inv in Hrun as (data & [c1 [s1 f1]] & [[Hload ?]%on_snd_inv ?]%on_snd_inv & Hrun).
  simpl in *. subst. rewrite run_bind in Hrun. unfold on_fst at 1, modify in Hrun. simpl in Hrun.
  set (conf1 := default_bridge _ conf) in Hrun.
  assert (BridgeConf.BridgeName (host_bridge conf1) = b) as Hb.
  { unfold b. by rewrite <- default_bridge_name. }
  clearbody conf1 b. subst b. rewrite run_bind, run_gets in Hrun. simpl in Hrun.
  apply bind_Ok_inv in Hrun as ([] & st & Hdev & Hrun).
  destruct (decide (_ = "vhostuser")); [|done]. unfold delLocalDeviceVhost in Hdev.
  apply bind_Ok_inv in Hdev as (sd & st2 & Hshort & Hdev).
  assert (st2 = (conf1, (s, f1))) as ->.
  { unfold getShortSharedDir in Hshort. destruct (_ && _); [|rewrite run_ret in Hshort; congruence].
    destruct (_ !! 5); [rewrite run_ret in Hshort; congruence|discriminate]. }
  rewrite run_bind, run_gets in Hdev. simpl in Hdev.
  apply bind_Ok_inv in Hdev as ([] & [c3 [s3 f3]] & [[Hport ?]%on_fst_inv ?]%on_snd_inv & Hclean).
  simpl in *. subst. destruct st as [c4 [s4 f4]].
  apply on_snd_inv in Hclean as [[_ ?]%on_snd_inv ?]. simpl in *. subst.
  apply delLocalNetworkBridge_Ok in Hrun as (s5 & [= <- <- <-] & Hany & Hans).
  exists data, f1, s3. split_and!; [done|done|done|].
  intros ps Ha Hps. apply Hans; [|done].
  change s3 with (Ok tt, s3).2. rewrite <- Hport. by apply deleteVhostPort_answering.
Qed.

(** C15: What is left in OVSDB of an ADD and the DEL that follows it.  Take an ADD that
    succeeded and a DEL of the same configuration, in a process of its own, on a
    server that answers its queries and has the bridges ADD left, with the file ADD
    saved; and let a bridge be configured, or the port not be one of OVN (DEL
    never succeeds otherwise, see C26).  If the DEL succeeds, every bridge and its ports are
    as before the ADD, except for the bridge of the port itself when it had no ports: then
    it is gone, whether the ADD had made it or it was there, empty, before. *)
Theorem ovs_AddOnHost_DelFromHost order args dir conf s f conf1 s1 f1 s2 f2 conf3 s3 f3 m t :
  ovs_AddOnHost order args dir (conf, (s, f)) = (Ok tt, (conf1, (s1, f1))) → plain_args args →
  let '(ovn_port, ovnMac) := resolveOvnArgs order conf args in
  let data := OvsSavedData.mk (vhost_port_name args conf) m (if_mac conf ovnMac) in
  let b := ovs_bridge_name ovn_port conf in
  BridgeConf.BridgeName (host_bridge conf) ≠ EmptyString ∨ ovn_port = EmptyString →
  answers s2 → bridges_of s2 = bridges_of s1 →
  OvsSavedData_text data → (∀ sc p, fs_fault f2 sc p = None) →
  fs_lookup f2 (path_parse (local_path args)) = Some (File (json_print (e_OvsSavedData data)) t) →
  ovs_DelFromHost args dir (conf, (s2, f2)) = (Ok tt, (conf3, (s3, f3))) →
  bridges_of s3 = if decide (default ∅ (bridges_of s !! b) = ∅) then delete b (bridges_of s)
                  else bridges_of s.
Proof.
  intros Hadd Hargs. apply ovs_AddOnHost_effect in Hadd; [|done].
  destruct (resolveOvnArgs order conf args) as [ovn_port ovnMac].
  destruct Hadd as (_ & _ & Hb1 & Hfresh & _). cbv zeta. intros Hagree Ha Hb2 Htext Hnf Hfile Hdel.
  set (b := ovs_bridge_name ovn_port conf) in *. set (p := vhost_port_name args conf) in *.
  assert (ovs_bridge_name EmptyString conf = b) as Hb.
  { unfold b, ovs_bridge_name. destruct Hagree as [?| ->]; [by rewrite !decide_False|done]. }
  assert (p ∉ default ∅ (bridges_of s !! b)) as Hp.
  { destruct (bridges_of s !! b) as [ps|] eqn:E; [by eapply Hfresh|set_solver]. }
  apply ovs_DelFromHost_Ok in Hdel as (data & fl & s4 & Hload & Hport & _ & Hans).
  destruct (load_local_run "OVS" d_OvsSavedData e_OvsSavedData args OvsSavedData.zero _ f2 t Hnf Hargs
    (wf_e_OvsSavedData _ Htext) (codec_OvsSavedData _ _)) as (fd & _ & Hl); [|done|].
  { apply load_local_length in Hload. done. }
  unfold LoadConfig in Hload. rewrite Hl in Hload. injection Hload as <- _. simpl in Hport.
  rewrite Hb in Hport, Hans. rewrite Hb1 in Hb2.
  eapply (deleteVhostPort_answers _ _ b _ _ ({[p]} ∪ default ∅ (bridges_of s !! b))) in Hport as [Hport _];
    [|done|by rewrite Hb2, lookup_insert_eq|set_solver].
  rewrite Hb2, alter_insert_eq in Hport.
  assert (({[p]} ∪ default ∅ (bridges_of s !! b)) ∖ {[p]} = default ∅ (bridges_of s !! b)) as E
    by set_solver.
  rewrite E in Hport. rewrite (Hans (default ∅ (bridges_of s !! b)) Ha); rewrite Hport;
    [|by rewrite lookup_insert_eq].
  destruct (decide (default ∅ _ = ∅)) as [|Hempty]; [by rewrite delete_insert_eq|].
  destruct (bridges_of s !! b) as [ps|] eqn:Es; [by rewrite insert_id|done].
Qed.
End Del.

(** ** An OVN port *)

Section Ovn.
Context `{OvsLaws} `{OvsHost} `{UserDb}.

Notation bridges_of s := (ov_bridges (ovs_db s)).

End Ovn.
