(* ===== verification/OvsShared.v ===== *)
(** * The helpers of the engine for OVS-DPDK

    The OVN arguments, the files of a pod's own shared directory, and the random
    MAC address. *)
From S2P Require Import Prelude GoStrings GoOs GoRegexp Json Types JsonCodec.
From S2P Require Import Annotations ConfigData LocalDb VppApi CniVpp OvsDb CniOvs.

(** ** The OVN arguments *)

(** The values of the entries whose key is [key] up to case, and that are strings. *)
Definition cni_values (key : string) (entries : list (string * json)) : list string :=
  omap (λ kv, if decide (to_lower kv.1 = key) then decodeArgString kv.2 else None) entries.

Lemma fallback_loop_spec entries mac port wm wp :
  fallback_loop entries mac port wm wp =
  (if (wm : bool) then default mac (head (cni_values "mac" entries)) else mac,
   if (wp : bool) then default port (head (cni_values "ovnport" entries)) else port).
Proof.
  revert mac port wm wp. induction entries as [|[k raw] entries IH]; intros mac port wm wp;
    [by destruct wm, wp|].
  unfold cni_values. cbn [fallback_loop omap list_omap]. cbv zeta. cbn [fst snd].
  destruct (decide (to_lower k = "mac")) as [->|Hm].
  - rewrite (bool_decide_true ("mac" = "mac")), (bool_decide_false ("mac" = "ovnport")) by done.
    rewrite (decide_False (P := "mac" = "ovnport")) by done. cbn [andb].
    destruct wm, (decodeArgString raw); cbn [negb andb]; destruct wp; cbn [negb andb];
      rewrite ?IH; done.
  - rewrite (bool_decide_false (to_lower k = "mac")) by done. cbn [andb].
    destruct (decide (to_lower k = "ovnport")) as [Hp|Hp].
    + rewrite bool_decide_true by done. cbn [andb].
      destruct wp, (decodeArgString raw); cbn [negb andb]; destruct wm; cbn [negb andb];
        rewrite ?IH; done.
    + rewrite bool_decide_false by done. cbn [andb].
      destruct wm, wp; cbn [negb andb]; rewrite ?IH; done.
Qed.

Lemma short_perm_eq {A} (l1 l2 : list A) : l1 ≡ₚ l2 → length l2 ≤ 1 → l1 = l2.
Proof.
  intros Hp Hl. destruct l2 as [|x [|y l2]]; simpl in Hl; [|by apply Permutation_singleton_r|lia].
  by apply Permutation_nil_r.
Qed.

Section Args.
Context `{OvsHost}.

(** What CNI_ARGS holds: OvnPort and MAC. *)
Definition env_args (args : CmdArgs.t) : string * string :=
  if decide (CmdArgs.Args args = EmptyString) then (EmptyString, EmptyString)
  else match load_env_args (CmdArgs.Args args) with
       | inl _ => (EmptyString, EmptyString)
       | inr e => e
       end.

(** The value of the environment, else the one of the configuration. *)
Definition pick (env : string) (values : list string) : string :=
  if decide (env = EmptyString) then default EmptyString (head values) else env.

(** C34: CNI_ARGS wins for each of the OVN port and the MAC; one that it leaves
    empty is taken from args.cni of the configuration, from the entry whose key is
    the name up to case and whose value is a string.  When there is at most one
    such entry for each, the order in which the map is iterated does not matter. *)
Theorem resolveOvnArgs_spec order conf args :
  (∀ m, order m ≡ₚ map_to_list m) →
  let values key := match conf_cni_args conf with
                    | None => [] | Some m => cni_values key (map_to_list m) end in
  length (values "mac") ≤ 1 → length (values "ovnport") ≤ 1 →
  resolveOvnArgs order conf args =
    (pick (env_args args).1 (values "ovnport"), pick (env_args args).2 (values "mac")).
Proof.
  intros Horder values Hmac Hport. unfold resolveOvnArgs.
  fold (env_args args). destruct (env_args args) as [p0 m0]. cbn [fst snd].
  assert (∀ m key, conf_cni_args conf = Some m → length (values key) ≤ 1 →
    cni_values key (order m) = values key) as Hval.
  { intros m key Hm Hlen. unfold values in *. rewrite Hm in *. apply short_perm_eq; [|done].
    unfold cni_values. by rewrite Horder. }
  destruct (conf_cni_args conf) as [m|] eqn:Em.
  - unfold applyConfArgsFallback. rewrite fallback_loop_spec, !(Hval m) by done. unfold pick.
    destruct (decide (p0 = EmptyString)) as [->|Hp], (decide (m0 = EmptyString)) as [->|Hm];
      rewrite ?bool_decide_true, ?bool_decide_false by done; done.
  - unfold pick, values. simpl. destruct (_ || _); repeat case_decide; subst; done.
Qed.
End Args.

(** ** The shared directory *)

(** Files and directories may go; nothing else changes. *)
Definition only_removes (f1 f2 : fs) : Prop :=
  ∀ c, fs_nodes f2 !! c = fs_nodes f1 !! c ∨ fs_nodes f2 !! c = None.

#[export] Instance only_removes_preorder : PreOrder only_removes.
Proof.
  split; [by intros f c; left|]. intros f1 f2 f3 H12 H23 c.
  destruct (H23 c) as [->|]; [apply H12|by right].
Qed.

Lemma os_remove_only p : keeps only_removes (os_remove p).
Proof.
  intros f c. destruct (os_remove p f) as [[[]|e|?|] f'] eqn:E;
    [|apply os_remove_err in E as ->; by left|by apply os_remove_no_panic in E..].
  apply os_remove_ok in E as ->. simpl.
  destruct (decide (c = path_parse p)) as [->|]; [right; by rewrite lookup_delete_eq|].
  left. by rewrite lookup_delete_ne.
Qed.

Lemma only_removes_gone f1 f2 c : only_removes f1 f2 → fs_nodes f1 !! c = None → fs_nodes f2 !! c = None.
Proof. intros H12 Hc. destruct (H12 c) as [-> |]; done. Qed.

Section Shared.
Context `{OvsHost}.

(** One step of the loop, for one pattern. *)
Definition remove_if (b : bool) (file : string) (n : nat) : go fs nat :=
  if b then os_remove file ;; mret (S n) else mret n.

Lemma remove_if_only b file n : keeps only_removes (remove_if b file n).
Proof.
  destruct b; [|apply keeps_ret, _]. apply keeps_bind; [apply _|apply os_remove_only|].
  intros. apply keeps_ret, _.
Qed.

Lemma remove_matching_only dir base sock files n :
  keeps only_removes (remove_matching dir base sock files n).
Proof.
  revert n. induction files as [|name files IH]; intros n; [apply keeps_ret, _|].
  apply keeps_bind; [apply _|apply remove_if_only|]. intros n1.
  apply keeps_bind; [apply _|apply remove_if_only|]. intros n2. apply IH.
Qed.

(** A file whose name matches is gone when the loop is done. *)
Lemma remove_matching_gone dir base sock files n f m f' name :
  remove_matching dir base sock files n f = (Ok m, f') → name ∈ files →
  regexp_match match_other (base +:+ "*") name = true →
  fs_nodes f' !! path_parse (path_join [dir; name]) = None.
Proof.
  revert n f. induction files as [|x files IH]; intros n f Hrun Hin Hmatch;
    [by apply elem_of_nil in Hin|].
  cbn [remove_matching] in Hrun. apply bind_Ok_inv in Hrun as (n1 & f1 & H1 & Hrun).
  apply bind_Ok_inv in Hrun as (n2 & f2 & Hr2 & Hrun).
  apply elem_of_cons in Hin as [<-|Hin]; [|by eapply IH].
  rewrite Hmatch in H1. apply bind_Ok_inv in H1 as ([] & f3 & ->%os_remove_ok & [= <- <-]).
  pose proof (remove_matching_only dir base sock files n2 f2) as Hlast. rewrite Hrun in Hlast.
  eapply only_removes_gone; [exact Hlast|].
  pose proof (remove_if_only (bool_decide (sock ≠ base) && regexp_match match_other (sock +:+ "*") name)
    (path_join [dir; name]) (S n)) as Hmid.
  specialize (Hmid (fs_with_nodes f (delete (path_parse (path_join [dir; name])) (fs_nodes f)))).
  unfold remove_if in Hmid. rewrite Hr2 in Hmid.
  eapply only_removes_gone; [exact Hmid|]. simpl. by rewrite lookup_delete_eq.
Qed.

(** The pattern by which DEL clears the pod's own shared directory is a
    regular expression that is not anchored, and its star repeats only the last
    byte of the name: a DEL that succeeds has removed every file whose name
    contains "<container>-<interface>" less its last byte, so that the DEL of net1
    also takes the files of net2 of the same container. *)
Theorem clean_shared_removes_siblings args dir sock f f' s a p u x :
  clean_shared args dir sock f = (Ok tt, f') →
  str_take 12 (CmdArgs.ContainerID args) +:+ "-" +:+ CmdArgs.IfName args
    = s +:+ String a EmptyString →
  str_all plain_byte (s +:+ String a EmptyString) = true →
  let name := p +:+ s +:+ u in
  str_all is_ascii name = true → plain_name name = true → dir ≠ EmptyString →
  fs_nodes f !! path_parse (path_join [dir; name]) = Some x →
  fs_nodes f' !! path_parse (path_join [dir; name]) = None.
Proof.
  intros Hrun Hbase Hplain name Hascii Hname Hdir Hx. unfold clean_shared in Hrun.
  apply bind_Ok_inv in Hrun as (entries & f1 & Hread & Hrun).
  pose proof (os_read_dir_same dir f) as Hsame. rewrite Hread in Hsame. simpl in Hsame. subst f1.
  assert (name ∈ entries.*1) as Hin.
  { unfold os_read_dir, on_path in Hread. rewrite decide_False in Hread by done.
    destruct (fs_fault _ _ _); [done|]. destruct (fs_lookup _ _) as [[]|]; try done.
    injection Hread as <-. apply list_elem_of_fmap. exists (name, x). split; [done|].
    apply elem_of_children. by rewrite <- path_parse_join. }
  apply bind_Ok_inv in Hrun as (id & f1 & (-> & -> & _)%slice_to_Ok & Hrun).
  apply bind_Ok_inv in Hrun as (n & f1 & Hloop & Hrun). rewrite Hbase in Hloop.
  eapply only_removes_gone; [|eapply remove_matching_gone; [exact Hloop|exact Hin|]].
  - case_decide; [|by injection Hrun as <-].
    pose proof (os_remove_only dir f1) as Ho. by rewrite Hrun in Ho.
  - apply regexp_match_name; [done..|]. by exists p, u.
Qed.
End Shared.

(** ** The random MAC *)

(** Bit 1 set and bit 0 cleared, in a byte. *)
Lemma local_unicast b0 :
  (0 ≤ b0 < 256)%Z →
  let b := Z.land (Z.lor b0 2) 254 in
  (0 ≤ b < 256)%Z ∧ Z.testbit b 1 = true ∧ Z.testbit b 0 = false ∧
  ∀ i, (2 ≤ i)%Z → Z.testbit b i = Z.testbit b0 i.
Proof.
  intros Hb b. unfold b.
  assert (∀ i, (8 ≤ i)%Z → Z.testbit b0 i = false) as Hhigh.
  { intros i Hi. rewrite <- (Z.mod_small b0 (2 ^ 8)) by lia. apply Z.mod_pow2_bits_high. lia. }
  assert (∀ i, (2 ≤ i)%Z → Z.testbit (Z.land (Z.lor b0 2) 254) i = Z.testbit b0 i) as Hbits.
  { intros i Hi. rewrite Z.land_spec, Z.lor_spec.
    assert (Z.testbit 2 i = false) as -> by (apply Z.bits_above_log2; simpl; lia).
    rewrite orb_false_r. destruct (decide (i < 8)%Z); [|by rewrite Hhigh by lia].
    assert (i ∈ seqZ 2 6) as Hin by (apply elem_of_seqZ; lia).
    assert (Forall (λ i, Z.testbit 254 i = true) (seqZ 2 6)) as Hall by (vm_compute; repeat constructor).
    rewrite (proj1 (Forall_forall _ _) Hall i Hin). by rewrite andb_true_r. }
  split; [|split; [rewrite Z.land_spec, Z.lor_spec; change (Z.testbit 2 1) with true; by rewrite orb_true_r|split; [by rewrite Z.land_spec, andb_false_r|done]]].
  assert (0 ≤ Z.land (Z.lor b0 2) 254)%Z by (apply Z.land_nonneg; right; lia).
  assert (Z.land (Z.lor b0 2) 254 = Z.land (Z.lor b0 2) 254 `mod` 2 ^ 8)%Z as ->.
  { apply Z.bits_inj'. intros i Hi. destruct (decide (i < 8)%Z).
    - by rewrite Z.mod_pow2_bits_low.
    - rewrite Z.mod_pow2_bits_high by lia. rewrite Hbits by lia. apply Hhigh. lia. }
  apply Z.mod_pos_bound. lia.
Qed.

(** A generated address is a unicast one, locally administered, whatever the
    random bytes are: six bytes in hexadecimal, of the first of which bit 1 is set
    and bit 0 is not; the other five are the random ones. *)
Theorem generateRandomMacAddress_local `{OvsHost} b0 bs :
  rand_bytes = Some (b0 :: bs) → length bs = 5 → Forall (λ b, 0 ≤ b < 256)%Z (b0 :: bs) →
  ∃ b, generateRandomMacAddress = str_join ":" (hex2 <$> b :: bs) ∧
    (0 ≤ b < 256)%Z ∧ Z.testbit b 1 = true ∧ Z.testbit b 0 = false ∧
    (∀ i, (2 ≤ i)%Z → Z.testbit b i = Z.testbit b0 i).
Proof.
  intros Hr Hl [Hb0 _]%Forall_cons. exists (Z.land (Z.lor b0 2) 254).
  split; [|by apply local_unicast]. unfold generateRandomMacAddress. rewrite Hr.
  do 5 (destruct bs as [|? bs]; [done|]). by destruct bs.
Qed.
