(* ===== verification/OvsRef.v ===== *)
(** * A concrete OVSDB

    An executable instance of the OVSDB interface that satisfies its laws, used by
    the witnesses: it knows the bridges and the ports of each, takes the
    transactions of the client as a whole, and refuses a name in use and a port
    that another bridge refers to. *)
From S2P Require Import Prelude GoStrings GoOs OvsDb.

Notation ref_db := (gmap string (gset string)).

(** No bridge, and no bridge but [b], has the port. *)
Definition port_free (p : string) (db : ref_db) : Prop := map_Forall (λ _ ps, p ∉ ps) db.
Definition port_only (p b : string) (db : ref_db) : Prop :=
  map_Forall (λ b' ps, b' = b ∨ p ∉ ps) db.
#[export] Instance port_free_dec p db : Decision (port_free p db) := _.
#[export] Instance port_only_dec p b db : Decision (port_only p b db) := _.

(** The name an operation's condition asks for, and the one a row has. *)
Definition where_name (o : operation) : option string :=
  match op_Where o with [Condition _ _ (VStr n)] => Some n | _ => None end.
Definition row_name (o : operation) : option string :=
  match op_Row o !! "name" with Some (VStr n) => Some n | _ => None end.

Definition ref_bridge_rows (n : string) (db : ref_db) : list row :=
  match db !! n with
  | Some ps => [{[ "_uuid" := VUUID n; "name" := VStr n; "ports" := VSet (VUUID <$> elements ps) ]}]
  | None => []
  end.

Definition ref_port_rows (n : string) (db : ref_db) : list row :=
  if decide (port_free n db) then []
  else [{[ "_uuid" := VUUID n; "name" := VStr n; "mac" := VStr "02:00:00:00:00:01" ]}].

Definition ref_select (o : operation) (db : ref_db) : list row :=
  match where_name o with
  | Some n => if decide (op_Table o = "Bridge") then ref_bridge_rows n db
              else if decide (op_Table o = "Port") then ref_port_rows n db else []
  | None => []
  end.

Definition op_ok : op_result := OpResult [] "" "".
Definition constraint_violation : op_result := OpResult [] "constraint violation" "".

(** The outcome of a transaction of [n] operations that goes through when [P]. *)
Definition commit (P : Prop) `{!Decision P} (n : nat) (db db' : ref_db)
  : result (list op_result) * ref_db :=
  if decide P then (inr (replicate n op_ok), db')
  else (inr (constraint_violation :: replicate n op_ok), db).

Definition ref_transact (ops : list operation) (db : ref_db) : result (list op_result) * ref_db :=
  match ops with
  | [o] =>
      if decide (op_Op o = "select") then (inr [OpResult (ref_select o db) "" ""], db)
      else (inl (ErrNew "unsupported"), db)
  | [o1; _] =>
      if decide (op_Op o1 = "insert") then
        match row_name o1 with
        | Some n => commit (db !! n = None) 2 db (<[n := ∅]> db)
        | None => (inl (ErrNew "unsupported"), db)
        end
      else
        match where_name o1 with
        | Some n => (inr [op_ok; op_ok], delete n db)
        | None => (inl (ErrNew "unsupported"), db)
        end
  | [o1; o2; o3] =>
      if decide (op_Op o1 = "insert") then
        match row_name o2, where_name o3 with
        | Some p, Some b => commit (port_free p db) 3 db (alter (λ s, {[p]} ∪ s) b db)
        | _, _ => (inl (ErrNew "unsupported"), db)
        end
      else
        match where_name o2, where_name o3 with
        | Some p, Some b => commit (port_only p b db) 3 db (alter (λ s, s ∖ {[p]}) b db)
        | _, _ => (inl (ErrNew "unsupported"), db)
        end
  | _ => (inl (ErrNew "unsupported"), db)
  end.

#[export] Instance RefOvs : OvsApi := {|
  ovsdb := ref_db;
  ovs_connect _ := None;
  ovs_transact := ref_transact
|}.

Lemma commit_Ok (P : Prop) `{!Decision P} n db db' rs db1 :
  commit P n db db' = (inr rs, db1) → no_errors rs → P ∧ db1 = db'.
Proof.
  unfold commit. case_decide; [by intros [= _ <-]|]. intros [= <- _] Hno.
  by apply Forall_cons in Hno as [[=] _].
Qed.

Lemma commit_atomic (P : Prop) `{!Decision P} n db db' r db1 :
  commit P n db db' = (r, db1) → db1 = db ∨ (P ∧ db1 = db').
Proof. unfold commit. case_decide; intros [= _ <-]; auto. Qed.

Lemma ref_bridge_rows_spec n (cols : list string) (db : ref_db) :
  match db !! n with
  | None => ref_bridge_rows n db = []
  | Some ps => ∃ rw, ref_bridge_rows n db = [rw] ∧
                 ("ports" ∈ cols → ∃ v, rw !! "ports" = Some v ∧ set_of_refs v (size ps))
  end.
Proof.
  unfold ref_bridge_rows. destruct (db !! n) as [ps|]; [|done].
  eexists. split; [done|]. intros _. exists (VSet (VUUID <$> elements ps)). split; [done|].
  left. eexists. split; [done|]. by rewrite length_fmap.
Qed.

#[local] Obligation Tactic := idtac.

#[export] Program Instance RefOvsLaws : OvsLaws := {| ov_bridges (db : ref_db) := db |}.
Next Obligation. intros o db r db' Ho. simpl. rewrite decide_True by done. by intros [= _ <-]. Qed.
Next Obligation.
  intros n cols db r rs db'. simpl. intros [= <- _ _] _.
  apply ref_bridge_rows_spec.
Qed.
Next Obligation.
  intros n cols db r rs db'. simpl. intros [= <- _ _] _.
  change (ref_select _ db) with (ref_port_rows n db). simpl. unfold ref_port_rows. case_decide as Hf; [|by eexists]. intros b ps Hb. by apply (Hf b).
Qed.
Next Obligation.
  intros row u n cond db rs db'. simpl. unfold row_name. simpl. intros Ht Hno Hrow.
  rewrite Hrow in Ht. by apply commit_Ok in Ht.
Qed.
Next Obligation. intros n u cond db rs db'. simpl. by intros [= _ <-]. Qed.
Next Obligation.
  intros ri rp ui up p b db rs db'. simpl. unfold row_name. simpl. intros Ht Hno Hrow _.
  rewrite Hrow in Ht. apply commit_Ok in Ht as [Hfree ->]; [|done]. split; [done|].
  intros _ b' ps Hb. by apply (Hfree b').
Qed.
Next Obligation.
  intros p b u db rs db'. simpl. intros Ht Hno. apply commit_Ok in Ht as [Honly ->]; [|done].
  split; [done|]. intros b' ps Hne Hb. by destruct (Honly b' ps Hb).
Qed.

#[export] Program Instance RefOvsAtomic : OvsAtomic.
Next Obligation.
  intros row u n cond db r db'. simpl. unfold row_name. simpl. intros Ht Hrow.
  rewrite Hrow in Ht. by apply commit_atomic in Ht.
Qed.
Next Obligation.
  intros ri rp ui up p b db r db'. simpl. unfold row_name. simpl. intros Ht Hrow _.
  rewrite Hrow in Ht. apply commit_atomic in Ht as [->|[Hfree ->]]; [by left|right].
  split; [done|]. intros _ b' ps Hb. by apply (Hfree b').
Qed.
Next Obligation.
  intros p b u db r db'. simpl. intros Ht. apply commit_atomic in Ht as [->|[Honly ->]]; [by left|].
  right. split; [done|]. intros b' ps Hne Hb. by destruct (Honly b' ps Hb).
Qed.
