(* ===== verification/Cni.v ===== *)
(** * userspace/cni: CmdAdd and CmdDel

    cni.go, and GetPod of pkg/k8sclient.  The state is the world one call of the
    plugin sees: VPP, OVSDB, the API server, the host's network and its files.
    The CNI library's IPAM delegation and network namespaces, and the ways to a
    clientset, are not part of the repository: classes [CniHost] and [K8sConfig]. *)
From S2P Require Import Prelude GoStrings GoOs Json Logging Types JsonCodec.
From S2P Require Import Annotations ConfigData LocalDb VppApi Memif CniVpp OvsDb CniOvs.

(** A way to a client: a kubeconfig, or the cluster the process runs in. *)
Class K8sConfig := {
  (* cnitypes.LoadArgs into k8sArgs: K8S_POD_NAMESPACE and K8S_POD_NAME *)
  load_k8s_args : string → result (string * string);
  BuildConfigFromFlags : string → option error;
  InClusterConfig : option error;
  in_cluster_env : bool;   (* KUBERNETES_SERVICE_HOST and KUBERNETES_SERVICE_PORT are set *)
  NewForConfig : option error
}.

Class CniHost := {
  host_net : Type;
  ipam_result : Type;
  (* ns.GetNS: the path of the namespace; ns.WithNetNSPath around a function *)
  GetNS : string → go host_net string;
  WithNetNSPath : string → go host_net unit → go host_net unit;
  DelLinkByNameAddr : string → go host_net unit;
  is_ErrLinkNotFound : error → bool;
  ExecAdd : string → string → go host_net ipam_result;
  ExecDel : string → string → go host_net unit;
  NewResultFromResult : ipam_result → result Result.t;
  PrintResult : Result.t → go host_net unit
}.

(** ** k8sclient.GetPod *)

Section GetPod.
Context `{KubeClient} `{K8sConfig}.

(** Whether there is a client, and the error.  (A failed NewForConfig gives a
    typed nil, which is not nil as an interface.) *)
Definition getK8sClient (kubeClient : bool) (kubeConfig : string) : bool * option error :=
  let new_for := match NewForConfig with Some e => (true, Some e) | None => (true, None) end in
  if kubeClient then (true, None)
  else if decide (kubeConfig ≠ EmptyString) then
    match BuildConfigFromFlags kubeConfig with
    | Some e => (false, Some (ErrWrap "getK8sClient: failed to get context for the kubeConfig" e))
    | None => new_for
    end
  else if in_cluster_env then
    match InClusterConfig with
    | Some e => (false, Some (ErrWrap "createK8sClient: failed to get context" e))
    | None => new_for
    end
  else (false, None).

(** The pod, the client, and the error. *)
Definition GetPod (args : CmdArgs.t) (kubeClient : bool) (kubeConfig : string)
  : kube → (option Pod.t * bool * option error) * kube := λ k,
  match load_k8s_args (CmdArgs.Args args) with
  | inl e => ((None, kubeClient, Some e), k)
  | inr (namespace, name) =>
      match getK8sClient kubeClient kubeConfig with
      | (kc, Some e) => ((None, kc, Some e), k)
      | (false, None) => ((None, false, Some (ErrNew "GetPod: No kubeClient")), k)
      | (true, None) =>
          match kube_Get namespace name k with
          | ((_, Some e), k') => ((None, true, Some e), k')
          | ((pod, None), k') => ((Some pod, true, None), k')
          end
      end
  end.
End GetPod.

Definition DefaultOvsCNIDir : string := "/usr/local/var/run/openvswitch".
Definition DefaultVppCNIDir : string := "/var/run/vpp".

Section Cni.
Context `{VppApi} `{OvsApi} `{OvsHost} `{UserDb} `{KubeClient} `{K8sConfig} `{CniLib} `{CniHost}.
Variable fuel : nat.
Variable order : gmap string json → list (string * json).

Record world := World {
  w_log : log_state;
  w_vpp : vpp;
  w_ovs : ovs_state;
  w_kube : kube;
  w_net : host_net;
  w_fs : fs
}.

(** The configuration a call works on, which the engines fill in, and the world. *)
Notation cni_state := (NetConf.t * world)%type.

(** Computations on parts of the state. *)
Definition on_log {A} (m : go (log_state * fs) A) : go cni_state A := λ s,
  let w := s.2 in let '(o, (l, f)) := m (w_log w, w_fs w) in
  (o, (s.1, World l (w_vpp w) (w_ovs w) (w_kube w) (w_net w) f)).
Definition on_vpp {A} (m : go (NetConf.t * node) A) : go cni_state A := λ s,
  let w := s.2 in let '(o, (c, (v, f))) := m (s.1, (w_vpp w, w_fs w)) in
  (o, (c, World (w_log w) v (w_ovs w) (w_kube w) (w_net w) f)).
Definition on_ovs {A} (m : go (NetConf.t * (ovs_state * fs)) A) : go cni_state A := λ s,
  let w := s.2 in let '(o, (c, (v, f))) := m (s.1, (w_ovs w, w_fs w)) in
  (o, (c, World (w_log w) (w_vpp w) v (w_kube w) (w_net w) f)).
Definition on_net {A} (m : go host_net A) : go cni_state A := λ s,
  let w := s.2 in let '(o, n) := m (w_net w) in
  (o, (s.1, World (w_log w) (w_vpp w) (w_ovs w) (w_kube w) n (w_fs w))).
Definition on_files {A} (m : go fs A) : go cni_state A := λ s,
  let w := s.2 in let '(o, f) := m (w_fs w) in
  (o, (s.1, World (w_log w) (w_vpp w) (w_ovs w) (w_kube w) (w_net w) f)).
Definition on_save {A} (pod : option Pod.t) (m : go ((kube * option Pod.t) * fs) A)
  : go cni_state A := λ s,
  let w := s.2 in let '(o, ((k, _), f)) := m ((w_kube w, pod), w_fs w) in
  (o, (s.1, World (w_log w) (w_vpp w) (w_ovs w) k (w_net w) f)).

(** LoadNetConf *)
Definition LoadNetConf (bytes : string) : go cni_state unit :=
  match unmarshal d_NetConf bytes NetConf.zero with
  | inl e => raise (ErrWrap "failed to load netconf" e)
  | inr conf =>
      (λ s, (Ok tt, (conf, s.2))) ;;
      (if decide (NetConf.LogFile conf ≠ EmptyString)
       then on_log (SetLogFile (NetConf.LogFile conf)) else mret tt) ;;
      (if decide (NetConf.LogLevel conf ≠ EmptyString)
       then on_log (on_fst (modify (SetLogLevel (NetConf.LogLevel conf)))) else mret tt)
  end.

(** The directory when the pod names none. *)
Definition default_shared_dir (conf : NetConf.t) (id : string) : string :=
  if decide (NetConf.SharedDir conf ≠ EmptyString) then
    if has_suffix "/" (NetConf.SharedDir conf) then NetConf.SharedDir conf +:+ id +:+ "/"
    else NetConf.SharedDir conf +:+ "/" +:+ id +:+ "/"
  else if decide (UserSpaceConf.Engine (NetConf.HostConf conf) = "vpp")
  then DefaultVppCNIDir +:+ "/" +:+ id +:+ "/"
  else if decide (UserSpaceConf.Engine (NetConf.HostConf conf) = "ovs-dpdk")
  then DefaultOvsCNIDir +:+ "/" +:+ id +:+ "/"
  else DefaultBaseCNIDir +:+ "/" +:+ id +:+ "/".

(** GetPodAndSharedDir: whether there is a client, the pod, the directory. *)
Definition GetPodAndSharedDir (args : CmdArgs.t) (kubeClient : bool)
  : go cni_state (bool * option Pod.t * string) :=
  '(pod, kc, err) ← (λ s, let w := s.2 in
     let '(r, k) := GetPod args kubeClient (NetConf.KubeConfig s.1) (w_kube w) in
     (Ok r, (s.1, World (w_log w) (w_vpp w) (w_ovs w) k (w_net w) (w_fs w))));
  match (if decide (err = None) then GetPodVolumeMountHostSharedDir pod
         else inl (ErrNew "no pod")) with
  | inr sharedDir => mret (kc, pod, sharedDir)
  | inl _ =>
      conf ← gets fst;
      id ← slice_to 12 (CmdArgs.ContainerID args);
      mret (kc, pod, default_shared_dir conf id)
  end.

(** ** CmdAdd *)

Definition host_add (args : CmdArgs.t) (sharedDir : string) (result : Result.t)
  : go cni_state unit :=
  conf ← gets fst;
  let engine := UserSpaceConf.Engine (NetConf.HostConf conf) in
  if decide (engine = "vpp") then on_vpp (AddOnHost fuel args sharedDir (Some result))
  else if decide (engine = "ovs-dpdk") then on_ovs (ovs_AddOnHost order args sharedDir)
  else raise (ErrNew ("ERROR: Unknown Host Engine: " +:+ engine)).

(** Get IPAM data for Container Interface, if provided. *)
Definition ipam_add (args : CmdArgs.t) (result : Result.t) : go cni_state Result.t :=
  conf ← gets fst;
  if decide (NetConf.IPAM_Type conf ≠ EmptyString) then
    ipamResult ← on_net (ExecAdd (NetConf.IPAM_Type conf) (CmdArgs.StdinData args));
    newResult ← of_result (NewResultFromResult ipamResult);
    if decide (Result.IPs newResult = []) then raise (ErrNew "ERROR: Unable to get IP Address")
    else mret (Result.mk (Result.Interfaces result) (Result.IPs newResult) (Result.Routes newResult))
  else mret result.

Definition container_engine (conf : NetConf.t) : string :=
  if decide (UserSpaceConf.Engine (NetConf.ContainerConf conf) ≠ EmptyString)
  then UserSpaceConf.Engine (NetConf.ContainerConf conf)
  else UserSpaceConf.Engine (NetConf.HostConf conf).

Definition container_add (args : CmdArgs.t) (kc : bool) (sharedDir : string)
    (pod : option Pod.t) (result : Result.t) : go cni_state unit :=
  conf ← gets fst;
  let engine := container_engine conf in
  (if decide (engine = "vpp")
   then on_save pod (AddOnContainer conf args kc sharedDir (Some result))
   else if decide (engine = "ovs-dpdk")
   then on_save pod (ovs_AddOnContainer conf args kc sharedDir (Some result))
   else raise (ErrNew ("ERROR: Unknown Container Engine: " +:+ engine))) ;;
  mret tt.

(** CmdAdd up to the end of its HOST part: what is known of the pod, the shared
    directory and the result so far. *)
Definition cmd_add_host (args : CmdArgs.t) (kubeClient : bool)
  : go cni_state (bool * option Pod.t * string * Result.t) :=
  r ← attempt (LoadNetConf (CmdArgs.StdinData args));
  _ ← slice_to 12 (CmdArgs.ContainerID args);
  match r with
  | inl err => raise err
  | inr _ =>
      netns ← wrap_err "failed to open netns" (on_net (GetNS (CmdArgs.Netns args)));
      let result := Result.mk [Result.Interface (CmdArgs.IfName args) EmptyString netns] [] [] in
      '(kc, pod, sharedDir) ← GetPodAndSharedDir args kubeClient;
      host_add args sharedDir result ;;
      mret (kc, pod, sharedDir, result)
  end.

(** Its CONTAINER part. *)
Definition cmd_add_container (args : CmdArgs.t) (kc : bool) (pod : option Pod.t)
    (sharedDir : string) (result : Result.t) : go cni_state unit :=
  result ← ipam_add args result;
  container_add args kc sharedDir pod result ;;
  on_net (PrintResult result).

Definition cmd_add (args : CmdArgs.t) (kubeClient : bool) : go cni_state unit :=
  '(kc, pod, sharedDir, result) ← cmd_add_host args kubeClient;
  cmd_add_container args kc pod sharedDir result.

(** ** CmdDel *)

Definition host_del (args : CmdArgs.t) (sharedDir : string) : go cni_state unit :=
  conf ← gets fst;
  let engine := UserSpaceConf.Engine (NetConf.HostConf conf) in
  if decide (engine = "vpp") then on_vpp (DelFromHost fuel args sharedDir)
  else if decide (engine = "ovs-dpdk") then on_ovs (ovs_DelFromHost args sharedDir)
  else raise (ErrNew ("ERROR: Unknown Host Engine: " +:+ engine)).

Definition container_del (args : CmdArgs.t) (sharedDir : string) : go cni_state unit :=
  conf ← gets fst;
  let engine := container_engine conf in
  if decide (engine = "vpp") then on_files (DelFromContainer args sharedDir)
  else if decide (engine = "ovs-dpdk") then on_files (ovs_DelFromContainer args sharedDir)
  else raise (ErrNew ("ERROR: Unknown Container Engine: " +:+ engine)).

(** Cleanup Namespace: a link that is not there is no error. *)
Definition netns_del (args : CmdArgs.t) : go cni_state unit :=
  if decide (CmdArgs.Netns args = EmptyString) then mret tt
  else on_net (WithNetNSPath (CmdArgs.Netns args)
         (r ← attempt (DelLinkByNameAddr (CmdArgs.IfName args));
          match r with
          | inl err => if is_ErrLinkNotFound err then mret tt else raise err
          | inr _ => mret tt
          end)).

Definition cmd_del (args : CmdArgs.t) (kubeClient : bool) : go cni_state unit :=
  r ← attempt (LoadNetConf (CmdArgs.StdinData args));
  _ ← slice_to 12 (CmdArgs.ContainerID args);
  match r with
  | inl err => raise err
  | inr _ =>
      '(_, _, sharedDir) ← GetPodAndSharedDir args kubeClient;
      host_del args sharedDir ;;
      container_del args sharedDir ;;
      conf ← gets fst;
      (if decide (NetConf.IPAM_Type conf ≠ EmptyString)
       then on_net (ExecDel (NetConf.IPAM_Type conf) (CmdArgs.StdinData args)) else mret tt) ;;
      netns_del args
  end.

(** A call starts from an empty configuration, and forgets it. *)
Definition run_cmd {A} (m : go cni_state A) : go world A := λ w,
  let '(o, (_, w')) := m (NetConf.zero, w) in (o, w').

Definition CmdAdd (args : CmdArgs.t) (kubeClient : bool) : go world unit :=
  run_cmd (cmd_add args kubeClient).
Definition CmdDel (args : CmdArgs.t) (kubeClient : bool) : go world unit :=
  run_cmd (cmd_del args kubeClient).

(** CmdGet does nothing. *)
Definition CmdGet (args : CmdArgs.t) (kubeClient : bool) : go world unit := mret tt.
End Cni.
