(* ===== verification/Plugin.v ===== *)
(** * userspace/main.go and usrspcni: the plugin's entry points

    The interface the engines implement, as a record of operations, and the table
    of commands main registers with the CNI library.  [host_engine] states what the
    commands of file Cni use of it: an engine is met through this interface only. *)
From S2P Require Import Prelude GoStrings GoOs Json Logging Types JsonCodec.
From S2P Require Import Annotations ConfigData LocalDb VppApi Memif CniVpp OvsDb CniOvs Cni.

Section Plugin.
Context `{VppApi} `{OvsApi} `{OvsHost} `{UserDb} `{KubeClient} `{K8sConfig} `{CniLib} `{CniHost}.
Variable fuel : nat.
Variable order : gmap string json → list (string * json).

Notation cni_state := (NetConf.t * world)%type.

(** usrspcni.UsrSpCni; the configuration is part of the state. *)
Record UsrSpCni := {
  uc_AddOnHost : CmdArgs.t → string → option Result.t → go cni_state unit;
  uc_AddOnContainer : CmdArgs.t → bool → string → option Pod.t → option Result.t →
                      go cni_state (option Pod.t);
  uc_DelFromHost : CmdArgs.t → string → go cni_state unit;
  uc_DelFromContainer : CmdArgs.t → string → go cni_state unit
}.

(** cnivpp.CniVpp and cniovs.CniOvs *)
Definition cniVpp : UsrSpCni := {|
  uc_AddOnHost args dir ip := on_vpp (AddOnHost fuel args dir ip);
  uc_AddOnContainer args kc dir pod ip :=
    conf ← gets fst; on_save pod (AddOnContainer conf args kc dir ip);
  uc_DelFromHost args dir := on_vpp (DelFromHost fuel args dir);
  uc_DelFromContainer args dir := on_files (DelFromContainer args dir) |}.

Definition cniOvs : UsrSpCni := {|
  uc_AddOnHost args dir _ := on_ovs (ovs_AddOnHost order args dir);
  uc_AddOnContainer args kc dir pod ip :=
    conf ← gets fst; on_save pod (ovs_AddOnContainer conf args kc dir ip);
  uc_DelFromHost args dir := on_ovs (ovs_DelFromHost args dir);
  uc_DelFromContainer args dir := on_files (ovs_DelFromContainer args dir) |}.

(** The engine of a name: the comparisons of CmdAdd and CmdDel. *)
Definition engine_named (name : string) : option UsrSpCni :=
  if decide (name = "vpp") then Some cniVpp
  else if decide (name = "ovs-dpdk") then Some cniOvs
  else None.

(** skel.CNIFuncs: a missing function is one the plugin does not offer. *)
Record CNIFuncs := {
  cf_Add : CmdArgs.t → go world unit;
  cf_Del : CmdArgs.t → go world unit;
  cf_Check : CmdArgs.t → go world unit;
  cf_GC : option (CmdArgs.t → go world unit);
  cf_Status : option (CmdArgs.t → go world unit)
}.

(** main: no client is passed to the commands. *)
Definition plugin_main : CNIFuncs := {|
  cf_Add args := CmdAdd fuel order args false;
  cf_Del args := CmdDel fuel args false;
  cf_Check args := CmdGet args false;
  cf_GC := None;
  cf_Status := None |}.

(** ** The commands meet an engine through its interface *)

(** The four places at which a command calls an engine. *)
Lemma host_engine args dir r s :
  let name := UserSpaceConf.Engine (NetConf.HostConf s.1) in
  host_add fuel order args dir r s =
    match engine_named name with
    | Some e => uc_AddOnHost e args dir (Some r) s
    | None => raise (ErrNew ("ERROR: Unknown Host Engine: " +:+ name)) s
    end ∧
  host_del fuel args dir s =
    match engine_named name with
    | Some e => uc_DelFromHost e args dir s
    | None => raise (ErrNew ("ERROR: Unknown Host Engine: " +:+ name)) s
    end.
Proof.
  unfold host_add, host_del, engine_named. rewrite !run_bind, !run_gets.
  by repeat case_decide.
Qed.

Lemma container_engine_named args kc dir pod r s :
  let name := container_engine s.1 in
  container_add args kc dir pod r s =
    match engine_named name with
    | Some e => (uc_AddOnContainer e args kc dir pod (Some r) ;; mret tt) s
    | None => raise (ErrNew ("ERROR: Unknown Container Engine: " +:+ name)) s
    end ∧
  container_del args dir s =
    match engine_named name with
    | Some e => uc_DelFromContainer e args dir s
    | None => raise (ErrNew ("ERROR: Unknown Container Engine: " +:+ name)) s
    end.
Proof.
  unfold container_add, container_del, engine_named. rewrite !run_bind, !run_gets.
  repeat case_decide; (split; [|done]); done.
Qed.

(** A CHECK succeeds and looks at nothing. *)
Lemma check_changes_nothing args w : cf_Check plugin_main args w = (Ok tt, w).
Proof. done. Qed.
End Plugin.
