(* ===== verification/VppRef.v ===== *)
(** * A concrete VPP

    An executable instance of the VPP interface that satisfies its laws, used
    by the witnesses: the hypotheses of the theorems about VPP can hold.  It
    refuses what [rv_refuse] says, and nothing else but requests on interfaces,
    sockets or domains that do not exist (or already do); the reply to what [rv_lose]
    says does not come in time. *)
From S2P Require Import Prelude GoStrings GoOs Types VppApi Bridge.

Record memif_info := MemifInfo { mi_ID : Z; mi_SocketID : Z; mi_Role : Z; mi_Mode : Z }.

Record ref_vpp := RefVpp {
  rv_memifs : gmap Z memif_info;
  rv_sockets : gmap Z string;
  rv_bridges : gmap Z (gset Z);
  rv_next : Z;                     (* the next sw_if_index to give out *)
  rv_refuse : request → bool;
  rv_lose : request → bool
}.

Definition rv_with_memifs (v : ref_vpp) m nx := RefVpp m (rv_sockets v) (rv_bridges v) nx (rv_refuse v) (rv_lose v).
Definition rv_with_sockets (v : ref_vpp) s :=
  RefVpp (rv_memifs v) s (rv_bridges v) (rv_next v) (rv_refuse v) (rv_lose v).
Definition rv_with_bridges (v : ref_vpp) b :=
  RefVpp (rv_memifs v) (rv_sockets v) b (rv_next v) (rv_refuse v) (rv_lose v).

Definition details_of (p : Z * memif_info) : MemifDetails :=
  {| md_SwIfIndex := p.1; md_ID := mi_ID p.2; md_SocketID := mi_SocketID p.2;
     md_Role := mi_Role p.2; md_Mode := mi_Mode p.2 |}.

Definition socket_of (p : Z * string) : MemifSocketFilenameDetails :=
  {| sd_SocketID := p.1; sd_SocketFilename := p.2 |}.

(** The interfaces there are: those with an index below ~0 whose socket is
    registered (the operations below make no others). *)
Definition ref_live (v : ref_vpp) (d : MemifDetails) : Prop :=
  (0 ≤ md_SwIfIndex d < 2 ^ 32 - 1)%Z ∧ is_Some (rv_sockets v !! md_SocketID d).

Definition ref_memifs (v : ref_vpp) : list MemifDetails :=
  filter (ref_live v) (details_of <$> map_to_list (rv_memifs v)).

(** No interface stands on the socket [id]. *)
Definition ref_unused (v : ref_vpp) (id : Z) : Prop :=
  map_Forall (λ _ m, mi_SocketID m ≠ id) (rv_memifs v).
#[export] Instance ref_live_dec v d : Decision (ref_live v d) := _.
#[export] Instance ref_unused_dec v id : Decision (ref_unused v id) := _.

Definition ref_sockets (v : ref_vpp) : list MemifSocketFilenameDetails :=
  socket_of <$> map_to_list (rv_sockets v).

(** A dump that sends a list and then stops. *)
Definition dump_list {D} (l : list D) (i : nat) : recv D :=
  match l !! i with Some d => RMsg d | None => RStop end.

Lemma dump_list_delivers {D} (l : list D) : delivers (dump_list l) l.
Proof.
  unfold dump_list. split; [by intros i d ->|]. by rewrite lookup_ge_None_2.
Qed.

Definition ref_bridge_dump (b : Z) (v : ref_vpp) : list BridgeDomainDetails :=
  match rv_bridges v !! b with
  | Some s => [{| bdd_BdID := b; bdd_NSwIfs := Z.of_nat (size s) |}]
  | None => []
  end.

Definition refused : error := ErrApi (-1).

(** The reply to a request that is not refused. *)
Definition ref_reply (r : request) (v : ref_vpp) : result Z * ref_vpp :=
  match r with
  | ReqMemifCreateV2 c =>
      let i := rv_next v in
      if decide ((0 ≤ i < 2 ^ 32 - 1)%Z ∧ rv_memifs v !! i = None ∧
                 is_Some (rv_sockets v !! mc_SocketID c)) then
        (inr i, rv_with_memifs v
           (<[i := MemifInfo (mc_ID c) (mc_SocketID c) (mc_Role c) (mc_Mode c)]> (rv_memifs v))
           (i + 1)%Z)
      else (inl refused, v)
  | ReqMemifDelete i =>
      if decide (is_Some (rv_memifs v !! i))
      then (inr 0%Z, rv_with_memifs v (delete i (rv_memifs v)) (rv_next v))
      else (inl refused, v)
  | ReqMemifSocketFilenameAddDelV2 true id f =>
      if decide (rv_sockets v !! id = Some f) then (inr 0%Z, v)
      else if decide (rv_sockets v !! id = None ∧ ref_unused v id)
      then (inr 0%Z, rv_with_sockets v (<[id := f]> (rv_sockets v)))
      else (inl refused, v)
  | ReqMemifSocketFilenameAddDelV2 false id _ =>
      if decide (ref_unused v id)
      then (inr 0%Z, rv_with_sockets v (delete id (rv_sockets v)))
      else (inl refused, v)
  | ReqBridgeDomainAddDelV2 b =>
      if bd_IsAdd b
      then (inr 0%Z, rv_with_bridges v (<[bd_BdID b := default ∅ (rv_bridges v !! bd_BdID b)]>
                                         (rv_bridges v)))
      else (inr 0%Z, rv_with_bridges v (delete (bd_BdID b) (rv_bridges v)))
  | ReqSwInterfaceSetL2Bridge b i true =>
      (inr 0%Z, rv_with_bridges v
         (<[b := {[i]} ∪ default ∅ (rv_bridges v !! b)]> ((λ s, s ∖ {[i]}) <$> rv_bridges v)))
  | ReqSwInterfaceSetL2Bridge _ i false =>
      (inr 0%Z, rv_with_bridges v ((λ s, s ∖ {[i]}) <$> rv_bridges v))
  | ReqCreateVhostUserIfV2 _ => (inr (rv_next v), v)
  | _ => (inr 0%Z, v)
  end.

Definition ref_send (r : request) (n : ref_vpp * fs) : result Z * (ref_vpp * fs) :=
  if rv_refuse n.1 r then (inl refused, n)
  else let '(res, v) := ref_reply r n.1 in
       (if rv_lose n.1 r then inl ErrTimeout else res, (v, n.2)).

(** Six hexadecimal bytes, aa:bb:cc:dd:ee:ff: only the length is checked here. *)
Definition ref_parse_mac (s : string) : result mac :=
  if decide (String.length s = 17) then inr [2; 0; 0; 0; 0; Z.of_nat (String.length s)]%Z
  else inl (ErrNew "invalid MAC address").

#[export] Instance RefVppApi : VppApi := {|
  vpp := ref_vpp;
  SendRequest := ref_send;
  MemifDump v := dump_list (ref_memifs v);
  MemifSocketFilenameDump v := dump_list (ref_sockets v);
  BridgeDomainDump b v := dump_list (ref_bridge_dump b v);
  ParseMacAddress := ref_parse_mac;
  Connect _ := None;
  OpenChannel _ := None
|}.

Lemma ref_send_Ok r (n n' : ref_vpp * fs) i :
  ref_send r n = (inr i, n') → ref_reply r n.1 = (inr i, n'.1).
Proof.
  unfold ref_send. destruct (rv_refuse n.1 r); [done|].
  destruct (ref_reply r n.1) as [res v]. destruct (rv_lose n.1 r); [done|]. by intros [= -> <-].
Qed.

Lemma ref_send_inv r (n n' : ref_vpp * fs) x :
  ref_send r n = (x, n') → n'.1 = n.1 ∨ ∃ y, ref_reply r n.1 = (y, n'.1).
Proof.
  unfold ref_send. destruct (rv_refuse n.1 r); [intros [= _ <-]; by left|].
  destruct (ref_reply r n.1) as [res v]. intros [= _ <-]. right. by eexists.
Qed.

Lemma filter_map_to_list_delete {A B} (f : Z * A → B) (g : B → Z) (m : gmap Z A) i :
  (∀ p, g (f p) = p.1) →
  f <$> map_to_list (delete i m) ≡ₚ filter (λ d, g d ≠ i) (f <$> map_to_list m).
Proof.
  intros Hg. destruct (m !! i) as [x|] eqn:E.
  - rewrite <- (map_to_list_delete m i x E). simpl.
    rewrite filter_cons_False by (rewrite Hg; simpl; tauto).
    rewrite list_filter_all; [done|]. apply Forall_fmap, Forall_forall.
    intros [j y] Hj%elem_of_map_to_list. unfold compose. rewrite Hg. simpl.
    by intros ->; rewrite lookup_delete_eq in Hj.
  - rewrite delete_id by done. rewrite list_filter_all; [done|].
    apply Forall_fmap, Forall_forall. intros [j y] Hj%elem_of_map_to_list.
    unfold compose. rewrite Hg. simpl. congruence.
Qed.

Lemma ref_reply_refused r v e v' : ref_reply r v = (inl e, v') → v' = v.
Proof.
  destruct r as [| |[] | | | | ? ? []|b| |]; simpl; repeat case_decide; repeat case_match;
    intros; by simplify_eq/=.
Qed.

(** The live interfaces depend on the registration of the sockets in use. *)
Lemma ref_memifs_sockets v v' id :
  rv_memifs v' = rv_memifs v → ref_unused v id →
  (∀ j, j ≠ id → rv_sockets v' !! j = rv_sockets v !! j) →
  ref_memifs v' = ref_memifs v.
Proof.
  intros Hm Hun Hs. unfold ref_memifs. rewrite Hm. apply list_filter_ext.
  intros d ([i m] & -> & Hin%elem_of_map_to_list)%list_elem_of_fmap.
  unfold ref_live. simpl. rewrite Hs; [done|]. by apply (Hun _ _ Hin).
Qed.

Lemma ref_add_carried id f v x v' :
  ref_reply (ReqMemifSocketFilenameAddDelV2 true id f) v = (inr x, v') →
  carried_out (H := RefVppApi) ref_memifs ref_sockets (ReqMemifSocketFilenameAddDelV2 true id f) x v v'.
Proof.
  intros Hrep. simpl in *. case_decide as Hsame; simplify_eq/=.
  { split; [done|]. left. split; [|done].
    apply (list_elem_of_fmap_2 socket_of _ (id, f)). by apply elem_of_map_to_list. }
  case_decide as Hd; simplify_eq/=. destruct Hd as [Hnone Hun]. split; [|right].
  - apply (ref_memifs_sockets _ _ id); [done..|]. intros j Hj. simpl. by rewrite lookup_insert_ne.
  - unfold ref_sockets. simpl. by rewrite map_to_list_insert.
Qed.

Lemma ref_del_carried id f v x v' :
  ref_reply (ReqMemifSocketFilenameAddDelV2 false id f) v = (inr x, v') →
  carried_out (H := RefVppApi) ref_memifs ref_sockets (ReqMemifSocketFilenameAddDelV2 false id f) x v v'.
Proof.
  intros Hrep. simpl in *. case_decide as Hun; simplify_eq/=. split.
  - apply (ref_memifs_sockets _ _ id); [done..|]. intros j Hj. simpl. by rewrite lookup_delete_ne.
  - unfold ref_sockets. simpl. by apply filter_map_to_list_delete.
Qed.

(** A request that is not refused is carried out. *)
Lemma ref_reply_carried r v x v' :
  ref_reply r v = (inr x, v') → carried_out (H := RefVppApi) ref_memifs ref_sockets r x v v'.
Proof.
  destruct r as [c|i|[] id f| | | |b i []|b| |].
  - intros Hrep. simpl in *. case_decide as Hd; [|done]. destruct Hd as (Hi & Hnone & Hsock).
    simplify_eq/=. split; [|done]. unfold ref_memifs. simpl. rewrite map_to_list_insert by done.
    simpl. by rewrite filter_cons_True.
  - intros Hrep. simpl in *. case_decide; simplify_eq/=. split; [|done].
    unfold ref_memifs. simpl. rewrite (filter_map_to_list_delete _ md_SwIfIndex) by done.
    by rewrite list_filter_comm.
  - apply ref_add_carried.
  - apply ref_del_carried.
  - by intros [= _ <-].
  - by intros [= _ <-].
  - by intros [= _ <-].
  - by intros [= _ <-].
  - by intros [= _ <-].
  - simpl. by destruct (bd_IsAdd b); intros [= _ <-].
  - by intros [= _ <-].
  - by intros [= _ <-].
Qed.

#[local] Obligation Tactic := idtac.

#[export] Program Instance RefVppLaws : VppLaws := {|
  memifs := ref_memifs;
  sockets := ref_sockets
|}.
Next Obligation. intros v. apply dump_list_delivers. Qed.
Next Obligation. intros v. apply dump_list_delivers. Qed.
Next Obligation.
  intros v. unfold ref_memifs.
  apply (sublist_NoDup _ (md_SwIfIndex <$> (details_of <$> map_to_list (rv_memifs v))));
    [|apply (fmap_sublist md_SwIfIndex), sublist_filter].
  rewrite <- list_fmap_compose. apply (NoDup_fst_map_to_list (rv_memifs v)).
Qed.
Next Obligation.
  intros v. unfold ref_sockets. rewrite <- list_fmap_compose.
  apply (NoDup_fst_map_to_list (rv_sockets v)).
Qed.
Next Obligation. intros v d [[Hd _] _]%list_elem_of_filter. done. Qed.
Next Obligation.
  intros v d [[_ [f Hf]] _]%list_elem_of_filter.
  exists (socket_of (md_SocketID d, f)). split; [|done].
  by apply list_elem_of_fmap_2, elem_of_map_to_list.
Qed.
Next Obligation. intros r n i n' Hs%ref_send_Ok. by apply ref_reply_carried. Qed.
Next Obligation.
  intros r [v f] e [v' f'] [E|[[e'|i] Hrep]]%ref_send_inv; unfold node_vpp; simpl in *;
    [left; by rewrite E| |].
  - left. apply ref_reply_refused in Hrep. simpl in *. by rewrite Hrep.
  - right. exists i. by apply ref_reply_carried.
Qed.

#[export] Program Instance RefVppBridgeLaws : VppBridgeLaws := {| bridges := rv_bridges |}.
Next Obligation. intros b v. apply dump_list_delivers. Qed.
Next Obligation.
  intros r n x [v' f'] Hadd Hrep%ref_send_Ok. simpl in Hrep.
  rewrite Hadd in Hrep. simplify_eq/=. unfold node_vpp. done.
Qed.
Next Obligation.
  intros r n x [v' f'] Hadd Hrep%ref_send_Ok. simpl in Hrep.
  rewrite Hadd in Hrep. simplify_eq/=. unfold node_vpp. done.
Qed.
Next Obligation.
  intros b i n x [v' f'] Hrep%ref_send_Ok. simpl in Hrep. simplify_eq/=. unfold node_vpp. done.
Qed.
Next Obligation.
  intros b i n x [v' f'] Hrep%ref_send_Ok. simpl in Hrep. simplify_eq/=. unfold node_vpp. done.
Qed.
Next Obligation.
  intros r n x [v' f'] Hr [E|[y Hrep]]%ref_send_inv; unfold node_vpp; simpl in *; [by rewrite E|].
  destruct r as [c|i|[] id f| | | |b i []|b| |]; simpl in *; try done;
    repeat case_decide; simplify_eq/=; rewrite ?dom_fmap_L; done.
Qed.
Next Obligation.
  intros r n e [v' f'] [E|[y Hrep]]%ref_send_inv; unfold node_vpp; simpl in *; [left; by rewrite E|].
  right. destruct (bd_IsAdd r); by simplify_eq/=.
Qed.

(** A node for the witnesses: an empty VPP that has given out indexes below 5,
    the directory /run/vpp, nothing refused, nothing lost and no faults. *)
Definition fs0 : fs :=
  Fs {[ CPath true ["run"] := Dir; CPath true ["run"; "vpp"] := Dir ]} ∅ 1000 (λ _ _, None).

Definition vpp0 : ref_vpp := RefVpp ∅ ∅ ∅ 5 (λ _, false) (λ _, false).

Definition node0 : @vpp RefVppApi * fs := (vpp0, fs0).
