(* ===== verification/Reconcile.v ===== *)
(** * pkg/daemon/reconcile.go: the reconcile core

    [Diff] and [Reconcile] over any dataplane.  The Go interface Dataplane is
    the class [Dataplane]; what its comments promise is the class
    [DataplaneLaws], against which convergence is proved.  The VPP
    implementation discharges the laws in file Dataplane. *)
From S2P Require Import Prelude GoStrings.

Record Memif := {
  mf_Socket : string;
  mf_ID : Z;            (* uint32 *)
  mf_BridgeID : Z;      (* uint32 *)
  mf_Mode : string;
  mf_SwIfIndex : Z;     (* uint32 *)
  mf_RxQueues : Z;      (* uint8 *)
  mf_TxQueues : Z;      (* uint8 *)
  mf_RingSize : Z;      (* uint32 *)
  mf_BufferSize : Z;    (* uint16 *)
  mf_Secret : string;
  mf_HwAddr : string;
  mf_NoZeroCopy : bool;
  mf_UseDma : bool;
  mf_MTU : Z            (* uint32 *)
}.

#[global] Instance Memif_eq_dec : EqDecision Memif.
Proof. solve_decision. Defined.

(** What a dump fills in; the other fields keep their zero value. *)
Definition dumped_memif (socket : string) (id : Z) (mode : string) (i : Z) : Memif :=
  {| mf_Socket := socket; mf_ID := id; mf_BridgeID := 0; mf_Mode := mode;
     mf_SwIfIndex := i; mf_RxQueues := 0; mf_TxQueues := 0; mf_RingSize := 0;
     mf_BufferSize := 0; mf_Secret := EmptyString; mf_HwAddr := EmptyString;
     mf_NoZeroCopy := false; mf_UseDma := false; mf_MTU := 0 |}.

Class Dataplane (S : Type) := {
  DumpMasters : go S (list Memif);
  CreateMaster : Memif → go S unit;
  DeleteMaster : Memif → go S unit;
  SweepOrphanSockets : gset string → go S Z
}.

(** The keys of the maps the code builds from a list of memifs. *)
Definition socket_set (l : list Memif) : gset string := list_to_set (mf_Socket <$> l).

(** Diff: (toCreate, toDelete) *)
Definition Diff (desired actual : list Memif) : list Memif * list Memif :=
  let have := socket_set actual in
  let want := socket_set desired in
  (filter (λ d, mf_Socket d ∉ have) desired,
   filter (λ a, mf_Socket a ∉ want) actual).

Section Reconcile.
Context {S : Type} `{Dataplane S}.

(** for _, m := range toCreate *)
Fixpoint create_all (ms : list Memif) (created : Z) : go S (Z * option error) :=
  match ms with
  | [] => mret (created, None)
  | m :: ms' =>
      r ← attempt (CreateMaster m);
      match r with
      | inl e => mret (created, Some e)
      | inr _ => create_all ms' (created + 1)%Z
      end
  end.

(** for _, m := range toDelete, each deletion gated *)
Definition gate_open (gcOrphan : option (Memif → go S bool)) (m : Memif) : go S bool :=
  match gcOrphan with None => mret true | Some g => g m end.

Fixpoint delete_all (gcOrphan : option (Memif → go S bool)) (ms : list Memif)
    (deleted : Z) : go S (Z * option error) :=
  match ms with
  | [] => mret (deleted, None)
  | m :: ms' =>
      ok ← gate_open gcOrphan m;
      if (ok : bool) then
        r ← attempt (DeleteMaster m);
        match r with
        | inl e => mret (deleted, Some e)
        | inr _ => delete_all gcOrphan ms' (deleted + 1)%Z
        end
      else delete_all gcOrphan ms' deleted
  end.

(** Reconcile: (created, deleted, err) *)
Definition Reconcile (desired : list Memif) (gcOrphan : option (Memif → go S bool))
  : go S (Z * Z * option error) :=
  a ← attempt DumpMasters;
  match a with
  | inl e => mret (0%Z, 0%Z, Some e)
  | inr actual =>
      let '(toCreate, toDelete) := Diff desired actual in
      '(created, err) ← create_all toCreate 0;
      match err with
      | Some e => mret (created, 0%Z, Some e)
      | None =>
          '(deleted, err) ← delete_all gcOrphan toDelete 0;
          match err with
          | Some e => mret (created, deleted, Some e)
          | None =>
              let keep := socket_set desired ∪ socket_set actual in
              _ ← attempt (SweepOrphanSockets keep);
              mret (created, deleted, None)
          end
      end
  end.
End Reconcile.

(** ** The contract of a dataplane *)

Class DataplaneLaws (S : Type) `{Dataplane S} := {
  (* the masters a state holds, and the desired masters the dataplane accepts *)
  masters : S → list Memif;
  managed : Memif → Prop;
  dp_nodup s : NoDup (mf_SwIfIndex <$> masters s);
  dp_dump s o s' : DumpMasters s = (o, s') →
    masters s' = masters s ∧ ∀ l, o = Ok l → l = masters s;
  dp_create m s o s' : CreateMaster m s = (o, s') → managed m →
    (is_ok o = false ∧ masters s' = masters s) ∨
    ∃ x, mf_Socket x = mf_Socket m ∧ masters s' ≡ₚ x :: masters s;
  dp_delete m s o s' : DeleteMaster m s = (o, s') →
    (is_ok o = false ∧ masters s' = masters s) ∨
    masters s' ≡ₚ filter (λ x, mf_SwIfIndex x ≠ mf_SwIfIndex m) (masters s);
  dp_sweep keep s : masters (SweepOrphanSockets keep s).2 = masters s
}.

(** *** A dataplane beside other state *)

Definition fst_dataplane (S T : Type) (D : Dataplane S) : Dataplane (S * T) := {|
  DumpMasters := on_fst DumpMasters;
  CreateMaster m := on_fst (CreateMaster m);
  DeleteMaster m := on_fst (DeleteMaster m);
  SweepOrphanSockets keep := on_fst (SweepOrphanSockets keep)
|}.

#[local] Obligation Tactic := idtac.

Program Definition fst_dataplane_laws (S T : Type) (D : Dataplane S) (L : DataplaneLaws S)
  : @DataplaneLaws (S * T) (fst_dataplane S T D) := {|
  masters s := masters s.1;
  managed := managed
|}.
Next Obligation. intros S T D L s. apply dp_nodup. Qed.
Next Obligation. intros S T D L s o s' [Hrun _]%on_fst_inv. by apply dp_dump. Qed.
Next Obligation. intros S T D L m s o s' [Hrun _]%on_fst_inv. by apply dp_create. Qed.
Next Obligation. intros S T D L m s o s' [Hrun _]%on_fst_inv. by apply dp_delete. Qed.
Next Obligation.
  intros S T D L keep s. simpl. unfold on_fst.
  rewrite <- (dp_sweep keep s.1). by destruct (SweepOrphanSockets keep s.1).
Qed.

(** ** Diff *)

Lemma elem_of_socket_set k l : k ∈ socket_set l ↔ ∃ m, m ∈ l ∧ mf_Socket m = k.
Proof.
  unfold socket_set. rewrite elem_of_list_to_set, list_elem_of_fmap. naive_solver.
Qed.

(** Diff keeps the order of both lists, creates exactly the desired masters
    whose socket VPP does not have, deletes exactly the masters whose socket is
    not desired, and never names one socket in both lists. *)
Lemma Diff_spec desired actual :
  let '(toCreate, toDelete) := Diff desired actual in
  toCreate `sublist_of` desired ∧ toDelete `sublist_of` actual ∧
  (∀ m, m ∈ toCreate ↔ m ∈ desired ∧ ∀ a, a ∈ actual → mf_Socket a ≠ mf_Socket m) ∧
  (∀ m, m ∈ toDelete ↔ m ∈ actual ∧ ∀ d, d ∈ desired → mf_Socket d ≠ mf_Socket m) ∧
  (∀ c d, c ∈ toCreate → d ∈ toDelete → mf_Socket c ≠ mf_Socket d).
Proof.
  simpl. split_and!; [apply sublist_filter..| | |].
  - intros m. rewrite list_elem_of_filter, elem_of_socket_set. naive_solver.
  - intros m. rewrite list_elem_of_filter, elem_of_socket_set. naive_solver.
  - intros c d [_ Hc]%list_elem_of_filter [Hd _]%list_elem_of_filter Heq.
    apply Hd, elem_of_socket_set. by exists c.
Qed.

(** ** The loops *)

Lemma delete_by_key {A} (f : A → Z) (l : list A) m :
  NoDup (f <$> l) → m ∈ l → l ≡ₚ m :: filter (λ x, f x ≠ f m) l.
Proof.
  intros Hnd (l1 & l2 & ->)%list_elem_of_split.
  rewrite fmap_app, NoDup_app in Hnd. simpl in Hnd. destruct Hnd as (_ & Hdis & Hnd2).
  apply NoDup_cons in Hnd2 as [Hnot _].
  rewrite filter_app, filter_cons_False by tauto.
  rewrite !list_filter_all; [by rewrite Permutation_middle| |].
  - apply Forall_forall. intros x Hx Heq. apply Hnot. rewrite <- Heq. by apply list_elem_of_fmap_2.
  - apply Forall_forall. intros x Hx Heq.
    apply (Hdis (f x)); [by apply list_elem_of_fmap_2|]. rewrite Heq. left.
Qed.

Section Laws.
Context {S : Type} `{DataplaneLaws S}.

Lemma master_unique s x y :
  x ∈ masters s → y ∈ masters s → mf_SwIfIndex x = mf_SwIfIndex y → x = y.
Proof. apply NoDup_fmap_unique, dp_nodup. Qed.

(** The gate let [m] pass. *)
Definition approved (gate : option (Memif → go S bool)) (m : Memif) : Prop :=
  match gate with None => True | Some g => ∃ s1 s2, g m s1 = (Ok true, s2) end.

Definition same_masters (s1 s2 : S) : Prop := masters s1 = masters s2.

#[local] Instance same_masters_equivalence : Equivalence same_masters.
Proof. unfold same_masters. split; [by intros ?|by intros ??|congruence]. Qed.

(** A gate that does not touch the dataplane. *)
Definition gate_reads (gate : option (Memif → go S bool)) : Prop :=
  match gate with None => True | Some g => ∀ m, keeps same_masters (g m) end.

Lemma gate_open_keeps gate m : gate_reads gate → keeps same_masters (gate_open gate m).
Proof. destruct gate as [g|]; intros Hg; [apply Hg|apply keeps_ret, _]. Qed.

Lemma gate_open_approved gate m s s' : gate_open gate m s = (Ok true, s') → approved gate m.
Proof. destruct gate; [by eexists _, _|done]. Qed.

Lemma sweep_masters keep s (r : result Z) s' :
  match r with
  | inl e => SweepOrphanSockets keep s = (Err e, s')
  | inr k => SweepOrphanSockets keep s = (Ok k, s')
  end → masters s' = masters s.
Proof. intros Hrun. rewrite <- (dp_sweep keep s). by destruct r; rewrite Hrun. Qed.

Lemma create_all_spec ms c s c' e s' :
  Forall managed ms → create_all ms c s = (Ok (c', e), s') →
  ∃ xs, masters s' ≡ₚ xs ++ masters s ∧ mf_Socket <$> xs ⊆+ mf_Socket <$> ms ∧
        (e = None → mf_Socket <$> xs ≡ₚ mf_Socket <$> ms ∧ c' = (c + Z.of_nat (length ms))%Z).
Proof.
  intros Hms. revert c s. induction Hms as [|m ms Hm Hms IH]; intros c s Hrun.
  { simpl in Hrun. go_inv. exists []. split_and!; [done|done|]. intros _. split; [done|lia]. }
  simpl in Hrun. apply bind_Ok_inv in Hrun as (r & s1 & Hr%attempt_Ok_inv & Hrun).
  destruct r as [err|[]].
  - go_inv. apply dp_create in Hr as [[_ ->]|(x & Hx & Hm')]; [..|done].
    + exists []. split_and!; [done|apply submseteq_nil_l|done].
    + exists [x]. split_and!; [done| |done]. simpl. rewrite Hx.
      apply submseteq_skip, submseteq_nil_l.
  - apply dp_create in Hr as [[? _]|(x & Hx & Hm')]; [done| |done].
    apply IH in Hrun as (xs & Hs' & Hsub & Hok). exists (x :: xs). split_and!.
    + rewrite Hs', Hm'. symmetry. apply Permutation_middle.
    + simpl. rewrite Hx. by apply submseteq_skip.
    + intros ->. destruct Hok as [Hp ->]; [done|]. split; [|simpl; lia].
      simpl. by rewrite Hx, Hp.
Qed.

Lemma delete_all_spec gate ms d s d' e s' :
  gate_reads gate → NoDup (mf_SwIfIndex <$> ms) → (∀ m, m ∈ ms → m ∈ masters s) →
  delete_all gate ms d s = (Ok (d', e), s') →
  ∃ del, del `sublist_of` ms ∧ Forall (approved gate) del ∧
         masters s ≡ₚ del ++ masters s' ∧
         (e = None → d' = (d + Z.of_nat (length del))%Z ∧ (gate = None → del = ms)).
Proof.
  intros Hgate. revert d s. induction ms as [|m ms IH]; intros d s Hnd Hin Hrun.
  { simpl in Hrun. go_inv. exists []. split_and!; [done..|]. intros _. split; [simpl; lia|done]. }
  simpl in Hrun, Hnd. apply NoDup_cons in Hnd as [Hm Hnd].
  apply bind_Ok_inv in Hrun as (ok & s1 & Hopen & Hrun).
  assert (masters s1 = masters s) as Hs1.
  { pose proof (gate_open_keeps gate m Hgate s) as Hk. by rewrite Hopen in Hk. }
  destruct ok.
  2:{ apply IH in Hrun as (del & Hsub & Happ & Hp & Hok); [|done|].
      - exists del. rewrite <- Hs1. split_and!; [by apply sublist_cons|done..|].
        intros He. destruct (Hok He) as [Hd _]. split; [done|]. intros ->.
        unfold gate_open in Hopen. by go_inv.
      - intros m' Hm'. rewrite Hs1. apply Hin. by right. }
  apply gate_open_approved in Hopen.
  apply bind_Ok_inv in Hrun as (r & s2 & Hr%attempt_Ok_inv & Hrun).
  assert (masters s2 ≡ₚ filter (λ x, mf_SwIfIndex x ≠ mf_SwIfIndex m) (masters s) →
          masters s ≡ₚ m :: masters s2) as Hdel.
  { intros ->. apply delete_by_key; [apply dp_nodup|]. apply Hin. left. }
  destruct r as [err|[]].
  - go_inv. apply dp_delete in Hr as [[_ Heq]|Hp]; rewrite Hs1 in *.
    + exists []. split_and!; [apply sublist_nil_l|done| |done]. by rewrite Heq.
    + exists [m]. split_and!; [apply sublist_skip, sublist_nil_l|by constructor| |done].
      by apply Hdel.
  - apply dp_delete in Hr as [[? _]|Hp]; [done|]. rewrite Hs1 in Hp. apply Hdel in Hp.
    apply IH in Hrun as (del & Hsub & Happ & Hp' & Hok); [|done|].
    + exists (m :: del). split_and!; [by apply sublist_skip|by constructor| |].
      * simpl. by rewrite Hp, Hp'.
      * intros He. destruct (Hok He) as [-> Hall]. split; [simpl; lia|].
        intros Hg. by rewrite (Hall Hg).
    + intros m' Hm'. assert (m' ∈ masters s) as Hin' by (apply Hin; by right).
      rewrite Hp in Hin'. apply elem_of_cons in Hin' as [->|?]; [|done].
      destruct Hm. by apply list_elem_of_fmap_2.
Qed.

(** A reconcile that reports no error: what it created and deleted. *)
Lemma Reconcile_Ok desired gate s c d s' :
  Forall managed desired → gate_reads gate →
  Reconcile desired gate s = (Ok (c, d, None), s') →
  ∃ xs del, del ++ masters s' ≡ₚ xs ++ masters s ∧
    mf_Socket <$> xs ≡ₚ mf_Socket <$> (Diff desired (masters s)).1 ∧
    del `sublist_of` (Diff desired (masters s)).2 ∧
    Forall (approved gate) del ∧ (gate = None → del = (Diff desired (masters s)).2) ∧
    c = Z.of_nat (length xs) ∧ d = Z.of_nat (length del).
Proof.
  intros Hman Hgate Hrun. unfold Reconcile in Hrun.
  apply bind_Ok_inv in Hrun as (a & s1 & Ha%attempt_Ok_inv & Hrun).
  destruct a as [err|actual]; [by go_inv|].
  apply dp_dump in Ha as [Hs1 Hact]. specialize (Hact _ eq_refl) as ->.
  pose proof (Diff_spec desired (masters s)) as Hspec.
  destruct (Diff desired (masters s)) as [toC toD].
  destruct Hspec as (HsubC & HsubD & _).
  apply bind_Ok_inv in Hrun as ([c1 e1] & s2 & Hc & Hrun).
  apply create_all_spec in Hc as (xs & Hs2 & _ & Hok).
  2:{ rewrite Forall_forall in *. intros m Hm. apply Hman. by eapply elem_of_sublist. }
  destruct e1; [by go_inv|]. destruct Hok as [Hxs ->]; [done|].
  apply bind_Ok_inv in Hrun as ([d1 e2] & s3 & Hd & Hrun).
  apply delete_all_spec in Hd as (del & Hsub & Happ & Hs3 & Hok); [|done| |].
  2:{ eapply sublist_NoDup; [apply (dp_nodup s)|]. by apply (fmap_sublist mf_SwIfIndex). }
  2:{ intros m Hm. rewrite Hs2, Hs1. apply elem_of_app. right.
      by eapply elem_of_sublist. }
  destruct e2; [by go_inv|]. destruct Hok as [-> Hall]; [done|].
  apply bind_Ok_inv in Hrun as (r & s4 & Hsweep & Hrun).
  apply attempt_Ok_inv, sweep_masters in Hsweep as Hs4.
  go_inv. exists xs, del. split_and!; try done.
  - by rewrite Hs4, <- Hs3, Hs2, Hs1.
  - apply Permutation_length in Hxs. rewrite !length_fmap in Hxs. lia.
Qed.

(** What is left when every orphan is deleted. *)
Lemma kept_masters desired s s' xs del :
  del ++ masters s' ≡ₚ xs ++ masters s → del = (Diff desired (masters s)).2 →
  masters s' ≡ₚ xs ++ filter (λ a, mf_Socket a ∈ socket_set desired) (masters s).
Proof.
  intros Hp ->. simpl in Hp. apply (Permutation_app_inv_l (Diff desired (masters s)).2).
  simpl. rewrite Hp, (Permutation_app_swap_app (filter _ _)). f_equiv.
  by rewrite Permutation_app_comm, filter_app_complement.
Qed.

(** The two halves of an ungated reconcile: the masters it leaves. *)
Lemma Reconcile_masters desired s c d s' :
  Forall managed desired →
  Reconcile desired None s = (Ok (c, d, None), s') →
  ∃ xs, masters s' ≡ₚ xs ++ filter (λ m, mf_Socket m ∈ socket_set desired) (masters s) ∧
    mf_Socket <$> xs ≡ₚ
      mf_Socket <$> filter (λ m, mf_Socket m ∉ socket_set (masters s)) desired.
Proof.
  intros Hman Hrun.
  apply Reconcile_Ok in Hrun as (xs & del & Hp & Hxs & _ & _ & Hdel & _); [|done..].
  specialize (Hdel eq_refl). exists xs. split; [by eapply kept_masters|done].
Qed.

Lemma Reconcile_sockets desired s c d s' :
  Forall managed desired →
  Reconcile desired None s = (Ok (c, d, None), s') →
  ∀ k, k ∈ mf_Socket <$> masters s' ↔ k ∈ mf_Socket <$> desired.
Proof.
  intros Hman (xs & Hs' & Hxs)%Reconcile_masters; [|done]. intros k.
  rewrite Hs', fmap_app, elem_of_app, Hxs, !list_elem_of_fmap.
  setoid_rewrite list_elem_of_filter. setoid_rewrite elem_of_socket_set. split.
  - intros [(m & -> & _ & ?)|(m & -> & (x & ? & <-) & _)]; by eexists.
  - intros (m & -> & Hm).
    destruct (decide (mf_Socket m ∈ socket_set (masters s))) as [Hin|Hno].
    + apply elem_of_socket_set in Hin as (a & Ha & Heq). right.
      exists a. split_and!; [done|by exists m|done].
    + left. exists m. by rewrite <- elem_of_socket_set.
Qed.

(** C7: A reconcile that reports no error, and whose gate lets every orphan
    pass, converges: afterwards the dataplane has a master on exactly the
    desired sockets, and the masters it already had on desired sockets are still
    the same ones. *)
Theorem Reconcile_converges desired s c d s' :
  Forall managed desired →
  Reconcile desired None s = (Ok (c, d, None), s') →
  (∀ k, k ∈ mf_Socket <$> masters s' ↔ k ∈ mf_Socket <$> desired) ∧
  (∀ m, m ∈ masters s → mf_Socket m ∈ mf_Socket <$> desired → m ∈ masters s').
Proof.
  intros Hman Hrun. split; [by eapply Reconcile_sockets|].
  apply Reconcile_masters in Hrun as (xs & Hs' & _); [|done].
  intros m Hm Hw. rewrite Hs'. apply elem_of_app. right. apply list_elem_of_filter.
  split; [|done]. apply elem_of_socket_set. apply list_elem_of_fmap in Hw. naive_solver.
Qed.

(** After a converging reconcile, a second one with the same desired set is
    a no-op: it creates and deletes nothing, and leaves the masters as they are. *)
Theorem Reconcile_idempotent desired s c d s1 c' d' e s2 :
  Forall managed desired →
  Reconcile desired None s = (Ok (c, d, None), s1) →
  Reconcile desired None s1 = (Ok (c', d', e), s2) →
  c' = 0%Z ∧ d' = 0%Z ∧ masters s2 = masters s1.
Proof.
  intros Hman Hrun1 Hrun2.
  pose proof (Reconcile_sockets _ _ _ _ _ Hman Hrun1) as Hconv.
  assert (Diff desired (masters s1) = ([], [])) as Hdiff.
  { unfold Diff. f_equal; apply list_filter_none; intros m Hm Hno; apply Hno, elem_of_socket_set;
      apply (list_elem_of_fmap_2 mf_Socket) in Hm; apply Hconv in Hm;
      apply list_elem_of_fmap in Hm; naive_solver. }
  unfold Reconcile in Hrun2.
  apply bind_Ok_inv in Hrun2 as (a & s3 & Ha%attempt_Ok_inv & Hrun2).
  destruct a as [err|actual].
  { go_inv. by apply dp_dump in Ha as [-> _]. }
  apply dp_dump in Ha as [Hs3 Hact]. rewrite (Hact _ eq_refl), Hdiff in Hrun2.
  cbn in Hrun2. go_inv. split_and!; [done..|]. rewrite <- Hs3.
  match goal with H : match _ with inl _ => _ | inr _ => _ end |- _ =>
    by apply sweep_masters in H end.
Qed.

(** A gated reconcile that reports no error has a master on every desired
    socket; what it removed are orphans the gate approved, what it added are
    masters on desired sockets, and its two counts are the numbers of both. *)
Lemma Reconcile_gated desired gate s c d s' :
  Forall managed desired → gate_reads gate →
  Reconcile desired gate s = (Ok (c, d, None), s') →
  (∀ k, k ∈ mf_Socket <$> desired → k ∈ mf_Socket <$> masters s') ∧
  (∀ m, m ∈ masters s → m ∈ masters s' ∨
        (mf_Socket m ∉ mf_Socket <$> desired) ∧ approved gate m) ∧
  (∀ m, m ∈ masters s' → m ∈ masters s ∨ mf_Socket m ∈ mf_Socket <$> desired) ∧
  Z.of_nat (length (masters s')) = (Z.of_nat (length (masters s)) + c - d)%Z.
Proof.
  intros Hman Hgate Hrun.
  apply Reconcile_Ok in Hrun as (xs & del & Hp & Hxs & Hsub & Happ & _ & -> & ->); [|done..].
  simpl in Hxs, Hsub. rewrite Forall_forall in Happ.
  assert (∀ m, m ∈ del → mf_Socket m ∉ mf_Socket <$> desired) as Hdel.
  { intros m Hm Hin. apply (elem_of_sublist _ _ _ Hsub), list_elem_of_filter in Hm as [Hm _].
    apply Hm, elem_of_socket_set. apply list_elem_of_fmap in Hin. naive_solver. }
  assert (∀ m, m ∈ masters s' ∨ m ∈ del ↔ m ∈ xs ∨ m ∈ masters s) as Hin.
  { intros m. rewrite <- !elem_of_app, <- Hp, !elem_of_app. tauto. }
  split_and!.
  - intros k (m & -> & Hm)%list_elem_of_fmap.
    destruct (decide (mf_Socket m ∈ socket_set (masters s))) as [Hhave|Hno].
    + apply elem_of_socket_set in Hhave as (a & Ha & Heq). rewrite <- Heq.
      destruct (proj2 (Hin a)) as [?|Ha']; [by right|by apply list_elem_of_fmap_2|].
      destruct (Hdel a Ha'). rewrite Heq. by apply list_elem_of_fmap_2.
    + assert (mf_Socket m ∈ mf_Socket <$> xs) as (x & Heq & Hx)%list_elem_of_fmap.
      { rewrite Hxs. by apply list_elem_of_fmap_2, list_elem_of_filter. }
      rewrite Heq. destruct (proj2 (Hin x)) as [?|Hx']; [by left|by apply list_elem_of_fmap_2|].
      destruct (Hdel x Hx'). rewrite <- Heq. by apply list_elem_of_fmap_2.
  - intros m Hm. destruct (proj2 (Hin m)) as [?|Hd]; [by right|by left|right].
    split; [by apply Hdel|by apply Happ].
  - intros m Hm. destruct (proj1 (Hin m)) as [Hx|?]; [by left| |by left]. right.
    apply (list_elem_of_fmap_2 mf_Socket) in Hx. rewrite Hxs in Hx.
    apply list_elem_of_fmap in Hx as (m' & -> & [_ Hm']%list_elem_of_filter).
    by apply list_elem_of_fmap_2.
  - apply Permutation_length in Hp. rewrite !length_app in Hp. lia.
Qed.

(** ** Whatever a reconcile ends in *)

(** Masters are only lost when [P] holds of them. *)
Definition loses (P : Memif → Prop) (s1 s2 : S) : Prop :=
  ∀ m, m ∈ masters s1 → m ∈ masters s2 ∨ P m.

#[local] Instance loses_preorder P : PreOrder (loses P).
Proof.
  split; [by intros s m; left|]. intros s1 s2 s3 H12 H23 m Hm.
  destruct (H12 m Hm) as [Hm2|]; [by apply H23|by right].
Qed.

Lemma loses_same P s1 s2 : masters s2 = masters s1 → loses P s1 s2.
Proof. intros Heq m Hm. left. by rewrite Heq. Qed.

Lemma create_all_keeps P ms c : Forall managed ms → keeps (loses P) (create_all ms c).
Proof.
  intros Hms. revert c. induction Hms as [|m ms Hm Hms IH]; intros c.
  { by apply keeps_ret, _. }
  apply keeps_bind; [apply _| |intros [e|[]]; [by apply keeps_ret, _|apply IH]].
  apply keeps_attempt. intros s.
  destruct (CreateMaster m s) as [o s'] eqn:E.
  apply dp_create in E as [[_ ?]|(x & _ & Hp)]; [by apply loses_same| |done].
  intros y Hy. left. simpl. rewrite Hp. by right.
Qed.

Definition deletable (gate : option (Memif → go S bool)) (ms : list Memif) (x : Memif) : Prop :=
  ∃ m, m ∈ ms ∧ approved gate m ∧ mf_SwIfIndex x = mf_SwIfIndex m.

Lemma delete_all_keeps gate ms d :
  gate_reads gate → keeps (loses (deletable gate ms)) (delete_all gate ms d).
Proof.
  intros Hgate. assert (∀ l, (∀ m, m ∈ l → m ∈ ms) →
    ∀ d, keeps (loses (deletable gate ms)) (delete_all gate l d)) as Hgen.
  2:{ by apply Hgen. }
  clear d. induction l as [|m l IH]; intros Hsub d; [by apply keeps_ret, _|]. intros s.
  assert (∀ m', m' ∈ l → m' ∈ ms) as Hl by (intros; apply Hsub; by right).
  simpl. rewrite run_bind. pose proof (gate_open_keeps gate m Hgate s) as Hopen.
  destruct (gate_open gate m s) as [[[]|e|w|] s1] eqn:E; simpl in Hopen;
    [|etrans; [by apply (loses_same _ s s1)|by apply IH]|by apply loses_same..].
  etrans; [by apply (loses_same _ s s1)|]. apply keeps_bind; [apply _|..].
  - apply keeps_attempt. intros s2.
    destruct (DeleteMaster m s2) as [o s3] eqn:Ed.
    apply dp_delete in Ed as [[_ ?]|Hp]; [by apply loses_same|].
    intros x Hx. destruct (decide (mf_SwIfIndex x = mf_SwIfIndex m)) as [Heq|Hne].
    + right. exists m. split_and!; [apply Hsub; left|by eapply gate_open_approved|done].
    + left. simpl. rewrite Hp. by apply list_elem_of_filter.
  - intros [e|[]]; [by apply keeps_ret, _|by apply IH].
Qed.

(** C8: Whatever a reconcile ends in, an error, a panic or a call that does not
    return included, a master that was there before is lost only when no desired
    master has its socket and the gate approved its deletion. *)
Theorem Reconcile_safe desired gate s m :
  Forall managed desired → gate_reads gate → m ∈ masters s →
  m ∈ masters (Reconcile desired gate s).2 ∨
  (mf_Socket m ∉ mf_Socket <$> desired) ∧ approved gate m.
Proof.
  intros Hman Hgate Hm.
  set (P := λ x, (mf_Socket x ∉ mf_Socket <$> desired) ∧ approved gate x ∨ x ∉ masters s).
  assert (loses P s (Reconcile desired gate s).2) as Hloses.
  2:{ destruct (Hloses m Hm) as [?|[?|?]]; [by left|by right|done]. }
  clear m Hm. unfold Reconcile. rewrite run_bind, run_attempt.
  destruct (DumpMasters s) as [o s1] eqn:Ed. apply dp_dump in Ed as [Hs1 Hl].
  destruct o as [actual|e|w|]; [|by apply loses_same..].
  specialize (Hl _ eq_refl) as ->. etrans; [by apply (loses_same _ s s1)|].
  pose proof (Diff_spec desired (masters s)) as Hspec.
  destruct (Diff desired (masters s)) as [toC toD]. destruct Hspec as (HsubC & _ & _ & HD & _).
  apply keeps_bind; [apply _|apply create_all_keeps|].
  { rewrite Forall_forall in *. intros m Hm. apply Hman. by eapply elem_of_sublist. }
  intros [c [e|]]; [by apply keeps_ret, _|]. apply keeps_bind; [apply _| |].
  - intros s2 x Hx. destruct (delete_all_keeps gate toD 0 Hgate s2 x Hx)
      as [?|(m & Hm & Happ & Heq)]; [by left|right].
    apply HD in Hm as [Hm Hno]. destruct (decide (x ∈ masters s)) as [Hxs|]; [|by right]. left.
    assert (x = m) as -> by (by eapply master_unique). split; [|done].
    intros (d & ? & ?)%list_elem_of_fmap. by apply (Hno d).
  - intros [d [e|]]; [by apply keeps_ret, _|]. apply keeps_bind; [apply _| |].
    + apply keeps_attempt. intros s2. apply loses_same, dp_sweep.
    + intros ?. by apply keeps_ret, _.
Qed.
End Laws.
