(* ===== verification/Gc.v ===== *)
(** * pkg/daemon/daemon.go: the gate in front of deletions

    [SocketGone] and [shouldGC] with the state of the Reconciler they keep: how
    many consecutive rounds a socket has been an orphan.  The theorems relate
    that bookkeeping to the history of rounds it stands for. *)
From S2P Require Import Prelude GoStrings GoOs Reconcile.

Record orphanRound := { or_count : Z; or_lastRound : Z }.

#[global] Instance orphanRound_eq_dec : EqDecision orphanRound.
Proof. solve_decision. Defined.

(** The fields of Reconciler that change; a nil map is the empty one. *)
Record rstate := RState {
  orphanSeen : gmap string orphanRound;
  round : Z
}.

Definition rstate_init : rstate := RState ∅ 0.

(** [r.round++], the first statement of Sync. *)
Definition next_round (st : rstate) : rstate := RState (orphanSeen st) (round st + 1).

Definition SocketGone (m : Memif) : go fs bool :=
  r ← attempt (os_stat (mf_Socket m));
  mret match r with inl err => is_not_exist err | inr _ => false end.

Definition zero_orphanRound : orphanRound := {| or_count := 0; or_lastRound := 0 |}.

Definition shouldGC (Grace : Z) (m : Memif) : go (fs * rstate) bool :=
  gone ← on_fst (SocketGone m);
  if (gone : bool) then
    on_snd (modify (λ st, RState (delete (mf_Socket m) (orphanSeen st)) (round st))) ;;
    mret true
  else if decide (Grace ≤ 0)%Z then mret false
  else
    st ← gets snd;
    let rec := default zero_orphanRound (orphanSeen st !! mf_Socket m) in
    let count := if decide (or_lastRound rec = round st - 1)%Z
                 then (or_count rec + 1)%Z else 1%Z in
    let rec' := {| or_count := count; or_lastRound := round st |} in
    on_snd (modify (λ st, RState (<[mf_Socket m := rec']> (orphanSeen st)) (round st))) ;;
    if decide (Grace ≤ count)%Z then
      on_snd (modify (λ st, RState (delete (mf_Socket m) (orphanSeen st)) (round st))) ;;
      mret true
    else mret false.

(** ** The gate as a function of what the file system says *)

(** os.Stat fails with "does not exist". *)
Definition socket_gone (f : fs) (m : Memif) : bool :=
  match (os_stat (mf_Socket m) f).1 with Err e => is_not_exist e | _ => false end.

Definition orphan_count (st : rstate) (k : string) : Z :=
  let rec := default zero_orphanRound (orphanSeen st !! k) in
  if decide (or_lastRound rec = round st - 1)%Z then (or_count rec + 1)%Z else 1%Z.

Lemma SocketGone_run m f : SocketGone m f = (Ok (socket_gone f m), f).
Proof.
  unfold SocketGone, socket_gone. rewrite run_bind, run_attempt.
  pose proof (os_stat_same (mf_Socket m) f) as Hsame.
  destruct (os_stat (mf_Socket m) f) as [o f'] eqn:E. simpl in *. subst f'.
  destruct o; try done.
  all: unfold os_stat, on_path in E; case_decide; [done|];
    destruct (fs_fault _ _ _); [done|]; by destruct (fs_lookup _ _).
Qed.

Lemma shouldGC_run Grace m f st :
  shouldGC Grace m (f, st) =
  let k := mf_Socket m in
  let drop := RState (delete k (orphanSeen st)) (round st) in
  let keep := RState (<[k := {| or_count := orphan_count st k; or_lastRound := round st |}]>
                        (orphanSeen st)) (round st) in
  if socket_gone f m then (Ok true, (f, drop))
  else if decide (Grace ≤ 0)%Z then (Ok false, (f, st))
  else if decide (Grace ≤ orphan_count st k)%Z then (Ok true, (f, drop))
  else (Ok false, (f, keep)).
Proof.
  unfold shouldGC. rewrite run_bind. unfold on_fst at 1. simpl. rewrite SocketGone_run.
  destruct (socket_gone f m); [done|]. case_decide; [done|].
  rewrite run_bind, run_gets. simpl. rewrite run_bind. unfold on_snd at 1. simpl.
  change (if decide _ then _ else 1%Z) with (orphan_count st (mf_Socket m)).
  case_decide; [|done]. rewrite run_bind. unfold on_snd. simpl.
  by rewrite delete_insert_eq.
Qed.

(** Without a grace period the gate only passes a master whose socket file
    is gone, and the bookkeeping never changes the answer. *)
Theorem shouldGC_conservative Grace m f st :
  (Grace ≤ 0)%Z → (shouldGC Grace m (f, st)).1 = Ok (socket_gone f m).
Proof.
  intros HG. rewrite shouldGC_run. simpl. destruct (socket_gone f m); [done|].
  by rewrite decide_True.
Qed.

(** ** Histories *)

(** The finished rounds, latest first, each with the sockets that were asked
    about and kept; the sockets asked about in the current round; and those of
    them that were kept. *)
Record history := History {
  past : list (gset string);
  asked : gset string;
  kept : gset string
}.

(** For how many of the last rounds, without a gap, [k] was kept. *)
Fixpoint streak (k : string) (rounds : list (gset string)) : nat :=
  match rounds with
  | [] => 0
  | r :: rounds' => if decide (k ∈ r) then S (streak k rounds') else 0
  end.

(** The states a Reconciler can be in: Sync starts a round, and in a round each
    socket is asked about once at most, with the files in any state. *)
Inductive reachable (Grace : Z) : history → rstate → Prop :=
  | reach_init : reachable Grace (History [] ∅ ∅) rstate_init
  | reach_round h st :
      reachable Grace h st →
      reachable Grace (History (kept h :: past h) ∅ ∅) (next_round st)
  | reach_query h st m f b st' :
      reachable Grace h st → mf_Socket m ∉ asked h →
      shouldGC Grace m (f, st) = (Ok b, (f, st')) →
      reachable Grace
        (History (past h) ({[mf_Socket m]} ∪ asked h)
                 (if (b : bool) then kept h else {[mf_Socket m]} ∪ kept h)) st'.

(** The record of a socket that was asked about this round, and of one that
    was not. *)
Definition record_ok (h : history) (st : rstate) (k : string) : Prop :=
  if decide (k ∈ asked h) then
    match orphanSeen st !! k with
    | Some r => k ∈ kept h ∧ or_lastRound r = round st ∧
                or_count r = Z.of_nat (streak k (kept h :: past h))
    | None => k ∉ kept h
    end
  else (k ∉ kept h) ∧
    match orphanSeen st !! k with
    | Some r => (or_lastRound r < round st)%Z ∧
                (if decide (or_lastRound r = round st - 1)%Z
                 then or_count r = Z.of_nat (streak k (past h)) else streak k (past h) = 0)
    | None => streak k (past h) = 0
    end.

Lemma orphan_count_streak h st k :
  record_ok h st k → k ∉ asked h →
  orphan_count st k = (Z.of_nat (streak k (past h)) + 1)%Z.
Proof.
  unfold record_ok, orphan_count. intros Hok Hk. rewrite decide_False in Hok by done.
  destruct Hok as [_ Hok]. destruct (orphanSeen st !! k) as [r|]; simpl.
  - destruct Hok as [_ Hok]. case_decide; rewrite Hok; lia.
  - rewrite Hok. case_decide; lia.
Qed.

Lemma record_ok_round h st k : record_ok h st k →
  record_ok (History (kept h :: past h) ∅ ∅) (next_round st) k.
Proof.
  unfold record_ok. simpl. rewrite (decide_False (P := k ∈ ∅)) by set_solver.
  intros Hok. split; [set_solver|]. case_decide as Hask.
  - destruct (orphanSeen st !! k) as [r|].
    + destruct Hok as (Hk & Hl & Hc). rewrite Hl. split; [lia|].
      rewrite decide_True by lia. simpl in *. done.
    + by rewrite decide_False.
  - destruct Hok as [Hk Hok]. rewrite (decide_False (P := k ∈ kept h)) by done.
    destruct (orphanSeen st !! k) as [r|]; [|done]. destruct Hok as [Hl _]. split; [lia|].
    by rewrite decide_False by lia.
Qed.

Lemma record_ok_query Grace h st m f b st' k :
  (0 < Grace)%Z → record_ok h st (mf_Socket m) → record_ok h st k → mf_Socket m ∉ asked h →
  shouldGC Grace m (f, st) = (Ok b, (f, st')) →
  record_ok (History (past h) ({[mf_Socket m]} ∪ asked h)
               (if b then kept h else {[mf_Socket m]} ∪ kept h)) st' k.
Proof.
  intros HG Hm Hk Hask Hrun. rewrite shouldGC_run in Hrun. simpl in Hrun.
  pose proof (orphan_count_streak h st _ Hm Hask) as Hcount.
  assert (mf_Socket m ∉ kept h) as Hkept.
  { unfold record_ok in Hm. rewrite decide_False in Hm by done. apply Hm. }
  rewrite decide_False in Hrun by lia.
  destruct (decide (k = mf_Socket m)) as [->|Hne].
  - unfold record_ok. rewrite decide_True by set_solver.
    destruct (socket_gone f m); [|case_decide]; simplify_eq/=.
    + by rewrite lookup_delete_eq.
    + by rewrite lookup_delete_eq.
    + rewrite lookup_insert_eq. simpl. rewrite decide_True by set_solver.
      split_and!; [set_solver|done|lia].
  - assert (orphanSeen st' !! k = orphanSeen st !! k ∧ round st' = round st) as [HS HR].
    { destruct (socket_gone f m); [|case_decide]; simplify_eq/=;
        by rewrite ?lookup_delete_ne, ?lookup_insert_ne. }
    unfold record_ok in *. simpl in *. rewrite HS, HR. clear HS HR Hm Hcount Hrun.
    assert (k ∈ {[mf_Socket m]} ∪ asked h ↔ k ∈ asked h) as Hiff by set_solver.
    assert (k ∈ (if b then kept h else {[mf_Socket m]} ∪ kept h) ↔ k ∈ kept h) as Hiff'
      by (destruct b; set_solver).
    rewrite (decide_ext _ _ _ _ Hiff). case_decide; [|by rewrite Hiff'].
    rewrite (decide_ext _ _ _ _ Hiff'). by destruct (orphanSeen st !! k); rewrite Hiff'.
Qed.

Lemma reachable_ok Grace h st k : (0 < Grace)%Z → reachable Grace h st → record_ok h st k.
Proof.
  intros HG Hr. revert k.
  induction Hr as [|h st Hr IH|h st m f b st' Hr IH Hask Hrun]; intros k.
  - unfold record_ok. simpl. rewrite decide_False by set_solver. split; [set_solver|].
    by rewrite lookup_empty.
  - by apply record_ok_round.
  - by eapply record_ok_query.
Qed.

(** With a grace period the gate passes a master exactly when its socket
    file is gone, or when this round is at least the Grace-th one in a row in
    which the socket was asked about while its file was there: one round in which
    the socket is not an orphan starts the count again. *)
Theorem shouldGC_reachable Grace h st m f :
  (0 < Grace)%Z → reachable Grace h st → mf_Socket m ∉ asked h →
  (shouldGC Grace m (f, st)).1 =
  Ok (socket_gone f m || bool_decide (Grace ≤ Z.of_nat (streak (mf_Socket m) (past h)) + 1)%Z).
Proof.
  intros HG Hr Hask.
  pose proof (orphan_count_streak h st _ (reachable_ok Grace h st _ HG Hr) Hask) as Hcount.
  rewrite shouldGC_run. simpl. rewrite Hcount.
  destruct (socket_gone f m); [done|]. rewrite decide_False by lia. simpl.
  case_decide; simpl; [by rewrite bool_decide_true|by rewrite bool_decide_false].
Qed.
