(* ===== verification/Desired.v ===== *)
(** * pkg/daemon/desired.go: the masters a configuration asks for *)
From S2P Require Import Prelude GoStrings GoOs Json Types JsonCodec Annotations VppApi Memif.
From S2P Require Import Reconcile.

(** bridgeDomainID: a numeric bridgeName takes precedence over bridgeId. *)
Definition bridgeDomainID (b : BridgeConf.t) : result Z :=
  if decide (BridgeConf.BridgeName b ≠ EmptyString) then
    match parse_uint 32 (BridgeConf.BridgeName b) with
    | inl err => inl (ErrWrap "bridgeName is not a numeric bridge id" err)
    | inr id => inr (u32 id)
    end
  else inr (u32 (BridgeConf.BridgeId b)).

(** socketFileName *)
Definition socketFileName (e : ConfigurationData.t) (host : UserSpaceConf.t) : string :=
  SocketFileName (MemifConf.Socketfile (UserSpaceConf.MemifConf host))
    (ConfigurationData.ContainerId e) (ConfigurationData.IfName e).

(** desiredMemif: [None] is the code's ok=false. *)
Definition desiredMemif (e : ConfigurationData.t) (host : UserSpaceConf.t)
    (hostSharedDir : string) : result (option Memif) :=
  if negb (equal_fold (UserSpaceConf.IfType host) "memif") then inr None
  else if bool_decide (UserSpaceConf.Engine host ≠ EmptyString) &&
          negb (equal_fold (UserSpaceConf.Engine host) "vpp") then inr None
  else
    match (if equal_fold (UserSpaceConf.NetType host) "bridge"
           then bridgeDomainID (UserSpaceConf.BridgeConf host) else inr 0%Z) with
    | inl err => inl err
    | inr bdID =>
        let hm := UserSpaceConf.MemifConf host in
        let mode := if decide (MemifConf.Mode hm = EmptyString)
                    then MemifConf.Mode (UserSpaceConf.MemifConf (ConfigurationData.Config e))
                    else MemifConf.Mode hm in
        inr (Some {|
          mf_Socket := path_join [hostSharedDir; socketFileName e host];
          mf_ID := 0;
          mf_BridgeID := bdID;
          mf_Mode := mode;
          mf_SwIfIndex := 0;
          mf_RxQueues := MemifConf.RxQueues hm;
          mf_TxQueues := MemifConf.TxQueues hm;
          mf_RingSize := MemifConf.RingSize hm;
          mf_BufferSize := MemifConf.BufferSize hm;
          mf_Secret := MemifConf.Secret hm;
          mf_HwAddr := UserSpaceConf.MAC host;
          mf_NoZeroCopy := MemifConf.NoZeroCopy hm;
          mf_UseDma := MemifConf.UseDma hm;
          mf_MTU := u32 (UserSpaceConf.MTU host) |})
    end.

(** buildDesired *)
Fixpoint buildDesired (entries : list ConfigurationData.t) (host : UserSpaceConf.t)
    (hostSharedDir : string) : result (list Memif) :=
  match entries with
  | [] => inr []
  | e :: es =>
      match desiredMemif e host hostSharedDir with
      | inl err => inl err
      | inr om =>
          match buildDesired es host hostSharedDir with
          | inl err => inl err
          | inr out => inr (match om with Some m => m :: out | None => out end)
          end
      end
  end.

(** The result of the ADD plays no part in it. *)
Lemma buildDesired_read_back `{CniLib} l l' host dir :
  Forall2 (λ c c', read_back c = inr c') l l' → buildDesired l' host dir = buildDesired l host dir.
Proof.
  induction 1 as [|c c' l l' Hc Hl IH]; [done|]. simpl. rewrite IH.
  unfold read_back in Hc. destruct (result_to_json _); [done|].
  destruct (result_of_json _ _) as [|r]; [done|]. injection Hc as <-. done.
Qed.

(** ** The networks of a pod (Multus' annotation) *)

Definition netAnnotKey : string := "k8s.v1.cni.cncf.io/networks".

Record networkRef := NetworkRef {
  nr_Namespace : string;
  nr_Name : string;
  nr_Interface : string
}.

#[global] Instance networkRef_eq_dec : EqDecision networkRef.
Proof. solve_decision. Defined.

(** One element of the JSON form. *)
Definition network_fields : list (field networkRef) :=
  [fld "name" nr_Name (λ v r, NetworkRef (nr_Namespace r) v (nr_Interface r)) d_string;
   fld "namespace" nr_Namespace (λ v r, NetworkRef v (nr_Name r) (nr_Interface r)) d_string;
   fld "interface" nr_Interface (λ v r, NetworkRef (nr_Namespace r) (nr_Name r) v) d_string].

Definition json_network (defaultNS : string) (e : networkRef) : option networkRef :=
  if decide (nr_Name e = EmptyString) then None
  else
    let ns := if decide (nr_Namespace e = EmptyString) then defaultNS else nr_Namespace e in
    Some (NetworkRef ns (nr_Name e) (nr_Interface e)).

(** The text before and after the first separator, if there is one. *)
Definition cut (c : ascii) (s : string) : option (string * string) :=
  (λ i, (str_take i s, str_drop (S i) s)) <$> index_char c s.

(** One token of the short form, [ns/]name[@iface]. *)
Definition short_network (defaultNS tok : string) : option networkRef :=
  let tok := trim_space tok in
  if decide (tok = EmptyString) then None
  else
    let '(tok, iface) := match cut "@" tok with
                         | Some (t, i) => (t, i)
                         | None => (tok, EmptyString)
                         end in
    let '(ns, name) := match cut "/" tok with
                       | Some (n, m) => (n, m)
                       | None => (defaultNS, tok)
                       end in
    if decide (name = EmptyString) then None else Some (NetworkRef ns name iface).

Definition parseNetworks (annotation defaultNS : string) : list networkRef :=
  let annotation := trim_space annotation in
  if decide (annotation = EmptyString) then []
  else if has_prefix "[" annotation then
    match unmarshal (d_list (NetworkRef EmptyString EmptyString EmptyString)
                            (d_struct network_fields)) annotation [] with
    | inl _ => []
    | inr arr => omap (json_network defaultNS) arr
    end
  else omap (short_network defaultNS) (split_char "," annotation).

(** ** The masters of a pod *)

(** Of several networks, the one an entry belongs to: the first whose interface
    name is not given or is the entry's. *)
Fixpoint network_of (ifName : string) (nets : list networkRef) (hosts : list UserSpaceConf.t)
  : option UserSpaceConf.t :=
  match nets, hosts with
  | n :: nets', h :: hosts' =>
      if decide (nr_Interface n ≠ EmptyString ∧ nr_Interface n ≠ ifName)
      then network_of ifName nets' hosts'
      else Some h
  | _, _ => None
  end.

Fixpoint match_entries (entries : list ConfigurationData.t) (nets : list networkRef)
    (hosts : list UserSpaceConf.t) (sharedDir : string) : result (list Memif) :=
  match entries with
  | [] => inr []
  | e :: es =>
      match (match network_of (ConfigurationData.IfName e) nets hosts with
             | Some h => desiredMemif e h sharedDir
             | None => inr None
             end) with
      | inl err => inl err
      | inr om =>
          match match_entries es nets hosts sharedDir with
          | inl err => inl err
          | inr out => inr (match om with Some m => m :: out | None => out end)
          end
      end
  end.

Section ForPod.
Context `{CniLib} {S : Type}.
Variable nadConfigJSON : string → string → go S string.

(** Each attached NAD's host configuration. *)
Fixpoint nad_hosts (nets : list networkRef) : go S (list UserSpaceConf.t) :=
  match nets with
  | [] => mret []
  | n :: nets' =>
      cfg ← wrap_err "nad" (nadConfigJSON (nr_Namespace n) (nr_Name n));
      match unmarshal d_NetConf cfg NetConf.zero with
      | inl err => raise (ErrWrap "parse NAD config" err)
      | inr nc => hs ← nad_hosts nets'; mret (NetConf.HostConf nc :: hs)
      end
  end.

(** desiredForPod *)
Definition desiredForPod (pod : Pod.t) : go S (list Memif) :=
  let nets := parseNetworks (annotation pod netAnnotKey) (Pod.Namespace pod) in
  if decide (nets = []) then mret []
  else
    let raw := annotation pod AnnotKeyUsrspConfigData in
    if decide (trim_space raw = EmptyString) then mret []
    else
      match unmarshal (d_list ConfigurationData.zero d_ConfigurationData) raw [] with
      | inl err => raise (ErrWrap "parse userspace/configuration-data" err)
      | inr entries =>
          if decide (entries = []) then mret []
          else
            match GetPodVolumeMountHostSharedDir (Some pod) with
            | inl _ => mret []
            | inr sharedDir =>
                if decide (sharedDir = EmptyString) then mret []
                else
                  hosts ← nad_hosts nets;
                  match hosts with
                  | [h] => of_result (buildDesired entries h sharedDir)
                  | _ => of_result (match_entries entries nets hosts sharedDir)
                  end
            end
      end.
End ForPod.

(** ** Bridge domains *)

(** The conversion to uint32 after ParseUint never changes the number. *)
Lemma bridgeDomainID_name b id :
  BridgeConf.BridgeName b ≠ EmptyString →
  parse_uint 32 (BridgeConf.BridgeName b) = inr id → bridgeDomainID b = inr id.
Proof.
  intros Hn Hp. unfold bridgeDomainID. rewrite decide_True, Hp by done.
  f_equal. apply u32_small. by eapply parse_uint_range.
Qed.

Lemma bridgeDomainID_range b id : bridgeDomainID b = inr id → (0 ≤ id < 2 ^ 32)%Z.
Proof.
  unfold bridgeDomainID. case_decide.
  - destruct (parse_uint _ _); intros [=]; subst. apply u32_range.
  - intros [= <-]. apply u32_range.
Qed.

(** ** Socket identity *)

Lemma str_take_length n s : n ≤ String.length s → String.length (str_take n s) = n.
Proof.
  revert s. induction n as [|n IH]; intros [|a s] Hn; simpl in *; [done..|lia|].
  by rewrite IH by lia.
Qed.

Lemma str_app_inj_l (s1 s2 t1 t2 : string) :
  String.length s1 = String.length s2 → s1 +:+ t1 = s2 +:+ t2 → s1 = s2 ∧ t1 = t2.
Proof.
  revert s2. induction s1 as [|a s1 IH]; intros [|b s2] Hl Heq; try done.
  injection Heq as -> Heq. injection Hl as Hl. by destruct (IH _ Hl Heq) as [-> ->].
Qed.

Lemma str_app_inj_r (s1 s2 t : string) : s1 +:+ t = s2 +:+ t → s1 = s2.
Proof.
  intros Heq. assert (String.length s1 = String.length s2) as Hl.
  { apply (f_equal String.length) in Heq. rewrite !str_length_app in Heq. lia. }
  by destruct (str_app_inj_l _ _ _ _ Hl Heq).
Qed.

(** The generated file name identifies the container (by the 12 characters of
    its id that are used) and the interface. *)
Lemma socket_id c :
  12 ≤ String.length c → (if decide (12 < String.length c) then str_take 12 c else c) = str_take 12 c.
Proof.
  intros Hc. case_decide; [done|]. assert (String.length c = 12) as Hl by lia. clear Hc H.
  rewrite <- Hl. clear Hl. induction c as [|a c IH]; [done|]. simpl. by rewrite <- IH.
Qed.

Lemma SocketFileName_same c1 c2 i :
  12 ≤ String.length c1 → 12 ≤ String.length c2 → str_take 12 c1 = str_take 12 c2 →
  SocketFileName EmptyString c1 i = SocketFileName EmptyString c2 i.
Proof.
  intros H1 H2 Heq. unfold SocketFileName. rewrite !decide_False by (by intros []).
  rewrite !socket_id by done. by rewrite Heq.
Qed.

Lemma SocketFileName_inj c1 i1 c2 i2 :
  12 ≤ String.length c1 → 12 ≤ String.length c2 →
  SocketFileName EmptyString c1 i1 = SocketFileName EmptyString c2 i2 →
  str_take 12 c1 = str_take 12 c2 ∧ i1 = i2.
Proof.
  intros H1 H2. unfold SocketFileName. rewrite !decide_False by (by intros []).
  rewrite !socket_id by done. intros Heq.
  apply str_app_inj_l in Heq as [_ Heq]; [|done].
  apply str_app_inj_l in Heq as [-> Heq]; [|by rewrite !str_take_length].
  split; [done|]. apply str_app_inj_l in Heq as [_ Heq]; [|done].
  by apply str_app_inj_r in Heq.
Qed.

Lemma SocketFileName_plain c i :
  no_char slash c = true → no_char slash i = true →
  plain_name (SocketFileName EmptyString c i) = true.
Proof.
  intros Hc Hi. unfold SocketFileName. rewrite decide_False by (by intros []).
  apply plain_name_spec. split_and!; [|done..]. cbn zeta. unfold no_char.
  rewrite !str_all_app. change (str_all _ i) with (no_char slash i). rewrite Hi.
  case_decide; change (str_all ?p ?s) with (no_char slash s);
    by rewrite ?str_take_no_char, ?Hc.
Qed.

(** What a desired master's socket is. *)
Lemma desiredMemif_socket e host dir m :
  desiredMemif e host dir = inr (Some m) →
  mf_Socket m = path_join [dir; socketFileName e host].
Proof.
  unfold desiredMemif. destruct (negb _); [done|]. destruct (_ && _); [done|].
  destruct (if equal_fold _ _ then _ else _); [done|]. by intros [= <-].
Qed.

(** A file in a directory. *)
Lemma path_join_inj d1 d2 f1 f2 :
  d1 ≠ EmptyString → d2 ≠ EmptyString → plain_name f1 = true → plain_name f2 = true →
  path_join [d1; f1] = path_join [d2; f2] ↔ path_clean d1 = path_clean d2 ∧ f1 = f2.
Proof.
  intros Hd1 Hd2 Hf1 Hf2. split.
  - assert (∀ c1 c2 : cpath, CPath (cp_abs c1) (cp_comps c1 ++ [f1]) =
      CPath (cp_abs c2) (cp_comps c2 ++ [f2]) → c1 = c2 ∧ f1 = f2) as Hinj
      by (intros [a1 l1] [a2 l2] [= -> [-> [= ->]]%app_inj_tail]; done).
    intros Heq%(f_equal path_parse). rewrite !path_parse_join in Heq by done.
    apply Hinj in Heq as [Heq ->]. unfold path_clean. by rewrite Heq.
  - intros [Heq%(f_equal path_parse) ->]. rewrite !path_parse_clean in Heq.
    rewrite <- (path_join_clean d1), <- (path_join_clean d2) by done. unfold path_clean.
    by rewrite !path_parse_join, Heq.
Qed.

(** C32: When the socket is an identity of the pods' masters.  Of configurations without
    a socket file of their own, in directories that are not empty, and for container ids of
    at least 12 characters and no slash in them and in the interface names, two desired
    masters have the same socket if and only if the directories are the same (up to
    cleaning), the container ids agree in their first 12 characters and the
    interface names are the same.  (With a configured socket file:
    [desiredMemif_configured].) *)
Theorem desiredMemif_identity e1 e2 host1 host2 dir1 dir2 m1 m2 :
  MemifConf.Socketfile (UserSpaceConf.MemifConf host1) = EmptyString → dir1 ≠ EmptyString →
  MemifConf.Socketfile (UserSpaceConf.MemifConf host2) = EmptyString → dir2 ≠ EmptyString →
  Forall (λ e, 12 ≤ String.length (ConfigurationData.ContainerId e) ∧
               no_char slash (ConfigurationData.ContainerId e) = true ∧
               no_char slash (ConfigurationData.IfName e) = true) [e1; e2] →
  desiredMemif e1 host1 dir1 = inr (Some m1) → desiredMemif e2 host2 dir2 = inr (Some m2) →
  mf_Socket m1 = mf_Socket m2 ↔
  path_clean dir1 = path_clean dir2 ∧
  str_take 12 (ConfigurationData.ContainerId e1) = str_take 12 (ConfigurationData.ContainerId e2) ∧
  ConfigurationData.IfName e1 = ConfigurationData.IfName e2.
Proof.
  intros Hov1 Hdir1 Hov2 Hdir2 [(Hl1 & Hc1 & Hi1) [(Hl2 & Hc2 & Hi2) _]%Forall_cons]%Forall_cons
    ->%desiredMemif_socket ->%desiredMemif_socket.
  unfold socketFileName. rewrite Hov1, Hov2, path_join_inj by (done || by apply SocketFileName_plain).
  split; intros [Hdir Hname]; (split; [exact Hdir|]); [by apply SocketFileName_inj|].
  destruct Hname as [Hid ->]. by apply SocketFileName_same.
Qed.

(** With a socket file in the host configuration every container's master of one
    directory is on this file. *)
Theorem desiredMemif_configured e1 e2 host dir m1 m2 :
  MemifConf.Socketfile (UserSpaceConf.MemifConf host) ≠ EmptyString →
  desiredMemif e1 host dir = inr (Some m1) → desiredMemif e2 host dir = inr (Some m2) →
  mf_Socket m1 = mf_Socket m2.
Proof.
  intros Hov ->%desiredMemif_socket ->%desiredMemif_socket.
  unfold socketFileName, SocketFileName. by rewrite !decide_True.
Qed.

(** ** The list of desired masters *)

Lemma buildDesired_Ok entries host dir out :
  buildDesired entries host dir = inr out →
  out = omap (λ e, match desiredMemif e host dir with inr om => om | inl _ => None end) entries ∧
  ∀ e, e ∈ entries → ∃ om, desiredMemif e host dir = inr om.
Proof.
  revert out. induction entries as [|e es IH]; intros out; simpl.
  { intros [= <-]. split; [done|]. intros e He. by apply elem_of_nil in He. }
  destruct (desiredMemif e host dir) as [err|om] eqn:E; [done|].
  destruct (buildDesired es host dir) as [err|out'] eqn:Eb; [done|].
  destruct (IH out' eq_refl) as [-> Hall]. intros [= <-]. split.
  - by destruct om.
  - intros e' [->|He']%elem_of_cons; [by exists om|by apply Hall].
Qed.

(** buildDesired is all or nothing per pod: it fails exactly when there is
    an entry and the host side is a VPP memif in a bridge whose domain cannot be
    resolved; otherwise it yields one master per entry, in order, when the host
    side is a VPP memif, and none when it is not. *)
Theorem buildDesired_spec entries host dir :
  let vpp_memif := equal_fold (UserSpaceConf.IfType host) "memif" = true ∧
                   (UserSpaceConf.Engine host = EmptyString ∨
                    equal_fold (UserSpaceConf.Engine host) "vpp" = true) in
  let bad_bridge err := equal_fold (UserSpaceConf.NetType host) "bridge" = true ∧
                        bridgeDomainID (UserSpaceConf.BridgeConf host) = inl err in
  match buildDesired entries host dir with
  | inl err => entries ≠ [] ∧ vpp_memif ∧ bad_bridge err
  | inr out =>
      (vpp_memif →
       mf_Socket <$> out = (λ e, path_join [dir; socketFileName e host]) <$> entries) ∧
      (¬ vpp_memif → out = []) ∧
      (entries ≠ [] → vpp_memif → ∀ err, ¬ bad_bridge err)
  end.
Proof.
  intros vpp_memif bad_bridge.
  assert (∀ e, match desiredMemif e host dir with
               | inl err => vpp_memif ∧ bad_bridge err
               | inr None => ¬ vpp_memif
               | inr (Some m) => vpp_memif ∧ ∀ err, ¬ bad_bridge err
               end) as Hone.
  { intros e. unfold desiredMemif, vpp_memif, bad_bridge.
    destruct (equal_fold (UserSpaceConf.IfType host) "memif"); simpl; [|naive_solver].
    destruct (decide (UserSpaceConf.Engine host = EmptyString)) as [He|He].
    - rewrite bool_decide_false by tauto. simpl.
      destruct (equal_fold (UserSpaceConf.NetType host) "bridge"); [|naive_solver].
      destruct (bridgeDomainID _); naive_solver.
    - rewrite bool_decide_true by done. simpl.
      destruct (equal_fold (UserSpaceConf.Engine host) "vpp"); simpl; [|naive_solver].
      destruct (equal_fold (UserSpaceConf.NetType host) "bridge"); [|naive_solver].
      destruct (bridgeDomainID _); naive_solver. }
  induction entries as [|e es IH]; simpl; [naive_solver|].
  specialize (Hone e). destruct (desiredMemif e host dir) as [err|[m|]] eqn:E.
  - naive_solver.
  - apply desiredMemif_socket in E. destruct (buildDesired es host dir) as [err|out].
    + naive_solver.
    + destruct IH as (IH1 & IH2 & IH3). split_and!; [|tauto|naive_solver].
      intros Hv. rewrite !fmap_cons, E. f_equal. by apply IH1.
  - destruct (buildDesired es host dir) as [err|out]; naive_solver.
Qed.

(** ** Reading the short form of the networks annotation *)

(** The characters of names in these texts: printable, and none that the form
    uses itself. *)
Definition label_char (a : ascii) : bool :=
  (33 <=? byte a)%nat && (byte a <=? 126)%nat &&
  negb (existsb (λ n, byte_is a n) [44; 47; 64; 91]).
Definition label (s : string) : Prop := str_all label_char s = true.

(** A text of printable ASCII is not trimmed. *)
Definition printable (s : string) : bool :=
  str_all (λ a, (33 <=? byte a)%nat && (byte a <=? 126)%nat) s.

Lemma strip_none fuel encs s :
  forallb (λ e, negb (has_prefix e s)) encs = true → strip_encodings fuel encs s = s.
Proof.
  intros Hno. destruct fuel; [done|]. simpl.
  assert (List.find (λ e, has_prefix e s) encs = None) as ->; [|done].
  induction encs as [|e encs IH]; [done|]. simpl in *.
  apply andb_prop in Hno as [He%negb_true_iff Hno]. rewrite He. by apply IH.
Qed.

Lemma str_rev_app_all p s acc :
  str_all p (str_rev_app s acc) = str_all p s && str_all p acc.
Proof.
  revert acc. induction s as [|a s IH]; intros acc; simpl; [done|]. rewrite IH. simpl.
  destruct (p a), (str_all p s), (str_all p acc); done.
Qed.

Lemma str_rev_app_rev s acc t : str_rev_app (str_rev_app s acc) t = str_rev_app acc (s +:+ t).
Proof.
  revert acc t. induction s as [|a s IH]; intros acc t; simpl; [done|]. by rewrite IH.
Qed.

Lemma trim_space_printable s : printable s = true → trim_space s = s.
Proof.
  assert (∀ encs, (encs = space_encodings ∨ encs = str_rev <$> space_encodings) →
    ∀ u fuel, printable u = true → strip_encodings fuel encs u = u) as Hstrip.
  { intros encs Hencs [|a u] fuel Hu.
    - apply strip_none. by destruct Hencs as [-> | ->].
    - apply strip_none. unfold printable in Hu. simpl in Hu. apply andb_prop in Hu as [Ha _].
      destruct Hencs as [-> | ->];
        destruct a as [[] [] [] [] [] [] [] []]; try discriminate Ha; reflexivity. }
  intros Hs. unfold trim_space. rewrite (Hstrip space_encodings) by auto.
  rewrite (Hstrip (str_rev <$> space_encodings)); [|auto|].
  - unfold str_rev. rewrite str_rev_app_rev. simpl. apply str_app_nil_r.
  - unfold printable, str_rev in *. by rewrite str_rev_app_all, Hs.
Qed.

Lemma label_printable s : label s → printable s = true.
Proof.
  unfold label, printable. induction s as [|a s IH]; [done|]. simpl.
  intros [Ha Hs]%andb_prop. unfold label_char in Ha. apply andb_prop in Ha as [Ha _].
  by apply andb_true_intro; split; [|apply IH].
Qed.

Lemma label_no_char c s : label s → label_char c = false → no_char c s = true.
Proof.
  unfold label, no_char. induction s as [|a s IH]; [done|]. simpl.
  intros [Ha Hs]%andb_prop Hc. rewrite IH by done. rewrite bool_decide_false; [done|].
  intros ->. congruence.
Qed.

Lemma cut_app c s t : no_char c s = true → cut c (s +:+ String c t) = Some (s, t).
Proof.
  intros Hs. unfold cut. assert (index_char c (s +:+ String c t) = Some (String.length s)) as ->.
  { induction s as [|a s IH]; simpl; [by rewrite decide_True|].
    unfold no_char in Hs. simpl in Hs. apply andb_prop in Hs as [Ha Hs].
    rewrite negb_true_iff, bool_decide_eq_false in Ha. rewrite decide_False by done.
    by rewrite (IH Hs). }
  simpl. f_equal. f_equal; clear Hs.
  - induction s as [|a s IH]; simpl; [done|]. by rewrite IH.
  - induction s as [|a s IH]; simpl; done.
Qed.

Lemma cut_none c s : no_char c s = true → cut c s = None.
Proof.
  intros Hs. unfold cut. assert (index_char c s = None) as ->; [|done].
  induction s as [|a s IH]; [done|]. unfold no_char in Hs. simpl in *.
  apply andb_prop in Hs as [Ha Hs]. rewrite negb_true_iff, bool_decide_eq_false in Ha.
  rewrite decide_False by done. by rewrite (IH Hs).
Qed.

(** The short form, with the namespace written out. *)
Definition render_network (r : networkRef) : string :=
  nr_Namespace r +:+ "/" +:+ nr_Name r +:+
  (if decide (nr_Interface r = EmptyString) then EmptyString else "@" +:+ nr_Interface r).

Definition network_ok (r : networkRef) : Prop :=
  label (nr_Namespace r) ∧ label (nr_Name r) ∧ label (nr_Interface r) ∧
  nr_Namespace r ≠ EmptyString ∧ nr_Name r ≠ EmptyString.

Lemma printable_app s t : printable (s +:+ t) = printable s && printable t.
Proof. apply str_all_app. Qed.

Lemma render_printable r : network_ok r → printable (render_network r) = true.
Proof.
  intros (Hns%label_printable & Hn%label_printable & Hi%label_printable & _).
  unfold render_network. rewrite !printable_app, Hns, Hn. simpl.
  case_decide; [done|]. simpl. done.
Qed.

Lemma short_network_render ns r :
  network_ok r → short_network ns (render_network r) = Some r.
Proof.
  intros Hok. pose proof (render_printable r Hok) as Hp.
  destruct Hok as (Hns & Hn & Hi & Hns0 & Hn0).
  unfold short_network. rewrite trim_space_printable by done.
  assert (render_network r ≠ EmptyString) as Hne.
  { unfold render_network. by destruct (nr_Namespace r). }
  rewrite decide_False by done. unfold render_network in *. destruct r as [rn nm ifc]. simpl in *.
  assert (no_char "@" (rn +:+ "/" +:+ nm) = true) as Hat.
  { unfold no_char. rewrite !str_all_app. simpl.
    change (no_char "@" rn && no_char "@" nm = true).
    by rewrite !label_no_char. }
  case_decide as Hif.
  - subst ifc. rewrite str_app_nil_r, cut_none by done. rewrite cut_app by (by apply label_no_char).
    by rewrite decide_False.
  - assert (rn +:+ String "/" (nm +:+ String "@" ifc) = (rn +:+ "/" +:+ nm) +:+ String "@" ifc)
      as -> by (by rewrite !str_app_assoc).
    rewrite cut_app by done. simpl. rewrite cut_app by (by apply label_no_char).
    by rewrite decide_False.
Qed.

(** Every list of networks with plain names is read back from its short form,
    whatever the default namespace. *)
Theorem parseNetworks_short refs defaultNS :
  Forall network_ok refs →
  parseNetworks (str_join "," (render_network <$> refs)) defaultNS = refs.
Proof.
  intros Hok. destruct refs as [|r refs]; [done|].
  set (l := render_network <$> r :: refs).
  assert (Forall (λ t, printable t = true ∧ no_char "," t = true) l) as Hl.
  { unfold l. apply Forall_fmap, (Forall_impl _ _ _ Hok). intros x Hx. simpl. unfold compose.
    split; [by apply render_printable|]. destruct Hx as (H1 & H2 & H3 & _).
    unfold render_network, no_char. rewrite !str_all_app. simpl.
    change (no_char "," (nr_Namespace x) && (no_char "," (nr_Name x) &&
      no_char "," (if decide (nr_Interface x = EmptyString) then EmptyString
                   else String "@" (nr_Interface x))) = true).
    rewrite !label_no_char by done. case_decide; [done|].
    change (no_char "," (nr_Interface x) = true). by apply label_no_char. }
  assert (printable (str_join "," l) = true) as Hp.
  { clear -Hl. induction Hl as [|t l [Ht _] Hl IH]; [done|]. destruct l; [done|].
    rewrite str_join_cons, !printable_app, Ht, IH. done. }
  assert (∃ a t, str_join "," l = String a t ∧ label_char a = true) as (a & t & Hat & Ha).
  { apply Forall_cons in Hok as [(H1 & _ & _ & H4 & _) _]. unfold l. rewrite fmap_cons.
    unfold render_network at 1. destruct (nr_Namespace r) as [|a s]; [done|].
    unfold label in H1. simpl in H1. apply andb_prop in H1 as [H1 _].
    destruct refs; eexists a, _; (split; [|done]); [done|].
    rewrite fmap_cons, str_join_cons. done. }
  unfold parseNetworks. rewrite trim_space_printable by done.
  rewrite decide_False by (by rewrite Hat).
  assert (has_prefix "[" (str_join "," l) = false) as ->.
  { rewrite Hat. simpl. rewrite bool_decide_false; [done|]. by intros <-. }
  change (str_join "," l) with (str_join (String "," EmptyString) l).
  rewrite split_char_join; [|done|by apply (Forall_impl _ _ _ Hl); intros ? []].
  unfold l. clear -Hok. induction Hok as [|x l Hx Hl IH]; [done|].
  rewrite fmap_cons. cbn [omap list_omap]. by rewrite short_network_render, IH.
Qed.
