(* ===== verification/Dataplane.v ===== *)
(** * pkg/daemon/dataplane_vpp.go: the dataplane over VPP

    [vppDataplane] is the Dataplane instance on a node (VPP and the host's
    files); its laws follow from those of VPP, so what file Reconcile proves of
    any dataplane holds of this one. *)
From S2P Require Import Prelude GoStrings GoOs Types VppApi Memif Bridge Reconcile.

(** ** Modes and prefixes *)

Definition parseMode (mode : string) : Z :=
  let m := to_lower mode in
  if decide (m = "ip") then MEMIF_MODE_API_IP
  else if decide (m = "punt-inject" ∨ m = "inject-punt") then MEMIF_MODE_API_PUNT_INJECT
  else MEMIF_MODE_API_ETHERNET.

Definition modeString (mode : Z) : string :=
  if decide (mode = MEMIF_MODE_API_IP) then "ip"
  else if decide (mode = MEMIF_MODE_API_PUNT_INJECT) then "punt-inject"
  else "ethernet".

Definition comma : ascii := ",".

(** NewVPPDataplane: the prefixes it keeps. *)
Definition NewVPPDataplane (socketPrefix : string) : list string :=
  filter (λ p, p ≠ EmptyString) (trim_space <$> split_char comma socketPrefix).

Definition hasAnyPrefix (s : string) (prefixes : list string) : bool :=
  existsb (λ p, has_prefix p s) prefixes.

(** ** Dumps *)

Definition trim_nul (s : string) : string := trim_right_set (λ a, byte_is a 0) s.

Definition add_socket (socks : gmap Z string) (d : MemifSocketFilenameDetails) : gmap Z string :=
  <[sd_SocketID d := trim_nul (sd_SocketFilename d)]> socks.

(** The body of DumpMasters' loop: the master it appends, if any. *)
Definition master_of (prefixes : list string) (socks : gmap Z string) (det : MemifDetails)
  : option Memif :=
  if decide (md_Role det ≠ MEMIF_ROLE_API_MASTER) then None
  else
    let sock := default EmptyString (socks !! md_SocketID det) in
    if bool_decide (prefixes ≠ []) && negb (hasAnyPrefix sock prefixes) then None
    else Some (dumped_memif sock (md_ID det) (modeString (md_Mode det)) (md_SwIfIndex det)).

(** The socket files under the sweep. *)
Definition orphanSocketMinAge : Z := 60.

Definition is_memif_socket (name : string) : bool :=
  has_prefix "memif-" name && has_suffix ".sock" name.

(** One entry of a scanned directory; the number of files removed so far. *)
Definition sweep_entry (keep : gset string) (dir : string) (e : string * fnode) (removed : Z)
  : go fs Z :=
  if decide (e.2 = Dir) then mret removed
  else if negb (is_memif_socket e.1) then mret removed
  else
    let path := path_join [dir; e.1] in
    if decide (path ∈ keep) then mret removed
    else
      info ← attempt (os_stat path);
      now ← gets fs_now;
      age ← gets (λ f, match info with inr n => Some (now - node_mtime f n)%Z | inl _ => None end);
      match age with
      | None => mret removed
      | Some a =>
          if decide (a < orphanSocketMinAge)%Z then mret removed
          else
            r ← attempt (os_remove path);
            match r with inl _ => mret removed | inr _ => mret (removed + 1)%Z end
      end.

Fixpoint sweep_entries (keep : gset string) (dir : string) (es : list (string * fnode))
    (removed : Z) : go fs Z :=
  match es with
  | [] => mret removed
  | e :: es' => r ← sweep_entry keep dir e removed; sweep_entries keep dir es' r
  end.

Fixpoint sweep_dirs (keep : gset string) (dirs : list string) (removed : Z) : go fs Z :=
  match dirs with
  | [] => mret removed
  | dir :: dirs' =>
      r ← attempt (os_read_dir dir);
      match r with
      | inl _ => sweep_dirs keep dirs' removed
      | inr entries =>
          k ← sweep_entries keep dir entries removed;
          sweep_dirs keep dirs' k
      end
  end.

(** The directories of the wanted sockets. *)
Definition keep_dirs (keep : gset string) : gset string := set_map path_dir keep.

(** The order in which a range over a Go map takes its keys: any. *)
Class MapOrder := {
  map_range : gset string → list string;
  law_map_range s : map_range s ≡ₚ elements s
}.

Lemma elem_of_map_range `{MapOrder} d s : d ∈ map_range s ↔ d ∈ s.
Proof. by rewrite law_map_range, elem_of_elements. Qed.

Section Dataplane.
Context `{VppApi} `{MapOrder}.
Variable fuel : nat.
Variable socketPrefixes : list string.

Definition dumpSockets : go node (gmap Z string) :=
  look (λ n, recv_loop (MemifSocketFilenameDump (node_vpp n))
     (λ _ err, Break (Err (ErrWrap "memif socket dump" err)))
     (λ socks d, Continue (add_socket socks d))
     Ok fuel 0 ∅).

Definition vpp_DumpMasters : go node (list Memif) :=
  socks ← dumpSockets;
  look (λ n, recv_loop (MemifDump (node_vpp n))
     (λ _ rerr, Break (Err (ErrWrap "memif dump" rerr)))
     (λ out det, Continue match master_of socketPrefixes socks det with
                          | Some m => out ++ [m]
                          | None => out
                          end)
     Ok fuel 0 []).

(** The parameters CreateMaster passes to CreateMemifInterface. *)
Definition master_params (m : Memif) (socketID : Z) : CreateParams := {|
  cp_SocketID := socketID;
  cp_Role := MEMIF_ROLE_API_MASTER;
  cp_Mode := parseMode (mf_Mode m);
  cp_RxQueues := mf_RxQueues m;
  cp_TxQueues := mf_TxQueues m;
  cp_RingSize := mf_RingSize m;
  cp_BufferSize := mf_BufferSize m;
  cp_Secret := mf_Secret m;
  cp_NoZeroCopy := mf_NoZeroCopy m;
  cp_UseDma := mf_UseDma m;
  cp_HwAddr := mf_HwAddr m |}.

Definition vpp_CreateMaster (m : Memif) : go node unit :=
  socketID ← wrap_err "memif socket" (CreateMemifSocket fuel (mf_Socket m));
  swIfIndex ← wrap_err "memif create" (CreateMemifInterface (master_params m socketID));
  wrap_err "memif set-up" (SetState swIfIndex IF_STATUS_API_FLAG_ADMIN_UP) ;;
  (if decide (0 < mf_MTU m)%Z then wrap_err "memif set-mtu" (SetMtu swIfIndex (mf_MTU m))
   else mret tt) ;;
  (if decide (mf_BridgeID m ≠ 0)%Z
   then wrap_err "memif bridge add" (AddBridgeInterface fuel (mf_BridgeID m) swIfIndex)
   else mret tt).

Definition vpp_DeleteMaster (m : Memif) : go node unit :=
  wrap_err "memif delete" (DeleteMemifInterface fuel (mf_SwIfIndex m)) ;;
  if decide (mf_Socket m ≠ EmptyString)
  then on_snd (ignore_err (os_remove (mf_Socket m)))
  else mret tt.

Definition vpp_SweepOrphanSockets (keep : gset string) : go node Z :=
  on_snd (sweep_dirs keep (map_range (keep_dirs keep)) 0).

Definition vppDataplane : Dataplane node := {|
  DumpMasters := vpp_DumpMasters;
  CreateMaster := vpp_CreateMaster;
  DeleteMaster := vpp_DeleteMaster;
  SweepOrphanSockets := vpp_SweepOrphanSockets
|}.
End Dataplane.

(** ** Modes *)

(** Reading back a mode that was written gives the mode, for the three modes
    VPP has. *)
Theorem parseMode_modeString mode :
  (0 ≤ mode ≤ 2)%Z → parseMode (modeString mode) = mode.
Proof. intros Hm. assert (mode = 0 ∨ mode = 1 ∨ mode = 2)%Z as [->|[->| ->]] by lia; done. Qed.

(** ** What a dump shows *)

Definition sock_map (l : list MemifSocketFilenameDetails) : gmap Z string :=
  foldl add_socket ∅ l.

Lemma lookup_sock_map l id f :
  NoDup (sd_SocketID <$> l) →
  sock_map l !! id = Some f ↔
  ∃ s, s ∈ l ∧ sd_SocketID s = id ∧ trim_nul (sd_SocketFilename s) = f.
Proof.
  unfold sock_map. induction l as [|s l IH] using rev_ind.
  { intros _. simpl. rewrite lookup_empty. split; [done|]. intros (s & Hs & _).
    by apply elem_of_nil in Hs. }
  rewrite fmap_app, NoDup_app. intros (Hl & Hdis & _). specialize (IH Hl).
  rewrite foldl_app. simpl. unfold add_socket at 1.
  setoid_rewrite elem_of_app. setoid_rewrite list_elem_of_singleton.
  destruct (decide (id = sd_SocketID s)) as [->|Hne].
  - rewrite lookup_insert_eq. split; [intros [= <-]; exists s; tauto|].
    intros (s' & [Hs'| ->] & Heq & <-); [|done]. destruct (Hdis (sd_SocketID s)).
    + rewrite <- Heq. by apply list_elem_of_fmap_2.
    + left.
  - rewrite lookup_insert_ne by done. rewrite IH. split.
    + intros (s' & ? & ? & ?). exists s'. tauto.
    + intros (s' & [?| ->] & ? & ?); [by exists s'|congruence].
Qed.

Lemma recv_list_add_socket l acc :
  recv_list (λ socks d, Continue (add_socket socks d)) Ok l acc =
  (Ok (foldl add_socket acc l) : outcome (gmap Z string)).
Proof. revert acc. induction l as [|d l IH]; intros acc; [done|]. apply IH. Qed.

Lemma recv_list_masters prefixes socks l acc :
  recv_list (λ out det, Continue match master_of prefixes socks det with
                                 | Some m => out ++ [m]
                                 | None => out
                                 end) Ok l acc =
  (Ok (acc ++ omap (master_of prefixes socks) l) : outcome (list Memif)).
Proof.
  revert acc. induction l as [|d l IH]; intros acc; cbn [recv_list omap list_omap].
  - by rewrite app_nil_r.
  - rewrite IH. simpl. destruct (master_of _ _ d); [|done]. by rewrite <- app_assoc.
Qed.

#[local] Obligation Tactic := idtac.

Section Laws.
Context `{VppLaws} `{MapOrder}.
Variable fuel : nat.
Variable prefixes : list string.

(** The masters of a node that the daemon manages. *)
Definition vpp_masters (n : node) : list Memif :=
  omap (master_of prefixes (sock_map (sockets (node_vpp n)))) (memifs (node_vpp n)).

Lemma dumpSockets_Ok n o n' :
  dumpSockets fuel n = (o, n') →
  n' = n ∧ ∀ socks, o = Ok socks → socks = sock_map (sockets (node_vpp n)).
Proof.
  unfold dumpSockets, look. intros [= <- <-]. split; [done|]. intros socks Hrun.
  eapply recv_loop_result in Hrun; [|apply law_socket_dump].
  rewrite recv_list_add_socket in Hrun. by injection Hrun.
Qed.

Lemma vpp_DumpMasters_Ok n o n' :
  vpp_DumpMasters fuel prefixes n = (o, n') →
  n' = n ∧ ∀ l, o = Ok l → l = vpp_masters n.
Proof.
  unfold vpp_DumpMasters. rewrite run_bind.
  destruct (dumpSockets fuel n) as [os n1] eqn:Es. apply dumpSockets_Ok in Es as [-> Hsocks].
  destruct os as [socks|?|?|]; [|by intros [= <- <-]..]. rewrite (Hsocks _ eq_refl).
  unfold look. intros [= <- <-]. split; [done|]. intros l Hrun.
  eapply recv_loop_result in Hrun; [|apply law_memif_dump].
  rewrite recv_list_masters in Hrun. by injection Hrun.
Qed.

(** C27: On a VPP that answers, DumpMasters returns (the fuel covers the dumps),
    leaves everything as it was, and lists, in the order of the dump, exactly
    the interfaces in the master role whose socket file starts with one of the
    configured prefixes (all of them when none is configured). *)
Theorem vpp_DumpMasters_spec n :
  enough fuel n →
  ∃ l, vpp_DumpMasters fuel prefixes n = (Ok l, n) ∧
  ∀ m, m ∈ l ↔ ∃ d s, d ∈ memifs (node_vpp n) ∧ s ∈ sockets (node_vpp n) ∧
    md_SocketID d = sd_SocketID s ∧ md_Role d = MEMIF_ROLE_API_MASTER ∧
    (prefixes = [] ∨ hasAnyPrefix (trim_nul (sd_SocketFilename s)) prefixes = true) ∧
    m = dumped_memif (trim_nul (sd_SocketFilename s)) (md_ID d) (modeString (md_Mode d))
          (md_SwIfIndex d).
Proof.
  intros (Hm & Hs & _). exists (vpp_masters n). split.
  { unfold vpp_DumpMasters, dumpSockets. rewrite run_bind. unfold look at 1.
    rewrite (recv_loop_delivers _ _ _ _ _ _ _ (law_socket_dump _)), recv_list_add_socket by done.
    unfold look. rewrite (recv_loop_delivers _ _ _ _ _ _ _ (law_memif_dump _)) by done.
    by rewrite recv_list_masters. }
  intros m. unfold vpp_masters. rewrite list_elem_of_omap. unfold master_of. split.
  - intros (d & Hd & Heq). destruct (law_memif_socket _ _ Hd) as (s & Hin & Hid).
    rewrite (proj2 (lookup_sock_map _ (md_SocketID d) (trim_nul (sd_SocketFilename s))
      (law_socket_id_nodup _))) in Heq by (by exists s). simpl in Heq.
    case_decide as Hrole; [done|]. destruct (bool_decide _ && _) eqn:Hp; [done|].
    injection Heq as <-. exists d, s. split_and!; try done.
    apply andb_false_iff in Hp as [Hp|Hp].
    + left. rewrite bool_decide_eq_false in Hp. by apply dec_stable.
    + right. by apply negb_false_iff.
  - intros (d & s & Hd & Hin & Hid & Hrole & Hp & ->). exists d. split; [done|].
    rewrite (proj2 (lookup_sock_map _ (md_SocketID d) (trim_nul (sd_SocketFilename s))
      (law_socket_id_nodup _))) by (by exists s). simpl.
    rewrite decide_False by tauto. destruct (bool_decide _ && _) eqn:Hb; [|done].
    apply andb_prop in Hb as [Hb1 Hb2]. rewrite bool_decide_eq_true in Hb1.
    destruct Hp as [?|Hp]; [done|]. by rewrite Hp in Hb2.
Qed.

(** ** The laws of the dataplane *)

Lemma master_of_agree n n' d s :
  s ∈ sockets (node_vpp n) → s ∈ sockets (node_vpp n') → sd_SocketID s = md_SocketID d →
  master_of prefixes (sock_map (sockets (node_vpp n'))) d =
  master_of prefixes (sock_map (sockets (node_vpp n))) d.
Proof.
  intros Hs Hs' Hid. unfold master_of.
  assert (∀ v, s ∈ sockets v →
    sock_map (sockets v) !! md_SocketID d = Some (trim_nul (sd_SocketFilename s))) as Hl.
  { intros v Hv. apply lookup_sock_map; [apply law_socket_id_nodup|by exists s]. }
  by rewrite !Hl.
Qed.

Lemma vpp_masters_same n n' : same_memifs n n' → vpp_masters n' = vpp_masters n.
Proof. unfold vpp_masters. by intros [-> ->]. Qed.

(** Interfaces that keep their registered socket are shown as before. *)
Lemma omap_agree n n' (l : list MemifDetails) :
  (∀ d, d ∈ l → ∃ s, s ∈ sockets (node_vpp n) ∧ s ∈ sockets (node_vpp n') ∧
                     sd_SocketID s = md_SocketID d) →
  omap (master_of prefixes (sock_map (sockets (node_vpp n')))) l =
  omap (master_of prefixes (sock_map (sockets (node_vpp n)))) l.
Proof.
  intros Hl. apply omap_ext_in. intros d (s & ? & ? & ?)%Hl. by eapply master_of_agree.
Qed.

Lemma master_of_index socks d m :
  master_of prefixes socks d = Some m → mf_SwIfIndex m = md_SwIfIndex d.
Proof.
  unfold master_of. case_decide; [done|]. destruct (_ && _); [done|]. by intros [= <-].
Qed.

Lemma vpp_masters_nodup n : NoDup (mf_SwIfIndex <$> vpp_masters n).
Proof.
  unfold vpp_masters. pose proof (law_sw_if_index_nodup (node_vpp n)) as Hnd.
  induction (memifs (node_vpp n)) as [|d l IH]; [constructor|].
  apply NoDup_cons in Hnd as [Hd Hl]. specialize (IH Hl). cbn [omap list_omap].
  destruct (master_of _ _ d) as [m|] eqn:E; [|done]. apply master_of_index in E.
  rewrite fmap_cons. constructor; [|done]. rewrite E.
  intros (m' & Heq & (d' & Hd' & Em')%list_elem_of_omap)%list_elem_of_fmap.
  apply master_of_index in Em'. apply Hd. rewrite Heq, Em'. by apply list_elem_of_fmap_2.
Qed.

(** The desired masters the daemon can see again once it made them. *)
Definition vpp_managed (m : Memif) : Prop :=
  trim_nul (mf_Socket m) = mf_Socket m ∧
  (prefixes = [] ∨ hasAnyPrefix (mf_Socket m) prefixes = true).

Lemma keeps_tail m i :
  keeps same_memifs
    (wrap_err "memif set-up" (SetState i IF_STATUS_API_FLAG_ADMIN_UP) ;;
     (if decide (0 < mf_MTU m)%Z then wrap_err "memif set-mtu" (SetMtu i (mf_MTU m))
      else mret tt) ;;
     (if decide (mf_BridgeID m ≠ 0)%Z
      then wrap_err "memif bridge add" (AddBridgeInterface fuel (mf_BridgeID m) i)
      else mret tt)).
Proof.
  apply keeps_bind; [apply _|by auto with go_db|intros _].
  apply keeps_bind; [apply _| |intros _]; case_decide; auto with go_db.
Qed.

(** The masters when a file came to be registered: the new id has no interface. *)
Lemma vpp_masters_registered n n' :
  memifs (node_vpp n') = memifs (node_vpp n) →
  (∀ s, s ∈ sockets (node_vpp n) → s ∈ sockets (node_vpp n')) →
  vpp_masters n' = vpp_masters n.
Proof.
  intros Hm Hgrow. unfold vpp_masters at 1. rewrite Hm. apply omap_agree. intros d Hd.
  destruct (law_memif_socket _ _ Hd) as (s & Hs & ?). exists s. auto.
Qed.

(** The interface of a master was made: one more master. *)
Lemma vpp_masters_created m id req i n n' :
  vpp_managed m → {| sd_SocketID := id; sd_SocketFilename := mf_Socket m |} ∈ sockets (node_vpp n) →
  memif_create_request (master_params m id) = inr req →
  carried_out memifs sockets (ReqMemifCreateV2 req) i (node_vpp n) (node_vpp n') →
  ∃ x, mf_Socket x = mf_Socket m ∧ vpp_masters n' ≡ₚ x :: vpp_masters n.
Proof.
  intros [Htrim Hpre] Hin Hreq [Hm Hs].
  apply memif_create_request_inr in Hreq as (Hid & Hrole & _). simpl in Hid, Hrole.
  exists (dumped_memif (mf_Socket m) (mc_ID req) (modeString (mc_Mode req)) i).
  split; [done|]. unfold vpp_masters. rewrite Hs, Hm. cbn [omap list_omap].
  unfold master_of at 1. simpl. rewrite Hrole, decide_False by tauto. rewrite Hid.
  rewrite (proj2 (lookup_sock_map _ id (mf_Socket m) (law_socket_id_nodup _))) by (by eexists).
  simpl. destruct (bool_decide _ && _) eqn:Hb; [|done].
  apply andb_prop in Hb as [Hb1 Hb2]. rewrite bool_decide_eq_true in Hb1.
  destruct Hpre as [?|Hp]; [done|]. by rewrite Hp in Hb2.
Qed.

Lemma vpp_CreateMaster_masters m n o n' :
  vpp_CreateMaster fuel m n = (o, n') → vpp_managed m →
  (is_ok o = false ∧ vpp_masters n' = vpp_masters n) ∨
  ∃ x, mf_Socket x = mf_Socket m ∧ vpp_masters n' ≡ₚ x :: vpp_masters n.
Proof.
  intros Hrun Hman. unfold vpp_CreateMaster in Hrun. rewrite run_bind in Hrun.
  unfold wrap_err at 1 in Hrun.
  destruct (CreateMemifSocket fuel (mf_Socket m) n) as [os n1] eqn:Esock.
  destruct (is_ok os) eqn:Eos.
  2:{ left. assert (vpp_masters n1 = vpp_masters n) as Hsame.
      { destruct (CreateMemifSocket_not_ok _ _ _ _ _ Esock Eos) as [Hs|[id Hreg]];
          [by apply vpp_masters_same|].
        apply vpp_masters_registered; [apply Hreg|]. intros s. by eapply registered_sockets. }
      destruct os; by simplify_eq/=. }
  destruct os as [id|?|?|]; try done. cbn in Hrun.
  pose proof (CreateMemifSocket_sockets _ _ _ _ _ Esock) as [Hin Hgrow].
  apply CreateMemifSocket_Ok in Esock as [Hm1 _].
  pose proof (vpp_masters_registered _ _ Hm1 Hgrow) as Hsame1. rewrite <- Hsame1.
  rewrite run_bind in Hrun. unfold wrap_err at 1 in Hrun.
  destruct (CreateMemifInterface (master_params m id) n1) as [oi n2] eqn:Eif.
  destruct (is_ok oi) eqn:Eoi.
  2:{ destruct (CreateMemifInterface_not_ok _ _ _ _ Eif Eoi) as [Hsame|(req & i & Hreq & Hc)].
      - left. destruct oi; simplify_eq/=; (split; [done|by apply vpp_masters_same]).
      - right. destruct oi; simplify_eq/=; by eapply vpp_masters_created. }
  destruct oi as [i|?|?|]; try done. right.
  apply CreateMemifInterface_Ok in Eif as (req & Hreq & Hc%law_reply).
  assert (vpp_masters n' = vpp_masters n2) as ->.
  { apply vpp_masters_same. pose proof (keeps_tail m i n2) as Hk. cbn in Hrun, Hk.
    by rewrite Hrun in Hk. }
  by eapply vpp_masters_created.
Qed.

Lemma omap_filter_index socks i (l : list MemifDetails) :
  omap (master_of prefixes socks) (filter (λ d, md_SwIfIndex d ≠ i) l) =
  filter (λ x, mf_SwIfIndex x ≠ i) (omap (master_of prefixes socks) l).
Proof.
  induction l as [|d l IH]; [done|]. rewrite filter_cons. cbn [omap list_omap].
  destruct (master_of prefixes socks d) as [m|] eqn:E.
  - apply master_of_index in E as Hi. rewrite filter_cons, Hi. case_decide; [|done].
    cbn [omap list_omap]. by rewrite E, IH.
  - case_decide; [|done]. cbn [omap list_omap]. by rewrite E, IH.
Qed.

Lemma vpp_DeleteMaster_masters m n o n' :
  vpp_DeleteMaster fuel m n = (o, n') →
  (is_ok o = false ∧ vpp_masters n' = vpp_masters n) ∨
  vpp_masters n' ≡ₚ filter (λ x, mf_SwIfIndex x ≠ mf_SwIfIndex m) (vpp_masters n).
Proof.
  intros Hrun. unfold vpp_DeleteMaster in Hrun. rewrite run_bind in Hrun.
  unfold wrap_err in Hrun.
  destruct (DeleteMemifInterface fuel (mf_SwIfIndex m) n) as [od n1] eqn:Ed.
  assert (vpp_masters n' = vpp_masters n1 ∧ (is_ok od = false → is_ok o = false)) as [-> Hok].
  { destruct od as [[]|?|?|]; simplify_eq/=; try done. split; [|done].
    assert (keeps same_memifs (if decide (mf_Socket m ≠ EmptyString)
      then on_snd (ignore_err (os_remove (mf_Socket m))) else mret tt : go node unit)) as Hk
      by (case_decide; auto with go_db).
    apply vpp_masters_same. specialize (Hk n1). by rewrite Hrun in Hk. }
  apply DeleteMemifInterface_any in Ed as [[Ho Hsame]|(Hm & _ & Hs)].
  { left. split; [by apply Hok|]. by apply vpp_masters_same. }
  right. unfold vpp_masters at 1. rewrite (omap_agree n n1).
  - unfold vpp_masters. by rewrite Hm, omap_filter_index.
  - intros d Hd. assert (d ∈ memifs (node_vpp n)) as Hd'.
    { rewrite Hm in Hd. by apply list_elem_of_filter in Hd as [_ ?]. }
    destruct (law_memif_socket _ _ Hd') as (s & ? & ?). exists s. split_and!; [done| |done].
    by apply (Hs s d).
Qed.

#[export] Program Instance vpp_dataplane_laws :
  @DataplaneLaws node (vppDataplane fuel prefixes) := {|
  masters := vpp_masters;
  managed := vpp_managed
|}.
Next Obligation. apply vpp_masters_nodup. Qed.
Next Obligation.
  intros n o n' [-> Hl]%vpp_DumpMasters_Ok. done.
Qed.
Next Obligation. intros m n o n' Hrun Hm. by eapply vpp_CreateMaster_masters. Qed.
Next Obligation. intros m n o n' Hrun. by eapply vpp_DeleteMaster_masters. Qed.
Next Obligation. intros keep n. apply vpp_masters_same. apply on_snd_keeps. Qed.
End Laws.

(** ** The sweep *)

(** A node the sweep of [dirs] may remove: a file or socket named memif-*.sock
    in one of the directories, not wanted, and at least a minute old. *)
Definition sweepable (keep : gset string) (dirs : list string) (f : fs) (c : cpath) : Prop :=
  ∃ dir name n, dir ∈ dirs ∧ is_memif_socket name = true ∧
    c = path_parse (path_join [dir; name]) ∧ (path_join [dir; name] ∉ keep) ∧
    fs_nodes f !! c = Some n ∧ n ≠ Dir ∧ (orphanSocketMinAge ≤ fs_now f - node_mtime f n)%Z.

(** From [f1] to [f2] nothing but sweepable nodes went. *)
Definition swept (keep : gset string) (dirs : list string) (f1 f2 : fs) : Prop :=
  fs_env f1 f2 ∧
  ∀ c, fs_nodes f2 !! c = fs_nodes f1 !! c ∨
       fs_nodes f2 !! c = None ∧ sweepable keep dirs f1 c.

#[local] Instance swept_preorder keep dirs : PreOrder (swept keep dirs).
Proof.
  split; [intros f; split; [done|by left]|].
  intros f1 f2 f3 [He12 H12] [He23 H23]. split; [by etrans|]. intros c.
  destruct (H12 c) as [Heq|[Hn Hs]], (H23 c) as [Heq'|[Hn' Hs']].
  - left. congruence.
  - right. split; [done|].
    destruct Hs' as (dir & name & n & ? & ? & ? & ? & Hc & Hd & Ha).
    exists dir, name, n. split_and!; try done; [congruence|].
    destruct He12 as [He12 _]. destruct n; simpl in *; rewrite ?He12; done.
  - right. split; [congruence|done].
  - right. by split.
Qed.

Lemma on_path_inv {A} sc p (k : cpath → go fs A) f o f' :
  on_path sc p k f = (o, f') →
  (∃ e, o = Err (ErrOs e) ∧ f' = f) ∨
  p ≠ EmptyString ∧ fs_fault f sc (path_parse p) = None ∧ k (path_parse p) f = (o, f').
Proof.
  unfold on_path. case_decide as Hp; [intros [= <- <-]; left; by eexists|].
  destruct (fs_fault _ _ _) eqn:E; [intros [= <- <-]; left; by eexists|]. by right.
Qed.

(** The two reads of the state between the calls of [sweep_entry]. *)
Ltac run_clock H := do 2 (cbn in H; rewrite run_bind, run_gets in H); cbn in H.

(** One entry: kept, or swept. *)
Lemma sweep_entry_inv keep dir name n0 removed f o f' :
  sweep_entry keep dir (name, n0) removed f = (o, f') →
  let c := path_parse (path_join [dir; name]) in
  (f' = f ∧ o = Ok removed) ∨
  (sweepable keep [dir] f c ∧ n0 ≠ Dir ∧ o = Ok (removed + 1)%Z ∧
   f' = fs_with_nodes f (delete c (fs_nodes f))).
Proof.
  intros Hrun c. unfold sweep_entry in Hrun. simpl in Hrun.
  case_decide as Hdir; [by go_ret; left|].
  destruct (is_memif_socket name) eqn:Hname; simpl in Hrun; [|by go_ret; left].
  case_decide as Hkeep; [by go_ret; left|].
  rewrite run_bind, run_attempt in Hrun.
  destruct (os_stat (path_join [dir; name]) f) as [os f1] eqn:Est.
  pose proof (os_stat_same (path_join [dir; name]) f) as Hsame. rewrite Est in Hsame.
  simpl in Hsame. subst f1.
  apply on_path_inv in Est as [(e & -> & _)|(Hne & _ & Hst)]; [by run_clock Hrun; go_ret; left|].
  destruct (fs_lookup f (path_parse (path_join [dir; name]))) as [n|] eqn:Hl;
    simplify_eq; [|by run_clock Hrun; go_ret; left].
  run_clock Hrun. case_decide as Hage; [by go_ret; left|].
  assert (n ≠ Dir) as Hn by (intros ->; simpl in Hage; unfold orphanSocketMinAge in Hage; lia).
  rewrite run_bind, run_attempt in Hrun.
  destruct (os_remove (path_join [dir; name]) f) as [orm f1] eqn:Erm.
  apply on_path_inv in Erm as [(e & -> & ->)|(_ & _ & Hrm)]; [by cbn in Hrun; go_ret; left|].
  rewrite Hl in Hrm. right.
  assert (fs_nodes f !! c = Some n) as Hnode.
  { unfold fs_lookup in Hl. fold c in Hl. by destruct (cp_comps c); [congruence|]. }
  assert (sweepable keep [dir] f c) as Hsw.
  { exists dir, name, n. split_and!; try done; [left|]. lia. }
  destruct n; [done|..]; simplify_eq; cbn in Hrun; by go_ret.
Qed.

Lemma sweepable_mono keep dirs dirs' f c :
  (∀ d, d ∈ dirs → d ∈ dirs') → sweepable keep dirs f c → sweepable keep dirs' f c.
Proof. intros Hsub (d & name & n & Hd & Hrest). exists d, name, n. split; [by apply Hsub|done]. Qed.

Lemma sweep_entry_swept keep dir dirs e removed :
  dir ∈ dirs → keeps (swept keep dirs) (sweep_entry keep dir e removed).
Proof.
  intros Hdir f. destruct e as [name n0].
  destruct (sweep_entry keep dir (name, n0) removed f) as [o f'] eqn:E.
  apply sweep_entry_inv in E as [[-> _]|(Hsw & _ & _ & ->)]; [done|].
  split; [done|]. intros c. simpl.
  destruct (decide (c = path_parse (path_join [dir; name]))) as [->|Hne].
  - right. split; [by rewrite lookup_delete_eq|].
    eapply sweepable_mono; [|done]. by intros d ->%list_elem_of_singleton.
  - left. by rewrite lookup_delete_ne.
Qed.

Lemma sweep_entries_swept keep dir dirs es removed :
  dir ∈ dirs → keeps (swept keep dirs) (sweep_entries keep dir es removed).
Proof.
  intros Hdir. revert removed. induction es as [|e es IH]; intros removed; simpl.
  - by apply keeps_ret, _.
  - apply keeps_bind; [apply _|by apply sweep_entry_swept|done].
Qed.

Lemma sweep_dirs_swept keep dirs dirs' removed :
  (∀ d, d ∈ dirs → d ∈ dirs') → keeps (swept keep dirs') (sweep_dirs keep dirs removed).
Proof.
  revert removed. induction dirs as [|dir dirs IH]; intros removed Hsub; simpl.
  - by apply keeps_ret, _.
  - apply keeps_bind; [apply _| |].
    + apply keeps_attempt. intros f. by rewrite os_read_dir_same.
    + intros [e|entries]; [apply IH; intros; apply Hsub; by right|].
      apply keeps_bind; [apply _|apply sweep_entries_swept, Hsub; left|].
      intros k. apply IH. intros. apply Hsub. by right.
Qed.

Lemma path_dir_ne k : path_dir k ≠ EmptyString.
Proof.
  unfold path_dir, path_clean. set (p := path_parse _).
  unfold path_print. destruct (cp_abs p); [done|]. destruct (cp_comps p) eqn:Ep; [done|].
  pose proof (comps_no_slash p (path_parse_wf _)) as Hns. rewrite Ep in *.
  apply Forall_cons in Hns as [[_ Hs] _]. destruct s as [|a s]; [done|].
  by destruct l.
Qed.

(** C29: The sweep removes nothing but regular files or sockets named
    memif-*.sock that lie in the directory of a wanted socket, are at least a
    minute old and are not wanted themselves; in particular the file of a
    wanted socket (given by its cleaned path) is left as it is, and so is VPP. *)
Theorem SweepOrphanSockets_safe `{VppApi} `{MapOrder} keep n :
  let n' := (vpp_SweepOrphanSockets keep n).2 in
  node_vpp n' = node_vpp n ∧
  (∀ c, fs_nodes (node_fs n') !! c = fs_nodes (node_fs n) !! c ∨
        fs_nodes (node_fs n') !! c = None ∧
        sweepable keep (map_range (keep_dirs keep)) (node_fs n) c) ∧
  (∀ k, k ∈ keep → path_clean k = k →
        fs_nodes (node_fs n') !! path_parse k = fs_nodes (node_fs n) !! path_parse k).
Proof.
  unfold vpp_SweepOrphanSockets, on_snd, node_vpp, node_fs.
  pose proof (sweep_dirs_swept keep (map_range (keep_dirs keep)) _ 0 (λ _ H, H) n.2) as [_ Hsw].
  destruct (sweep_dirs keep (map_range (keep_dirs keep)) 0 n.2) as [o f'] eqn:E. simpl in *.
  split_and!; [done|done|]. intros k Hk Hclean.
  destruct (Hsw (path_parse k)) as [?|[_ (dir & name & n0 & Hdir & _ & Hc & Hno & _)]]; [done|].
  destruct Hno. apply elem_of_map_range, elem_of_map in Hdir as (k' & -> & _).
  assert (k = path_join [path_dir k'; name]) as <-; [|done].
  rewrite <- Hclean. unfold path_clean at 1. rewrite Hc. apply path_join_clean, path_dir_ne.
Qed.

(** *** The sweep leaves nothing sweepable *)

(** No sweepable node is left under the name. *)
Definition clean_name (keep : gset string) (dir name : string) (f : fs) : Prop :=
  ∀ n, fs_nodes f !! path_parse (path_join [dir; name]) = Some n → n ≠ Dir →
       (orphanSocketMinAge ≤ fs_now f - node_mtime f n)%Z → path_join [dir; name] ∈ keep.

Lemma clean_name_mono keep dirs dir name f f' :
  swept keep dirs f f' → clean_name keep dir name f → clean_name keep dir name f'.
Proof.
  intros [[Hnow _] Hsw] Hclean n Hn Hd Ha. apply (Hclean n); [|done|].
  - destruct (Hsw (path_parse (path_join [dir; name]))) as [<-|[? _]]; congruence.
  - by destruct n; simpl in *; rewrite Hnow.
Qed.

Lemma path_join_ne d f : d ≠ EmptyString → plain_name f = true → path_join [d; f] ≠ EmptyString.
Proof.
  intros Hd Hf Heq. pose proof (path_parse_join d f Hd Hf) as Hp. rewrite Heq in Hp.
  change (path_parse EmptyString) with (CPath false []) in Hp.
  injection Hp as _ Hp. by apply app_cons_not_nil in Hp.
Qed.

Lemma sweep_entry_complete keep dir name n0 removed f :
  (∀ sc p, fs_fault f sc p = None) → dir ≠ EmptyString → plain_name name = true →
  is_memif_socket name = true → n0 ≠ Dir →
  clean_name keep dir name (sweep_entry keep dir (name, n0) removed f).2.
Proof.
  intros Hnf Hdir Hplain Hmemif Hn0.
  pose proof (path_join_ne _ _ Hdir Hplain) as Hne.
  destruct (sweep_entry keep dir (name, n0) removed f) as [o f'] eqn:Hrun.
  apply sweep_entry_inv in Hrun as Hinv. simpl. intros n Hn Hd Ha.
  destruct Hinv as [[-> ->]|(_ & _ & _ & ->)]; [|by simpl in Hn; rewrite lookup_delete_eq in Hn].
  apply dec_stable. intros Hkeep. unfold sweep_entry in Hrun. simpl in Hrun.
  rewrite decide_False in Hrun by done. rewrite Hmemif in Hrun. simpl in Hrun.
  rewrite decide_False in Hrun by done.
  assert (fs_lookup f (path_parse (path_join [dir; name])) = Some n) as Hl.
  { assert (cp_comps (path_parse (path_join [dir; name])) ≠ []) as Hc.
    { rewrite path_parse_join by done. intros [_ ?]%app_eq_nil. done. }
    unfold fs_lookup. by destruct (cp_comps _). }
  rewrite run_bind, run_attempt in Hrun. unfold os_stat, on_path in Hrun.
  rewrite decide_False, Hnf, Hl in Hrun by done. run_clock Hrun.
  rewrite decide_False in Hrun by lia.
  rewrite run_bind, run_attempt, (os_remove_file _ _ n) in Hrun by done.
  cbn in Hrun. injection Hrun as ? _. lia.
Qed.

Lemma sweep_entries_complete keep dir es removed f :
  (∀ sc p, fs_fault f sc p = None) → dir ≠ EmptyString →
  (∀ name n0 n, (name, n0) ∈ es → plain_name name = true →
     fs_nodes f !! path_parse (path_join [dir; name]) = Some n → n = n0) →
  ∀ name n0, (name, n0) ∈ es → plain_name name = true → is_memif_socket name = true →
    clean_name keep dir name (sweep_entries keep dir es removed f).2.
Proof.
  intros Hnf Hdir. revert removed f Hnf.
  induction es as [|[name0 m0] es IH]; intros removed f Hnf Hsame name n0 Hin Hplain Hmemif.
  { by apply elem_of_nil in Hin. }
  simpl. rewrite run_bind.
  pose proof (sweep_entry_swept keep dir [dir] (name0, m0) removed ltac:(left) f) as Hsw.
  pose proof (λ Hp Hm Hd, sweep_entry_complete keep dir name0 m0 removed f Hnf Hdir Hp Hm Hd)
    as Hcomp.
  destruct (sweep_entry keep dir (name0, m0) removed f) as [o f1] eqn:Hrun.
  apply sweep_entry_inv in Hrun. simpl in Hsw, Hcomp.
  assert (∃ k, o = Ok k) as [k ->] by (destruct Hrun as [[_ ->]|(_ & _ & -> & _)]; by eexists).
  assert (∀ c n, fs_nodes f1 !! c = Some n → fs_nodes f !! c = Some n) as Hback.
  { intros c n Hc. destruct Hsw as [_ Hs]. destruct (Hs c) as [?|[? _]]; congruence. }
  assert (∀ sc p, fs_fault f1 sc p = None) as Hnf1.
  { destruct Hsw as [[_ <-] _]. done. }
  assert (∀ name n0 n, (name, n0) ∈ es → plain_name name = true →
    fs_nodes f1 !! path_parse (path_join [dir; name]) = Some n → n = n0) as Hsame1.
  { intros nm x y Hx Hp Hy. apply (Hsame nm); [by right|done|by apply Hback]. }
  apply elem_of_cons in Hin as [[= -> ->]|Hin]; [|by eapply IH].
  eapply clean_name_mono; [by apply (sweep_entries_swept keep dir [dir]); left|].
  destruct (decide (m0 = Dir)) as [->|Hd]; [|by apply Hcomp].
  intros n Hn Hd _. destruct Hd. apply (Hsame name0); [left|done|by apply Hback].
Qed.

Lemma swept_dir keep dirs f f' c :
  swept keep dirs f f' → fs_lookup f c = Some Dir → fs_lookup f' c = Some Dir.
Proof.
  intros [_ Hs] Hl. unfold fs_lookup in *. destruct (cp_comps c); [done|].
  destruct (Hs c) as [->|[_ (d & nm & n & _ & _ & _ & _ & Hc & Hn & _)]]; [done|congruence].
Qed.

Lemma sweep_dirs_complete keep dirs removed f :
  (∀ sc p, fs_fault f sc p = None) →
  (∀ dir, dir ∈ dirs → dir ≠ EmptyString ∧ fs_lookup f (path_parse dir) = Some Dir) →
  ∃ k, (sweep_dirs keep dirs removed f).1 = Ok k ∧
  ∀ dir name, dir ∈ dirs → plain_name name = true → is_memif_socket name = true →
    clean_name keep dir name (sweep_dirs keep dirs removed f).2.
Proof.
  revert removed f. induction dirs as [|dir dirs IH]; intros removed f Hnf Hdirs.
  { exists removed. split; [done|]. intros dir name Hd. by apply elem_of_nil in Hd. }
  destruct (Hdirs dir ltac:(left)) as [Hne Hl].
  simpl. rewrite run_bind, run_attempt. unfold os_read_dir, on_path.
  rewrite decide_False, Hnf, Hl by done. rewrite run_bind.
  assert (∀ es r f, ∃ k, (sweep_entries keep dir es r f).1 = Ok k) as Htot.
  { induction es as [|[nm x] es IHe]; intros r g; [by eexists|]. simpl. rewrite run_bind.
    destruct (sweep_entry keep dir (nm, x) r g) as [o g'] eqn:E.
    apply sweep_entry_inv in E as [[_ ->]|(_ & _ & -> & _)]; apply IHe. }
  pose proof (sweep_entries_complete keep dir (fs_children f (path_parse dir)) removed f Hnf Hne)
    as Hcomp.
  pose proof (sweep_entries_swept keep dir [dir] (fs_children f (path_parse dir)) removed
    ltac:(left) f) as Hsw.
  destruct (Htot (fs_children f (path_parse dir)) removed f) as [k Hk].
  destruct (sweep_entries keep dir (fs_children f (path_parse dir)) removed f) as [o f1].
  simpl in Hk, Hcomp, Hsw. subst o.
  destruct (IH k f1) as (k' & Hk' & Hrest).
  { destruct Hsw as [[_ <-] _]. done. }
  { intros d Hd. destruct (Hdirs d ltac:(by right)). split; [done|by eapply swept_dir]. }
  exists k'. split; [done|]. intros d name Hd Hplain Hmemif.
  apply elem_of_cons in Hd as [->|Hd]; [|by apply Hrest].
  eapply clean_name_mono; [by apply (sweep_dirs_swept keep dirs dirs)|].
  destruct (fs_nodes f !! path_parse (path_join [dir; name])) as [n0|] eqn:E.
  - apply (Hcomp) with (n0 := n0); [|by rewrite elem_of_children, <- path_parse_join|done..].
    intros nm x n Hx Hp Hn. apply elem_of_children in Hx.
    rewrite path_parse_join in Hn by done. congruence.
  - intros n Hn. destruct Hsw as [_ Hs].
    destruct (Hs (path_parse (path_join [dir; name]))) as [?|[? _]]; congruence.
Qed.

(** C30: When no system call fails and the directories of the wanted sockets are
    there, the sweep returns and leaves no orphan in them: a file or socket named
    memif-*.sock that is still there is wanted or less than a minute old. *)
Theorem SweepOrphanSockets_complete `{VppApi} `{MapOrder} keep n :
  (∀ sc p, fs_fault (node_fs n) sc p = None) →
  (∀ k, k ∈ keep → fs_lookup (node_fs n) (path_parse (path_dir k)) = Some Dir) →
  ∃ removed n', vpp_SweepOrphanSockets keep n = (Ok removed, n') ∧
  ∀ k name x, k ∈ keep → plain_name name = true → is_memif_socket name = true →
    fs_nodes (node_fs n') !! path_parse (path_join [path_dir k; name]) = Some x → x ≠ Dir →
    (orphanSocketMinAge ≤ fs_now (node_fs n') - node_mtime (node_fs n') x)%Z →
    path_join [path_dir k; name] ∈ keep.
Proof.
  intros Hnf Hdirs. unfold vpp_SweepOrphanSockets, on_snd.
  destruct (sweep_dirs_complete keep (map_range (keep_dirs keep)) 0 n.2) as (k & Hk & Hclean);
    [done| |].
  { intros dir (k & -> & Hk)%elem_of_map_range%elem_of_map.
    split; [apply path_dir_ne|by apply Hdirs]. }
  destruct (sweep_dirs keep (map_range (keep_dirs keep)) 0 n.2) as [o f']. simpl in *. subst o.
  exists k, (n.1, f'). split; [done|]. intros k' name x Hk' Hplain Hmemif.
  apply Hclean; [|done..]. by apply elem_of_map_range, elem_of_map_2.
Qed.

(** ** Creating a master *)

(** C28: When CreateMaster reports success, VPP has one more interface: a memif
    in the master role and the requested mode, with memif id 0, on a socket
    registered for the requested file, and a member of the requested bridge
    domain when there is one; the other interfaces are as before. *)
Theorem vpp_CreateMaster_ok `{VppLaws} `{!VppBridgeLaws} fuel m n n' :
  1 < fuel → vpp_CreateMaster fuel m n = (Ok tt, n') →
  ∃ i id, memifs (node_vpp n') ≡ₚ
      {| md_SwIfIndex := i; md_ID := 0; md_SocketID := id;
         md_Role := MEMIF_ROLE_API_MASTER; md_Mode := parseMode (mf_Mode m) |}
      :: memifs (node_vpp n) ∧
    {| sd_SocketID := id; sd_SocketFilename := mf_Socket m |} ∈ sockets (node_vpp n') ∧
    (mf_BridgeID m ≠ 0%Z →
     ∃ members, bridges (node_vpp n') !! mf_BridgeID m = Some members ∧ i ∈ members).
Proof.
  intros Hfuel Hrun. unfold vpp_CreateMaster in Hrun.
  apply bind_Ok_inv in Hrun as (id & n1 & Hsock%wrap_err_Ok_inv & Hrun).
  apply bind_Ok_inv in Hrun as (i & n2 & Hif%wrap_err_Ok_inv & Hrun).
  pose proof (keeps_tail fuel m i n2) as [Hm3 Hs3]. rewrite Hrun in Hm3, Hs3. simpl in Hm3, Hs3.
  apply CreateMemifSocket_sockets in Hsock as Hin. destruct Hin as [Hin _].
  apply CreateMemifSocket_Ok in Hsock as [Hm1 _].
  apply CreateMemifInterface_Ok in Hif as (req & Hreq & [Hm2 Hs2]%law_create).
  apply memif_create_request_inr in Hreq as (Hid & Hrole & Hmode & Hzero).
  exists i, id. split_and!.
  - rewrite <- Hm3, Hm2, Hm1, Hid, Hrole, Hmode, Hzero. done.
  - by rewrite <- Hs3, Hs2.
  - intros Hb. apply bind_Ok_inv in Hrun as ([] & n3 & _ & Hrun).
    apply bind_Ok_inv in Hrun as ([] & n4 & _ & Hrun).
    rewrite decide_True in Hrun by done. apply wrap_err_Ok_inv in Hrun.
    eapply AddBridgeInterface_members in Hrun; [|done].
    eexists. split; [exact Hrun|]. set_solver.
Qed.

(** ** A master that was only half made *)

(** A master whose creation fails after memif_create (bringing it up,
    setting its MTU or joining its bridge was refused) is a master on the desired
    socket all the same, so no later Diff lists it for creation: a later
    reconcile does not repeat the steps that failed. *)
Theorem Diff_skips_half_made `{VppLaws} fuel prefixes desired m n e n' :
  vpp_managed prefixes m → m ∈ desired → vpp_CreateMaster fuel m n = (Err e, n') →
  length (vpp_masters prefixes n') ≠ length (vpp_masters prefixes n) →
  ∀ m', m' ∈ (Diff desired (vpp_masters prefixes n')).1 → mf_Socket m' ≠ mf_Socket m.
Proof.
  intros Hman Hm Hrun Hlen m' Hm' Heq.
  apply (vpp_CreateMaster_masters fuel prefixes) in Hrun as [[_ Hsame]|(x & Hx & Hp)]; [..|done].
  - by rewrite Hsame in Hlen.
  - simpl in Hm'. apply list_elem_of_filter in Hm' as [Hno _]. apply Hno, elem_of_socket_set.
    exists x. split; [rewrite Hp; left|congruence].
Qed.
