(* ===== verification/Threads.v ===== *)
(** * Interleaved calls

    A call of the other files runs alone.  Here a call is a program: a tree of atomic
    steps over a shared state, each of which is one request, one dump or one file
    operation of the sequential model.  [alone] runs it without interruption, a
    configuration is a list of programs over the shared state, and [safe] is
    rely-guarantee reasoning: what a program promises as long as the others keep
    the relation it relies on. *)
From S2P Require Import Prelude.

Inductive prog (S A : Type) : Type :=
  | Done (o : outcome A)
  | Act {R : Type} (m : go S R) (k : outcome R → prog S A).
Arguments Done {S A} o.
Arguments Act {S A R} m k.

(** The outcome of a call that did not return a value, as one of another type. *)
Definition recast {A B} (o : outcome A) : outcome B :=
  match o with
  | Ok _ => Diverged
  | Err e => Err e
  | Panicked w => Panicked w
  | Diverged => Diverged
  end.

#[global] Instance prog_ret S : MRet (prog S) := λ A a, Done (Ok a).
#[global] Instance prog_bind S : MBind (prog S) := λ A B f,
  fix bind p :=
    match p with
    | Done (Ok a) => f a
    | Done o => Done (recast o)
    | Act m k => Act m (λ r, bind (k r))
    end.

Section Programs.
Context {S : Type}.

(** One step. *)
Definition atomic {A} (m : go S A) : prog S A := Act m Done.

(** A computation that does not look at the shared state. *)
Definition local {A} (o : outcome A) : prog S A := Done o.

(** [v, err := p()], [_ = p()] and [defer m()]. *)
Fixpoint attempt_p {A} (p : prog S A) : prog S (result A) :=
  match p with
  | Done (Ok a) => Done (Ok (inr a))
  | Done (Err e) => Done (Ok (inl e))
  | Done (Panicked w) => Done (Panicked w)
  | Done Diverged => Done Diverged
  | Act m k => Act m (λ r, attempt_p (k r))
  end.

Definition ignore_err_p (p : prog S unit) : prog S unit := attempt_p p ≫= λ _, mret tt.

Fixpoint wrap_err_p {A} (msg : string) (p : prog S A) : prog S A :=
  match p with
  | Done (Err e) => Done (Err (ErrWrap msg e))
  | Done o => Done o
  | Act m k => Act m (λ r, wrap_err_p msg (k r))
  end.

Fixpoint finally {A} (p : prog S A) (cleanup : S → S) : prog S A :=
  match p with
  | Done Diverged => Done Diverged
  | Done o => Act (modify cleanup) (λ _, Done o)
  | Act m k => Act m (λ r, finally (k r) cleanup)
  end.

(** ** Running alone *)

Fixpoint alone {A} (p : prog S A) : go S A :=
  match p with
  | Done o => λ s, (o, s)
  | Act m k => λ s, let '(r, s') := m s in alone (k r) s'
  end.

Lemma alone_atomic {A} (m : go S A) s : alone (atomic m) s = m s.
Proof. simpl. by destruct (m s). Qed.

Lemma alone_bind {A B} (p : prog S A) (f : A → prog S B) s :
  alone (p ≫= f) s = (alone p ≫= λ a, alone (f a)) s.
Proof.
  rewrite run_bind. revert s. induction p as [o|R m k IH]; intros s.
  - by destruct o.
  - simpl. destruct (m s) as [r s']. apply IH.
Qed.

Lemma alone_attempt {A} (p : prog S A) s : alone (attempt_p p) s = attempt (alone p) s.
Proof.
  rewrite run_attempt. revert s. induction p as [o|R m k IH]; intros s.
  - by destruct o.
  - simpl. destruct (m s) as [r s']. apply IH.
Qed.

Lemma alone_ignore_err (p : prog S unit) s : alone (ignore_err_p p) s = ignore_err (alone p) s.
Proof. unfold ignore_err_p, ignore_err. rewrite alone_bind, !run_bind, alone_attempt. done. Qed.

Lemma alone_wrap_err {A} msg (p : prog S A) s :
  alone (wrap_err_p msg p) s = wrap_err msg (alone p) s.
Proof.
  unfold wrap_err. revert s. induction p as [o|R m k IH]; intros s.
  - by destruct o.
  - simpl. destruct (m s) as [r s']. apply IH.
Qed.

Lemma alone_finally {A} (p : prog S A) c s : alone (finally p c) s = with_defer (alone p) c s.
Proof.
  unfold with_defer. revert s. induction p as [o|R m k IH]; intros s.
  - by destruct o.
  - simpl. destruct (m s) as [r s']. apply IH.
Qed.

(** ** Configurations *)

Notation config A := (list (prog S A) * S)%type.

(** One step: of a thread, or of the surroundings [E]. *)
Inductive step {A} (E : relation S) : relation (config A) :=
  | step_thread i R (m : go S R) k ts s :
      ts !! i = Some (Act m k) →
      step E (ts, s) (<[i := k (m s).1]> ts, (m s).2)
  | step_env ts s s' : E s s' → step E (ts, s) (ts, s').

(** A schedule names the thread that steps; a thread that is done does nothing. *)
Definition step_at {A} (i : nat) (c : config A) : config A :=
  match c.1 !! i with
  | Some (Act m k) => (<[i := k (m c.2).1]> c.1, (m c.2).2)
  | _ => c
  end.

Definition run_schedule {A} (l : list nat) (c : config A) : config A :=
  foldl (λ c i, step_at i c) c l.

Lemma run_schedule_steps {A} E l (c : config A) : rtc (step E) c (run_schedule l c).
Proof.
  revert c. induction l as [|i l IH]; intros [ts s]; [apply rtc_refl|].
  cbn [run_schedule foldl]. etrans; [|apply IH]. unfold step_at. cbn [fst snd].
  destruct (ts !! i) as [[o|R m k]|] eqn:Hi; [apply rtc_refl| |apply rtc_refl].
  by apply rtc_once, step_thread.
Qed.

Lemma step_at_act {A R} i (c : config A) (m : go S R) k r s' :
  c.1 !! i = Some (Act m k) → m c.2 = (r, s') → step_at i c = (<[i := k r]> c.1, s').
Proof. unfold step_at. by intros -> ->. Qed.

Lemma step_at_done {A} i (c : config A) o : c.1 !! i = Some (Done o) → step_at i c = c.
Proof. unfold step_at. by intros ->. Qed.

Lemma step_at_other {A} i j (c : config A) : i ≠ j → (step_at i c).1 !! j = c.1 !! j.
Proof.
  intros Hne. unfold step_at. destruct (c.1 !! i) as [[o|R m k]|]; [done| |done].
  by apply list_lookup_insert_ne.
Qed.

Lemma run_schedule_app {A} l1 l2 (c : config A) :
  run_schedule (l1 ++ l2) c = run_schedule l2 (run_schedule l1 c).
Proof. apply foldl_app. Qed.

Lemma run_schedule_other {A} i l (c : config A) :
  i ∉ l → (run_schedule l c).1 !! i = c.1 !! i.
Proof.
  revert c. induction l as [|j l IH]; intros c; [done|]. intros [Hne Hl]%not_elem_of_cons.
  change (run_schedule (j :: l) c) with (run_schedule l (step_at j c)).
  rewrite IH by done. by apply step_at_other.
Qed.

(** A thread that runs to its end without interruption runs as if alone. *)
Lemma run_schedule_alone {A} i n p o (c : config A) :
  c.1 !! i = Some p → (run_schedule (replicate n i) c).1 !! i = Some (Done o) →
  ∃ s', alone p c.2 = (o, s') ∧ run_schedule (replicate n i) c = (<[i := Done o]> c.1, s').
Proof.
  revert c p. induction n as [|n IH]; intros c p Hp Ho.
  { cbn in Ho. rewrite Hp in Ho. injection Ho as ->. exists c.2. split; [done|]. cbn.
    rewrite list_insert_id by done. by destruct c. }
  cbn [replicate run_schedule foldl] in *. destruct p as [o'|R m k].
  - rewrite (step_at_done i c o') in * by done. by apply IH.
  - rewrite (step_at_act i c m k _ _ Hp (surjective_pairing _)) in *.
    assert (<[i := k (m c.2).1]> c.1 !! i = Some (k (m c.2).1)) as Hi
      by (apply list_lookup_insert_eq; by eapply lookup_lt_Some).
    destruct (IH (_, _) _ Hi Ho) as (s' & Hs' & Hrun).
    exists s'. split; [cbn; by destruct (m c.2)|].
    change (run_schedule (replicate n i) (<[i := k (m c.2).1]> c.1, (m c.2).2) =
            (<[i := Done o]> c.1, s')).
    rewrite Hrun. cbn [fst]. by rewrite list_insert_insert_eq.
Qed.

(** ** Rely and guarantee *)

(** As long as the others' steps are in [R]: every step of [p] is in [G], and what
    it ends in satisfies [Q], then and later. *)
Fixpoint safe {A} (R G : relation S) (Q : outcome A → S → Prop) (p : prog S A) (s : S) : Prop :=
  match p with
  | Done o => ∀ s', R s s' → Q o s'
  | Act m k => ∀ s', R s s' → G s' (m s').2 ∧ safe R G Q (k (m s').1) (m s').2
  end.

Section Safe.
Context (R G : relation S) `{!PreOrder R}.

Lemma safe_rely {A} Q (p : prog S A) s s' : R s s' → safe R G Q p s → safe R G Q p s'.
Proof. intros HR. destruct p; simpl; intros Hp s2 Hs2; apply Hp; by etrans. Qed.

Lemma safe_weaken {A} (Q Q' : outcome A → S → Prop) p s :
  (∀ o s', Q o s' → Q' o s') → safe R G Q p s → safe R G Q' p s.
Proof.
  intros HQ. revert s. induction p as [o|T m k IH]; intros s; simpl; [by auto|].
  intros Hp s' Hs'. destruct (Hp s' Hs') as [HG Hk]. auto.
Qed.

Lemma safe_done {A} (Q : outcome A → S → Prop) o s :
  (∀ s', R s s' → Q o s') → safe R G Q (Done o) s.
Proof. done. Qed.

(** A step: under the rely it is in the guarantee, and the rest is safe. *)
Lemma safe_bind {A B} (Q1 : outcome A → S → Prop) (Q : outcome B → S → Prop) p f s :
  safe R G Q1 p s →
  (∀ a s', Q1 (Ok a) s' → safe R G Q (f a) s') →
  (∀ o s', is_ok o = false → Q1 o s' → Q (recast o) s') →
  safe R G Q (p ≫= f) s.
Proof.
  intros Hp Hf Ho. revert s Hp. induction p as [o|T m k IH]; intros s; cbn.
  - intros Hp. assert (Q1 o s) as HQ by (by apply Hp).
    assert (is_ok o = false → ∀ s', R s s' → Q (recast o) s') as Hrest by auto.
    destruct o as [a|e|w|]; [by apply Hf|exact (Hrest eq_refl)..].
  - intros Hp s' Hs'. destruct (Hp s' Hs') as [HG Hk]. split; [done|]. by apply IH.
Qed.

Lemma safe_atomic {A} (Q : outcome A → S → Prop) (m : go S A) s :
  (∀ s', R s s' → G s' (m s').2 ∧ ∀ s2, R (m s').2 s2 → Q (m s').1 s2) →
  safe R G Q (atomic m) s.
Proof. done. Qed.

Lemma safe_attempt {A} (Q : outcome (result A) → S → Prop) (p : prog S A) s :
  safe R G (λ o s', match o with
                    | Ok a => Q (Ok (inr a)) s'
                    | Err e => Q (Ok (inl e)) s'
                    | Panicked w => Q (Panicked w) s'
                    | Diverged => Q Diverged s'
                    end) p s →
  safe R G Q (attempt_p p) s.
Proof.
  revert s. induction p as [o|T m k IH]; intros s; cbn.
  - by destruct o.
  - intros Hp s' Hs'. destruct (Hp s' Hs') as [HG Hk]. auto.
Qed.

Lemma safe_wrap_err {A} (Q : outcome A → S → Prop) msg (p : prog S A) s :
  safe R G (λ o s', match o with Err e => Q (Err (ErrWrap msg e)) s' | _ => Q o s' end) p s →
  safe R G Q (wrap_err_p msg p) s.
Proof.
  revert s. induction p as [o|T m k IH]; intros s; cbn.
  - by destruct o.
  - intros Hp s' Hs'. destruct (Hp s' Hs') as [HG Hk]. auto.
Qed.

Lemma safe_finally {A} (Q : outcome A → S → Prop) (p : prog S A) c s :
  (∀ s', G s' (c s')) →
  safe R G (λ o s', o = Diverged ∧ Q o s' ∨ o ≠ Diverged ∧ ∀ s2, R (c s') s2 → Q o s2) p s →
  safe R G Q (finally p c) s.
Proof.
  intros Hc. revert s. induction p as [o|T m k IH]; intros s; cbn.
  - intros Hp. destruct o; cbn; intros s' Hs'; destruct (Hp s' Hs') as [[? ?]|[Hne ?]]; try done;
      by split; [apply Hc|].
  - intros Hp s' Hs'. destruct (Hp s' Hs') as [HG Hk]. auto.
Qed.
End Safe.
End Programs.

(** ** A configuration of programs that keep out of each other's way *)

Section Pool.
Context {S K A : Type} (rely guar : K → relation S).
Context `{Hrely : !∀ k, PreOrder (rely k)}.
Hypothesis guar_rely : ∀ k1 k2 s s', k1 ≠ k2 → guar k1 s s' → rely k2 s s'.

(** What a thread owns, and what it promises at its end. *)
Record thread_spec := ThreadSpec { sp_key : K; sp_post : outcome A → S → Prop }.

Definition thread_safe (s : S) (sp : thread_spec) (p : prog S A) : Prop :=
  safe (rely (sp_key sp)) (guar (sp_key sp)) (sp_post sp) p s.

Variable E : relation S.
Variable specs : list thread_spec.
Hypothesis keys_distinct : NoDup (sp_key <$> specs).
Hypothesis env_rely : ∀ sp s s', sp ∈ specs → E s s' → rely (sp_key sp) s s'.

Lemma step_keeps_safe ts s ts' s' :
  Forall2 (thread_safe s) specs ts → step E (ts, s) (ts', s') →
  Forall2 (thread_safe s') specs ts'.
Proof.
  intros Hall Hstep. inversion Hstep as [i R m k ts0 s0 Hi|ts0 s0 s1 HE]; subst.
  - rewrite Forall2_lookup in Hall |- *. intros j. specialize (Hall j) as Hj.
    destruct (decide (j = i)) as [->|Hne].
    + rewrite Hi in Hj. rewrite list_lookup_insert_eq by (by eapply lookup_lt_Some).
      inversion Hj as [sp ? Hsafe Hsp|]; subst. constructor.
      by destruct (Hsafe s) as [_ ?].
    + rewrite list_lookup_insert_ne by done. inversion Hj as [sp p Hsafe Hsp Hp|]; [|by constructor].
      subst. constructor. unfold thread_safe. eapply safe_rely; [apply _| |exact Hsafe].
      specialize (Hall i). rewrite Hi in Hall. inversion Hall as [spi ? Hsafei Hspi|]; subst.
      apply (guar_rely (sp_key spi)); [|by destruct (Hsafei s) as [? _]].
      intros Heq. apply Hne. eapply (NoDup_lookup _ _ _ (sp_key spi) keys_distinct);
        rewrite list_lookup_fmap; [by rewrite <- Hsp, Heq|by rewrite <- Hspi].
  - rewrite Forall2_lookup in Hall |- *. intros j. specialize (Hall j).
    inversion Hall as [sp p Hsafe Hsp Hp|]; [|by constructor]. subst. constructor.
    unfold thread_safe. eapply safe_rely; [apply _| |exact Hsafe].
    apply env_rely; [|done]. by eapply list_elem_of_lookup_2.
Qed.

(** In every reachable configuration each thread is safe; one that has ended
    keeps its promise. *)
Lemma pool_safe ts s ts' s' :
  Forall2 (thread_safe s) specs ts → rtc (step E) (ts, s) (ts', s') →
  Forall2 (thread_safe s') specs ts'.
Proof.
  intros Hall Hsteps. remember (ts, s) as c eqn:Hc. remember (ts', s') as c' eqn:Hc'.
  revert ts s Hc Hall. induction Hsteps as [c|c [ts1 s1] c' Hstep _ IH]; intros ts s -> Hall.
  - by injection Hc' as <- <-.
  - eapply IH; [done..|]. by eapply step_keeps_safe.
Qed.

Lemma pool_done ts s ts' s' i sp o :
  Forall2 (thread_safe s) specs ts → rtc (step E) (ts, s) (ts', s') →
  specs !! i = Some sp → ts' !! i = Some (Done o) → sp_post sp o s'.
Proof.
  intros Hall Hsteps Hsp Ho. pose proof (pool_safe _ _ _ _ Hall Hsteps) as Hsafe.
  rewrite Forall2_lookup in Hsafe. specialize (Hsafe i). rewrite Hsp, Ho in Hsafe.
  inversion Hsafe as [? ? Hd|]; subst. apply Hd. reflexivity.
Qed.

(** What nobody owns stays as it is. *)
Lemma pool_spares k ts s ts' s' :
  k ∉ sp_key <$> specs → (∀ s1 s2, E s1 s2 → rely k s1 s2) →
  Forall2 (thread_safe s) specs ts → rtc (step E) (ts, s) (ts', s') → rely k s s'.
Proof.
  intros Hk HE Hall Hsteps. remember (ts, s) as c eqn:Hc. remember (ts', s') as c' eqn:Hc'.
  revert ts s Hc Hall. induction Hsteps as [c|c [ts1 s1] c' Hstep _ IH]; intros ts s -> Hall.
  { by injection Hc' as <- <-. }
  transitivity s1; [|eapply IH; [done..|]; by eapply step_keeps_safe].
  inversion Hstep as [i R m kont ts0 s0 Hi|ts0 s0 s2 Henv]; subst; [|by apply HE].
  rewrite Forall2_lookup in Hall. specialize (Hall i). rewrite Hi in Hall.
  inversion Hall as [sp ? Hsafe Hsp|]; subst. destruct (Hsafe s) as [Hg _]; [done|].
  apply (guar_rely (sp_key sp)); [|done]. intros <-.
  by eapply Hk, list_elem_of_fmap_2, list_elem_of_lookup_2.
Qed.
End Pool.
