(* ===== verification/OvsCalls.v ===== *)
(** * The calls of the OVS engine as interleaved programs

    AddOnHost and DelFromHost of cniovs as programs of file Threads over what the
    processes of a host share, OVSDB and the files.  The configuration and the
    once-only client belong to the process: a program is given them and passes them
    on.  [ovs_calls_alone]: run without interruption they are the calls of file
    CniOvs.  [bridge_deleted_under_port]: a DEL can delete a bridge to which
    an ADD has just added its port. *)
From S2P Require Import Prelude GoStrings GoOs Json Types JsonCodec LocalDb CniVpp.
From S2P Require Import OvsDb CniOvs OvsAddDel Threads.

Section OvsCalls.
Context `{OvsApi} `{OvsHost} `{UserDb}.

Notation host_state := (NetConf.t * (ovs_state * fs))%type.

(** What a process has of its own, and what it shares. *)
Notation own_state := (NetConf.t * option (option error))%type.
Notation shared_state := (ovsdb * fs)%type.

Definition whole (l : own_state) (s : shared_state) : host_state :=
  (l.1, (OvsState l.2 s.1, s.2)).
Definition own_of (h : host_state) : own_state := (h.1, ovs_once h.2.1).
Definition shared_of (h : host_state) : shared_state := (ovs_db h.2.1, h.2.2).

(** An outcome with what it leaves to the process. *)
Definition with_own {A} (o : outcome A) (l : own_state) : outcome (A * own_state) :=
  match o with
  | Ok a => Ok (a, l)
  | Err e => Err e
  | Panicked w => Panicked w
  | Diverged => Diverged
  end.

Definition process (A : Type) : Type := own_state → prog shared_state (A * own_state).

#[global] Instance process_ret : MRet process := λ A a l, mret (a, l).
#[global] Instance process_bind : MBind process := λ A B f m l,
  m l ≫= λ r, f r.1 r.2.

(** A call of the sequential model as one step. *)
Definition run_step {A} (m : go host_state A) (l : own_state) : go shared_state (A * own_state) := λ s,
  let '(o, h) := m (whole l s) in (with_own o (own_of h), shared_of h).
Definition pstep {A} (m : go host_state A) : process A := λ l, atomic (run_step m l).

(** ** Bridges and ports *)

Definition on_ovsdb {A} (m : go ovs_state A) : process A := pstep (on_snd (on_fst m)).
Definition on_files {A} (m : go fs A) : process A := pstep (on_snd (on_snd m)).

Definition deleteBridge_p (bridgeName : string) : process unit :=
  uuid ← on_ovsdb (bridgeUUID bridgeName);
  on_ovsdb (wrap_err "deleteBridge" (transact (deleteBridge_ops bridgeName uuid)) ;; mret tt).

Definition createVhostPort_p (sockDir sockName : string) (vhostClient : bool) (bridgeName : string)
    (cfg : vhostPortConfig) : process string :=
  on_ovsdb (wrap_err "createVhostPort"
    (transact (createVhostPort_ops sockDir sockName vhostClient bridgeName cfg))) ≫= λ _,
  (if negb vhostClient
   then on_files (ignore_err (os_rename (path_join [defaultOVSSocketDir; sockName])
                                (path_join [sockDir; sockName])))
   else mret tt) ≫= λ _,
  mret sockName.

Definition deleteVhostPort_p (sockName bridgeName : string) : process unit :=
  r ← on_ovsdb (attempt (portUUID sockName));
  match r with
  | inl _ => mret tt
  | inr uuid =>
      on_ovsdb (wrap_err "deleteVhostPort"
        (transact (deleteVhostPort_ops sockName bridgeName uuid)) ;; mret tt)
  end.

Definition addLocalNetworkBridge_p : process unit :=
  conf ← pstep (gets fst);
  let name := BridgeConf.BridgeName (host_bridge conf) in
  found ← on_ovsdb (ovs_findBridge name);
  if (found : bool) then mret tt else on_ovsdb (createBridge name).

Definition delLocalNetworkBridge_p : process unit :=
  conf ← pstep (gets fst);
  let name := BridgeConf.BridgeName (host_bridge conf) in
  contain ← on_ovsdb (doesBridgeContainInterfaces name);
  if (contain : bool) then mret tt else deleteBridge_p name.

(** ** ADD *)

Definition addLocalDeviceVhost_p (args : CmdArgs.t) (actualSharedDir ovn_port ovnMac : string)
  : process OvsSavedData.t :=
  conf ← pstep (gets fst);
  (if decide (VhostConf.Socketfile (host_vhost conf) = EmptyString) then
     name ← pstep (vhost_name args);
     pstep (on_fst (modify (upd_vhost (VhostConf.set_Socketfile name))))
   else mret tt) ≫= λ _,
  sharedDir ← pstep (getShortSharedDir actualSharedDir);
  on_files (createSharedDir sharedDir actualSharedDir) ≫= λ _,
  conf ← pstep (gets fst);
  let group := VhostConf.Group (host_vhost conf) in
  (if decide (group ≠ EmptyString)
   then on_files (setSharedDirGroup sharedDir group) else mret tt) ≫= λ _,
  let clientMode := bool_decide (VhostConf.Mode (host_vhost conf) = "client") in
  vhostName ← createVhostPort_p sharedDir (VhostConf.Socketfile (host_vhost conf)) clientMode
                (BridgeConf.BridgeName (host_bridge conf)) (port_config conf args ovn_port);
  vhostPortMac ← on_ovsdb (getVhostPortMac vhostName);
  mret (OvsSavedData.mk vhostName vhostPortMac (if_mac conf ovnMac)).

Definition ovs_AddOnHost_p (order : gmap string json → list (string * json)) (args : CmdArgs.t)
    (sharedDir : string) : process unit :=
  _ ← pstep (slice_to 12 (CmdArgs.ContainerID args));
  conf ← pstep (gets fst);
  let '(ovn_port, ovnMac) := resolveOvnArgs order conf args in
  pstep (on_fst (modify (default_bridge
    (if decide (ovn_port ≠ EmptyString) then ovnIntegrationBridge else defaultBridge)))) ≫= λ _,
  addLocalNetworkBridge_p ≫= λ _,
  conf ← pstep (gets fst);
  data ← (if decide (UserSpaceConf.IfType (NetConf.HostConf conf) = "vhostuser")
          then addLocalDeviceVhost_p args sharedDir ovn_port ovnMac
          else pstep (raise (ErrNew ("ERROR: Unknown HostConf.IfType:" +:+
                              UserSpaceConf.IfType (NetConf.HostConf conf)))));
  let netType := UserSpaceConf.NetType (NetConf.HostConf conf) in
  if decide (netType = "interface") then
    pstep (raise (ErrNew "ERROR: HostConf.NetType interface not supported."))
  else if decide (netType ≠ "bridge" ∧ netType ≠ EmptyString) then
    pstep (raise (ErrNew ("ERROR: Unknown HostConf.NetType:" +:+ netType)))
  else on_files (SaveConfig args data).

(** ** DEL *)

Definition delLocalDeviceVhost_p (args : CmdArgs.t) (actualSharedDir : string)
    (data : OvsSavedData.t) : process unit :=
  sharedDir ← pstep (getShortSharedDir actualSharedDir);
  conf ← pstep (gets fst);
  deleteVhostPort_p (OvsSavedData.Vhostname data) (BridgeConf.BridgeName (host_bridge conf)) ≫= λ _,
  on_files (if str_contains sharedDir DefaultHostVhostuserBaseDir then unmount_shared sharedDir
            else clean_shared args sharedDir (VhostConf.Socketfile (host_vhost conf))).

(** What follows the loading of the saved data. *)
Definition ovs_del_loaded_p (args : CmdArgs.t) (sharedDir : string) (data : OvsSavedData.t)
  : process unit :=
  pstep (on_fst (modify (default_bridge defaultBridge))) ≫= λ _,
  conf ← pstep (gets fst);
  (if decide (UserSpaceConf.IfType (NetConf.HostConf conf) = "vhostuser")
   then delLocalDeviceVhost_p args sharedDir data
   else pstep (raise (ErrNew ("ERROR: Unknown HostConf.Type:" +:+
                       UserSpaceConf.IfType (NetConf.HostConf conf))))) ≫= λ _,
  delLocalNetworkBridge_p.

Definition ovs_DelFromHost_p (args : CmdArgs.t) (sharedDir : string) : process unit :=
  _ ← pstep (slice_to 12 (CmdArgs.ContainerID args));
  data ← on_files (LoadConfig args OvsSavedData.zero);
  ovs_del_loaded_p args sharedDir data.

(** ** Run alone, they are the sequential calls *)

Definition same_run {A} (p : process A) (m : go host_state A) : Prop :=
  ∀ l s, alone (p l) s = run_step m l s.

Lemma run_step_Ok_inv {A} (m : go host_state A) l s a l' s' :
  run_step m l s = (Ok (a, l'), s') → m (whole l s) = (Ok a, whole l' s').
Proof.
  unfold run_step. destruct (m (whole l s)) as [[?|?|?|] h]; [|done..].
  intros [= <- <- <-]. by destruct h as [? [[] ?]].
Qed.

Lemma process_step {A} (m : go host_state A) : same_run (pstep m) m.
Proof. intros l s. apply alone_atomic. Qed.

Lemma whole_of h : whole (own_of h) (shared_of h) = h.
Proof. by destruct h as [c [[o d] f]]. Qed.

Lemma process_bind_runs {A B} (p : process A) m (f : A → process B) g :
  same_run p m → (∀ a, same_run (f a) (g a)) → same_run (p ≫= f) (m ≫= g).
Proof.
  intros Hp Hf l s. unfold mbind at 1, process_bind. rewrite alone_bind, run_bind, Hp.
  unfold run_step. rewrite run_bind. destruct (m (whole l s)) as [[a|?|?|] h]; [|done..].
  cbn [with_own fst snd]. rewrite Hf. unfold run_step. by rewrite whole_of.
Qed.

Lemma process_ret_runs {A} (a : A) : same_run (mret a) (mret a).
Proof. intros l s. by destruct l, s. Qed.

Lemma process_runs_ext {A} (p : process A) m m' :
  (∀ h, m h = m' h) → same_run p m → same_run p m'.
Proof. intros Hm Hp l s. unfold run_step. rewrite <- Hm. apply Hp. Qed.

(** A computation on a part of the state, its steps and theirs. *)
Lemma process_bind_part {A B} (p : process A) m (f : A → process B) g :
  same_run p (on_snd m) → (∀ a, same_run (f a) (on_snd (g a))) →
  same_run (p ≫= f) (on_snd (m ≫= g)).
Proof.
  intros Hp Hf. eapply process_runs_ext, process_bind_runs, Hf; [|exact Hp].
  intros h. unfold on_snd. rewrite !run_bind. by destruct (m h.2) as [[a|?|?|] s].
Qed.

Lemma process_ret_part {A} (a : A) : same_run (mret a) (on_snd (mret a)).
Proof. eapply process_runs_ext, process_ret_runs. by intros []. Qed.

Lemma process_bind_ovsdb {A B} (m : go ovs_state A) (f : A → process B) g :
  (∀ a, same_run (f a) (on_snd (on_fst (g a)))) →
  same_run (on_ovsdb m ≫= f) (on_snd (on_fst (m ≫= g))).
Proof.
  intros Hf. eapply process_runs_ext, process_bind_runs, Hf; [|apply process_step].
  intros h. unfold on_snd, on_fst. rewrite !run_bind. cbn [fst snd].
  by destruct (m h.2.1) as [[a|?|?|] o].
Qed.

Lemma process_ret_ovsdb {A} (a : A) : same_run (mret a) (on_snd (on_fst (mret a))).
Proof. eapply process_runs_ext, process_ret_runs. by intros [? []]. Qed.

Ltac same_runs := repeat first
  [ apply process_step | apply process_ret_runs | apply process_ret_part | apply process_ret_ovsdb
  | apply process_bind_ovsdb; intros ? | apply process_bind_part; [|intros ?]
  | apply process_bind_runs; [|intros ?] | case_match ].

Lemma deleteBridge_same b : same_run (deleteBridge_p b) (on_snd (on_fst (deleteBridge b))).
Proof. unfold deleteBridge_p, deleteBridge. same_runs. Qed.

Lemma createVhostPort_same dir sock client b cfg :
  same_run (createVhostPort_p dir sock client b cfg) (on_snd (createVhostPort dir sock client b cfg)).
Proof. unfold createVhostPort_p, createVhostPort. same_runs. Qed.

Lemma deleteVhostPort_same sock b :
  same_run (deleteVhostPort_p sock b) (on_snd (on_fst (deleteVhostPort sock b))).
Proof. unfold deleteVhostPort_p, deleteVhostPort. same_runs. Qed.

Lemma addLocalNetworkBridge_same : same_run addLocalNetworkBridge_p addLocalNetworkBridge.
Proof. unfold addLocalNetworkBridge_p, addLocalNetworkBridge. same_runs. Qed.

Lemma delLocalNetworkBridge_same : same_run delLocalNetworkBridge_p delLocalNetworkBridge.
Proof. unfold delLocalNetworkBridge_p, delLocalNetworkBridge. same_runs. Qed.

Lemma addLocalDeviceVhost_same args dir port mac :
  same_run (addLocalDeviceVhost_p args dir port mac) (addLocalDeviceVhost args dir port mac).
Proof.
  unfold addLocalDeviceVhost_p, addLocalDeviceVhost. same_runs; apply createVhostPort_same.
Qed.

Lemma delLocalDeviceVhost_same args dir data :
  same_run (delLocalDeviceVhost_p args dir data) (delLocalDeviceVhost args dir data).
Proof.
  unfold delLocalDeviceVhost_p, delLocalDeviceVhost. same_runs; apply deleteVhostPort_same.
Qed.

Lemma ovs_AddOnHost_same order args dir :
  same_run (ovs_AddOnHost_p order args dir) (ovs_AddOnHost order args dir).
Proof.
  unfold ovs_AddOnHost_p, ovs_AddOnHost. same_runs;
    first [apply addLocalNetworkBridge_same | apply addLocalDeviceVhost_same].
Qed.

Lemma ovs_DelFromHost_same args dir :
  same_run (ovs_DelFromHost_p args dir) (ovs_DelFromHost args dir).
Proof.
  unfold ovs_DelFromHost_p, ovs_del_loaded_p, ovs_DelFromHost. same_runs;
    first [apply delLocalDeviceVhost_same | apply delLocalNetworkBridge_same].
Qed.

(** Run without interruption a program is the call: the outcome, the
    process's own state and the state it shares. *)
Theorem ovs_calls_alone order args dir :
  same_run (ovs_AddOnHost_p order args dir) (ovs_AddOnHost order args dir) ∧
  same_run (ovs_DelFromHost_p args dir) (ovs_DelFromHost args dir).
Proof. split; [apply ovs_AddOnHost_same|apply ovs_DelFromHost_same]. Qed.

(** ** A DEL and an ADD on one bridge *)

(** A process that is about to make a step: its outcome decides how it goes on. *)
Lemma process_step_at {A B} i (ts : list (prog shared_state (B * own_state))) s
    (m : go host_state A) (f : A → process B) l o h :
  ts !! i = Some ((pstep m ≫= f) l) → m (whole l s) = (o, h) →
  step_at i (ts, s) =
    (<[i := match o with Ok a => f a (own_of h) | _ => Done (recast o) end]> ts, shared_of h).
Proof.
  intros Hi Hm.
  rewrite (step_at_act i (ts, s) (run_step m l)
             (λ r, Done r ≫= λ r, f r.1 r.2) (with_own o (own_of h)) (shared_of h));
    [by destruct o|exact Hi|unfold run_step; cbn [snd]; by rewrite Hm].
Qed.

(** The same for a request to OVSDB. *)
Lemma process_step_ovsdb {A B} i (ts : list (prog shared_state (B * own_state))) s
    (m : go ovs_state A) (f : A → process B) l o v :
  ts !! i = Some ((on_ovsdb m ≫= f) l) → m (OvsState l.2 s.1) = (o, v) →
  step_at i (ts, s) =
    (<[i := match o with Ok a => f a (l.1, ovs_once v) | _ => Done (recast o) end]> ts,
     (ovs_db v, s.2)).
Proof.
  intros Hi Hm. erewrite (process_step_at i ts s (on_snd (on_fst m)) f l o (l.1, (v, s.2)) Hi);
    [done|]. unfold on_snd, on_fst, whole. cbn [fst snd]. by rewrite Hm.
Qed.
End OvsCalls.

Section Race.
Context `{OvsLaws, !OvsHost, !UserDb}.

(** The check: what a bridge without ports leaves DEL to do. *)
Lemma delLocalNetworkBridge_check l d f (ts : list (prog (ovsdb * fs) (unit * _))) :
  let b := BridgeConf.BridgeName (host_bridge l.1) in
  ts !! 0 = Some (delLocalNetworkBridge_p l) → ov_bridges d !! b = Some ∅ →
  ∃ p d', run_schedule [0; 0] (ts, (d, f)) = (<[0 := p]> ts, (d', f)) ∧
    ov_bridges d' = ov_bridges d ∧
    ((∃ l', p = deleteBridge_p b l') ∨ (∃ o, p = Done o ∧ is_ok o = false)).
Proof.
  intros b Hts Hb. unfold run_schedule. cbn [foldl].
  erewrite (process_step_at 0 ts (d, f) (gets fst)) by done.
  destruct (doesBridgeContainInterfaces b (OvsState l.2 d)) as [o v] eqn:E.
  erewrite (process_step_ovsdb 0 _ _ (doesBridgeContainInterfaces b)); cycle 1.
  { apply list_lookup_insert_eq. by eapply lookup_lt_Some. }
  { exact E. }
  rewrite list_insert_insert_eq. eexists _, _. split; [reflexivity|].
  pose proof (doesBridgeContainInterfaces_same b (OvsState l.2 d)) as Hs. rewrite E in Hs.
  split; [exact Hs|]. destruct o as [[]|e|w|]; [|left; by eexists|right; by eexists..].
  by apply doesBridgeContainInterfaces_true in E.
Qed.

(** C40: A DEL finds its bridge without ports; before it deletes the bridge an ADD,
    configured with the same bridge, runs from its first to its last step.  When
    both end well the bridge is gone, and the ADD's port is on none. *)
Theorem bridge_deleted_under_port order args dir conf_del conf_add o1 o2 d f k j :
  let b := BridgeConf.BridgeName (host_bridge conf_del) in
  let sock := vhost_port_name args conf_add in
  plain_args args → b ≠ EmptyString → BridgeConf.BridgeName (host_bridge conf_add) = b →
  ov_bridges d !! b = Some ∅ →
  let c := run_schedule ([0; 0] ++ replicate k 1 ++ replicate j 0)
             ([delLocalNetworkBridge_p (conf_del, o1);
               ovs_AddOnHost_p order args dir (conf_add, o2)], (d, f)) in
  ∀ a1 a2, c.1 = [Done (Ok a1); Done (Ok a2)] →
  ov_bridges c.2.1 = delete b (ov_bridges d) ∧
  ∀ b' ps, ov_bridges c.2.1 !! b' = Some ps → sock ∉ ps.
Proof.
  intros b sock Hargs Hne Hadd Hb. cbv zeta. rewrite !run_schedule_app.
  edestruct (delLocalNetworkBridge_check (conf_del, o1) d f) as (p & d1 & -> & Hd1 & Hp);
    [reflexivity|exact Hb|]. cbn [list_insert]. intros a1 a2 Hc.
  set (add := ovs_AddOnHost_p order args dir (conf_add, o2)) in *.
  set (c2 := run_schedule (replicate k 1) _) in *.
  assert (c2.1 !! 1 = Some (Done (Ok a2))) as Hadd2.
  { rewrite <- (run_schedule_other 1 (replicate j 0)); [by rewrite Hc|].
    by intros [? _]%elem_of_replicate. }
  destruct (run_schedule_alone 1 k add (Ok a2) ([p; add], (d1, f)) eq_refl Hadd2)
    as (s2 & Hrun2 & Hc2).
  assert (c2 = ([p; Done (Ok a2)], s2)) as -> by exact Hc2. clear Hc2 Hadd2.
  destruct (run_schedule_alone 0 j p (Ok a1) ([p; Done (Ok a2)], s2) eq_refl) as (s3 & Hrun3 & Hc3).
  { by rewrite Hc. }
  clear Hc. rewrite Hc3. cbn [fst snd] in *.
  unfold add in Hrun2. rewrite ovs_AddOnHost_same in Hrun2.
  destruct a2 as [[] l2], s2 as [d2 f2]. apply run_step_Ok_inv, ovs_AddOnHost_effect in Hrun2; [|done].
  cbn [fst snd ovs_db] in Hrun2. destruct (resolveOvnArgs order conf_add args) as [port mac].
  destruct Hrun2 as (_ & _ & Hbr & Hfree & _).
  assert (ovs_bridge_name port conf_add = b) as Hname
    by (unfold ovs_bridge_name; by rewrite Hadd, decide_False).
  rewrite Hname, Hd1 in Hbr. rewrite Hd1 in Hfree.
  destruct Hp as [[l' ->]|(o & -> & Ho)]; [|by injection Hrun3 as ->].
  rewrite deleteBridge_same in Hrun3. destruct a1 as [[] l1], s3 as [d3 f3].
  apply run_step_Ok_inv, on_snd_inv in Hrun3 as [[Hdel _]%on_fst_inv _].
  apply deleteBridge_Ok in Hdel. cbn [ovs_db fst snd whole] in *. fold b in Hdel.
  assert (ov_bridges d3 = delete b (ov_bridges d)) as Hd3
    by (by rewrite Hdel, Hbr, delete_insert_eq).
  split; [exact Hd3|]. intros b' ps. rewrite Hd3. intros [_ Hps]%lookup_delete_Some. by eapply Hfree.
Qed.

End Race.
