(* ===== verification/OvsInterleave.v ===== *)
(** * Calls of the OVS engine side by side

    Each ADD and DEL of cniovs works on a port of its own name; [rely] says that the
    others leave the port where it is and no bridge goes, [guar] that a call does the
    same for the others' ports.  Every transaction of file OvsCalls is shown to be of
    that kind, as long as no DEL works on a bridge without a port of a bystander: one
    that empties its bridge deletes it, and then [bridge_deleted_under_port] can
    happen. *)
From S2P Require Import Prelude GoStrings GoOs Json Types JsonCodec LocalDb CniVpp.
From S2P Require Import OvsDb CniOvs OvsAddDel Threads OvsCalls.

Section OvsInterleave.
Context `{OvsAtomic} `{OvsHost} `{UserDb}.

Notation host_state := (NetConf.t * (ovs_state * fs))%type.
Notation own_state := (NetConf.t * option (option error))%type.
Notation shared_state := (ovsdb * fs)%type.
Notation bridges_of s := (ov_bridges (ovs_db s)).

(** The port [p] is on the bridge [b]. *)
Definition has (b p : string) (s : shared_state) : Prop :=
  ∃ ps, ov_bridges s.1 !! b = Some ps ∧ p ∈ ps.
Definition bridge (b : string) (s : shared_state) : Prop := is_Some (ov_bridges s.1 !! b).

(** The ports that no call works on. *)
Variable held : gset string.

Definition spares (P : string → Prop) (s s' : shared_state) : Prop :=
  (∀ b q, P q → has b q s ↔ has b q s') ∧ (∀ b, bridge b s → bridge b s').
Definition rely (p : string) : relation shared_state := spares (λ q, q = p ∨ q ∈ held).
Definition guar (p : string) : relation shared_state := spares (λ q, q ≠ p ∨ q ∈ held).

#[export] Instance spares_preorder P : PreOrder (spares P).
Proof.
  split; [by split|]. intros s1 s2 s3 [Hp1 Hb1] [Hp2 Hb2]. split; [|auto].
  intros b q Hq. by rewrite Hp1, Hp2.
Qed.

Lemma ovs_guar_rely p q s s' : p ≠ q → guar p s s' → rely q s s'.
Proof. intros Hne [Hp Hb]. split; [|done]. intros b r [->|Hr]; apply Hp; auto. Qed.

Lemma same_spares P s s' : ov_bridges s'.1 = ov_bridges s.1 → spares P s s'.
Proof. intros E. unfold spares, has, bridge. by rewrite E. Qed.

(** *** What a transaction does to ports *)

Lemma insert_bridge_spares P b s s' :
  ov_bridges s.1 !! b = None → ov_bridges s'.1 = <[b := ∅]> (ov_bridges s.1) → spares P s s'.
Proof.
  intros Hno E. unfold spares, has, bridge. rewrite E. split.
  - intros b' q _. destruct (decide (b' = b)) as [->|Hne].
    + rewrite lookup_insert_eq, Hno.
      split; [by intros (? & [=] & _)|by intros (? & [= <-] & ?%not_elem_of_empty)].
    + by rewrite lookup_insert_ne.
  - intros b' Hb'. destruct (decide (b' = b)) as [->|Hne];
      [by rewrite lookup_insert_eq|by rewrite lookup_insert_ne].
Qed.

Lemma alter_spares P f b s s' :
  ov_bridges s'.1 = alter f b (ov_bridges s.1) → (∀ q ps, P q → q ∈ f ps ↔ q ∈ ps) → spares P s s'.
Proof.
  intros E Hf. unfold spares, has, bridge. rewrite E. split.
  - intros b' q Hq. destruct (decide (b' = b)) as [->|Hne]; [|by rewrite lookup_alter_ne].
    rewrite lookup_alter_eq. destruct (ov_bridges s.1 !! b) as [ps|]; simpl; [|naive_solver].
    specialize (Hf q ps Hq). naive_solver.
  - intros b' Hb'. destruct (decide (b' = b)) as [->|Hne]; [|by rewrite lookup_alter_ne].
    rewrite lookup_alter_eq. by apply fmap_is_Some.
Qed.

(** ** A server that answers *)

(** It lets the client in and answers what is asked; a change it may refuse, and its
    reply to a change may be lost.  The code needs the answers: a query about the ports
    of a bridge that fails is taken for a bridge without ports, which is deleted. *)
Definition serves : Prop :=
  (∀ db, ovs_connect db = None) ∧
  ∀ o db, op_Op o = "select" → ∃ x rs db', ovs_transact [o] db = (inr (x :: rs), db') ∧
    no_errors (x :: rs).
Hypothesis served : serves.

Definition ready (once : option (option error)) : Prop := once = None ∨ once = Some None.

Lemma ready_answers s : ready (ovs_once s) → answers s.
Proof. intros Hr. destruct served as [Hc Hs]. by split_and!. Qed.

Lemma transact_ready ops s :
  ready (ovs_once s) →
  (transact ops s).2 = OvsState (Some None) (ovs_transact ops (ovs_db s)).2.
Proof.
  intros Hr%ready_answers. unfold transact. rewrite run_bind, getOvsClient_answers by done.
  rewrite run_bind. cbn. destruct (ovs_transact ops (ovs_db s)) as [[e|l] db]; cbn; [done|].
  case_decide; [done|]. by destruct (op_error l).
Qed.

Lemma wrap_err_after {S A} msg (m : go S A) s : (wrap_err msg m s).2 = (m s).2.
Proof. unfold wrap_err. by destruct (m s) as [[?|?|?|] ?]. Qed.

Lemma change_ready {A} msg ops (a : A) s :
  ready (ovs_once s) →
  ((wrap_err msg (transact ops) ;; mret a) s).2 =
  OvsState (Some None) (ovs_transact ops (ovs_db s)).2.
Proof.
  intros Hr. transitivity (wrap_err msg (transact ops) s).2.
  - rewrite run_bind. by destruct (wrap_err msg _ s) as [[?|?|?|] ?].
  - by rewrite wrap_err_after, transact_ready.
Qed.

Lemma createBridge_atomic b s :
  ready (ovs_once s) → let s' := (createBridge b s).2 in ovs_once s' = Some None ∧
  (bridges_of s' = bridges_of s ∨
   (bridges_of s !! b = None ∧ bridges_of s' = <[b := ∅]> (bridges_of s))).
Proof.
  intros Hr s'. subst s'. unfold createBridge. rewrite change_ready by done. split; [done|].
  eapply (law_add_bridge_atomic _ _ b); [apply surjective_pairing|reflexivity].
Qed.

Lemma port_row_fields p cfg :
  port_row p cfg !! "name" = Some (VStr p) ∧
  port_row p cfg !! "interfaces" = Some (VSet [VUUID "newintf"]).
Proof.
  unfold port_row, put_if. split; repeat case_match; rewrite ?lookup_insert_ne by done; done.
Qed.

Lemma createPort_atomic msg dir p client b cfg s :
  ready (ovs_once s) →
  let s' := (wrap_err msg (transact (createVhostPort_ops dir p client b cfg)) s).2 in
  ovs_once s' = Some None ∧
  (bridges_of s' = bridges_of s ∨
   (bridges_of s' = alter (λ ps, {[p]} ∪ ps) b (bridges_of s) ∧
    (is_Some (bridges_of s !! b) → ∀ b' ps, bridges_of s !! b' = Some ps → p ∉ ps))).
Proof.
  intros Hr s'. subst s'. rewrite wrap_err_after, transact_ready by done. split; [done|].
  destruct (port_row_fields p cfg). by eapply law_add_port_atomic; [apply surjective_pairing|..].
Qed.

Lemma createPort_Ok msg dir p client b cfg s rs s' :
  wrap_err msg (transact (createVhostPort_ops dir p client b cfg)) s = (Ok rs, s') →
  bridges_of s' = alter (λ ps, {[p]} ∪ ps) b (bridges_of s) ∧
  (is_Some (bridges_of s !! b) → ∀ b' ps, bridges_of s !! b' = Some ps → p ∉ ps).
Proof.
  intros (Ht & He & _)%wrap_err_Ok_inv%transact_Ok. destruct (port_row_fields p cfg).
  by eapply law_add_port in Ht.
Qed.

Lemma deletePort_atomic msg p b uuid s :
  ready (ovs_once s) →
  let s' := ((wrap_err msg (transact (deleteVhostPort_ops p b uuid)) ;; mret tt) s).2 in
  ovs_once s' = Some None ∧
  (bridges_of s' = bridges_of s ∨
   (bridges_of s' = alter (λ ps, ps ∖ {[p]}) b (bridges_of s) ∧
    ∀ b' ps, b' ≠ b → bridges_of s !! b' = Some ps → p ∉ ps)).
Proof.
  intros Hr s'. subst s'. rewrite change_ready by done. split; [done|].
  eapply law_del_port_atomic, surjective_pairing.
Qed.

(** A port whose identifier is not found is on no bridge. *)
Lemma portUUID_missing p s e s' :
  ready (ovs_once s) → attempt (portUUID p) s = (Ok (inl e), s') →
  ∀ b ps, bridges_of s !! b = Some ps → p ∉ ps.
Proof.
  intros Hr%ready_answers Hu%attempt_Ok_inv. unfold portUUID in Hu.
  destruct (selectRows_answers tblPort (by_name p) ["_uuid"] s Hr) as (r & rs & s2 & Hsel & Ht & He).
  rewrite (bind_Ok _ _ _ _ _ Hsel) in Hu. apply law_select_port in Ht; [|done].
  destruct (res_Rows r) as [|rw rws]; [exact Ht|].
  destruct (Ht ltac:(left)) as [u Huu]. by rewrite Huu in Hu.
Qed.

Lemma deletePort_Ok msg p b uuid s s' :
  (wrap_err msg (transact (deleteVhostPort_ops p b uuid)) ;; mret tt) s = (Ok tt, s') →
  bridges_of s' = alter (λ ps, ps ∖ {[p]}) b (bridges_of s) ∧
  ∀ b' ps, b' ≠ b → bridges_of s !! b' = Some ps → p ∉ ps.
Proof.
  intros (rs & s1 & (Ht & He & _)%wrap_err_Ok_inv%transact_Ok & [= <-])%bind_Ok_inv.
  by eapply law_del_port in Ht.
Qed.

(** A call that only asks. *)
Definition mild (s s' : ovs_state) : Prop :=
  bridges_of s' = bridges_of s ∧ (ready (ovs_once s) → ready (ovs_once s')).

#[local] Instance mild_preorder : PreOrder mild.
Proof. split; [by split|]. intros ??? [E1 ?] [E2 ?]. split; [by rewrite E2|auto]. Qed.

Lemma selectRows_mild table cond cols : keeps mild (selectRows table cond cols).
Proof.
  apply keeps_bind; [apply _| |intros [|? ?]; auto with go_db].
  intros s. split; [by apply transact_select_same|]. intros Hr. rewrite transact_ready by done. by right.
Qed.

Lemma uuid_mild {A} (rows : list A) (f : A → go ovs_state ovs_value) e :
  (∀ r, keeps mild (f r)) → keeps mild (match rows with [] => raise e | r :: _ => f r end).
Proof. intros Hf. destruct rows; [apply keeps_raise, _|apply Hf]. Qed.

Lemma portUUID_mild p : keeps mild (portUUID p).
Proof.
  apply keeps_bind; [apply _|apply selectRows_mild|intros rows]. apply uuid_mild. intros r.
  destruct (r !! "_uuid") as [[]|]; auto with go_db.
Qed.

Lemma asking_mild p b :
  keeps mild (ovs_findBridge b) ∧ keeps mild (doesBridgeContainInterfaces b) ∧
  keeps mild (attempt (portUUID p)) ∧ keeps mild (getVhostPortMac p).
Proof.
  pose proof selectRows_mild as Hsel. pose proof (portUUID_mild p) as Hport. split_and!.
  - apply keeps_bind; auto with go_db.
  - apply keeps_bind; auto with go_db.
  - auto with go_db.
  - apply keeps_bind; [apply _|auto with go_db|]. intros [|r ?]; auto with go_db.
Qed.

(** A step that leaves OVSDB and the configuration alone. *)
Definition calm (h h' : host_state) : Prop := h'.1 = h.1 ∧ mild h.2.1 h'.2.1.

#[local] Instance calm_preorder : PreOrder calm.
Proof. split; [by split|]. intros ??? [E1 ?] [E2 ?]. split; [congruence|by etrans]. Qed.

Lemma ovsdb_calm {A} (m : go ovs_state A) : keeps mild m → keeps calm (on_snd (on_fst m)).
Proof.
  intros Hm [c [s f]]. specialize (Hm s). unfold on_snd, on_fst. cbn [fst snd].
  by destruct (m s) as [o s'].
Qed.

Lemma files_calm {A} (m : go fs A) : keeps calm (on_snd (on_snd m)).
Proof. intros [c [s f]]. unfold on_snd. cbn [fst snd]. by destruct (m f) as [o f']. Qed.

Lemma slice_to_calm n t : keeps calm (slice_to n t : go host_state string).
Proof. unfold slice_to. case_decide; auto with go_db. Qed.

Lemma vhost_name_calm args : keeps calm (vhost_name args).
Proof. apply keeps_bind; [apply _|apply slice_to_calm|auto with go_db]. Qed.

Lemma getShortSharedDir_calm dir : keeps calm (getShortSharedDir dir : go host_state string).
Proof. unfold getShortSharedDir. repeat case_match; auto with go_db. Qed.

(** ** Triples of process steps *)

Section Triples.
(** The port of the call, and what holds when it failed. *)
Variable p : string.
Variable X : shared_state → Prop.

Definition stable (I : shared_state → Prop) : Prop := ∀ s s', rely p s s' → I s → I s'.
Definition steady (I : shared_state → Prop) : Prop := stable I ∧ ∀ s, I s → X s.
Hypothesis X_stable : stable X.

(** From [I], the others' steps in between, the program leaves the others' ports alone,
    and it ends with [J], or it fails with [X]. *)
Definition triple {A} (I : shared_state → Prop) (l : own_state) (m : process A)
    (J : A → own_state → shared_state → Prop) : Prop :=
  ∀ s, I s → safe (rely p) (guar p)
    (λ o s', match o with Ok (a, l') => J a l' s' | _ => X s' end) (m l) s.

Lemma triple_bind {A B} I l (m : process A) (f : A → process B) J1 J :
  triple I l m J1 → (∀ a l', triple (J1 a l') l' (f a) J) → triple I l (m ≫= f) J.
Proof.
  intros Hm Hf s Hs. eapply safe_bind; [apply _|by apply Hm| |].
  - intros [a l'] s' HJ. by apply Hf.
  - intros o s' Ho HX. by destruct o.
Qed.

Lemma triple_pre {A} (P : Prop) I l (m : process A) J :
  (P → triple I l m J) → triple (λ s, P ∧ I s) l m J.
Proof. intros Hm s [HP Hs]. by apply Hm. Qed.

Lemma triple_post {A} I l (m : process A) J J' :
  triple I l m J' → (∀ a l' s, J' a l' s → J a l' s) → triple I l m J.
Proof.
  intros Hm HJ s Hs. eapply safe_weaken; [|by apply Hm]. intros [[a l']|?|?|] s'; auto.
Qed.

Lemma triple_ret {A} I l (a : A) J :
  stable I → (∀ s, I s → J a l s) → triple I l (mret a) J.
Proof. intros HI HJ s Hs s' Hs'. by eapply HJ, HI. Qed.

Lemma triple_raise {A} I l (m : go host_state A) J :
  steady I → (∀ h, is_ok (m h).1 = false ∧ (m h).2 = h) → triple I l (pstep m) J.
Proof.
  intros [HI HX] Hm s Hs s1 Hs1. destruct (Hm (whole l s1)) as [Ho Hh]. unfold run_step.
  destruct (m (whole l s1)) as [o h]. cbn [fst snd] in *. subst h.
  assert (shared_of (whole l s1) = s1) as -> by (by destruct s1). split; [done|].
  intros s2 Hs2. assert (X s2) by (eapply HX, HI, HI; [exact Hs2|exact Hs1|exact Hs]). by destruct o.
Qed.

Lemma triple_step {A} I l (m : go host_state A) J :
  stable I → (∀ a l', stable (J a l')) →
  (∀ s, I s → let r := m (whole l s) in guar p s (shared_of r.2) ∧
     match r.1 with Ok a => J a (own_of r.2) (shared_of r.2) | _ => X (shared_of r.2) end) →
  triple I l (pstep m) J.
Proof.
  intros HI HJ Hm s Hs s1 Hs1. destruct (Hm s1) as [Hg Hpost]; [by eapply HI|].
  unfold run_step. destruct (m (whole l s1)) as [o h]. split; [done|].
  intros s2 Hs2. destruct o; cbn in *; [by eapply HJ|by eapply X_stable..].
Qed.

(** What is the process's own after calm steps. *)
Definition kept (l l' : own_state) : Prop := l'.1 = l.1 ∧ ready l'.2.

Lemma triple_calm_val {A} (F : A → Prop) I l (m : go host_state A) :
  steady I → ready l.2 → keeps calm m → (∀ h a h', m h = (Ok a, h') → F a) →
  triple I l (pstep m) (λ a l' s, (F a ∧ kept l l') ∧ I s).
Proof.
  intros [HI HX] Hr Hm HF. apply triple_step; [done| |].
  { intros a l' s s' Hs [? Hs1]. split; [done|by eapply HI]. }
  intros s Hs. destruct (Hm (whole l s)) as (Hc & Hb & Hro).
  specialize (HF (whole l s)). destruct (m (whole l s)) as [o [c [v f]]]. cbn in *.
  assert (rely p s (ovs_db v, f)) as Hsame by (by apply same_spares).
  split; [by apply same_spares|]. assert (I (ovs_db v, f)) as Hi by exact (HI _ _ Hsame Hs).
  destruct o as [a|e|w|]; [|by apply HX..]. split_and!; [by eapply HF|by split; [|apply Hro]|done].
Qed.

Lemma calm_bind {A B} I l (m : go host_state A) (f : A → process B) J :
  steady I → ready l.2 → keeps calm m → (∀ a l', kept l l' → triple I l' (f a) J) →
  triple I l (pstep m ≫= f) J.
Proof.
  intros HI Hr Hm Hf. eapply triple_bind; [by apply (triple_calm_val (λ _, True))|].
  intros a l'. apply triple_pre. intros [_ Hk]. by apply Hf.
Qed.

Lemma gets_bind {B} I l (f : NetConf.t → process B) J :
  stable I → triple I l (f l.1) J → triple I l (pstep (gets fst) ≫= f) J.
Proof.
  intros HI Hf s Hs s1 Hs1. split; [by apply same_spares|].
  destruct l as [c o], s1 as [d fl]. apply Hf. by eapply HI.
Qed.

Lemma set_bind {B} I l g (f : unit → process B) J :
  stable I → triple I (g l.1, l.2) (f tt) J → triple I l (pstep (on_fst (modify g)) ≫= f) J.
Proof.
  intros HI Hf s Hs s1 Hs1. split; [by apply same_spares|].
  destruct l as [c o], s1 as [d fl]. apply Hf. by eapply HI.
Qed.

(** A step at the end, and one more whose value matters. *)
Lemma calm_last {A} I l (m : go host_state A) :
  steady I → ready l.2 → keeps calm m → triple I l (pstep m) (λ _ l' s, kept l l' ∧ I s).
Proof.
  intros HI Hr Hm. eapply triple_post; [by apply (triple_calm_val (λ _, True))|].
  by intros a l' s [[_ ?] ?].
Qed.

Lemma kept_trans l1 l2 l3 : kept l1 l2 → kept l2 l3 → kept l1 l3.
Proof. intros [E1 _] [E2 ?]. split; [congruence|done]. Qed.
End Triples.

(** ** ADD *)

Section Add.
Variable p : string.
Hypothesis p_owned : p ∉ held.

(** The bridges the port is on. *)
Definition port_on (own : string → Prop) (s : shared_state) : Prop := ∀ b, has b p s ↔ own b.

Lemma port_on_stable own : stable p (port_on own).
Proof. intros s s' [Hp _] Hown b. rewrite <- Hp by auto. apply Hown. Qed.

Lemma and_stable I1 I2 : stable p I1 → stable p I2 → stable p (λ s, I1 s ∧ I2 s).
Proof. intros H1' H2' s s' Hr [? ?]. split; [by eapply H1'|by eapply H2']. Qed.

Lemma or_stable I1 I2 : stable p I1 → stable p I2 → stable p (λ s, I1 s ∨ I2 s).
Proof. intros H1' H2' s s' Hr [?|?]; [left; by eapply H1'|right; by eapply H2']. Qed.

Lemma pure_stable P : stable p (λ _, P).
Proof. by intros s s' _. Qed.

Lemma bridge_stable b : stable p (bridge b).
Proof. intros s s' [_ Hb]. apply Hb. Qed.

Variable own : string → Prop.
Variable b : string.

(** The call has added its port to [b]: it was on no bridge. *)
Definition added (s : shared_state) : Prop := (∀ b', ¬ own b') ∧ port_on (λ b', b' = b) s.
Definition add_failed (s : shared_state) : Prop := port_on own s ∨ added s.
Definition bridged (s : shared_state) : Prop := port_on own s ∧ bridge b s.

Lemma added_stable : stable p added.
Proof. apply (and_stable (λ _, ∀ b', ¬ own b')); [apply pure_stable|apply port_on_stable]. Qed.

Lemma add_failed_stable : stable p add_failed.
Proof. apply or_stable; [apply port_on_stable|apply added_stable]. Qed.

Lemma bridged_stable : stable p bridged.
Proof. apply and_stable; [apply port_on_stable|apply bridge_stable]. Qed.

Lemma add_steady : steady p add_failed (port_on own) ∧ steady p add_failed bridged ∧
  steady p add_failed added.
Proof.
  split_and!; (split; [|intros s Hs]).
  - apply port_on_stable.
  - by left.
  - apply bridged_stable.
  - left. apply Hs.
  - apply added_stable.
  - by right.
Qed.

(** The bridge of the call: looked for, made. *)
Definition looked (found : bool) (s : shared_state) : Prop :=
  port_on own s ∧ (found = true → bridge b s).

Lemma looked_stable found : stable p (looked found).
Proof.
  apply and_stable; [apply port_on_stable|]. intros s s' Hs Hf Ht. by eapply bridge_stable, Hf.
Qed.

Lemma kept_stable l l' I : stable p I → stable p (λ s, kept l l' ∧ I s).
Proof. intros HI. apply (and_stable (λ _, kept l l')); [apply pure_stable|done]. Qed.

Lemma find_bridge_safe l :
  ready l.2 →
  triple p add_failed (port_on own) l (on_ovsdb (ovs_findBridge b))
    (λ found l' s, kept l l' ∧ looked found s).
Proof.
  intros Hr. apply triple_step; [apply add_failed_stable|apply port_on_stable| |].
  { intros found l'. apply kept_stable, looked_stable. }
  intros s Hs. pose proof (proj1 (asking_mild p b) (OvsState l.2 s.1)) as [Hm Hro].
  pose proof (ovs_findBridge_true b (OvsState l.2 s.1)) as Ht.
  unfold on_snd, on_fst, whole. cbn [fst snd].
  destruct (ovs_findBridge b (OvsState l.2 s.1)) as [o v]. cbn in *.
  assert (port_on own (ovs_db v, s.2)) as Hv by (intros b'; unfold has; cbn; rewrite Hm; apply Hs).
  split; [by apply same_spares|]. destruct o as [found|e|w|]; cbn; [|by left..].
  split; [by split; [|apply Hro]|]. split; [done|]. intros ->.
  unfold bridge. cbn. rewrite Hm. by destruct (Ht v eq_refl).
Qed.

Lemma create_bridge_safe l :
  ready l.2 →
  triple p add_failed (port_on own) l (on_ovsdb (createBridge b)) (λ _ l' s, kept l l' ∧ bridged s).
Proof.
  intros Hr. apply triple_step; [apply add_failed_stable|apply port_on_stable| |].
  { intros a l'. apply kept_stable, bridged_stable. }
  intros s Hs. destruct (createBridge_atomic b (OvsState l.2 s.1)) as [Hon Hdb]; [done|].
  pose proof (createBridge_Ok b (OvsState l.2 s.1)) as Hok.
  unfold on_snd, on_fst, whole. cbn [fst snd].
  destruct (createBridge b (OvsState l.2 s.1)) as [o v]. cbn in *.
  assert (∀ P, spares P s (ovs_db v, s.2)) as Hsp.
  { intros P. destruct Hdb as [E|[Hno E]]; [by apply same_spares|by eapply insert_bridge_spares]. }
  assert (port_on own (ovs_db v, s.2)) as Hv by (eapply port_on_stable; [apply Hsp|exact Hs]).
  split; [apply Hsp|]. destruct o as [[]|e|w|]; cbn; [|by left..].
  split; [by split; [|right]|]. split; [done|].
  unfold bridge. cbn. destruct (Hok v eq_refl) as [_ ->]. by rewrite lookup_insert_eq.
Qed.

Lemma add_network_safe l :
  ready l.2 → BridgeConf.BridgeName (host_bridge l.1) = b →
  triple p add_failed (port_on own) l addLocalNetworkBridge_p (λ _ l' s, kept l l' ∧ bridged s).
Proof.
  intros Hr Hb. unfold addLocalNetworkBridge_p.
  apply gets_bind; [apply port_on_stable|]. cbv zeta. rewrite Hb.
  eapply triple_bind; [by apply find_bridge_safe|]. intros found l1. apply triple_pre. intros Hk.
  destruct found.
  - apply triple_ret; [apply looked_stable|]. intros s [Hs Hf]. split; [done|]. by split; [|apply Hf].
  - intros s [Hs _]. eapply triple_post; [by apply create_bridge_safe, Hk| |exact Hs].
    intros a l' s' [Hk' Hs']. split; [by eapply kept_trans|done].
Qed.

(** The port of the call, added. *)
Lemma adding_port s s' :
  bridged s → ov_bridges s'.1 = alter (λ ps, {[p]} ∪ ps) b (ov_bridges s.1) →
  (is_Some (ov_bridges s.1 !! b) → ∀ b' ps, ov_bridges s.1 !! b' = Some ps → p ∉ ps) →
  guar p s s' ∧ added s'.
Proof.
  intros [Hown Hb] E Hfree. specialize (Hfree Hb). split.
  { eapply alter_spares; [exact E|]. intros q ps Hq. set_solver. }
  assert (∀ b', ¬ has b' p s) as Hno by (intros b' (ps & Hps & Hp); by eapply Hfree).
  split; [intros b' Hb'%Hown; by eapply Hno|]. intros b'. unfold has. rewrite E.
  destruct (decide (b' = b)) as [->|Hne].
  - rewrite lookup_alter_eq. destruct Hb as [ps ->]. simpl. split; [done|].
    intros _. eexists. split; [done|set_solver].
  - rewrite lookup_alter_ne by done. split; [|done]. intros Hp. by destruct (Hno b').
Qed.

Lemma create_port_safe l dir client cfg :
  ready l.2 →
  triple p add_failed bridged l
    (on_ovsdb (wrap_err "createVhostPort" (transact (createVhostPort_ops dir p client b cfg))))
    (λ _ l' s, kept l l' ∧ added s).
Proof.
  intros Hr. apply triple_step; [apply add_failed_stable|apply bridged_stable| |].
  { intros a l'. apply kept_stable, added_stable. }
  intros s Hs. set (v0 := OvsState l.2 s.1).
  destruct (createPort_atomic "createVhostPort" dir p client b cfg v0) as [Hon Hdb]; [done|].
  pose proof (createPort_Ok "createVhostPort" dir p client b cfg v0) as Hok.
  unfold on_snd, on_fst, whole. cbn [fst snd]. fold v0.
  destruct (wrap_err "createVhostPort" _ v0) as [o v]. cbn in *.
  assert (guar p s (ovs_db v, s.2) ∧ add_failed (ovs_db v, s.2)) as [Hg Hf].
  { destruct Hdb as [E|[E Hfree]].
    - split; [by apply same_spares|]. left. intros b'. unfold has. cbn. rewrite E. apply Hs.
    - destruct (adding_port s (ovs_db v, s.2) Hs E Hfree). by split; [|right]. }
  split; [done|]. destruct o as [rs|e|w|]; cbn; [|done..]. destruct (Hok rs v eq_refl) as [E Hfree].
  split; [by split; [|right]|]. by apply (adding_port s).
Qed.

(** What is left once the port is there: no step of it changes OVSDB. *)
Definition port_added {A} (l : own_state) : A → own_state → shared_state → Prop :=
  λ _ l' s, kept l l' ∧ added s.

Lemma createVhostPort_safe l dir client cfg :
  ready l.2 →
  triple p add_failed bridged l (createVhostPort_p dir p client b cfg) (port_added l).
Proof.
  intros Hr. unfold createVhostPort_p. destruct add_steady as (_ & _ & S2).
  eapply triple_bind; [by apply create_port_safe|]. intros ? l1. apply triple_pre. intros Hk1.
  eapply (triple_bind _ _ _ _ _ _ (port_added l)).
  - destruct client; cbn [negb].
    + apply triple_ret; [apply S2|]. intros s Hs. by split.
    + eapply triple_post; [by apply calm_last; [apply add_failed_stable|done|apply Hk1|apply files_calm]|].
      intros ? l2 s [Hk2 Hs]. split; [by eapply kept_trans|done].
  - intros ? l2. apply triple_pre. intros Hk2. apply triple_ret; [apply S2|]. intros s Hs. by split.
Qed.

(** The socket file's name, which is the port's. *)
Lemma name_safe args l :
  ready l.2 → vhost_port_name args l.1 = p → 
  triple p add_failed bridged l
    (if decide (VhostConf.Socketfile (host_vhost l.1) = EmptyString) then
       name ← pstep (vhost_name args);
       pstep (on_fst (modify (upd_vhost (VhostConf.set_Socketfile name))))
     else mret tt)
    (λ _ l' s, (ready l'.2 ∧ VhostConf.Socketfile (host_vhost l'.1) = p ∧
                host_bridge l'.1 = host_bridge l.1) ∧ bridged s).
Proof.
  intros Hr Hp. destruct add_steady as (_ & S1 & _). unfold vhost_port_name in Hp.
  case_decide as Hs.
  - eapply triple_bind.
    { eapply (triple_calm_val _ _ add_failed_stable (λ name, name = p));
        [done|done|apply vhost_name_calm|].
      intros h name h' (id & h1 & (-> & -> & _)%slice_to_Ok & [= <- _])%bind_Ok_inv. exact Hp. }
    intros name l1. apply triple_pre. intros [-> [Hl1 Hr1]].
    apply triple_step; [apply add_failed_stable|apply S1| |].
    { intros a l'. apply (and_stable (λ _, _)); [apply pure_stable|apply S1]. }
    intros s Hb. destruct l1 as [c1 o1], s as [d f]. cbn in *. subst c1.
    split; [by apply same_spares|]. done.
  - apply triple_ret; [apply S1|]. done.
Qed.

Lemma add_device_safe args dir ovn mac l :
  ready l.2 → vhost_port_name args l.1 = p → BridgeConf.BridgeName (host_bridge l.1) = b →
  triple p add_failed bridged l (addLocalDeviceVhost_p args dir ovn mac)
    (λ _ l' s, ready l'.2 ∧ added s).
Proof.
  intros Hr Hp Hb. destruct add_steady as (_ & S1 & S2). pose proof add_failed_stable as HX.
  unfold addLocalDeviceVhost_p. apply gets_bind; [apply S1|].
  eapply triple_bind; [by apply name_safe|]. intros ? l1. apply triple_pre. intros (Hr1 & Hp1 & Hb1).
  eapply calm_bind; [done|done|done|apply getShortSharedDir_calm|]. intros sd l2 [E2 Hr2].
  eapply calm_bind; [done|done|done|apply files_calm|]. intros ? l3 [E3 Hr3].
  apply gets_bind; [apply S1|]. cbv zeta.
  eapply (triple_bind _ _ _ _ _ _ (λ _ l' s, kept l3 l' ∧ bridged s)).
  { case_decide; [by apply calm_last; [..|apply files_calm]|]. by apply triple_ret; [apply S1|]. }
  intros ? l4. apply triple_pre. intros [E4 Hr4]. rewrite E3, E2, Hp1, Hb1, Hb.
  eapply triple_bind; [by apply createVhostPort_safe|]. intros name l5. apply triple_pre. intros [E5 Hr5].
  eapply calm_bind; [done|done|done|apply ovsdb_calm, asking_mild; exact EmptyString|].
  intros m l6 [E6 Hr6]. by apply triple_ret; [apply S2|].
Qed.
End Add.

Section AddCall.
Context (order : gmap string json → list (string * json)) (args : CmdArgs.t) (dir : string).
Variable conf : NetConf.t.

Definition add_port : string := vhost_port_name args conf.
Definition add_bridge : string := ovs_bridge_name (resolveOvnArgs order conf args).1 conf.

Lemma ovs_AddOnHost_safe own once :
  add_port ∉ held → ready once →
  triple add_port (add_failed add_port own add_bridge) (port_on add_port own) (conf, once)
    (ovs_AddOnHost_p order args dir) (λ _ _ s, added add_port own add_bridge s).
Proof.
  intros Hp Hr. destruct (add_steady add_port own add_bridge) as (S0 & S1 & S2).
  pose proof (add_failed_stable add_port own add_bridge) as HX. unfold ovs_AddOnHost_p.
  eapply calm_bind; [done|done|done|apply slice_to_calm|]. intros id l1 [E1 Hr1].
  apply gets_bind; [apply S0|]. rewrite E1. cbn [fst].
  pose proof (eq_refl add_bridge) as Hb. unfold add_bridge at 1 in Hb.
  destruct (resolveOvnArgs order conf args) as [ovn mac]. cbn [fst] in Hb.
  apply set_bind; [apply S0|]. rewrite E1. cbn [fst].
  destruct (default_bridge_vhost (if decide (ovn ≠ EmptyString) then ovnIntegrationBridge
                                  else defaultBridge) conf) as [Hv _].
  eapply triple_bind.
  { apply add_network_safe; [done|]. cbn [fst]. by rewrite default_bridge_name. }
  intros ? l2. apply triple_pre. intros [E2 Hr2]. cbn [fst] in E2.
  apply gets_bind; [apply S1|].
  eapply (triple_bind _ _ _ _ _ _ (λ _ l' s, ready l'.2 ∧ added add_port own add_bridge s)).
  { destruct (decide (UserSpaceConf.IfType _ = _)); [|by apply triple_raise].
    apply add_device_safe; [done|done| |].
    - rewrite E2. unfold vhost_port_name. by rewrite Hv.
    - rewrite E2, default_bridge_name. exact Hb. }
  intros data l3. apply triple_pre. intros Hr3. cbv zeta.
  destruct (decide (_ = "interface")); [by apply triple_raise|].
  destruct (decide (_ ∧ _)); [by apply triple_raise|].
  eapply triple_post; [by apply calm_last; [..|apply files_calm]|]. by intros ? l' s [_ Hs].
Qed.
End AddCall.

(** ** DEL *)

Section Del.
Variable p : string.
Hypothesis p_owned : p ∉ held.
Variable own : string → Prop.
Variable b : string.

(** A port of a bystander is on the bridge. *)
Definition guarded (s : shared_state) : Prop := ∃ q, q ∈ held ∧ has b q s.

(** The call has taken its port away: it was on [b], or on no bridge. *)
Definition removed (s : shared_state) : Prop := (∀ b', own b' → b' = b) ∧ ∀ b', ¬ has b' p s.
Definition del_failed (s : shared_state) : Prop := port_on p own s ∨ removed s.
Definition before (s : shared_state) : Prop := port_on p own s ∧ guarded s.
Definition after (s : shared_state) : Prop := removed s ∧ guarded s.

Lemma guarded_stable : stable p guarded.
Proof. intros s s' [Hp _] (q & Hq & Hb). exists q. split; [done|]. apply Hp; auto. Qed.

Lemma removed_stable : stable p removed.
Proof.
  apply (and_stable p (λ _, ∀ b', own b' → b' = b)); [apply pure_stable|].
  intros s s' [Hp _] Hno b' Hb'. apply (Hno b'), Hp; auto.
Qed.

Lemma del_failed_stable : stable p del_failed.
Proof. apply or_stable; [apply port_on_stable|apply removed_stable]. Qed.

Lemma del_steady : steady p del_failed before ∧ steady p del_failed after.
Proof.
  split; (split; [|intros s Hs]).
  - apply and_stable; [apply port_on_stable|apply guarded_stable].
  - left. apply Hs.
  - apply and_stable; [apply removed_stable|apply guarded_stable].
  - right. apply Hs.
Qed.

Lemma find_port_safe l :
  ready l.2 →
  triple p del_failed before l (on_ovsdb (attempt (portUUID p)))
    (λ r l' s, kept l l' ∧ if r is inl _ then after s else before s).
Proof.
  intros Hr. destruct del_steady as [S0 S2]. apply triple_step; [apply del_failed_stable|apply S0| |].
  { intros r l'. apply kept_stable. destruct r; [apply S2|apply S0]. }
  intros s [Hs Hg]. pose proof (proj1 (proj2 (proj2 (asking_mild p b))) (OvsState l.2 s.1)) as [Hm Hro].
  pose proof (portUUID_missing p (OvsState l.2 s.1)) as Hmiss.
  unfold on_snd, on_fst, whole. cbn [fst snd].
  destruct (attempt (portUUID p) (OvsState l.2 s.1)) as [o v]. cbn in *.
  assert (before (ovs_db v, s.2)) as Hv.
  { eapply S0; [|by split]. by apply same_spares. }
  split; [by apply same_spares|]. destruct o as [[e|uuid]|e|w|]; cbn; [| |by left; apply Hv..];
    (split; [by split; [|apply Hro]|]); [|done].
  split; [|apply Hv].
  assert (∀ b', ¬ has b' p s) as Hno by (intros b' (ps & Hps & Hp); by eapply (Hmiss e v)).
  split; [intros b' Hb'%Hs; by destruct (Hno b')|]. intros b' Hb'%Hv%Hs. by destruct (Hno b').
Qed.

(** The port taken off the bridge. *)
Lemma removing_port s s' :
  before s → ov_bridges s'.1 = alter (λ ps, ps ∖ {[p]}) b (ov_bridges s.1) →
  (∀ b' ps, b' ≠ b → ov_bridges s.1 !! b' = Some ps → p ∉ ps) →
  guar p s s' ∧ after s'.
Proof.
  intros [Hown (q & Hq & Hb)] E Hfree.
  assert (guar p s s') as Hg by (eapply alter_spares; [exact E|]; intros r ps Hr; set_solver).
  split; [done|]. split; [|exists q; split; [done|]; apply Hg; auto].
  assert (∀ b', b' ≠ b → ¬ has b' p s) as Hno
    by (intros b' Hne (ps & Hps & Hp); by eapply Hfree).
  split.
  - intros b' Hb'%Hown. destruct (decide (b' = b)) as [|Hne]; [done|]. by destruct (Hno b').
  - intros b'. unfold has. rewrite E. destruct (decide (b' = b)) as [->|Hne].
    + rewrite lookup_alter_eq. destruct (ov_bridges s.1 !! b) as [ps|]; simpl; [|naive_solver].
      intros (ps' & [= <-] & Hp). set_solver.
    + rewrite lookup_alter_ne by done. by apply Hno.
Qed.

Lemma delete_port_safe l uuid :
  ready l.2 →
  triple p del_failed before l
    (on_ovsdb (wrap_err "deleteVhostPort" (transact (deleteVhostPort_ops p b uuid)) ;; mret tt))
    (λ _ l' s, kept l l' ∧ after s).
Proof.
  intros Hr. destruct del_steady as [S0 S2]. apply triple_step; [apply del_failed_stable|apply S0| |].
  { intros r l'. apply kept_stable, S2. }
  intros s Hs. set (v0 := OvsState l.2 s.1).
  destruct (deletePort_atomic "deleteVhostPort" p b uuid v0) as [Hon Hdb]; [done|].
  pose proof (deletePort_Ok "deleteVhostPort" p b uuid v0) as Hok.
  unfold on_snd, on_fst, whole. cbn [fst snd]. fold v0.
  destruct ((wrap_err "deleteVhostPort" _ ;; _) v0) as [o v]. cbn in *.
  assert (guar p s (ovs_db v, s.2) ∧ del_failed (ovs_db v, s.2)) as [Hg Hf].
  { destruct Hdb as [E|[E Hfree]].
    - split; [by apply same_spares|]. left. intros b'. unfold has. cbn. rewrite E. apply Hs.
    - destruct (removing_port s (ovs_db v, s.2) Hs E Hfree) as [? []]. by split; [|right]. }
  split; [done|]. destruct o as [[]|e|w|]; cbn; [|done..]. destruct (Hok v eq_refl) as [E Hfree].
  split; [by split; [|right]|]. by apply (removing_port s).
Qed.

Lemma deleteVhostPort_safe l :
  ready l.2 → triple p del_failed before l (deleteVhostPort_p p b) (λ _ l' s, kept l l' ∧ after s).
Proof.
  intros Hr. destruct del_steady as [S0 S2]. unfold deleteVhostPort_p.
  eapply triple_bind; [by apply find_port_safe|]. intros r l1. apply triple_pre. intros Hk.
  destruct r as [e|uuid].
  - apply triple_ret; [apply S2|]. by intros s Hs.
  - eapply triple_post; [by apply delete_port_safe, Hk|].
    intros ? l2 s [Hk2 Hs]. split; [by eapply kept_trans|done].
Qed.

(** The bridge has a port left, and stays. *)
Lemma del_network_safe l :
  ready l.2 → BridgeConf.BridgeName (host_bridge l.1) = b →
  triple p del_failed after l delLocalNetworkBridge_p (λ _ _ s, after s).
Proof.
  intros Hr Hb. destruct del_steady as [S0 S2]. unfold delLocalNetworkBridge_p.
  apply gets_bind; [apply S2|]. cbv zeta. rewrite Hb.
  eapply (triple_bind _ _ _ _ _ _ (λ (contain : bool) _ s, contain = true ∧ after s)).
  - apply triple_step; [apply del_failed_stable|apply S2| |].
    { intros c l'. apply (and_stable p (λ _, c = true)); [apply pure_stable|apply S2]. }
    intros s [Hs (q & Hq & ps & Hps & Hin)].
    destruct (doesBridgeContainInterfaces_answers b (OvsState l.2 s.1) ps) as (v & Hrun & Hsame);
      [by apply ready_answers|exact Hps|].
    unfold on_snd, on_fst, whole. cbn [fst snd]. rewrite Hrun. cbn in *.
    assert (∀ P, spares P s (ovs_db v, s.2)) as Hsp by (intros P; by apply same_spares).
    split; [apply Hsp|]. split; [apply bool_decide_eq_true; set_solver|].
    eapply S2; [apply Hsp|]. split; [done|]. exists q. split; [done|]. by exists ps.
  - intros contain l1. apply triple_pre. intros ->. by apply triple_ret; [apply S2|].
Qed.

Lemma del_device_safe args dir data l :
  ready l.2 → OvsSavedData.Vhostname data = p → BridgeConf.BridgeName (host_bridge l.1) = b →
  triple p del_failed before l (delLocalDeviceVhost_p args dir data) (λ _ l' s, kept l l' ∧ after s).
Proof.
  intros Hr Hp Hb. destruct del_steady as [S0 S2]. pose proof del_failed_stable as HX.
  unfold delLocalDeviceVhost_p.
  eapply calm_bind; [done|done|done|apply getShortSharedDir_calm|]. intros sd l1 [E1 Hr1].
  apply gets_bind; [apply S0|]. rewrite E1, Hp, Hb.
  eapply triple_bind; [by apply deleteVhostPort_safe|]. intros ? l2. apply triple_pre. intros [E2 Hr2].
  eapply triple_post; [by apply calm_last; [..|apply files_calm]|].
  intros ? l3 s [[E3 Hr3] Hs]. split; [|done]. split; [congruence|done].
Qed.
End Del.

Section DelCall.
Context (args : CmdArgs.t) (dir : string) (data : OvsSavedData.t) (conf : NetConf.t).

Definition del_bridge : string := ovs_bridge_name EmptyString conf.
Notation del_port := (OvsSavedData.Vhostname data).

Lemma ovs_del_loaded_safe own once :
  del_port ∉ held → ready once →
  triple del_port (del_failed del_port own del_bridge) (before del_port own del_bridge) (conf, once)
    (ovs_del_loaded_p args dir data) (λ _ _ s, removed del_port own del_bridge s).
Proof.
  intros Hp Hr. destruct (del_steady del_port own del_bridge) as [S0 S2].
  pose proof (del_failed_stable del_port own del_bridge) as HX. unfold ovs_del_loaded_p.
  apply set_bind; [apply S0|]. apply gets_bind; [apply S0|].
  assert (BridgeConf.BridgeName (host_bridge (default_bridge defaultBridge conf)) = del_bridge) as Hb
    by apply (default_bridge_name EmptyString).
  eapply triple_bind.
  { destruct (decide (_ = "vhostuser")); [|by apply triple_raise]. by apply del_device_safe. }
  intros ? l1. apply triple_pre. intros [E1 Hr1].
  eapply triple_post; [apply del_network_safe; [done..|by rewrite E1]|]. by intros ? l2 s [Hs _].
Qed.
End DelCall.

(** ** Calls side by side *)

(** A call of the engine in a process of its own; a DEL with the saved data it loaded. *)
Inductive ovs_call :=
  | OvsAdd (order : gmap string json → list (string * json)) (args : CmdArgs.t) (dir : string)
      (conf : NetConf.t)
  | OvsDel (args : CmdArgs.t) (dir : string) (data : OvsSavedData.t) (conf : NetConf.t).

Definition ovs_port (c : ovs_call) : string :=
  match c with
  | OvsAdd _ args _ conf => add_port args conf
  | OvsDel _ _ data _ => OvsSavedData.Vhostname data
  end.

Definition ovs_prog (c : ovs_call) : prog shared_state (unit * own_state) :=
  match c with
  | OvsAdd order args dir conf => ovs_AddOnHost_p order args dir (conf, None)
  | OvsDel args dir data conf => ovs_del_loaded_p args dir data (conf, None)
  end.

(** What a call that has ended in [o] has done to its port, which was on the bridges
    [own]: all, or one that failed all or nothing. *)
Definition ovs_post (c : ovs_call) (own : string → Prop) (o : outcome (unit * own_state))
    (s : shared_state) : Prop :=
  match c with
  | OvsAdd order args _ conf =>
      let done := added (ovs_port c) own (add_bridge order args conf) s in
      if is_ok o then done else port_on (ovs_port c) own s ∨ done
  | OvsDel _ _ _ conf =>
      let done := removed (ovs_port c) own (del_bridge conf) s in
      if is_ok o then done else port_on (ovs_port c) own s ∨ done
  end.

(** Calls on ports of different names, none of a bystander's; a DEL's bridge has a
    bystander's port. *)
Record ovs_side_by_side (E : relation shared_state) (calls : list ovs_call) (s : shared_state)
    : Prop := {
  os_ports : NoDup (ovs_port <$> calls);
  os_held c : c ∈ calls → ovs_port c ∉ held;
  os_env c s1 s2 : c ∈ calls → E s1 s2 → rely (ovs_port c) s1 s2;
  os_bridge args dir data conf : OvsDel args dir data conf ∈ calls →
    ∃ q, q ∈ held ∧ has (del_bridge conf) q s
}.

Definition ovs_spec (s : shared_state) (c : ovs_call) : thread_spec :=
  ThreadSpec (K := string) (ovs_port c) (ovs_post c (λ b, has b (ovs_port c) s)).

Lemma ovs_calls_safe E calls s :
  ovs_side_by_side E calls s →
  Forall2 (thread_safe rely guar s) (ovs_spec s <$> calls) (ovs_prog <$> calls).
Proof.
  intros [_ Hheld _ Hbr]. apply Forall2_fmap, Forall_Forall2_diag, Forall_forall.
  intros c Hc. apply Hheld in Hc as Hp. set (own := λ b, has b (ovs_port c) s).
  assert (port_on (ovs_port c) own s) as Hown by done. unfold thread_safe. cbn [ovs_spec sp_key sp_post].
  destruct c as [order args dir conf|args dir data conf]; unfold ovs_post; cbn [ovs_port ovs_prog] in *.
  - eapply safe_weaken; [|eapply (ovs_AddOnHost_safe order args dir conf own None Hp)]; [|by left|done].
    intros [[a l']|e|w|] s'; cbn; auto.
  - eapply safe_weaken; [|eapply (ovs_del_loaded_safe args dir data conf own None Hp)];
      [|by left|split; [done|by eapply Hbr]].
    intros [[a l']|e|w|] s'; cbn; auto.
Qed.

End OvsInterleave.
