(* ===== verification/Calls.v ===== *)
(** * The calls on VPP as interleaved programs

    AddOnHost and DelFromHost of the engine and CreateMaster and DeleteMaster of the
    daemon once more, as programs of file Threads over the node: every request and
    every dump of VPP is a step, and so is every file operation.  The configuration
    belongs to the process and is passed along.  [calls_alone]: run without
    interruption they are the calls of files CniVpp and Dataplane. *)
From S2P Require Import Prelude GoStrings GoOs Json Types JsonCodec Annotations ConfigData.
From S2P Require Import LocalDb VppApi Memif Bridge CniVpp Reconcile Dataplane Threads.

Section Calls.
Context `{VppApi} `{UserDb}.
Variable fuel : nat.

(** A request; its reply's index where it has one. *)
Definition request_ (r : request) : prog node unit := atomic (send_ r).

(** ** memif *)

Definition CreateMemifSocket_p (socketFile : string) : prog node Z :=
  '(found, socketId) ← atomic (findMemifSocket fuel socketFile);
  if (found : bool) then mret socketId
  else
    atomic (on_snd (ensure_dir (path_dir socketFile))) ≫= λ _,
    atomic (send (ReqMemifSocketFilenameAddDelV2 true socketId socketFile)) ≫= λ _,
    mret socketId.

Definition of_result_p {A} (r : result A) : prog node A :=
  local match r with inl e => Err e | inr a => Ok a end.

Definition CreateMemifInterface_p (p : CreateParams) : prog node Z :=
  req ← of_result_p (memif_create_request p);
  atomic (send (ReqMemifCreateV2 req)).

Definition FindMemifBySocket_p (socketFilename : string) : prog node (Z * bool) :=
  '(ok, socketId) ← atomic (findMemifSocket fuel socketFilename);
  if (ok : bool) then
    atomic (look (λ n, recv_loop (MemifDump (node_vpp n))
            (λ acc _, Continue acc)
            (λ (acc : unit) d, if decide (md_SocketID d = socketId)
                               then Break (Ok (md_SwIfIndex d, true)) else Continue acc)
            (λ _, Ok (0%Z, false)) fuel 0 tt))
  else mret (0%Z, false).

Definition DeleteMemifInterface_p (swIfIndex : Z) : prog node unit :=
  '(socketId, exists_) ← atomic (findMemifInterface fuel swIfIndex);
  if negb exists_ then mret tt
  else
    atomic (send (ReqMemifDelete swIfIndex)) ≫= λ _,
    if decide (socketId ≠ 0)%Z then
      count ← atomic (findMemifSocketCnt fuel socketId);
      if decide (count = 0)%Z then atomic (DeleteMemifSocket socketId) else mret tt
    else mret tt.

(** ** Bridge domains, flags, MTU, addresses, vhost-user *)

Definition CreateBridge_p (bridgeDomain : Z) : prog node unit :=
  '(exists_, _) ← atomic (findBridge fuel bridgeDomain);
  if (exists_ : bool) then mret tt
  else request_ (ReqBridgeDomainAddDelV2
    {| bd_BdID := bridgeDomain; bd_Flood := true; bd_UuFlood := true; bd_Forward := true;
       bd_Learn := true; bd_IsAdd := true |}).

Definition DeleteBridge_p (bridgeDomain : Z) : prog node unit :=
  '(exists_, count) ← atomic (findBridge fuel bridgeDomain);
  if decide (exists_ = false ∨ count ≠ 0%Z) then mret tt
  else request_ (ReqBridgeDomainAddDelV2
    {| bd_BdID := bridgeDomain; bd_Flood := false; bd_UuFlood := false; bd_Forward := false;
       bd_Learn := false; bd_IsAdd := false |}).

Definition AddBridgeInterface_p (bridgeDomain swIfId : Z) : prog node unit :=
  CreateBridge_p bridgeDomain ≫= λ _,
  request_ (ReqSwInterfaceSetL2Bridge bridgeDomain swIfId true).

Definition RemoveBridgeInterface_p (bridgeDomain swIfId : Z) : prog node unit :=
  request_ (ReqSwInterfaceSetL2Bridge bridgeDomain swIfId false) ≫= λ _,
  DeleteBridge_p bridgeDomain.

Definition join_network_p (conf : NetConf.t) (idx : Z) (ipResult : option Result.t)
  : prog node unit :=
  let netType := UserSpaceConf.NetType (NetConf.HostConf conf) in
  if decide (netType = "bridge") then
    bridgeDomain ← of_result_p (bridge_domain (host_bridge conf));
    AddBridgeInterface_p bridgeDomain idx
  else if decide (netType = "interface") then
    match ipResult with
    | Some r => if decide (Result.IPs r = []) then mret tt
                else atomic (AddDelIpAddress idx true r)
    | None => mret tt
    end
  else if decide (netType ≠ EmptyString)
  then local (Err (ErrNew ("ERROR: Unknown HostConf.NetType:" +:+ netType)))
  else local (Err (ErrNew "ERROR: NetType must be provided")).

Definition set_up_p (conf : NetConf.t) (idx : Z) (ipResult : option Result.t) : prog node unit :=
  atomic (SetState idx 1) ≫= λ _,
  (let mtu := UserSpaceConf.MTU (NetConf.HostConf conf) in
   if decide (0 < mtu)%Z then atomic (SetMtu idx (u32 mtu)) else mret tt) ≫= λ _,
  join_network_p conf idx ipResult.

(** ** The interface of a call, and the configuration it leaves *)

Definition addLocalDeviceMemif_p (args : CmdArgs.t) (sharedDir : string) (conf : NetConf.t)
  : prog node (VppSavedData.t * NetConf.t) :=
  let memifSocketPath := memif_path sharedDir args conf in
  memifRole ← of_result_p (memif_role (MemifConf.Role (host_memif conf)));
  let conf := filled args conf in
  memifMode ← of_result_p (memif_mode (MemifConf.Mode (host_memif conf)));
  socketId ← CreateMemifSocket_p memifSocketPath;
  idx ← CreateMemifInterface_p (memif_params conf memifRole memifMode socketId);
  mret (VppSavedData.mk idx socketId, conf).

Definition addLocalDeviceVhostUser_p (args : CmdArgs.t) (sharedDir : string) (conf : NetConf.t)
    (data : VppSavedData.t) : prog node (VppSavedData.t * NetConf.t) :=
  let '(path, conf) := getVhostSocketfileName sharedDir (CmdArgs.ContainerID args)
                         (CmdArgs.IfName args) conf in
  socketPath ← local path;
  let isServer := negb (bool_decide (VhostConf.Mode (host_vhost conf) = "client")) in
  idx ← atomic (CreateVhostUserInterface (vhost_params conf isServer socketPath));
  (if isServer && negb (bool_decide (VhostConf.Group (host_vhost conf) = EmptyString))
   then ignore_err_p (atomic (on_snd (chgrpSocket socketPath (VhostConf.Group (host_vhost conf)))))
   else mret tt) ≫= λ _,
  mret (VppSavedData.set_InterfaceSwIfIndex idx data, conf).

Definition add_local_device_p (args : CmdArgs.t) (sharedDir : string) (conf : NetConf.t)
  : prog node (VppSavedData.t * NetConf.t) :=
  let ifType := UserSpaceConf.IfType (NetConf.HostConf conf) in
  if decide (ifType = "memif") then addLocalDeviceMemif_p args sharedDir conf
  else if decide (ifType = "vhostuser")
  then addLocalDeviceVhostUser_p args sharedDir conf VppSavedData.zero
  else local (Err (ErrNew ("ERROR: Unknown HostConf.IfType:" +:+ ifType))).

(** args.ContainerID[:12] *)
Definition short_id (args : CmdArgs.t) : prog node string :=
  local (slice_to 12 (CmdArgs.ContainerID args) tt).1.

Definition AddOnHost_p (args : CmdArgs.t) (sharedDir : string) (ipResult : option Result.t)
    (conf : NetConf.t) : prog node unit :=
  short_id args ≫= λ _,
  atomic open_channel ≫= λ _,
  '(data, conf) ← add_local_device_p args sharedDir conf;
  set_up_p conf (VppSavedData.InterfaceSwIfIndex data) ipResult ≫= λ _,
  atomic (on_snd (SaveVppConfig args data)).

(** ** DEL *)

Definition leave_network_p (conf : NetConf.t) (idx : Z) (memifGone : bool) : prog node unit :=
  if bool_decide (UserSpaceConf.NetType (NetConf.HostConf conf) = "bridge") && negb memifGone then
    ignore_err_p (RemoveBridgeInterface_p (u32 (BridgeConf.BridgeId (host_bridge conf))) idx)
  else mret tt.

(** The deferred removal of the socket file. *)
Definition cleanup_file (path : string) (n : node) : node :=
  (n.1, (FileCleanup EmptyString path n.2).2).

Definition delLocalDeviceMemif_p (args : CmdArgs.t) (sharedDir : string) (conf : NetConf.t)
    (data : VppSavedData.t) (memifGone : bool) : prog node unit :=
  finally
    (if memifGone then mret tt
     else wrap_err_p "delLocalDeviceMemif(vpp): Error deleting memif inteface"
            (DeleteMemifInterface_p (VppSavedData.InterfaceSwIfIndex data)))
    (cleanup_file (memif_path sharedDir args conf)).

Definition delLocalDeviceVhostUser_p (args : CmdArgs.t) (sharedDir : string) (conf : NetConf.t)
    (data : VppSavedData.t) : prog node unit :=
  atomic (DeleteVhostUserInterface (VppSavedData.InterfaceSwIfIndex data)) ≫= λ _,
  path ← local (getVhostSocketfileName sharedDir (CmdArgs.ContainerID args)
                  (CmdArgs.IfName args) conf).1;
  ignore_err_p (atomic (on_snd (FileCleanup EmptyString path))).

Definition DelFromHost_p (args : CmdArgs.t) (sharedDir : string) (conf : NetConf.t)
  : prog node unit :=
  short_id args ≫= λ _,
  atomic open_channel ≫= λ _,
  data ← atomic (on_snd (LoadVppConfig args VppSavedData.zero));
  let ifType := UserSpaceConf.IfType (NetConf.HostConf conf) in
  if decide (ifType = "memif") then
    '(idx, found) ← FindMemifBySocket_p (memif_path sharedDir args conf);
    let data := if (found : bool) then VppSavedData.set_InterfaceSwIfIndex idx data else data in
    leave_network_p conf (VppSavedData.InterfaceSwIfIndex data) (negb found) ≫= λ _,
    delLocalDeviceMemif_p args sharedDir conf data (negb found)
  else
    leave_network_p conf (VppSavedData.InterfaceSwIfIndex data) false ≫= λ _,
    if decide (ifType = "vhostuser") then delLocalDeviceVhostUser_p args sharedDir conf data
    else local (Err (ErrNew ("ERROR: Unknown HostConf.IfType: " +:+ ifType))).

(** ** The daemon *)

Definition CreateMaster_p (m : Memif) : prog node unit :=
  socketID ← wrap_err_p "memif socket" (CreateMemifSocket_p (mf_Socket m));
  swIfIndex ← wrap_err_p "memif create" (CreateMemifInterface_p (master_params m socketID));
  wrap_err_p "memif set-up" (atomic (SetState swIfIndex IF_STATUS_API_FLAG_ADMIN_UP)) ≫= λ _,
  (if decide (0 < mf_MTU m)%Z
   then wrap_err_p "memif set-mtu" (atomic (SetMtu swIfIndex (mf_MTU m)))
   else mret tt) ≫= λ _,
  (if decide (mf_BridgeID m ≠ 0)%Z
   then wrap_err_p "memif bridge add" (AddBridgeInterface_p (mf_BridgeID m) swIfIndex)
   else mret tt).

Definition DeleteMaster_p (m : Memif) : prog node unit :=
  wrap_err_p "memif delete" (DeleteMemifInterface_p (mf_SwIfIndex m)) ≫= λ _,
  if decide (mf_Socket m ≠ EmptyString)
  then ignore_err_p (atomic (on_snd (os_remove (mf_Socket m))))
  else mret tt.
End Calls.

(** ** Run alone, they are the sequential calls *)

Create HintDb runs_db.

Section Alone.
Context `{VppApi} `{UserDb}.
Variable fuel : nat.

Definition runs_as {A} (p : prog node A) (m : go node A) : Prop := ∀ n, alone p n = m n.

Lemma runs_bind {A B} (p : prog node A) m (f : A → prog node B) g :
  runs_as p m → (∀ a, runs_as (f a) (g a)) → runs_as (p ≫= f) (m ≫= g).
Proof.
  intros Hp Hf n. rewrite alone_bind, !run_bind, Hp.
  destruct (m n) as [[a|?|?|] n1]; [apply Hf|done..].
Qed.

Lemma runs_atomic {A} (m : go node A) : runs_as (atomic m) m.
Proof. intros n. apply alone_atomic. Qed.

Lemma runs_ret {A} (a : A) : runs_as (mret a) (mret a).
Proof. done. Qed.

Lemma runs_result {A} (r : result A) : runs_as (of_result_p r) (of_result r).
Proof. by destruct r. Qed.

Lemma runs_err {A} e : runs_as (local (Err e) : prog node A) (raise e).
Proof. done. Qed.

Lemma runs_ignore p m : runs_as p m → runs_as (ignore_err_p p) (ignore_err m).
Proof.
  intros Hp n. rewrite alone_ignore_err. unfold ignore_err. by rewrite !run_bind, !run_attempt, Hp.
Qed.

Lemma runs_wrap {A} msg (p : prog node A) m :
  runs_as p m → runs_as (wrap_err_p msg p) (wrap_err msg m).
Proof. intros Hp n. rewrite alone_wrap_err. unfold wrap_err. by rewrite Hp. Qed.

Lemma runs_request r : runs_as (request_ r) (send_ r).
Proof. apply runs_atomic. Qed.

Lemma runs_ignore_file (m : go fs unit) :
  runs_as (ignore_err_p (atomic (on_snd m))) (on_snd (ignore_err m)).
Proof.
  intros n. rewrite alone_ignore_err. unfold ignore_err, on_snd. cbn.
  rewrite !run_bind, !run_attempt. cbn. by destruct (m n.2) as [[] ?].
Qed.

Hint Resolve runs_request runs_bind runs_atomic runs_ret runs_result runs_err runs_ignore runs_wrap : runs_db.

Ltac runs :=
  intros; repeat first
    [ progress cbv beta iota zeta
    | apply runs_bind; intros
    | progress auto with runs_db
    | case_decide
    | case_match ].

Lemma CreateMemifSocket_alone f : runs_as (CreateMemifSocket_p fuel f) (CreateMemifSocket fuel f).
Proof. apply runs_bind; [runs|]. intros [[] id]; runs. Qed.

Lemma CreateMemifInterface_alone p :
  runs_as (CreateMemifInterface_p p) (CreateMemifInterface p).
Proof. apply runs_bind; runs. Qed.

Lemma FindMemifBySocket_alone f : runs_as (FindMemifBySocket_p fuel f) (FindMemifBySocket fuel f).
Proof. apply runs_bind; [runs|]. intros [[] id]; runs. Qed.

Lemma DeleteMemifInterface_alone i :
  runs_as (DeleteMemifInterface_p fuel i) (DeleteMemifInterface fuel i).
Proof. apply runs_bind; [runs|]. intros [id []]; cbn [negb]; runs. Qed.

Lemma CreateBridge_alone b : runs_as (CreateBridge_p fuel b) (CreateBridge fuel b).
Proof. apply runs_bind; [runs|]. intros [[] c]; runs. Qed.

Lemma DeleteBridge_alone b : runs_as (DeleteBridge_p fuel b) (DeleteBridge fuel b).
Proof. apply runs_bind; [runs|]. intros [e c]; runs. Qed.
Hint Resolve CreateBridge_alone DeleteBridge_alone : runs_db.

Lemma RemoveBridgeInterface_alone b i :
  runs_as (RemoveBridgeInterface_p fuel b i) (RemoveBridgeInterface fuel b i).
Proof. apply runs_bind; runs. Qed.

Lemma AddBridgeInterface_alone b i :
  runs_as (AddBridgeInterface_p fuel b i) (AddBridgeInterface fuel b i).
Proof. apply runs_bind; runs. Qed.
Hint Resolve RemoveBridgeInterface_alone AddBridgeInterface_alone : runs_db.

Lemma set_up_alone conf i ip : runs_as (set_up_p fuel conf i ip) (set_up fuel conf i ip).
Proof.
  apply runs_bind; [runs|intros _]. apply runs_bind; [runs|intros _].
  unfold join_network_p, join_network. runs.
Qed.

Lemma leave_network_alone conf i gone :
  runs_as (leave_network_p fuel conf i gone) (leave_network fuel conf i gone).
Proof.
  unfold leave_network_p, leave_network. case_match; [apply runs_ignore|]; auto with runs_db.
Qed.

(** *** The configuration as a part of the state, and passed along *)

(** What a call on the host computes from [conf], and on the node. *)
Definition host_value {A B} (h : A → NetConf.t → B) (m : go (NetConf.t * node) A)
    (conf : NetConf.t) : go node B := λ n,
  match m (conf, n) with
  | (Ok a, (c, n')) => (Ok (h a c), n')
  | (o, (_, n')) => (recast o, n')
  end.

Section Host.
Context {A B C : Type} (h : B → NetConf.t → C).
Implicit Types g : A → go (NetConf.t * node) B.

Lemma host_bind (p : prog node (A * NetConf.t)) f (m : go (NetConf.t * node) A) g conf :
  runs_as p (host_value pair m conf) →
  (∀ a c, runs_as (f (a, c)) (host_value h (g a) c)) →
  runs_as (p ≫= f) (host_value h (m ≫= g) conf).
Proof.
  intros Hp Hf n. rewrite alone_bind, run_bind, Hp. unfold host_value. rewrite run_bind.
  destruct (m (conf, n)) as [[a|?|?|] [c n1]]; [apply Hf|done..].
Qed.

Lemma host_snd (p : prog node A) f m g conf :
  runs_as p m → (∀ a, runs_as (f a) (host_value h (g a) conf)) →
  runs_as (p ≫= f) (host_value h (on_snd m ≫= g) conf).
Proof.
  intros Hp Hf n. rewrite alone_bind, run_bind, Hp. unfold host_value, on_snd. rewrite run_bind.
  cbn [fst snd]. destruct (m n) as [[a|?|?|] n1]; [apply Hf|done..].
Qed.

Lemma host_pure (m : go NetConf.t A) g conf a c :
  m conf = (Ok a, c) → host_value h (on_fst m ≫= g) conf = host_value h (g a) c.
Proof. intros Hm. unfold host_value. cbv [mbind go_bind on_fst]. cbn [fst snd]. by rewrite Hm. Qed.

Lemma host_result (r : result A) f g conf :
  (∀ a, runs_as (f a) (host_value h (g a) conf)) →
  runs_as (of_result_p r ≫= f) (host_value h (of_result r ≫= g) conf).
Proof. intros Hf n. by destruct r; [|apply Hf]. Qed.

Lemma host_ret (b : B) conf : runs_as (mret (h b conf)) (host_value h (mret b) conf).
Proof. done. Qed.

Lemma host_slice k (t : string) f (g : string → go (NetConf.t * node) B) conf :
  (∀ a, runs_as (f a) (host_value h (g a) conf)) →
  runs_as (local (slice_to k t tt).1 ≫= f) (host_value h (slice_to k t ≫= g) conf).
Proof. intros Hf n. unfold slice_to. case_decide; [apply Hf|done]. Qed.

Lemma host_assoc {D} f (m : go (NetConf.t * node) D) (k : D → go (NetConf.t * node) A) g conf :
  runs_as f (host_value h (m ≫= λ d, k d ≫= g) conf) →
  runs_as f (host_value h ((m ≫= k) ≫= g) conf).
Proof.
  intros Hf n. rewrite Hf. unfold host_value. rewrite !run_bind.
  by destruct (m (conf, n)) as [[] ?].
Qed.

Lemma host_gets f (g : NetConf.t → go (NetConf.t * node) B) conf :
  runs_as f (host_value h (g conf) conf) → runs_as f (host_value h (gets fst ≫= g) conf).
Proof. done. Qed.

Lemma host_fst (m : go NetConf.t A) f g conf :
  (∀ a, runs_as (f a (m conf).2) (host_value h (g a) (m conf).2)) →
  runs_as (local (m conf).1 ≫= λ a, f a (m conf).2) (host_value h (on_fst m ≫= g) conf).
Proof.
  intros Hf n. unfold host_value, on_fst in *. rewrite run_bind. cbn [fst snd].
  destruct (m conf) as [[a|?|?|] c]; [apply Hf|done..].
Qed.
End Host.

Lemma addLocalDeviceMemif_alone args dir conf data :
  runs_as (addLocalDeviceMemif_p fuel args dir conf)
          (host_value pair (addLocalDeviceMemif fuel args dir data) conf).
Proof.
  unfold addLocalDeviceMemif_p, addLocalDeviceMemif. cbv zeta.
  erewrite host_pure by apply getMemifSocketfileName_run.
  apply host_gets.
  apply host_result. intros role. erewrite host_pure by apply run_modify.
  apply host_gets.
  apply host_result. intros mode.
  apply host_snd; [apply CreateMemifSocket_alone|]. intros id.
  apply host_snd; [apply CreateMemifInterface_alone|]. intros idx. done.
Qed.

Lemma addLocalDeviceVhostUser_alone args dir conf data :
  runs_as (addLocalDeviceVhostUser_p args dir conf data)
          (host_value pair (addLocalDeviceVhostUser args dir data) conf).
Proof.
  unfold addLocalDeviceVhostUser_p, addLocalDeviceVhostUser.
  rewrite (surjective_pairing (getVhostSocketfileName _ _ _ conf)).
  apply (host_fst pair _ (λ path conf, _)). intros path. apply host_gets. cbv zeta.
  apply host_snd; [apply runs_atomic|]. intros idx.
  match goal with |- context [if ?b then _ else _] => destruct b end.
  - apply host_snd; [apply runs_ignore_file|]. done.
  - done.
Qed.

Lemma add_local_device_alone args dir conf :
  runs_as (add_local_device_p fuel args dir conf)
          (host_value pair (add_local_device fuel args dir) conf).
Proof.
  unfold add_local_device_p, add_local_device. apply host_gets. cbv zeta.
  case_decide; [apply addLocalDeviceMemif_alone|].
  case_decide; [apply addLocalDeviceVhostUser_alone|done].
Qed.

(** AddOnHost, run without interruption. *)
Lemma AddOnHost_alone args dir ip conf :
  runs_as (AddOnHost_p fuel args dir ip conf)
          (host_value (λ r _, r) (AddOnHost fuel args dir ip) conf).
Proof.
  unfold AddOnHost_p, AddOnHost. apply host_slice. intros _.
  apply host_snd; [apply runs_atomic|]. intros _.
  apply host_bind; [apply add_local_device_alone|]. intros data c. apply host_gets.
  apply host_snd; [apply set_up_alone|]. intros _ n.
  rewrite alone_atomic. unfold host_value, on_snd. cbn [fst snd].
  by destruct (SaveVppConfig args data n.2) as [[]].
Qed.

Lemma host_finally (p : prog node unit) (m : go (NetConf.t * node) unit) c c' conf :
  runs_as p (host_value (λ r _, r) m conf) → (∀ s, (c' s).2 = c s.2) →
  runs_as (finally p c) (host_value (λ r _, r) (with_defer m c') conf).
Proof.
  intros Hp Hc n. rewrite alone_finally. unfold with_defer. rewrite Hp. unfold host_value.
  destruct (m (conf, n)) as [[]  [c1 n1]]; cbn; try done;
    (destruct (c' _) as [c2 n2] eqn:E; pose proof (Hc (c1, n1)) as E2; rewrite E in E2; simpl in E2; by subst).
Qed.

Lemma host_on_snd {A} (p : prog node A) m conf :
  runs_as p m → runs_as p (host_value (λ r _, r) (on_snd m) conf).
Proof.
  intros Hp n. rewrite Hp. unfold host_value, on_snd. cbn [fst snd]. by destruct (m n) as [[]].
Qed.

Lemma delLocalDeviceMemif_alone args dir conf data gone :
  runs_as (delLocalDeviceMemif_p fuel args dir conf data gone)
          (host_value (λ r _, r) (delLocalDeviceMemif fuel args dir data gone) conf).
Proof.
  unfold delLocalDeviceMemif_p, delLocalDeviceMemif.
  erewrite host_pure by apply getMemifSocketfileName_run.
  apply host_finally; [|done]. destruct gone; [done|].
  intros n. rewrite alone_wrap_err. unfold wrap_err, host_value.
  rewrite (DeleteMemifInterface_alone _ n). unfold on_snd. cbn [fst snd].
  by destruct (DeleteMemifInterface fuel _ n) as [[]].
Qed.

Lemma delLocalDeviceVhostUser_alone args dir conf data :
  runs_as (delLocalDeviceVhostUser_p args dir conf data)
          (host_value (λ r _, r) (delLocalDeviceVhostUser args dir data) conf).
Proof.
  unfold delLocalDeviceVhostUser_p, delLocalDeviceVhostUser.
  apply host_snd; [apply runs_atomic|]. intros _.
  apply (host_fst _ _ (λ path _, _)). intros path.
  apply host_on_snd, runs_ignore_file.
Qed.

(** DelFromHost, run without interruption. *)
Lemma DelFromHost_alone args dir conf :
  runs_as (DelFromHost_p fuel args dir conf)
          (host_value (λ r _, r) (DelFromHost fuel args dir) conf).
Proof.
  unfold DelFromHost_p, DelFromHost. apply host_slice. intros _.
  apply host_snd; [apply runs_atomic|]. intros _.
  apply host_snd; [apply runs_atomic|]. intros data. apply host_gets. cbv zeta. case_decide.
  - apply host_assoc. erewrite host_pure by apply getMemifSocketfileName_run.
    apply host_assoc, host_snd; [apply FindMemifBySocket_alone|]. intros [idx found].
    assert (∀ data gone, runs_as
      (leave_network_p fuel conf (VppSavedData.InterfaceSwIfIndex data) gone ≫= λ _,
       delLocalDeviceMemif_p fuel args dir conf data gone)
      (host_value (λ r _, r)
         (conf ← gets fst;
          on_snd (leave_network fuel conf (VppSavedData.InterfaceSwIfIndex data) gone) ;;
          delLocalDeviceMemif fuel args dir data gone) (with_socketfile args conf))) as Hrest.
    { intros d gone. apply host_gets, host_snd; [apply (leave_network_alone (with_socketfile args conf))|].
      intros _. unfold delLocalDeviceMemif_p. rewrite <- (memif_path_filled dir args conf).
      apply (delLocalDeviceMemif_alone args dir (with_socketfile args conf)). }
    destruct found; apply Hrest.
  - match goal with |- runs_as _ (host_value ?h (mret ?a ≫= ?g) ?c) =>
      change (host_value h (mret a ≫= g) c) with (host_value h (g a) c) end.
    cbv beta iota. apply host_gets, host_snd; [apply leave_network_alone|]. intros _.
    case_decide; [apply delLocalDeviceVhostUser_alone|done].
Qed.

Lemma CreateMaster_alone m : runs_as (CreateMaster_p fuel m) (vpp_CreateMaster fuel m).
Proof.
  apply runs_bind; [apply runs_wrap, CreateMemifSocket_alone|intros id].
  apply runs_bind; [apply runs_wrap, CreateMemifInterface_alone|intros i].
  apply runs_bind; [apply runs_wrap, runs_atomic|intros _].
  apply runs_bind; [case_decide; [apply runs_wrap, runs_atomic|done]|intros _].
  case_decide; [apply runs_wrap, AddBridgeInterface_alone|done].
Qed.

Lemma DeleteMaster_alone m : runs_as (DeleteMaster_p fuel m) (vpp_DeleteMaster fuel m).
Proof.
  apply runs_bind; [apply runs_wrap, DeleteMemifInterface_alone|intros _].
  case_decide; [apply runs_ignore_file|done].
Qed.

(** The interleaved programs are the calls: AddOnHost_p and DelFromHost_p of the
    engine, CreateMaster_p and DeleteMaster_p of the daemon, run without
    interruption, end as AddOnHost, DelFromHost, CreateMaster and DeleteMaster do and
    leave VPP and the files in the same state, whatever they end in. *)
Theorem calls_alone args dir ip conf m n :
  alone (AddOnHost_p fuel args dir ip conf) n =
    (let '(o, (_, n')) := AddOnHost fuel args dir ip (conf, n) in (o, n')) ∧
  alone (DelFromHost_p fuel args dir conf) n =
    (let '(o, (_, n')) := DelFromHost fuel args dir (conf, n) in (o, n')) ∧
  alone (CreateMaster_p fuel m) n = vpp_CreateMaster fuel m n ∧
  alone (DeleteMaster_p fuel m) n = vpp_DeleteMaster fuel m n.
Proof.
  rewrite AddOnHost_alone, DelFromHost_alone, CreateMaster_alone, DeleteMaster_alone.
  unfold host_value. split_and!; [| |done|done].
  - by destruct (AddOnHost fuel args dir ip (conf, n)) as [[[]|?|?|] [c n']].
  - by destruct (DelFromHost fuel args dir (conf, n)) as [[[]|?|?|] [c n']].
Qed.
End Alone.
