(* ===== verification/Interleave.v ===== *)
(** * Plugin processes and the daemon side by side

    The requests of plugin processes and of the daemon reach VPP in any order.
    What a call owns is the registration of its socket file and the interfaces on
    it: [rely] says that the others leave these alone, [guar] that a call leaves the
    others' alone, and every step of AddOnHost, DelFromHost, CreateMaster and
    DeleteMaster is shown to be of that kind.  So calls on different files do not disturb each other, whatever
    the order of their steps. *)
From S2P Require Import Prelude GoStrings GoOs Json Types JsonCodec Annotations ConfigData.
From S2P Require Import LocalDb VppApi Memif Bridge CniVpp Reconcile Dataplane Threads Calls.

Section Interleave.
Context `{VppLaws} `{UserDb}.
Variable fuel : nat.

(** The file [f] is registered under [id]; the interface [d] stands on it. *)
Definition reg (f : string) (id : Z) (n : node) : Prop :=
  {| sd_SocketID := id; sd_SocketFilename := f |} ∈ sockets (node_vpp n).
Definition on_file (f : string) (d : MemifDetails) (n : node) : Prop :=
  d ∈ memifs (node_vpp n) ∧ reg f (md_SocketID d) n.

Definition rely (f : string) (n n' : node) : Prop :=
  (∀ id, reg f id n ↔ reg f id n') ∧ (∀ d, on_file f d n ↔ on_file f d n').
Definition guar (f : string) (n n' : node) : Prop := ∀ g, g ≠ f → rely g n n'.

#[export] Instance rely_preorder f : PreOrder (rely f).
Proof.
  split; [by split|]. intros n1 n2 n3 [Hr1 Ho1] [Hr2 Ho2].
  split; intros; [by rewrite Hr1|by rewrite Ho1].
Qed.

Lemma guar_rely f g n n' : f ≠ g → guar f n n' → rely g n n'.
Proof. intros Hne Hg. by apply Hg. Qed.

Lemma same_memifs_rely f n n' : same_memifs n n' → rely f n n'.
Proof. intros [Em Es]. unfold rely, on_file, reg. by rewrite Em, Es. Qed.

Lemma same_memifs_guar f n n' : same_memifs n n' → guar f n n'.
Proof. intros Hs g _. by apply same_memifs_rely. Qed.

(** The interfaces on the file are those of [own], and it has one id at most. *)
Definition one_id (f : string) (n : node) : Prop :=
  ∀ id1 id2, reg f id1 n → reg f id2 n → id1 = id2.
Definition owns (f : string) (own : MemifDetails → Prop) (n : node) : Prop :=
  one_id f n ∧ ∀ d, on_file f d n ↔ own d.

Lemma owns_rely f own n n' : rely f n n' → owns f own n → owns f own n'.
Proof.
  intros [Hr Ho] [Hone Hown]. split; [|intros d; by rewrite <- Ho].
  intros id1 id2 R1%Hr R2%Hr. by apply Hone.
Qed.

Lemma reg_rely f id n n' : rely f n n' → reg f id n → reg f id n'.
Proof. intros [Hr _]. by apply Hr. Qed.

(** Two files do not share an id. *)
Lemma reg_file f g id n : reg f id n → reg g id n → f = g.
Proof. intros Hf Hg. by specialize (socket_id_unique _ _ _ Hf Hg eq_refl) as [= ->]. Qed.

(** ** The requests *)

(** Registering a file that is not registered. *)
Lemma register_step f id n :
  (∀ id', ¬ reg f id' n) →
  let s := send (ReqMemifSocketFilenameAddDelV2 true id f) n in
  guar f n s.2 ∧
  (is_ok s.1 = false ∧ same_memifs n s.2 ∨ reg f id s.2 ∧ owns f (λ _, False) s.2).
Proof.
  intros Hno. pose proof (send_effect (ReqMemifSocketFilenameAddDelV2 true id f) n) as Hs.
  destruct (send _ n) as [o n1]. cbn [fst snd] in *.
  destruct Hs as [[Ho Hs]|(i & [Em [[Hin _]|Es]] & _)]; [|by destruct (Hno id)|].
  { split; [by apply same_memifs_guar|by left]. }
  assert (∀ g id', reg g id' n1 ↔ g = f ∧ id' = id ∨ reg g id' n) as Hreg.
  { intros g id'. unfold reg. rewrite Es, elem_of_cons. naive_solver. }
  assert (∀ d, d ∈ memifs (node_vpp n) → md_SocketID d ≠ id) as Hfree.
  { intros d Hd Heq. apply law_memif_socket in Hd as (s & Hs & Hid).
    pose proof (law_socket_id_nodup (node_vpp n1)) as Hnd.
    rewrite (fmap_Permutation _ _ _ Es) in Hnd. simpl in Hnd. apply NoDup_cons in Hnd as [Hnew _].
    apply Hnew. rewrite <- Heq, <- Hid. by apply list_elem_of_fmap_2. }
  split.
  - intros g Hg. split; [intros id'; rewrite Hreg; naive_solver|].
    intros d. unfold on_file. rewrite Em, Hreg. naive_solver.
  - right. split; [apply Hreg; by left|]. split.
    + intros id1 id2. rewrite !Hreg. naive_solver.
    + intros d. unfold on_file. rewrite Em, Hreg. naive_solver.
Qed.

(** Making an interface on one's own socket. *)
Lemma create_step f own r n :
  reg f (mc_SocketID r) n → owns f own n →
  let s := send (ReqMemifCreateV2 r) n in
  guar f n s.2 ∧
  (is_ok s.1 = false ∧ same_memifs n s.2 ∨
   ∃ d, ¬ own d ∧ md_Role d = mc_Role r ∧ md_Mode d = mc_Mode r ∧
        owns f (λ d', own d' ∨ d' = d) s.2).
Proof.
  intros Hreg [Hone Hown]. pose proof (send_effect (ReqMemifCreateV2 r) n) as Hs.
  destruct (send _ n) as [o n1]. cbn [fst snd] in *. destruct Hs as [[Ho Hs]|(i & [Em Es] & _)].
  { split; [by apply same_memifs_guar|by left]. }
  set (d := {| md_SwIfIndex := i; md_ID := _ |}) in *.
  assert (∀ g id, reg g id n1 ↔ reg g id n) as Hr by (intros; unfold reg; by rewrite Es).
  assert (∀ g d', on_file g d' n1 ↔ on_file g d' n ∨ d' = d ∧ g = f) as Hon.
  { intros g d'. unfold on_file. rewrite Em, elem_of_cons, Hr.
    split; [|naive_solver]. intros [[->|Hd'] Hg]; [right|by left].
    split; [done|]. by apply (reg_file g f (md_SocketID d) n). }
  split.
  - intros g Hg. split; [intros; by rewrite Hr|]. intros d'. rewrite Hon. naive_solver.
  - right. exists d. split_and!; [|done|done|].
    + rewrite <- Hown. intros [Hd _].
      pose proof (law_sw_if_index_nodup (node_vpp n1)) as Hnd.
      rewrite (fmap_Permutation _ _ _ Em) in Hnd. simpl in Hnd. apply NoDup_cons in Hnd as [Hnew _].
      apply Hnew. by apply (list_elem_of_fmap_2 md_SwIfIndex _ d).
    + split; [intros id1 id2; rewrite !Hr; apply Hone|]. intros d'. rewrite Hon, <- Hown. naive_solver.
Qed.

(** Deleting one's own interface. *)
Lemma delete_step f own d n :
  own d → owns f own n →
  let s := send (ReqMemifDelete (md_SwIfIndex d)) n in
  guar f n s.2 ∧
  (is_ok s.1 = false ∧ same_memifs n s.2 ∨
   owns f (λ d', own d' ∧ d' ≠ d) s.2 ∧ ∀ id, reg f id n → reg f id s.2).
Proof.
  intros Hd [Hone Hown]. apply Hown in Hd as [Hd Hreg].
  pose proof (send_effect (ReqMemifDelete (md_SwIfIndex d)) n) as Hs.
  destruct (send _ n) as [o n1]. cbn [fst snd] in *. destruct Hs as [[Ho Hs]|(i & [Em Es] & _)].
  { split; [by apply same_memifs_guar|by left]. }
  assert (∀ g id, reg g id n1 ↔ reg g id n) as Hr by (intros; unfold reg; by rewrite Es).
  assert (∀ g d', on_file g d' n1 ↔ on_file g d' n ∧ d' ≠ d) as Hon.
  { intros g d'. unfold on_file. rewrite Em, list_elem_of_filter, Hr. split; [naive_solver|].
    intros [[Hd' Hg] Hne]. split_and!; [|done|done]. intros Heq. apply Hne.
    by apply (sw_if_index_unique (node_vpp n)). }
  split.
  - intros g Hg. split; [intros; by rewrite Hr|]. intros d'. rewrite Hon. split; [|naive_solver].
    intros Hd'. split; [done|]. intros ->. destruct Hd' as [_ Hd'].
    by apply Hg, (reg_file g f (md_SocketID d) n).
  - right. split; [|by intros id ?%Hr]. split; [intros id1 id2; rewrite !Hr; apply Hone|].
    intros d'. by rewrite Hon, <- Hown.
Qed.

(** Deleting one's own socket once no interface stands on it. *)
Lemma unregister_step f own id n :
  reg f id n → (∀ d, ¬ own d) → owns f own n →
  let s := DeleteMemifSocket id n in guar f n s.2 ∧ owns f own s.2.
Proof.
  intros Hid Hnone [Hone Hown].
  pose proof (send_effect (ReqMemifSocketFilenameAddDelV2 false id EmptyString) n) as Hs.
  cbv zeta. unfold DeleteMemifSocket, send_. rewrite run_bind.
  assert (∀ (r : outcome Z * node), (match r with
    | (Ok a, s') => (mret tt : go node unit) s' | (Err e, s') => (Err e, s')
    | (Panicked w, s') => (Panicked w, s') | (Diverged, s') => (Diverged, s') end).2 = r.2) as ->
    by (by intros [[?|?|?|] ?]).
  destruct (send _ n) as [o n1]. cbn [fst snd] in *. destruct Hs as [[Ho Hs]|(i & [Em Es] & _)].
  { split; [by apply same_memifs_guar|]. by apply (owns_rely f own n); [apply same_memifs_rely|]. }
  assert (∀ g id', reg g id' n1 ↔ reg g id' n ∧ id' ≠ id) as Hr.
  { intros g id'. unfold reg. rewrite Es, list_elem_of_filter. simpl. tauto. }
  assert (∀ g d, on_file g d n1 ↔ on_file g d n ∧ md_SocketID d ≠ id) as Hon.
  { intros g d. unfold on_file. rewrite Em, Hr. tauto. }
  split.
  - intros g Hg. assert (∀ id', reg g id' n → id' ≠ id) as Hg'.
    { intros id' Hid' ->. by apply Hg, (reg_file g f id n). }
    split; [intros id'; rewrite Hr; naive_solver|]. intros d. rewrite Hon.
    split; [|naive_solver]. intros Hd. split; [done|]. apply Hg', Hd.
  - split; [intros id1 id2; rewrite !Hr; naive_solver|]. intros d. rewrite Hon, Hown.
    specialize (Hnone d). tauto.
Qed.

(** ** The programs *)

Notation keeps_apart f := (safe (rely f) (guar f)).

(** What the others' steps do not disturb. *)
Definition undisturbed (f : string) (P : node → Prop) : Prop :=
  ∀ n n', rely f n n' → P n → P n'.

Lemma owns_undisturbed f own : undisturbed f (owns f own).
Proof. intros n n'. apply owns_rely. Qed.

Lemma and_undisturbed f P Q : undisturbed f P → undisturbed f Q →
  undisturbed f (λ n, P n ∧ Q n).
Proof. intros HP HQ n n' Hr [? ?]. split; [by apply (HP n)|by apply (HQ n)]. Qed.

(** A step, when what it leaves is not disturbed. *)
Lemma step_safe {A} f (Q : outcome A → node → Prop) (m : go node A) P n :
  undisturbed f P → P n →
  (∀ n', P n' → guar f n' (m n').2 ∧ Q (m n').1 (m n').2) →
  (∀ o, undisturbed f (Q o)) →
  keeps_apart f Q (atomic m) n.
Proof.
  intros HP Hn Hm HQ n1 Hn1. destruct (Hm n1) as [Hg Hq]; [by apply (HP n)|].
  split; [done|]. intros n2 Hn2. by apply (HQ _ (m n1).2).
Qed.

(** Programs whose steps leave the memifs alone. *)
Fixpoint neutral {A} (p : prog node A) : Prop :=
  match p with
  | Done _ => True
  | Act m k => keeps same_memifs m ∧ ∀ r, neutral (k r)
  end.

Lemma neutral_safe {A} f (Q : outcome A → node → Prop) (p : prog node A) P n :
  neutral p → undisturbed f P → P n → (∀ o n', P n' → Q o n') → keeps_apart f Q p n.
Proof.
  intros Hp HP Hn HQ. revert n Hn Hp. induction p as [o|R m k IH]; intros n Hn; cbn.
  - intros _ n' Hn'. by apply HQ, (HP n).
  - intros [Hm Hk] n' Hn'. specialize (Hm n'). split; [by apply same_memifs_guar|].
    apply IH; [|done]. eapply HP; [by apply same_memifs_rely|]. by apply (HP n).
Qed.

Lemma neutral_atomic {A} (m : go node A) : keeps same_memifs m → neutral (atomic m).
Proof. by split. Qed.

Lemma neutral_bind {A B} (p : prog node A) (f : A → prog node B) :
  neutral p → (∀ a, neutral (f a)) → neutral (p ≫= f).
Proof.
  intros Hp Hf. induction p as [o|R m k IH]; [by destruct o; [apply Hf|..]|].
  destruct Hp as [Hm Hk]. split; [done|]. intros r. by apply IH.
Qed.

Lemma neutral_ignore_err (p : prog node unit) : neutral p → neutral (ignore_err_p p).
Proof.
  intros Hp. apply neutral_bind; [|done]. induction p as [o|R m k IH]; [by destruct o|].
  destruct Hp as [Hm Hk]. split; [done|]. intros r. by apply IH.
Qed.

(** Registering the file of a call: first the steps once it was not found. *)
Definition unregistered (f : string) (own : MemifDetails → Prop) (n : node) : Prop :=
  owns f own n ∧ ∀ id, ¬ reg f id n.

Lemma unregistered_undisturbed f own : undisturbed f (unregistered f own).
Proof.
  apply and_undisturbed; [apply owns_undisturbed|].
  intros n1 n2 [Hr _] Hno id Hid%Hr. by apply (Hno id).
Qed.

Lemma owns_none f own n n' :
  unregistered f own n → owns f (λ _, False) n' → owns f own n'.
Proof.
  intros [[_ Hown] Hno] [Hone Hnone]. split; [done|]. intros d. rewrite Hnone, <- Hown.
  split; [done|]. intros [_ Hd]. by apply (Hno _ Hd).
Qed.

Lemma register_safe f own id n :
  unregistered f own n →
  keeps_apart f (λ o n', owns f own n' ∧ ∀ id, o = Ok id → reg f id n')
    (atomic (on_snd (ensure_dir (path_dir f))) ≫= λ _,
     atomic (send (ReqMemifSocketFilenameAddDelV2 true id f)) ≫= λ _, mret id) n.
Proof.
  intros Hn. eapply (safe_bind _ _ (λ _, unregistered f own)).
  { apply (neutral_safe f _ _ (unregistered f own)); [|apply unregistered_undisturbed|done|done].
    apply neutral_atomic, on_snd_keeps. }
  2:{ intros o n1 Ho [? _]. by split; [|destruct o]. }
  intros _ n1 Hn1.
  eapply (safe_bind _ _ (λ o n', owns f own n' ∧ (is_ok o = true → reg f id n'))).
  - eapply (step_safe f _ _ (unregistered f own)); [apply unregistered_undisturbed|done| |].
    + intros n2 Hn2. destruct (register_step f id n2) as (Hg & [[Ho Hs]|[Hid Hown]]); [apply Hn2|..];
        (split; [done|]); (split; [|done || by rewrite Ho]); [|by eapply owns_none].
      apply (owns_rely f own n2), Hn2. by apply same_memifs_rely.
    + intros o. apply and_undisturbed; [apply owns_undisturbed|].
      intros n2 n3 Hr Hid Ho. apply (reg_rely f id n2); auto.
  - intros i n2 [Hn2 Hid] n3 Hn3. split; [by apply (owns_rely f own n2)|].
    intros ? [= <-]. apply (reg_rely f id n2); auto.
  - intros o n2 Ho [? _]. by split; [|destruct o].
Qed.

(** An answer of findMemifSocket that the others cannot spoil. *)
Lemma findMemifSocket_safe f own n :
  owns f own n →
  keeps_apart f (λ o n', owns f own n' ∧ ∀ found id, o = Ok (found, id) →
    if (found : bool) then reg f id n' else ∀ id', ¬ reg f id' n')
    (atomic (findMemifSocket fuel f)) n.
Proof.
  intros Hown. apply (step_safe f _ _ (owns f own)); [apply owns_undisturbed|done| |].
  - intros n1 Hn1. split; [by apply same_memifs_guar|]. split; [done|]. intros found id Ho.
    destruct (findMemifSocket fuel f n1) as [o n2] eqn:E. simpl in Ho. subst o.
    apply findMemifSocket_Ok in E as [-> Hans]. destruct found; [done|].
    intros id' Hid'. by destruct (Hans _ Hid').
  - intros o. apply and_undisturbed; [apply owns_undisturbed|].
    intros n1 n2 [Hr _] Hid found id Ho. specialize (Hid _ _ Ho). destruct found; [by apply Hr|].
    intros id' Hid'%Hr. by apply (Hid id').
Qed.

Lemma CreateMemifSocket_safe f own n :
  owns f own n →
  keeps_apart f (λ o n', owns f own n' ∧ ∀ id, o = Ok id → reg f id n')
    (CreateMemifSocket_p fuel f) n.
Proof.
  intros Hown.
  assert (∀ o : outcome Z, undisturbed f (λ n', owns f own n' ∧ ∀ id, o = Ok id → reg f id n')) as Hq.
  { intros o. apply and_undisturbed; [apply owns_undisturbed|].
    intros n1 n2 Hr Hid id Ho. by apply (reg_rely f id n1), Hid. }
  eapply (safe_bind _ _ _ _ _ _ _ (findMemifSocket_safe f own n Hown)).
  - intros [found id] n1 [Hn1 Hans]. specialize (Hans _ _ eq_refl). destruct found.
    { intros n2 Hn2. apply (Hq _ n1); [done|]. by split; [|intros ? [= <-]]. }
    by apply register_safe.
  - intros o n1 Ho [? _]. by split; [|destruct o].
Qed.

(** Making its interface. *)
Definition with_new (own : MemifDetails → Prop) (d : MemifDetails) : MemifDetails → Prop :=
  λ d', own d' ∨ d' = d.
Definition without (own : MemifDetails → Prop) (d : MemifDetails) : MemifDetails → Prop :=
  λ d', own d' ∧ d' ≠ d.

(** One interface has come, one that is wanted. *)
Definition one_more (f : string) (own want : MemifDetails → Prop) (n : node) : Prop :=
  ∃ d, ¬ own d ∧ want d ∧ owns f (with_new own d) n.

Lemma one_more_undisturbed f own want : undisturbed f (one_more f own want).
Proof.
  intros n1 n2 Hr (d & Hd & Ha & Ho). exists d. split_and!; [done..|]. by apply (owns_rely f _ n1).
Qed.

Lemma or_undisturbed f P Q : undisturbed f P → undisturbed f Q → undisturbed f (λ n, P n ∨ Q n).
Proof. intros HP HQ n1 n2 Hr [?|?]; [left; by apply (HP n1)|right; by apply (HQ n1)]. Qed.

(** What the making of an interface has done, when it returned and when it failed. *)
Definition add_post (f : string) (own want : MemifDetails → Prop) {A} (o : outcome A) (n : node)
  : Prop :=
  if is_ok o then one_more f own want n else owns f own n ∨ one_more f own want n.

Lemma add_post_undisturbed f own want {A} (o : outcome A) : undisturbed f (add_post f own want o).
Proof.
  unfold add_post. destruct (is_ok o); [apply one_more_undisturbed|].
  apply or_undisturbed; [apply owns_undisturbed|apply one_more_undisturbed].
Qed.

Lemma add_post_recast f own want A B (o : outcome A) n :
  is_ok o = false → add_post f own want o n → add_post f own want (recast o : outcome B) n.
Proof. unfold add_post. by destruct o. Qed.

Lemma add_post_fails f own want A (o : outcome A) n :
  is_ok o = false → owns f own n → add_post f own want (recast o : outcome unit) n.
Proof. intros Ho Hn. unfold add_post. destruct o; [done|by left..]. Qed.

Lemma add_post_wants f own want want' {A} (o : outcome A) n :
  (∀ d, want d → want' d) → add_post f own want o n → add_post f own want' o n.
Proof. unfold add_post, one_more. intros Hw. destruct (is_ok o); naive_solver. Qed.

Lemma add_post_neutral f own want (p : prog node unit) n :
  neutral p → one_more f own want n → keeps_apart f (add_post f own want) p n.
Proof.
  intros Hp Hn. apply (neutral_safe f _ _ (one_more f own want)); [done|apply one_more_undisturbed|done|].
  intros o n1 Hn1. unfold add_post. destruct (is_ok o); [done|by right].
Qed.

Definition made_from (p : CreateParams) (d : MemifDetails) : Prop :=
  md_Role d = cp_Role p ∧ md_Mode d = cp_Mode p.

Lemma CreateMemifInterface_safe f own p n :
  owns f own n → reg f (cp_SocketID p) n →
  keeps_apart f (add_post f own (made_from p)) (CreateMemifInterface_p p) n.
Proof.
  intros Hown Hid. unfold CreateMemifInterface_p, of_result_p.
  destruct (memif_create_request p) as [e|r] eqn:Er.
  { intros n1 Hn1. left. by apply (owns_rely f own n). }
  apply memif_create_request_inr in Er as (Es & Erole & Emode & _).
  cbn [mbind prog_bind local]. apply (step_safe f _ _ (λ n', owns f own n' ∧ reg f (cp_SocketID p) n')).
  - apply and_undisturbed; [apply owns_undisturbed|]. intros n1 n2 Hr. by apply reg_rely.
  - done.
  - intros n1 [Hn1 Hid1]. rewrite <- Es in Hid1. unfold add_post.
    destruct (create_step f own r n1 Hid1 Hn1) as (Hg & [[Ho Hs]|(d & Hd & Hr & Hm & Ho)]);
      (split; [done|]).
    + rewrite Ho. left. by apply (owns_rely f own n1); [apply same_memifs_rely|].
    + assert (one_more f own (made_from p) (send (ReqMemifCreateV2 r) n1).2) as Hmore.
      { exists d. split_and!; [done|split; congruence|done]. }
      destruct (is_ok _); [done|by right].
  - intros o. apply add_post_undisturbed.
Qed.

(** What the programs do beside memifs. *)

Lemma request_neutral r : memif_neutral r → neutral (request_ r).
Proof. intros Hr. by apply neutral_atomic, send__neutral_keeps. Qed.

Lemma local_neutral {A} (o : outcome A) : neutral (local o).
Proof. done. Qed.

Lemma CreateBridge_neutral b : neutral (CreateBridge_p fuel b).
Proof.
  apply neutral_bind; [by apply neutral_atomic, keeps_look, _|].
  intros [[] c]; [done|by apply request_neutral].
Qed.

Lemma DeleteBridge_neutral b : neutral (DeleteBridge_p fuel b).
Proof.
  apply neutral_bind; [by apply neutral_atomic, keeps_look, _|].
  intros [e c]. case_decide; [done|by apply request_neutral].
Qed.

Lemma set_up_neutral conf idx ip : neutral (set_up_p fuel conf idx ip).
Proof.
  apply neutral_bind; [apply neutral_atomic, SetState_keeps|intros _].
  apply neutral_bind; [cbv zeta; case_decide; [apply neutral_atomic, SetMtu_keeps|done]|intros _].
  unfold join_network_p. cbv zeta. case_decide.
  { apply neutral_bind; [apply local_neutral|]. intros b.
    apply neutral_bind; [apply CreateBridge_neutral|]. intros _. by apply request_neutral. }
  case_decide; [|by case_decide]. destruct ip as [r|]; [|done]. case_decide; [done|].
  apply neutral_atomic, AddDelIpAddress_keeps.
Qed.

Lemma leave_network_neutral conf idx gone : neutral (leave_network_p fuel conf idx gone).
Proof.
  unfold leave_network_p. case_match; [|done]. apply neutral_ignore_err.
  apply neutral_bind; [by apply request_neutral|]. intros _. apply DeleteBridge_neutral.
Qed.

Lemma addLocalDeviceVhostUser_neutral args dir conf data :
  neutral (addLocalDeviceVhostUser_p args dir conf data).
Proof.
  unfold addLocalDeviceVhostUser_p. destruct (getVhostSocketfileName _ _ _ conf) as [o c].
  apply neutral_bind; [apply local_neutral|intros path]. cbv zeta.
  apply neutral_bind.
  { apply neutral_atomic. apply keeps_bind; [apply _|auto with go_db|]. intros. by apply send_neutral_keeps. }
  intros idx. apply neutral_bind; [|done].
  case_match; [apply neutral_ignore_err, neutral_atomic, on_snd_keeps|done].
Qed.

(** *** ADD *)

Section Add.
Variable args : CmdArgs.t.
Variable dir : string.

(** The interface has the attributes the configuration asks for. *)
Definition asked_for (conf : NetConf.t) (d : MemifDetails) : Prop :=
  memif_role (MemifConf.Role (host_memif conf)) = inr (md_Role d) ∧
  memif_mode (MemifConf.Mode (host_memif (filled args conf))) = inr (md_Mode d).

Lemma addLocalDeviceMemif_safe own conf n :
  let f := memif_path dir args conf in
  owns f own n →
  keeps_apart f (add_post f own (asked_for conf)) (addLocalDeviceMemif_p fuel args dir conf) n.
Proof.
  intros f Hown. unfold addLocalDeviceMemif_p, of_result_p. cbv zeta. fold f.
  destruct (memif_role _) as [e|role] eqn:Erole.
  { intros n1 Hn1. left. by apply (owns_rely f own n). }
  destruct (memif_mode _) as [e|mode] eqn:Emode.
  { intros n1 Hn1. left. by apply (owns_rely f own n). }
  cbn [mbind prog_bind local].
  apply (safe_bind _ _ _ _ (CreateMemifSocket_p fuel f) _ _ (CreateMemifSocket_safe f own n Hown)).
  2:{ intros o n1 Ho [? _]. unfold add_post. destruct o; [done|by left..]. }
  intros id n1 [Hn1 Hid].
  assert (∀ d, made_from (memif_params (filled args conf) role mode id) d → asked_for conf d) as Hw.
  { intros d [Hr Hm]. split; [by rewrite Hr|by rewrite Hm]. }
  eapply (safe_bind _ _ _ _ (CreateMemifInterface_p _) _ _
            (CreateMemifInterface_safe f own (memif_params (filled args conf) role mode id)
               n1 Hn1 (Hid id eq_refl))).
  - intros i n2 Ho n3 Hn3. cbn [is_ok]. apply (one_more_undisturbed f own (asked_for conf) n2); [done|].
    exact (add_post_wants f own _ _ (Ok i) n2 Hw Ho).
  - intros o n2 Ho Hn2. apply add_post_recast; [done|]. by eapply add_post_wants.
Qed.

(** What follows the making of the interface, and what precedes it. *)
Lemma AddOnHost_p_safe own ip conf n :
  let f := memif_path dir args conf in
  UserSpaceConf.IfType (NetConf.HostConf conf) = "memif" →
  owns f own n →
  keeps_apart f (add_post f own (asked_for conf)) (AddOnHost_p fuel args dir ip conf) n.
Proof.
  intros f Htype Hown. unfold AddOnHost_p, short_id.
  eapply (safe_bind _ _ (λ _, owns f own)).
  { eapply neutral_safe; [apply local_neutral|apply owns_undisturbed|done|done]. }
  2:{ intros o n1. apply add_post_fails. }
  intros _ n1 Hn1. eapply (safe_bind _ _ (λ _, owns f own)).
  { eapply neutral_safe; [by apply neutral_atomic, keeps_look, _|apply owns_undisturbed|done|done]. }
  2:{ intros o n2. apply add_post_fails. }
  intros _ n2 Hn2. unfold add_local_device_p. cbv zeta. rewrite decide_True by done.
  eapply (safe_bind _ _ _ _ _ _ _ (addLocalDeviceMemif_safe own conf n2 Hn2)).
  2:{ intros o n3. apply add_post_recast. }
  intros [data c] n3 Hn3. apply add_post_neutral; [|done].
  apply neutral_bind; [apply set_up_neutral|]. intros _. apply neutral_atomic, on_snd_keeps.
Qed.

(** A call that is not about a memif. *)
Lemma AddOnHost_p_neutral ip conf :
  UserSpaceConf.IfType (NetConf.HostConf conf) ≠ "memif" →
  neutral (AddOnHost_p fuel args dir ip conf).
Proof.
  intros Htype. unfold AddOnHost_p.
  apply neutral_bind; [apply local_neutral|intros _].
  apply neutral_bind; [by apply neutral_atomic, keeps_look, _|intros _].
  apply neutral_bind.
  - unfold add_local_device_p. cbv zeta. rewrite decide_False by done.
    case_decide; [apply addLocalDeviceVhostUser_neutral|done].
  - intros [data c]. apply neutral_bind; [apply set_up_neutral|intros _].
    apply neutral_atomic, on_snd_keeps.
Qed.
End Add.

(** *** DEL *)

Section Del.
Variable args : CmdArgs.t.
Variable dir : string.

(** The live lookup: an own interface, or there is none. *)
Definition looked_up (own : MemifDetails → Prop) (o : outcome (Z * bool)) : Prop :=
  ∀ i found, o = Ok (i, found) →
    if (found : bool) then ∃ d, own d ∧ md_SwIfIndex d = i else ∀ d, ¬ own d.

Lemma FindMemifBySocket_safe f own n :
  owns f own n →
  keeps_apart f (λ o n', owns f own n' ∧ looked_up own o) (FindMemifBySocket_p fuel f) n.
Proof.
  intros Hown.
  eapply (safe_bind _ _ _ _ _ _ _ (findMemifSocket_safe f own n Hown)).
  2:{ intros o n1 Ho [? _]. split; [done|]. by destruct o. }
  intros [ok id] n1 [Hn1 Hid]. specialize (Hid _ _ eq_refl). destruct ok.
  2:{ intros n2 Hn2. split; [by apply (owns_rely f own n1)|]. intros i found [= <- <-] d Hd.
      apply Hn1 in Hd as [_ Hd]. by apply (Hid _ Hd). }
  apply (step_safe f _ _ (λ n', owns f own n' ∧ reg f id n')).
  - apply and_undisturbed; [apply owns_undisturbed|]. intros n2 n3 Hr. by apply reg_rely.
  - done.
  - intros n2 [Hn2 Hid2]. split; [by apply same_memifs_guar|]. split; [done|]. intros i found Ho.
    simpl in Ho. eapply recv_loop_result in Ho; [|apply law_memif_dump].
    rewrite recv_list_by_socket in Ho. destruct (list_find _ _) as [[k d]|] eqn:E; injection Ho as <- <-.
    + apply list_find_Some in E as (Hd%list_elem_of_lookup_2 & Hs & _).
      exists d. split; [|done]. apply Hn2. split; [done|]. by rewrite Hs.
    + apply list_find_None in E. rewrite Forall_forall in E. intros d Hd.
      apply Hn2 in Hd as [Hd Hreg]. apply (E d Hd). by apply Hn2.
  - intros o. apply and_undisturbed; [apply owns_undisturbed|]. by intros n2 n3 _.
Qed.

(** One own interface has gone. *)
Definition one_less (f : string) (own : MemifDetails → Prop) (n : node) : Prop :=
  ∃ d, own d ∧ owns f (without own d) n.

Lemma one_less_undisturbed f own : undisturbed f (one_less f own).
Proof. intros n1 n2 Hr (d & Hd & Ho). exists d. split; [done|]. by apply (owns_rely f _ n1). Qed.

(** What a DEL of a memif has done, when it returned and when it failed. *)
Definition del_post (f : string) (own : MemifDetails → Prop) (o : outcome unit) (n : node) : Prop :=
  if is_ok o then (∀ d, ¬ own d) ∧ owns f own n ∨ one_less f own n
  else owns f own n ∨ one_less f own n.

Lemma del_post_undisturbed f own o : undisturbed f (del_post f own o).
Proof.
  unfold del_post. destruct (is_ok o); (apply or_undisturbed; [|apply one_less_undisturbed]);
    [|apply owns_undisturbed].
  apply and_undisturbed; [by intros ? ?|apply owns_undisturbed].
Qed.

(** From the count of the interfaces left on the socket to its removal. *)
Lemma unregister_safe f own id n :
  reg f id n → owns f own n →
  keeps_apart f (λ _, owns f own)
    (count ← atomic (findMemifSocketCnt fuel id);
     if decide (count = 0)%Z then atomic (DeleteMemifSocket id) else mret tt) n.
Proof.
  intros Hid Hown.
  assert (undisturbed f (λ n', owns f own n' ∧ reg f id n')) as Hst.
  { apply and_undisturbed; [apply owns_undisturbed|]. intros n2 n3 Hr. by apply reg_rely. }
  eapply (safe_bind _ _ (λ o n', (owns f own n' ∧ reg f id n') ∧
            (o = Ok 0%Z → ∀ d, ¬ own d))).
  - apply (step_safe f _ _ (λ n', owns f own n' ∧ reg f id n')); [done|done| |].
    + intros n1 [Hn1 Hid1]. split; [by apply same_memifs_guar|]. split; [done|].
      destruct (findMemifSocketCnt fuel id n1) as [o n2] eqn:E. simpl. intros ->.
      apply findMemifSocketCnt_Ok in E as [_ [Hzero _]]. intros d Hd.
      apply Hn1 in Hd as [Hd Hreg]. apply (Hzero eq_refl d Hd). by apply Hn1.
    + intros o. apply and_undisturbed; [done|]. by intros n2 n3 _.
  - intros c n1 [Hn1 Hnone]. case_decide as Hc.
    + subst c. apply (step_safe f _ _ (λ n', owns f own n' ∧ reg f id n')); [done|done| |].
      * intros n2 [Hn2 Hid2]. apply unregister_step; auto.
      * intros _. apply owns_undisturbed.
    + intros n2 Hn2. by apply (owns_rely f own n1), Hn1.
  - by intros o n1 Ho [[? _] _].
Qed.

Lemma DeleteMemifInterface_safe f own d n :
  own d → owns f own n →
  keeps_apart f (λ o n', if is_ok o then owns f (without own d) n'
                         else owns f own n' ∨ owns f (without own d) n')
    (DeleteMemifInterface_p fuel (md_SwIfIndex d)) n.
Proof.
  intros Hd Hown.
  assert (∀ n', owns f own n' → on_file f d n') as Hon by (intros n' Hn'; by apply Hn').
  eapply (safe_bind _ _ (λ o n', owns f own n' ∧ ∀ r, o = Ok r → r = (md_SocketID d, true))).
  - apply (step_safe f _ _ (owns f own)); [apply owns_undisturbed|done| |].
    + intros n1 Hn1. split; [by apply same_memifs_guar|]. split; [done|].
      destruct (findMemifInterface fuel _ n1) as [o n2] eqn:E. simpl. intros [sid e] ->.
      apply findMemifInterface_Ok in E as [-> Hspec]. destruct (Hon _ Hn1) as [Hin _].
      destruct e; simpl in Hspec; [|by destruct (Hspec d)].
      destruct Hspec as (d' & Hd' & Hi & <-). f_equal. by rewrite (sw_if_index_unique _ _ _ Hd' Hin Hi).
    + intros o. apply and_undisturbed; [apply owns_undisturbed|]. by intros n2 n3 _.
  - intros [sid e] n1 [Hn1 Hr]. injection (Hr _ eq_refl) as -> ->. cbn [negb].
    eapply (safe_bind _ _ (λ o n', if is_ok o then owns f (without own d) n' ∧ reg f (md_SocketID d) n'
                                   else owns f own n' ∨ owns f (without own d) n')).
    + apply (step_safe f _ _ (owns f own)); [apply owns_undisturbed|done| |].
      * intros n2 Hn2. destruct (Hon _ Hn2) as [_ Hreg].
        destruct (delete_step f own d n2 Hd Hn2) as (Hg & [[Ho Hs]|[Hown' Hkeep]]); (split; [done|]).
        -- rewrite Ho. left. by apply (owns_rely f own n2); [apply same_memifs_rely|].
        -- destruct (is_ok _); [|by right]. split; [done|by apply Hkeep].
      * intros o. destruct (is_ok o); [|by apply or_undisturbed; apply owns_undisturbed].
        apply and_undisturbed; [apply owns_undisturbed|]. intros n2 n3 Hs. by apply reg_rely.
    + intros i n2 [Hn2 Hreg]. case_decide.
      * eapply safe_weaken; [|by apply unregister_safe]. intros o n3 Hn3.
        by destruct (is_ok o); [|right].
      * intros n3 Hn3. by apply (owns_rely f _ n2).
    + intros o n2 Ho Hn2. by destruct o.
  - intros o n1 Ho [Hn1 _]. destruct o; [done|by left..].
Qed.

Lemma delLocalDeviceMemif_safe f own conf data (gone : bool) n :
  owns f own n →
  (if (gone : bool) then ∀ d : MemifDetails, ¬ own d
   else ∃ d, own d ∧ md_SwIfIndex d = VppSavedData.InterfaceSwIfIndex data) →
  keeps_apart f (del_post f own) (delLocalDeviceMemif_p fuel args dir conf data gone) n.
Proof.
  intros Hown Hgone. unfold delLocalDeviceMemif_p.
  assert (∀ path n', same_memifs n' (cleanup_file path n')) as Hclean by done.
  apply safe_finally; [intros n1; by apply same_memifs_guar|].
  eapply (safe_weaken _ _ (del_post f own)).
  { intros o n1 Hn1. destruct (decide (o = Diverged)) as [->|Hne]; [by left|right].
    split; [done|]. intros n2 Hn2. apply (del_post_undisturbed f own o n1); [|done].
    etrans; [|exact Hn2]. by apply same_memifs_rely. }
  destruct gone.
  { intros n1 Hn1. left. split; [done|]. by apply (owns_rely f own n). }
  destruct Hgone as (d & Hd & <-). apply safe_wrap_err.
  eapply safe_weaken; [|by apply (DeleteMemifInterface_safe f own d)].
  intros o n1 Hn1. unfold del_post, one_less. destruct o; cbn [is_ok] in *; [by right; exists d|..];
    (destruct Hn1 as [?|?]; [by left|right; by exists d]).
Qed.

Lemma DelFromHost_p_safe own conf n :
  let f := memif_path dir args conf in
  UserSpaceConf.IfType (NetConf.HostConf conf) = "memif" →
  owns f own n →
  keeps_apart f (del_post f own) (DelFromHost_p fuel args dir conf) n.
Proof.
  intros f Htype Hown.
  assert (∀ (o : outcome unit) n', is_ok o = false → owns f own n' → del_post f own o n') as Hfail.
  { intros o n' Ho Hn'. unfold del_post. rewrite Ho. by left. }
  assert (∀ A (m : prog node A) n', neutral m → owns f own n' →
            keeps_apart f (λ _, owns f own) m n') as Hneutral.
  { intros A m n' Hm Hn'. by apply (neutral_safe f _ _ (owns f own)); [|apply owns_undisturbed|..]. }
  unfold DelFromHost_p.
  eapply (safe_bind _ _ (λ _, owns f own)); [by apply Hneutral|intros _ n1 Hn1|by intros []; auto].
  eapply (safe_bind _ _ (λ _, owns f own));
    [apply Hneutral; [by apply neutral_atomic, keeps_look, _|done]|intros _ n2 Hn2|by intros []; auto].
  eapply (safe_bind _ _ (λ _, owns f own));
    [apply Hneutral; [by apply neutral_atomic, on_snd_keeps|done]|intros data n3 Hn3|by intros []; auto].
  cbv zeta. rewrite decide_True by done.
  eapply (safe_bind _ _ _ _ _ _ _ (FindMemifBySocket_safe f own n3 Hn3)).
  2:{ intros o n4 Ho [Hn4 _]. apply Hfail; [by destruct o|done]. }
  intros [i found] n4 [Hn4 Hlook]. specialize (Hlook _ _ eq_refl).
  eapply (safe_bind _ _ (λ _, owns f own));
    [apply Hneutral; [apply leave_network_neutral|done]|intros _ n5 Hn5|by intros []; auto].
  apply delLocalDeviceMemif_safe; [done|]. by destruct found.
Qed.

Lemma DelFromHost_p_neutral conf :
  UserSpaceConf.IfType (NetConf.HostConf conf) ≠ "memif" →
  neutral (DelFromHost_p fuel args dir conf).
Proof.
  intros Htype. unfold DelFromHost_p.
  apply neutral_bind; [apply local_neutral|intros _].
  apply neutral_bind; [by apply neutral_atomic, keeps_look, _|intros _].
  apply neutral_bind; [apply neutral_atomic, on_snd_keeps|intros data].
  cbv zeta. rewrite decide_False by done.
  apply neutral_bind; [apply leave_network_neutral|intros _]. case_decide; [|done].
  apply neutral_bind; [by apply neutral_atomic, send__neutral_keeps|intros _].
  apply neutral_bind; [apply local_neutral|intros path].
  apply neutral_ignore_err, neutral_atomic, on_snd_keeps.
Qed.
End Del.

(** *** The daemon's masters *)

Definition wanted_master (m : Memif) (d : MemifDetails) : Prop :=
  md_Role d = MEMIF_ROLE_API_MASTER ∧ md_Mode d = parseMode (mf_Mode m).

Lemma neutral_wrap_err {A} msg (p : prog node A) : neutral p → neutral (wrap_err_p msg p).
Proof.
  intros Hp. induction p as [o|R m k IH]; [by destruct o|].
  destruct Hp as [Hm Hk]. split; [done|]. intros r. by apply IH.
Qed.

Lemma AddBridgeInterface_neutral b i : neutral (AddBridgeInterface_p fuel b i).
Proof. apply neutral_bind; [apply CreateBridge_neutral|intros _; by apply request_neutral]. Qed.

Lemma CreateMaster_p_safe own m n :
  let f := mf_Socket m in
  owns f own n →
  keeps_apart f (add_post f own (wanted_master m)) (CreateMaster_p fuel m) n.
Proof.
  intros f Hown. unfold CreateMaster_p.
  eapply (safe_bind _ _ (λ o n', owns f own n' ∧ ∀ id, o = Ok id → reg f id n')).
  { apply safe_wrap_err. eapply safe_weaken; [|by apply CreateMemifSocket_safe].
    intros o n1 [? Hid]. destruct o; by split. }
  2:{ intros o n1 Ho [? _]. by apply add_post_fails. }
  intros id n1 [Hn1 Hid].
  eapply (safe_bind _ _ (add_post f own (wanted_master m))).
  { apply safe_wrap_err. eapply safe_weaken;
      [|by apply (CreateMemifInterface_safe f own (master_params m id)); [|apply Hid]].
    intros o n2 Hn2. apply (add_post_wants _ _ _ (wanted_master m)) in Hn2; [|done].
    by destruct o. }
  2:{ intros o n2. apply add_post_recast. }
  intros i n2 Hn2. apply add_post_neutral; [|done].
  apply neutral_bind; [apply neutral_wrap_err, neutral_atomic, SetState_keeps|intros _].
  apply neutral_bind;
    [case_decide; [apply neutral_wrap_err, neutral_atomic, SetMtu_keeps|done]|intros _].
  case_decide; [apply neutral_wrap_err, AddBridgeInterface_neutral|done].
Qed.

Lemma DeleteMaster_p_safe own m n :
  let f := mf_Socket m in
  owns f own n → (∃ d, own d ∧ md_SwIfIndex d = mf_SwIfIndex m) →
  keeps_apart f (del_post f own) (DeleteMaster_p fuel m) n.
Proof.
  intros f Hown (d & Hd & Hi). unfold DeleteMaster_p. rewrite <- Hi.
  eapply (safe_bind _ _ (λ o n', if is_ok o then one_less f own n' else del_post f own (recast o) n')).
  - apply safe_wrap_err. eapply safe_weaken; [|by apply (DeleteMemifInterface_safe f own d)].
    intros o n1 Hn1. unfold del_post, one_less.
    destruct o; cbn [is_ok recast] in *; [by exists d|destruct Hn1; [by left|right; by exists d]..].
  - intros [] n1 Hn1.
    assert (neutral (if decide (mf_Socket m ≠ EmptyString)
                     then ignore_err_p (atomic (on_snd (os_remove (mf_Socket m)))) else mret tt)) as Hp.
    { case_decide; [|done]. apply neutral_ignore_err, neutral_atomic, on_snd_keeps. }
    eapply neutral_safe; [exact Hp|apply one_less_undisturbed|exact Hn1|].
    intros o n2 Hn2. unfold del_post. destruct (is_ok o); by right.
  - intros o n1 Ho Hn1. by rewrite Ho in Hn1.
Qed.

(** ** Calls side by side *)

(** A call of the engine, with what the process read before it, or of the daemon,
    with the master it read from a pod or a dump. *)
Inductive call :=
  | CallAdd (args : CmdArgs.t) (dir : string) (ip : option Result.t) (conf : NetConf.t)
  | CallDel (args : CmdArgs.t) (dir : string) (conf : NetConf.t)
  | CallCreateMaster (m : Memif)
  | CallDeleteMaster (m : Memif).

(** The socket file of the call. *)
Definition call_file (c : call) : string :=
  match c with
  | CallAdd args dir _ conf | CallDel args dir conf => memif_path dir args conf
  | CallCreateMaster m | CallDeleteMaster m => mf_Socket m
  end.

Definition call_prog (c : call) : prog node unit :=
  match c with
  | CallAdd args dir ip conf => AddOnHost_p fuel args dir ip conf
  | CallDel args dir conf => DelFromHost_p fuel args dir conf
  | CallCreateMaster m => CreateMaster_p fuel m
  | CallDeleteMaster m => DeleteMaster_p fuel m
  end.

Definition is_memif (conf : NetConf.t) : bool :=
  bool_decide (UserSpaceConf.IfType (NetConf.HostConf conf) = "memif").

(** What a call that has ended in [o] has done to the interfaces [own] that stood
    on its socket file. *)
Definition call_post (c : call) (own : MemifDetails → Prop) (o : outcome unit) (n : node) : Prop :=
  let f := call_file c in
  match c with
  | CallAdd args _ _ conf =>
      if is_memif conf then add_post f own (asked_for args conf) o n else owns f own n
  | CallDel _ _ conf => if is_memif conf then del_post f own o n else owns f own n
  | CallCreateMaster m => add_post f own (wanted_master m) o n
  | CallDeleteMaster _ => del_post f own o n
  end.

(** What holds when a call starts: its file has one id at most, and the daemon has
    the index of a master it deletes from a dump. *)
Definition call_pre (c : call) (n : node) : Prop :=
  one_id (call_file c) n ∧
  match c with
  | CallDeleteMaster m => ∃ d, on_file (mf_Socket m) d n ∧ md_SwIfIndex d = mf_SwIfIndex m
  | _ => True
  end.

Lemma call_safe c n :
  call_pre c n →
  keeps_apart (call_file c) (call_post c (λ d, on_file (call_file c) d n)) (call_prog c) n.
Proof.
  intros [Hone Hpre].
  assert (owns (call_file c) (λ d, on_file (call_file c) d n) n) as Hown by done.
  destruct c as [args dir ip conf|args dir conf|m|m]; unfold call_post, is_memif; cbn [call_prog].
  - case_bool_decide; [by apply AddOnHost_p_safe|].
    eapply neutral_safe; [by apply AddOnHost_p_neutral|apply owns_undisturbed|exact Hown|done].
  - case_bool_decide; [by apply DelFromHost_p_safe|].
    eapply neutral_safe; [by apply DelFromHost_p_neutral|apply owns_undisturbed|exact Hown|done].
  - by apply CreateMaster_p_safe.
  - by apply DeleteMaster_p_safe.
Qed.

Definition call_spec (n : node) (c : call) : thread_spec :=
  ThreadSpec (K := string) (call_file c) (call_post c (λ d, on_file (call_file c) d n)).

(** Calls on distinct files. *)
Record side_by_side (E : relation node) (calls : list call) (n : node) : Prop := {
  sb_files : NoDup (call_file <$> calls);
  sb_env c n1 n2 : c ∈ calls → E n1 n2 → rely (call_file c) n1 n2;
  sb_pre c : c ∈ calls → call_pre c n
}.

Lemma calls_safe E calls n :
  side_by_side E calls n →
  Forall2 (thread_safe rely guar n) (call_spec n <$> calls) (call_prog <$> calls).
Proof.
  intros [_ _ Hpre]. apply Forall2_fmap, Forall_Forall2_diag, Forall_forall.
  intros c Hc. by apply call_safe, Hpre.
Qed.

Lemma call_keys n (calls : list call) : sp_key <$> (call_spec n <$> calls) = call_file <$> calls.
Proof. by rewrite <- list_fmap_compose. Qed.

(** C5: The plugin's processes and the daemon do not disturb each other.  Let any
    number of AddOnHost and DelFromHost calls and of the daemon's CreateMaster and
    DeleteMaster, each on a socket file of its own, run side by side, their requests
    to VPP in any order and mixed with whatever else leaves these files alone.  A
    call that has ended has done to the interfaces on its file what it does when it
    runs alone: one that makes an interface and succeeded has added one, of the role
    and mode asked for, and kept the others; one that deletes and succeeded has
    removed one, or there was none; one that failed has done this or nothing.  And an
    interface on no call's file is as it was. *)
Theorem calls_do_not_interfere (E : relation node) calls n ts n' :
  side_by_side E calls n →
  rtc (step E) (call_prog <$> calls, n) (ts, n') →
  (∀ i c o, calls !! i = Some c → ts !! i = Some (Done o) →
     call_post c (λ d, on_file (call_file c) d n) o n') ∧
  (∀ g, g ∉ call_file <$> calls → (∀ n1 n2, E n1 n2 → rely g n1 n2) →
     ∀ d, on_file g d n' ↔ on_file g d n).
Proof.
  intros Hside Hsteps. pose proof (calls_safe _ _ _ Hside) as Hsafe.
  destruct Hside as [Hnd Henv _].
  assert (NoDup (sp_key <$> (call_spec n <$> calls))) as Hkeys by (by rewrite call_keys).
  assert (∀ sp n1 n2, sp ∈ call_spec n <$> calls → E n1 n2 → rely (sp_key sp) n1 n2) as Hrely.
  { intros sp n1 n2 (c' & -> & Hc')%list_elem_of_fmap. by apply Henv. }
  split.
  - intros i c o Hc Ho.
    refine (pool_done rely guar guar_rely E _ Hkeys Hrely _ _ _ _ i (call_spec n c) o
              Hsafe Hsteps _ Ho). by rewrite list_lookup_fmap, Hc.
  - intros g Hg HE d. rewrite <- call_keys with (n := n) in Hg.
    destruct (pool_spares rely guar guar_rely E _ Hkeys Hrely g _ _ _ _ Hg HE Hsafe Hsteps)
      as [_ Hon]. by rewrite Hon.
Qed.

(** ** What a call can lose to another *)

(** An id that another file took meanwhile is refused. *)
Lemma taken_id_refused f g id n :
  f ≠ g → reg g id n → is_ok (send (ReqMemifSocketFilenameAddDelV2 true id f) n).1 = false.
Proof.
  intros Hne Hg. destruct (send_cases (ReqMemifSocketFilenameAddDelV2 true id f) n)
    as [(i & n1 & E)|(e & n1 & E)]; rewrite E; [|done]. exfalso.
  apply send_Ok, law_socket_add in E as [_ [[Hf _]|Es]]; [by apply Hne, (reg_file f g id n)|].
  apply Hne, (reg_file f g id n1); unfold reg; rewrite Es; [left|by right].
Qed.

(** Searches of the same VPP find the same free id. *)
Lemma free_id_same f g n :
  enough fuel n → (∀ id, ¬ reg f id n) → (∀ id, ¬ reg g id n) →
  ∃ id, findMemifSocket fuel f n = (Ok (false, id), n) ∧
        findMemifSocket fuel g n = (Ok (false, id), n).
Proof.
  intros Hen Hf Hg.
  destruct (findMemifSocket_total fuel f n Hen) as ([b1 id1] & E1 & Hl1).
  destruct (findMemifSocket_total fuel g n Hen) as ([b2 id2] & E2 & Hl2).
  pose proof (findMemifSocket_Ok _ _ _ _ _ E1) as [_ A1].
  pose proof (findMemifSocket_Ok _ _ _ _ _ E2) as [_ A2].
  destruct b1; [by destruct (Hf id1)|]. destruct b2; [by destruct (Hg id2)|].
  destruct (Hl1 eq_refl) as [Hr1 Hm1]. destruct (Hl2 eq_refl) as [Hr2 Hm2]. simpl in *.
  exists id1. split; [done|]. enough (id1 = id2) as -> by done.
  destruct (Z.lt_trichotomy id1 id2) as [Hlt|[?|Hlt]]; [|done|].
  - destruct (Hm2 id1) as (d & Hd & Heq); [lia|]. by destruct (A1 _ Hd).
  - destruct (Hm1 id2) as (d & Hd & Heq); [lia|]. by destruct (A2 _ Hd).
Qed.

(** The steps of a registration once its search found the free id. *)
Definition registration (f : string) (id : Z) : prog node Z :=
  atomic (on_snd (ensure_dir (path_dir f))) ≫= λ _,
  atomic (send (ReqMemifSocketFilenameAddDelV2 true id f)) ≫= λ _, mret id.

Lemma search_step (ts : list (prog node Z)) i f id n :
  ts !! i = Some (CreateMemifSocket_p fuel f) → findMemifSocket fuel f n = (Ok (false, id), n) →
  step_at i (ts, n) = (<[i := registration f id]> ts, n).
Proof. intros Hi Ef. by rewrite (step_at_act i (ts, n) _ _ _ _ Hi Ef). Qed.

(** Two steps of it on a VPP in which another file took the id. *)
Lemma registration_late f g id (ts : list (prog node Z)) i n :
  f ≠ g → reg g id n → ts !! i = Some (registration f id) →
  ∃ o, (step_at i (step_at i (ts, n))).1 !! i = Some (Done o) ∧ is_ok o = false.
Proof.
  intros Hne Hg Hi. pose proof (on_snd_keeps (ensure_dir (path_dir f)) n) as Hk.
  pose proof (lookup_lt_Some _ _ _ Hi) as Hlt.
  destruct (on_snd (ensure_dir (path_dir f)) n) as [r n1] eqn:E. simpl in Hk.
  rewrite (step_at_act i (ts, n) _ _ r n1 Hi E). cbn [fst].
  destruct r as [[]|e|w|];
    [|erewrite step_at_done by (by apply list_lookup_insert_eq);
      eexists; by split; [apply list_lookup_insert_eq|]..].
  pose proof (taken_id_refused f g id n1 Hne) as Hlate.
  destruct (send (ReqMemifSocketFilenameAddDelV2 true id f) n1) as [r n2] eqn:E2.
  erewrite step_at_act; [|by apply list_lookup_insert_eq|exact E2]. cbn [fst].
  rewrite list_insert_insert_eq.
  assert (is_ok r = false) as Hr by (apply Hlate; eapply reg_rely; [by apply same_memifs_rely|done]).
  destruct r as [i0|e|w|]; [done|eexists; by split; [apply list_lookup_insert_eq|]..].
Qed.

(** Two steps of it, alone: if it ended well the id is its file's. *)
Lemma registration_runs g id (ts : list (prog node Z)) i n id' :
  ts !! i = Some (registration g id) →
  (step_at i (step_at i (ts, n))).1 !! i = Some (Done (Ok id')) →
  reg g id (step_at i (step_at i (ts, n))).2.
Proof.
  intros Hi. pose proof (lookup_lt_Some _ _ _ Hi) as Hlt.
  destruct (on_snd (ensure_dir (path_dir g)) n) as [r n1] eqn:E.
  rewrite (step_at_act i (ts, n) _ _ r n1 Hi E). cbn [fst].
  destruct r as [[]|e|w|];
    [|erewrite step_at_done by (by apply list_lookup_insert_eq);
      cbn [fst]; rewrite list_lookup_insert_eq by done; by intros [=]..].
  destruct (send (ReqMemifSocketFilenameAddDelV2 true id g) n1) as [r n2] eqn:E2.
  erewrite step_at_act; [|by apply list_lookup_insert_eq|exact E2]. cbn [fst snd].
  rewrite list_insert_insert_eq, list_lookup_insert_eq by done.
  destruct r as [i0|e|w|]; cbn; try by intros [=]. intros _.
  apply send_Ok, law_socket_add in E2 as [_ [[Hin Es]|Es]]; unfold reg; rewrite Es; [done|left].
Qed.

(** C21: Two ADDs can lose each other a socket.  The search for a free socket id
    and the registration are two requests, with no lock around them: when a second
    process searches between them, both found the same id, and once the one has
    registered its file the other's registration fails. *)
Theorem CreateMemifSocket_race f g n :
  enough fuel n → f ≠ g → (∀ id, ¬ reg f id n) → (∀ id, ¬ reg g id n) →
  let c := run_schedule [0; 1; 1; 1; 0; 0]
             ([CreateMemifSocket_p fuel f; CreateMemifSocket_p fuel g], n) in
  ∀ id, c.1 !! 1 = Some (Done (Ok id)) → ∃ o, c.1 !! 0 = Some (Done o) ∧ is_ok o = false.
Proof.
  intros Hen Hne Hf Hg. destruct (free_id_same f g n Hen Hf Hg) as (id & Ef & Eg).
  cbv zeta. unfold run_schedule. cbn [foldl].
  erewrite (search_step _ 0 f) by done. erewrite (search_step _ 1 g) by done.
  intros id' Hdone. rewrite !step_at_other in Hdone by done.
  apply (registration_runs g id) in Hdone as Hreg; [|done].
  rewrite (surjective_pairing (step_at 1 (step_at 1 _))).
  apply (registration_late f g id); [done|done|]. by rewrite !step_at_other.
Qed.
End Interleave.
