(* ===== verification/Restore.v ===== *)
(** * The restore daemon and the CNI plugin agree

    What the daemon builds from a pod's annotation (pkg/daemon/desired.go and
    dataplane_vpp.go) against what ADD built for the pod (cnivpp/cnivpp.go): the
    same socket, the same requests, the same node afterwards. *)
From S2P Require Import Prelude GoStrings GoOs Json Types JsonCodec Annotations ConfigData.
From S2P Require Import LocalDb VppApi Memif Bridge CniVpp Reconcile Desired Dataplane.

Section Restore.
Context `{VppApi} `{UserDb}.
Variable fuel : nat.

(** The configurations of a network attachment for which the two agree: a memif
    master in VPP, with a mode ADD accepts, a bridge domain other than 0 or no
    bridge, an MTU that is not negative; and a container that does not choose a
    mode of its own when the host leaves it open. *)
Record restorable (conf : NetConf.t) (b : Z) : Prop := {
  rs_type : UserSpaceConf.IfType (NetConf.HostConf conf) = "memif";
  rs_engine : UserSpaceConf.Engine (NetConf.HostConf conf) = EmptyString ∨
              equal_fold (UserSpaceConf.Engine (NetConf.HostConf conf)) "vpp" = true;
  rs_role : MemifConf.Role (host_memif conf) = "master";
  rs_mode : MemifConf.Mode (host_memif conf) ∈ [EmptyString; "ethernet"; "ip"; "inject-punt"];
  rs_container : MemifConf.Mode (host_memif conf) = EmptyString →
                 MemifConf.Mode (UserSpaceConf.MemifConf (NetConf.ContainerConf conf)) = EmptyString;
  rs_kind : UserSpaceConf.IfType (NetConf.ContainerConf conf) ∈ [EmptyString; "memif"];
  rs_net : UserSpaceConf.NetType (NetConf.HostConf conf) = "interface" ∧ b = 0%Z ∨
           UserSpaceConf.NetType (NetConf.HostConf conf) = "bridge" ∧
           bridge_domain (host_bridge conf) = inr b ∧ b ≠ 0%Z ∧ (0 ≤ b < 2 ^ 32)%Z;
  rs_mtu : (0 ≤ UserSpaceConf.MTU (NetConf.HostConf conf) < 2 ^ 32)%Z
}.

(** The entry ADD puts in the annotation. *)
Definition added_entry (conf : NetConf.t) (args : CmdArgs.t) (ip : option Result.t)
  : ConfigurationData.t := remote_config (filled args conf) args ip.

(** ADD gives an interface outside a bridge the addresses of the result, the daemon
    gives none. *)
Definition no_address (conf : NetConf.t) (ip : option Result.t) : Prop :=
  UserSpaceConf.NetType (NetConf.HostConf conf) = "interface" →
  (Result.IPs <$> ip) ∈ [None; Some []].

(** The device and network steps of ADD, without what is saved. *)
Definition add_interface (args : CmdArgs.t) (dir : string) (ip : option Result.t)
  : go (NetConf.t * node) unit :=
  data ← add_local_device fuel args dir;
  conf ← gets fst;
  on_snd (set_up fuel conf (VppSavedData.InterfaceSwIfIndex data) ip).

Lemma bridge_domain_bridgeDomainID bc b :
  bridge_domain bc = inr b → (0 ≤ b < 2 ^ 32)%Z → bridgeDomainID bc = inr b.
Proof.
  unfold bridge_domain, bridgeDomainID. intros Hb Hr. case_decide.
  - rewrite Hb. by rewrite u32_small.
  - injection Hb as <-. case_decide as Hz; [done|].
    destruct (decide (BridgeConf.BridgeId bc = 0)%Z) as [->|]; [done|tauto].
Qed.

Lemma filled_mode_cases args conf :
  MemifConf.Mode (host_memif (filled args conf)) =
  if decide (MemifConf.Mode (host_memif conf) = EmptyString) then "ethernet"
  else MemifConf.Mode (host_memif conf).
Proof. unfold filled, upd_memif, upd_host. simpl. unfold default_mode. simpl. by case_decide. Qed.

(** Only the socket file's name and the mode are filled in. *)
Lemma filled_params args conf role mode sid :
  memif_params (filled args conf) role mode sid = memif_params conf role mode sid.
Proof.
  unfold memif_params, filled, upd_memif, upd_host. simpl. unfold default_mode. simpl.
  by case_decide.
Qed.

(** The mode the container is told. *)
Lemma container_mode host conf ip :
  UserSpaceConf.IfType host = "memif" → UserSpaceConf.IfType conf ∈ [EmptyString; "memif"] →
  MemifConf.Mode (UserSpaceConf.MemifConf (container_config host conf ip)) =
  if decide (MemifConf.Mode (UserSpaceConf.MemifConf conf) = EmptyString)
  then MemifConf.Mode (UserSpaceConf.MemifConf host)
  else MemifConf.Mode (UserSpaceConf.MemifConf conf).
Proof.
  intros Hh Hk. unfold container_config. rewrite !elem_of_cons, elem_of_nil in Hk.
  set (c1 := if decide (UserSpaceConf.IfType conf = EmptyString) then _ else conf).
  assert (UserSpaceConf.IfType c1 = "memif" ∧
          UserSpaceConf.MemifConf c1 = UserSpaceConf.MemifConf conf) as [Hc1 Hm1].
  { subst c1. case_decide; [done|]. by destruct Hk as [?|[?|[]]]. }
  clearbody c1. cbv zeta.
  set (c2 := if decide (_ ∧ _) then _ else c1).
  assert (UserSpaceConf.IfType c2 = "memif" ∧
          UserSpaceConf.MemifConf c2 = UserSpaceConf.MemifConf conf) as [Hc2 Hm2]
    by (subst c2; by case_decide).
  clearbody c2. rewrite decide_True by done. unfold flip_memif. simpl. rewrite Hm2.
  by repeat (case_decide; simpl in * ).
Qed.

(** The master the daemon wants for the entry ADD wrote. *)
Lemma desired_of_added conf args b ip dir :
  restorable conf b →
  ∃ m, desiredMemif (added_entry conf args ip) (NetConf.HostConf conf) dir = inr (Some m) ∧
    mf_Socket m = memif_path dir args conf ∧ mf_BridgeID m = b ∧
    mf_MTU m = UserSpaceConf.MTU (NetConf.HostConf conf) ∧
    memif_mode (MemifConf.Mode (host_memif (filled args conf))) = inr (parseMode (mf_Mode m)) ∧
    ∀ sid, master_params m sid =
      memif_params (filled args conf) RoleMaster (parseMode (mf_Mode m)) sid.
Proof.
  intros [Hty Hen Hro Hmo Hco Hki Hnet Hmtu]. unfold desiredMemif.
  rewrite Hty. change (equal_fold "memif" "memif") with true. cbn [negb].
  assert (bool_decide (UserSpaceConf.Engine (NetConf.HostConf conf) ≠ EmptyString) &&
          negb (equal_fold (UserSpaceConf.Engine (NetConf.HostConf conf)) "vpp") = false) as ->.
  { destruct Hen as [->| ->]; [done|]. by rewrite andb_false_r. }
  assert ((if equal_fold (UserSpaceConf.NetType (NetConf.HostConf conf)) "bridge"
           then bridgeDomainID (host_bridge conf) else inr 0%Z) = inr b) as ->.
  { destruct Hnet as [[-> ->]|[-> (Hb & _ & Hr)]]; [done|].
    change (equal_fold "bridge" "bridge") with true. by apply bridge_domain_bridgeDomainID. }
  eexists. split; [done|]. cbn [mf_Socket mf_BridgeID mf_MTU mf_Mode].
  set (mode := if decide _ then _ else _).
  assert (memif_mode (MemifConf.Mode (host_memif (filled args conf))) = inr (parseMode mode) ∧
          mode ≠ EmptyString) as [Hmode _].
  { subst mode. unfold added_entry, remote_config. cbn [ConfigurationData.Config].
    rewrite (filled_mode_cases args conf).
    rewrite !elem_of_cons, elem_of_nil in Hmo. destruct Hmo as [E|[E|[E|[E|[]]]]]; rewrite E;
      rewrite ?(decide_True (P := EmptyString = EmptyString)) by done; [|by rewrite ?decide_False by done..].
    rewrite container_mode; [|done|done].
    change (NetConf.ContainerConf (filled args conf)) with (NetConf.ContainerConf conf).
    rewrite decide_True by auto. rewrite filled_mode_cases, decide_True by done. done. }
  split_and!; [done|done|by apply u32_small|done|].
  intros sid. by rewrite filled_params.
Qed.
(** Only the error texts differ between the daemon's steps and those of ADD. *)
Lemma wrap_err_Ok_iff {S A} msg (m : go S A) s a s' :
  wrap_err msg m s = (Ok a, s') ↔ m s = (Ok a, s').
Proof. split; [apply wrap_err_Ok_inv|apply wrap_err_Ok]. Qed.

Lemma bind_Ok_iff {S A B} (m1 m2 : go S A) (f1 f2 : A → go S B) s b s' :
  (∀ a s1, m1 s = (Ok a, s1) ↔ m2 s = (Ok a, s1)) →
  (∀ a s1, m1 s = (Ok a, s1) → f1 a s1 = (Ok b, s') ↔ f2 a s1 = (Ok b, s')) →
  (m1 ≫= f1) s = (Ok b, s') ↔ (m2 ≫= f2) s = (Ok b, s').
Proof.
  intros Hm Hf. split; intros (a & s1 & Ha & Hb)%bind_Ok_inv.
  - rewrite (bind_Ok _ _ _ a s1) by (by apply Hm). by apply Hf.
  - apply Hm in Ha. rewrite (bind_Ok _ _ _ a s1) by done. by apply Hf.
Qed.

(** The network steps: the same requests. *)
Lemma set_up_as_daemon conf args b ip (m : Memif) i n n' :
  restorable conf b → no_address conf ip →
  mf_BridgeID m = b → mf_MTU m = UserSpaceConf.MTU (NetConf.HostConf conf) →
  set_up fuel (filled args conf) i ip n = (Ok tt, n') ↔
  (wrap_err "memif set-up" (SetState i IF_STATUS_API_FLAG_ADMIN_UP) ;;
   (if decide (0 < mf_MTU m)%Z then wrap_err "memif set-mtu" (SetMtu i (mf_MTU m))
    else mret tt) ;;
   (if decide (mf_BridgeID m ≠ 0)%Z
    then wrap_err "memif bridge add" (AddBridgeInterface fuel (mf_BridgeID m) i)
    else mret tt)) n = (Ok tt, n').
Proof.
  intros Hrs Hip Hb Hmtu. unfold set_up. cbv zeta. rewrite Hmtu.
  change (UserSpaceConf.MTU (NetConf.HostConf (filled args conf)))
    with (UserSpaceConf.MTU (NetConf.HostConf conf)).
  apply bind_Ok_iff; [intros; symmetry; apply wrap_err_Ok_iff|intros [] n1 _].
  apply bind_Ok_iff.
  { intros [] n2. case_decide; [|done]. rewrite wrap_err_Ok_iff, u32_small; [done|].
    apply (rs_mtu _ _ Hrs). }
  intros [] n2 _. unfold join_network. cbv zeta.
  change (UserSpaceConf.NetType (NetConf.HostConf (filled args conf)))
    with (UserSpaceConf.NetType (NetConf.HostConf conf)).
  change (host_bridge (filled args conf)) with (host_bridge conf).
  destruct (rs_net _ _ Hrs) as [[E ->]|[-> (Hbd & Hb0 & _)]].
  - specialize (Hip E). rewrite E. rewrite decide_False, decide_True, (decide_False (P := _ ≠ _)) by (done || lia).
    rewrite !elem_of_cons, elem_of_nil in Hip. destruct ip as [r|]; [|done].
    destruct Hip as [?|[Hr|[]]]; [done|]. injection Hr as Hr. by rewrite decide_True.
  - rewrite decide_True, (decide_True (P := _ ≠ _)), Hbd, Hb by (done || lia).
    rewrite wrap_err_Ok_iff. done.
Qed.

(** ADD's device steps, forwards. *)
Lemma addLocalDeviceMemif_run args dir data conf n role mode sid i n1 n2 :
  memif_role (MemifConf.Role (host_memif conf)) = inr role →
  memif_mode (MemifConf.Mode (host_memif (filled args conf))) = inr mode →
  CreateMemifSocket fuel (memif_path dir args conf) n = (Ok sid, n1) →
  CreateMemifInterface (memif_params (filled args conf) role mode sid) n1 = (Ok i, n2) →
  addLocalDeviceMemif fuel args dir data (conf, n) =
  (Ok (VppSavedData.mk i sid), (filled args conf, n2)).
Proof.
  intros Hrole Hmode Hsock Hif. unfold addLocalDeviceMemif.
  rewrite (bind_Ok _ _ _ _ _ (on_fst_run _ _ _ _ _ (getMemifSocketfileName_run dir args conf))).
  rewrite (bind_Ok _ _ _ _ _ (run_gets _ _)).
  rewrite (bind_Ok _ _ _ role (with_socketfile args conf, n)).
  2:{ simpl. by rewrite Hrole. }
  rewrite (bind_Ok _ _ _ _ _ (on_fst_run _ _ _ _ _ (run_modify _ _))).
  rewrite (bind_Ok _ _ _ _ _ (run_gets _ _)).
  rewrite (bind_Ok _ _ _ mode (filled args conf, n)).
  2:{ cbn [fst]. fold (filled args conf). by rewrite Hmode. }
  rewrite (bind_Ok _ _ _ _ _ (on_snd_run _ _ _ _ _ Hsock)).
  by rewrite (bind_Ok _ _ _ _ _ (on_snd_run _ _ _ _ _ Hif)).
Qed.

Lemma add_local_device_memif args dir conf n :
  UserSpaceConf.IfType (NetConf.HostConf conf) = "memif" →
  add_local_device fuel args dir (conf, n) =
  addLocalDeviceMemif fuel args dir VppSavedData.zero (conf, n).
Proof.
  intros Hif. unfold add_local_device. rewrite (bind_Ok _ _ _ _ _ (run_gets _ _)).
  cbv zeta. cbn [fst]. by rewrite decide_True.
Qed.

(** C10: Where the restore daemon makes anew exactly what ADD made.  Let the host's
    configuration be that of a memif master (engine vpp, or none) with one of the modes ADD
    accepts, in a bridge domain other than 0 or of netType interface, with an MTU that
    is a uint32, and let the container not choose a kind, nor, where the host leaves
    the mode open, a mode of its own ([restorable]); and let the result hold no
    address unless the interface is in a bridge.  From the entry ADD wrote to the
    pod's annotation, with that host configuration, the daemon wants a master on the
    socket ADD used, and creating it takes a node to the same state as ADD's own
    steps, requests and files included; the one succeeds if and only if the other
    does.  (Outside: [CreateMaster_differs_from_add].) *)
Theorem CreateMaster_restores_add conf args b ip dir n :
  restorable conf b → no_address conf ip →
  ∃ m, desiredMemif (added_entry conf args ip) (NetConf.HostConf conf) dir = inr (Some m) ∧
    mf_Socket m = memif_path dir args conf ∧
    ∀ n', vpp_CreateMaster fuel m n = (Ok tt, n') ↔
          add_interface args dir ip (conf, n) = (Ok tt, (filled args conf, n')).
Proof.
  intros Hrs Hip. destruct (desired_of_added conf args b ip dir Hrs)
    as (m & Hm & Hsock & Hbr & Hmtu & Hmode & Hparams).
  exists m. split_and!; [done..|]. intros n'. unfold vpp_CreateMaster, add_interface.
  rewrite Hsock. split.
  - intros (sid & n1 & Hs%wrap_err_Ok_inv & Hrun)%bind_Ok_inv.
    apply bind_Ok_inv in Hrun as (i & n2 & Hi%wrap_err_Ok_inv & Hrun). rewrite Hparams in Hi.
    rewrite (bind_Ok _ _ _ (VppSavedData.mk i sid) (filled args conf, n2)).
    { rewrite (bind_Ok _ _ _ _ _ (run_gets _ _)). apply on_snd_run. simpl.
      by eapply set_up_as_daemon. }
    rewrite add_local_device_memif by apply Hrs.
    eapply addLocalDeviceMemif_run; [|done..]. by rewrite (rs_role _ _ Hrs).
  - intros (d & [c1 n2] & Hd & Hrun)%bind_Ok_inv.
    rewrite add_local_device_memif in Hd by apply Hrs.
    apply addLocalDeviceMemif_Ok in Hd as (role & mode & sid & i & n1 & Hrole & Hmode' & Hs & Hi & Hc & ->).
    simpl in Hi, Hc. subst c1.
    rewrite (rs_role _ _ Hrs) in Hrole. injection Hrole as <-. rewrite Hmode in Hmode'. injection Hmode' as <-.
    apply bind_Ok_inv in Hrun as (c2 & s2 & Hg & [Hrun _]%on_snd_inv).
    rewrite run_gets in Hg. injection Hg as <- <-. simpl in Hrun.
    rewrite (bind_Ok _ _ _ _ _ (wrap_err_Ok _ _ _ _ _ Hs)). rewrite <- Hparams in Hi.
    rewrite (bind_Ok _ _ _ _ _ (wrap_err_Ok _ _ _ _ _ Hi)).
    by eapply set_up_as_daemon in Hrun.
Qed.

(** Where the two part ways.  When the host configuration leaves the mode open
    and the container's says ip, ADD makes an ethernet master and the daemon an ip
    one; and the daemon makes a master even of an interface whose host side is
    configured as the slave. *)
Theorem CreateMaster_differs_from_add conf args ip dir :
  UserSpaceConf.IfType (NetConf.HostConf conf) = "memif" →
  UserSpaceConf.Engine (NetConf.HostConf conf) = EmptyString →
  UserSpaceConf.NetType (NetConf.HostConf conf) = "interface" →
  UserSpaceConf.IfType (NetConf.ContainerConf conf) = EmptyString →
  MemifConf.Mode (host_memif conf) = EmptyString →
  MemifConf.Mode (UserSpaceConf.MemifConf (NetConf.ContainerConf conf)) = "ip" →
  ∃ m, desiredMemif (added_entry conf args ip) (NetConf.HostConf conf) dir = inr (Some m) ∧
    mf_Socket m = memif_path dir args conf ∧
    (∀ sid, cp_Mode (master_params m sid) = ModeIP ∧ cp_Role (master_params m sid) = RoleMaster) ∧
    (∀ data n d s', addLocalDeviceMemif fuel args dir data (conf, n) = (Ok d, s') →
       ∃ n1 sid i, CreateMemifInterface
         (memif_params conf (if decide (MemifConf.Role (host_memif conf) = "slave") then RoleSlave
                             else RoleMaster) ModeEthernet sid) n1 = (Ok i, s'.2)).
Proof.
  intros Hty Hen Hnet Hcty Hmo Hco. unfold desiredMemif. rewrite Hty, Hen, Hnet, Hmo.
  change (equal_fold "memif" "memif") with true. change (equal_fold "interface" "bridge") with false.
  rewrite bool_decide_eq_false_2 by tauto. cbn [negb andb]. eexists. split; [done|].
  split; [done|]. split.
  - intros sid. split; [|done]. unfold master_params. cbn [mf_Mode cp_Mode].
    rewrite decide_True by done. unfold added_entry, remote_config. cbn [ConfigurationData.Config].
    rewrite container_mode; [|done|rewrite elem_of_cons; by left].
    change (NetConf.ContainerConf (filled args conf)) with (NetConf.ContainerConf conf).
    by rewrite Hco, decide_False.
  - intros data n d s' (role & mode & sid & i & n1 & Hrole & Hmode & _ & Hi & _)%addLocalDeviceMemif_Ok.
    exists n1, sid, i. rewrite filled_params in Hi. rewrite filled_mode_cases, decide_True in Hmode by done.
    injection Hmode as <-. unfold memif_role in Hrole.
    destruct (decide (_ = "master")) as [Em|]; [|destruct (decide (_ = "slave"))]; simplify_eq;
      [by rewrite Em, decide_False by done|done].
Qed.
End Restore.
