(* ===== verification/VppSafety.v ===== *)
(** * The VPP engine whatever a call ends in

    What AddOnHost and DelFromHost can do to VPP's memif interfaces when they fail,
    panic or do not return, as well as when they succeed. *)
From S2P Require Import Prelude GoStrings GoOs Json Types JsonCodec Annotations ConfigData.
From S2P Require Import LocalDb VppApi Memif Bridge CniVpp.

Section Safety.
Context `{VppLaws} `{UserDb}.
Variable fuel : nat.

Notation host_state := (NetConf.t * node)%type.

(** The state of the engine: the node's memifs, with any configuration. *)
Definition same_host (s1 s2 : host_state) : Prop := same_memifs s1.2 s2.2.

#[export] Instance same_host_preorder : PreOrder same_host.
Proof. split; [by intros s|]. intros s1 s2 s3. unfold same_host. apply transitivity. Qed.

Lemma on_fst_host {A} (m : go NetConf.t A) : keeps same_host (on_fst m).
Proof. intros s. unfold on_fst. by destruct (m s.1). Qed.
Lemma on_snd_host {A} (m : go node A) : keeps same_memifs m → keeps same_host (on_snd m).
Proof. intros Hm s. unfold on_snd. specialize (Hm s.2). by destruct (m s.2). Qed.
Lemma on_files_host {A} (m : go fs A) : keeps same_host (on_snd (on_snd m)).
Proof. apply on_snd_host, on_snd_keeps. Qed.
Hint Resolve on_fst_host on_snd_host on_files_host set_up_keeps leave_network_keeps : go_db.

(** *** Composing what a call may do

    [R] relates the node a call starts from to the one it leaves, and does not see
    what leaves the memifs alone. *)
Class MemifRel (R : relation node) := {
  rel_same n1 n2 : same_memifs n1 n2 → R n1 n2;
  rel_before n1 n2 n3 : same_memifs n1 n2 → R n2 n3 → R n1 n3;
  rel_after n1 n2 n3 : R n1 n2 → same_memifs n2 n3 → R n1 n3
}.

(** The step that matters first, a rest that changes no interface. *)
Lemma step_then {A B} (R : relation node) `{!MemifRel R} (m : go host_state A)
    (f : A → go host_state B) s n :
  R n (m s).2.2 → (∀ a, keeps same_host (f a)) → R n ((m ≫= f) s).2.2.
Proof.
  intros Hm Hf. rewrite run_bind. destruct (m s) as [[a|?|?|] s1]; [|done..].
  eapply rel_after; [exact Hm|apply Hf].
Qed.

(** A first step that changes no interface. *)
Lemma then_step {A B} (R : relation node) `{!MemifRel R} (m : go host_state A)
    (f : A → go host_state B) s n :
  s.2 = n → keeps same_host m → (∀ a s1, m s = (Ok a, s1) → R s1.2 (f a s1).2.2) →
  R n ((m ≫= f) s).2.2.
Proof.
  intros <- Hm Hf. rewrite run_bind. pose proof (Hm s) as Hs.
  destruct (m s) as [[a|?|?|] s1]; try by apply rel_same.
  eapply rel_before; [exact Hs|]. by apply (Hf a).
Qed.

(** *** ADD *)

(** From [n1] to [n2] no socket and no interface went, and at most one interface
    came, on the socket [path]. *)
Definition grows (path : string) (n1 n2 : node) : Prop :=
  (∀ s, s ∈ sockets (node_vpp n1) → s ∈ sockets (node_vpp n2)) ∧
  (memifs (node_vpp n2) ≡ₚ memifs (node_vpp n1) ∨
   ∃ d, memifs (node_vpp n2) ≡ₚ d :: memifs (node_vpp n1) ∧
     {| sd_SocketID := md_SocketID d; sd_SocketFilename := path |} ∈ sockets (node_vpp n2)).

#[export] Instance grows_rel path : MemifRel (grows path).
Proof.
  split; unfold grows.
  - intros n1 n2 [Em Es]. rewrite <- Em, <- Es. split; [done|by left].
  - intros n1 n2 n3 [Em Es]. by rewrite Em, Es.
  - intros n1 n2 n3 H12 [Em Es]. by rewrite <- Em, <- Es.
Qed.

Lemma addLocalDeviceVhostUser_host args dir data :
  keeps same_host (addLocalDeviceVhostUser args dir data).
Proof.
  apply keeps_bind; [apply _|auto with go_db|intros path].
  apply keeps_bind; [apply _|auto with go_db|intros conf].
  apply keeps_bind; [apply _| |intros idx].
  { apply on_snd_host, keeps_bind; [apply _|auto with go_db|]. intros req. by apply send_neutral_keeps. }
  apply keeps_bind; [apply _|case_match; auto with go_db|intros _; auto with go_db].
Qed.

(** The steps of a memif: register the socket, then make the interface. *)
Lemma addLocalDeviceMemif_grows args dir data s :
  grows (memif_path dir args s.1) s.2 (addLocalDeviceMemif fuel args dir data s).2.2.
Proof.
  destruct s as [conf n]. unfold addLocalDeviceMemif.
  apply then_step; [apply _|done|auto with go_db|]. intros path s1 [Hp Hs1]%on_fst_inv.
  rewrite getMemifSocketfileName_run in Hp. injection Hp as <- Hc. simpl in Hs1.
  destruct s1 as [c1 n1]. simpl in Hc, Hs1. subst c1 n1. cbn [fst snd].
  set (path := memif_path dir args conf).
  apply then_step; [apply _|done|auto with go_db|]. intros conf1 s1 _.
  apply then_step; [apply _|done|auto with go_db|]. intros role s2 _.
  apply then_step; [apply _|done|auto with go_db|]. intros _ s3 _.
  apply then_step; [apply _|done|auto with go_db|]. intros conf2 s4 _.
  apply then_step; [apply _|done|auto with go_db|]. intros mode s5 _. clear - H0.
  rewrite run_bind. unfold on_snd at 1. simpl.
  destruct (CreateMemifSocket fuel path s5.2) as [o n1] eqn:Hsock.
  destruct (is_ok o) eqn:Eo.
  2:{ assert (grows path s5.2 n1).
      { destruct (CreateMemifSocket_not_ok _ _ _ _ _ Hsock Eo) as [?|[id Hreg]]; [by apply rel_same|].
        split; [intros s; by eapply registered_sockets|left]. by rewrite (proj1 Hreg). }
      by destruct o. }
  destruct o as [sid|?|?|]; [|done..]. rewrite run_bind. unfold on_snd at 1. simpl.
  pose proof (CreateMemifSocket_sockets _ _ _ _ _ Hsock) as [Hin Hgrow].
  apply CreateMemifSocket_Ok in Hsock as [Hm1 _].
  match goal with |- context [CreateMemifInterface ?p n1] => set (params := p) end.
  assert (∀ req i n2, memif_create_request params = inr req →
    carried_out memifs sockets (ReqMemifCreateV2 req) i (node_vpp n1) (node_vpp n2) →
    grows path s5.2 n2) as Hmade.
  { intros req i n2 (Hsid & _)%memif_create_request_inr [Hm2 Hs2]. simpl in Hsid.
    split; [by rewrite Hs2|]. right. eexists. rewrite Hm2, Hm1, Hs2. split; [done|].
    simpl. by rewrite Hsid. }
  destruct (CreateMemifInterface params n1) as [o n2] eqn:Hif.
  destruct (is_ok o) eqn:Eo2.
  2:{ assert (grows path s5.2 n2).
      { destruct (CreateMemifInterface_not_ok _ _ _ _ Hif Eo2) as [[Em Es]|(req & i & Hreq & Hc)];
          [|by eapply Hmade]. split; [by rewrite <- Es|left]. by rewrite <- Em, Hm1. }
      by destruct o. }
  destruct o as [i|?|?|]; [|done..].
  apply CreateMemifInterface_Ok in Hif as (req & Hreq & Hc%law_reply). by eapply Hmade.
Qed.

(** C17: Whatever an ADD ends in, an error half-way or a reply that was lost (a request
    may then have been carried out) included, it has taken no
    interface and no registered socket away, and has made at most one interface,
    which stands on the path of this container's socket. *)
Theorem AddOnHost_safe args dir ip conf n o s' :
  AddOnHost fuel args dir ip (conf, n) = (o, s') → grows (memif_path dir args conf) n s'.2.
Proof.
  intros Hrun. change s' with (o, s').2. rewrite <- Hrun. clear o s' Hrun.
  unfold AddOnHost.
  apply then_step; [apply _|done|unfold slice_to; case_decide; auto with go_db|]. intros id s1 Hslice.
  apply slice_to_Ok in Hslice as (-> & _).
  apply then_step; [apply _|done|unfold open_channel; auto with go_db|]. intros [] s2 [Hopen Hc]%on_snd_inv.
  assert (s2 = (conf, n)) as ->.
  { destruct s2 as [c2 n2]. unfold open_channel in Hopen. rewrite run_look in Hopen.
    injection Hopen as _ Hn. simpl in *. congruence. }
  apply step_then; [apply _| |].
  - unfold add_local_device. apply then_step; [apply _|done|auto with go_db|]. intros c s3 Hg.
    rewrite run_gets in Hg. injection Hg as <- <-. cbv zeta. simpl fst.
    destruct (decide (_ = "memif")); [apply (addLocalDeviceMemif_grows args dir _ (conf, n))|].
    destruct (decide (_ = "vhostuser")); [|by apply rel_same].
    apply rel_same, (addLocalDeviceVhostUser_host args dir _ (conf, n)).
  - intros d. apply keeps_bind; [apply _|auto with go_db|intros c].
    apply keeps_bind; [apply _|auto with go_db|intros _; auto with go_db].
Qed.

(** *** DEL *)

(** From [n1] to [n2] no interface came, and none went but one that stood on the
    socket [path]. *)
Definition shrinks (path : string) (n1 n2 : node) : Prop :=
  memifs (node_vpp n2) ≡ₚ memifs (node_vpp n1) ∨
  ∃ i, by_socket path (node_vpp n1) (i, true) ∧
    memifs (node_vpp n2) ≡ₚ filter (λ d, md_SwIfIndex d ≠ i) (memifs (node_vpp n1)).

#[export] Instance shrinks_rel path : MemifRel (shrinks path).
Proof.
  split; unfold shrinks, by_socket.
  - intros n1 n2 [Em Es]. left. by rewrite <- Em.
  - intros n1 n2 n3 [Em Es]. by rewrite Em, Es.
  - intros n1 n2 n3 H12 [Em Es]. by rewrite <- Em.
Qed.

(** The teardown of the interface on [path], or of none. *)
Lemma delLocalDeviceMemif_shrinks args dir data gone s :
  (gone = false → by_socket (memif_path dir args s.1) (node_vpp s.2)
                    (VppSavedData.InterfaceSwIfIndex data, true)) →
  shrinks (memif_path dir args s.1) s.2 (delLocalDeviceMemif fuel args dir data gone s).2.2.
Proof.
  destruct s as [conf n]. intros Hby. rewrite delLocalDeviceMemif_run.
  cbn [fst snd] in *. set (path := memif_path dir args conf) in *.
  assert (∀ (m : go host_state unit) s, shrinks path n (m s).2.2 →
    shrinks path n (with_defer m (cleanup_socket path) s).2.2) as Hdefer.
  { intros m s Hm. eapply rel_after; [exact Hm|]. unfold with_defer.
    by destruct (m s) as [[?|?|?|] s1]. }
  apply Hdefer. clear Hdefer. destruct gone; [by apply rel_same|]. specialize (Hby eq_refl).
  unfold wrap_err, on_snd. simpl.
  destruct (DeleteMemifInterface fuel _ n) as [o n1] eqn:Hdel.
  apply DeleteMemifInterface_any in Hdel. assert (shrinks path n n1) as Hn1.
  { destruct Hdel as [[_ Hs]|[Hm _]]; [by apply rel_same|]. right. eauto. }
  by destruct o.
Qed.

(** C18: Whatever a DEL of a memif ends in, a lost reply included, it has made no interface, and has taken
    none away but one that stood on this container's socket when it was looked up. *)
Theorem DelFromHost_safe args dir conf n o s' :
  DelFromHost fuel args dir (conf, n) = (o, s') →
  UserSpaceConf.IfType (NetConf.HostConf conf) = "memif" →
  shrinks (memif_path dir args conf) n s'.2.
Proof.
  intros Hrun Hif. change s' with (o, s').2. rewrite <- Hrun. clear o s' Hrun.
  unfold DelFromHost.
  apply then_step; [apply _|done|unfold slice_to; case_decide; auto with go_db|].
  intros id s1 (-> & _)%slice_to_Ok.
  apply then_step; [apply _|done|unfold open_channel; auto with go_db|]. intros [] s2 [_ Hc]%on_snd_inv.
  apply then_step; [apply _|done|auto with go_db|]. intros data s3 [_ Hc3]%on_snd_inv.
  apply then_step; [apply _|done|auto with go_db|]. intros c s4 Hg.
  rewrite run_gets in Hg. injection Hg as <- <-. destruct s3 as [c n3]. simpl in Hc, Hc3. subst c.
  rewrite Hc. cbv zeta. cbn [fst snd]. rewrite !(decide_True _ _ Hif).
  apply then_step; [apply _|done| |].
  { apply keeps_bind; [apply _|auto with go_db|intros path].
    apply keeps_bind; [apply _| |intros [i found]; auto with go_db].
    apply on_snd_host, keeps_bind; [apply _|apply keeps_look, _|intros [ok sid]].
    destruct ok; [apply keeps_look, _|auto with go_db]. }
  intros [d gone] s5 Hfound.
  apply bind_Ok_inv in Hfound as (path & s6 & [Hp Hs6]%on_fst_inv & Hfound).
  rewrite getMemifSocketfileName_run in Hp. injection Hp as <- Hc6. simpl in Hs6.
  destruct s6 as [c6 n6]. simpl in Hc6, Hs6. subst c6 n6.
  apply bind_Ok_inv in Hfound as ([i found] & s7 & [Hby Hc7]%on_snd_inv & Hret).
  apply FindMemifBySocket_Ok in Hby as [Hn7 Hby]. simpl in Hn7, Hby, Hc7. destruct s7 as [c7 n7].
  simpl in Hn7, Hc7. subst c7 n7. rewrite run_ret in Hret. injection Hret as Hd <-. cbn [fst snd].
  apply then_step; [apply _|done|auto with go_db|]. intros c s8 Hg.
  rewrite run_gets in Hg. injection Hg as <- <-. cbn [fst snd].
  apply then_step; [apply _|done|auto with go_db|]. intros [] s9 [Hleave Hc9]%on_snd_inv.
  simpl in Hleave, Hc9. destruct s9 as [c9 n9]. simpl in Hleave, Hc9. subst c9. cbn [snd].
  pose proof (delLocalDeviceMemif_shrinks args dir d gone (with_socketfile args conf, n9)) as Hdel.
  cbn [fst snd] in Hdel. rewrite memif_path_filled in Hdel.
  rewrite (decide_True _ _ Hif). apply Hdel. intros ->.
  pose proof (leave_network_keeps fuel (with_socketfile args conf)
    (VppSavedData.InterfaceSwIfIndex d) false n3) as [Em Es]. rewrite Hleave in Em, Es. simpl in Em, Es.
  destruct found; [|by injection Hd]. injection Hd as <-. unfold by_socket in *. simpl in *.
  by rewrite <- Em, <- Es.
Qed.
End Safety.
