(* ===== verification/CniProps.v ===== *)
(** * Properties of CmdAdd and CmdDel

    What a call of the plugin means for VPP and for the pod: the composition of
    the engine's two halves, and what happens when the pod cannot be read. *)
From S2P Require Import Prelude GoStrings GoOs Json Logging Types JsonCodec.
From S2P Require Import Annotations ConfigData LocalDb VppApi Memif Bridge CniVpp OvsDb CniOvs Cni.
From S2P Require Import Reconcile Desired.

(** A pod is read without an error, or not at all. *)
Lemma GetPod_cases `{KubeClient} `{K8sConfig} args kc cfg k :
  (∃ pod, (GetPod args kc cfg k).1 = (Some pod, true, None)) ∨
  (∃ kc' e, (GetPod args kc cfg k).1 = (None, kc', Some e)).
Proof.
  unfold GetPod. destruct (load_k8s_args _) as [e|[ns name]]; [right; eauto|].
  destruct (getK8sClient kc cfg) as [[] [e|]]; [right; eauto| |right; eauto..].
  destruct (kube_Get ns name k) as [[pod [e|]] k']; [right|left]; eauto.
Qed.

Section Plugin.
Context `{VppLaws} `{OvsApi} `{OvsHost} `{UserDb} `{KubeClient} `{K8sConfig} `{CniLib} `{CniHost}.
Variable fuel : nat.
Variable order : gmap string json → list (string * json).

Notation cni_state := (NetConf.t * world)%type.

(** What the steps around the engines leave alone: the configuration, VPP, and the
    API server. *)
Definition same_vpp (s1 s2 : cni_state) : Prop := w_vpp s1.2 = w_vpp s2.2 ∧ s1.1 = s2.1.
Definition same_kube (s1 s2 : cni_state) : Prop :=
  same_vpp s1 s2 ∧ w_kube s1.2 = w_kube s2.2.

#[export] Instance same_vpp_preorder : PreOrder same_vpp.
Proof. split; [by split|]. intros ??? [] []. split; congruence. Qed.
#[export] Instance same_kube_preorder : PreOrder same_kube.
Proof. split; [by split|]. intros ??? [] []. split; [by etrans|congruence]. Qed.

Lemma on_net_kube {A} (m : go host_net A) : keeps same_kube (on_net m).
Proof. intros s. unfold on_net. by destruct (m (w_net s.2)). Qed.
Lemma on_log_kube {A} (m : go (log_state * fs) A) : keeps same_kube (on_log m).
Proof. intros s. unfold on_log. by destruct (m _) as [o [l f]]. Qed.
Lemma on_files_kube {A} (m : go fs A) : keeps same_kube (on_files m).
Proof. intros s. unfold on_files. by destruct (m _). Qed.
Lemma on_save_vpp {A} pod (m : go ((kube * option Pod.t) * fs) A) : keeps same_vpp (on_save pod m).
Proof. intros s. unfold on_save. by destruct (m _) as [o [[k p] f]]. Qed.
Lemma same_kube_vpp {A} (m : go cni_state A) : keeps same_kube m → keeps same_vpp m.
Proof. intros Hm s. apply Hm. Qed.

Lemma slice_to_same {S} (R : relation S) `{!PreOrder R} n (t : string) :
  keeps R (slice_to n t : go S string).
Proof. unfold slice_to. case_decide; auto with go_db. Qed.

Lemma ipam_add_kube args r : keeps same_kube (ipam_add args r).
Proof.
  apply keeps_bind; [apply _|auto with go_db|]. intros conf. case_decide; [|auto with go_db].
  apply keeps_bind; [apply _|apply on_net_kube|]. intros ir.
  apply keeps_bind; [apply _|auto with go_db|]. intros r'. case_decide; auto with go_db.
Qed.

Lemma container_add_vpp args kc dir pod r : keeps same_vpp (container_add args kc dir pod r).
Proof.
  apply keeps_bind; [apply _|auto with go_db|]. intros conf.
  apply keeps_bind; [apply _| |auto with go_db]. pose proof @on_save_vpp.
  case_decide; [auto|]. case_decide; auto with go_db.
Qed.

(** LoadNetConf: the configuration of the text, and nothing else the call uses. *)
Lemma LoadNetConf_Ok text s s' :
  LoadNetConf text s = (Ok tt, s') →
  unmarshal d_NetConf text NetConf.zero = inr s'.1 ∧
  w_vpp s'.2 = w_vpp s.2 ∧ w_kube s'.2 = w_kube s.2.
Proof.
  unfold LoadNetConf. destruct (unmarshal _ _ _) as [e|conf]; [done|].
  rewrite run_bind. intros Hrun.
  assert (same_kube (conf, s.2) s') as [[Hv Hc] Hk];
    [|simpl in *; split_and!; congruence].
  change s' with (Ok tt, s').2. rewrite <- Hrun.
  apply (keeps_bind same_kube); [|intros _];
    [destruct (decide (NetConf.LogFile _ ≠ _))|destruct (decide (NetConf.LogLevel _ ≠ _))];
    apply on_log_kube || apply keeps_ret, _.
Qed.

(** The directory a call works in: the pod's own, or the default one. *)
Definition call_dir (conf : NetConf.t) (args : CmdArgs.t) (pod : option Pod.t) : string :=
  match GetPodVolumeMountHostSharedDir pod with
  | inr dir => dir
  | inl _ => default_shared_dir conf (str_take 12 (CmdArgs.ContainerID args))
  end.

(** GetPodAndSharedDir: the pod, and the directory. *)
Lemma GetPodAndSharedDir_Ok args kc s kc' pod dir s' :
  GetPodAndSharedDir args kc s = (Ok (kc', pod, dir), s') →
  same_vpp s s' ∧ w_fs s'.2 = w_fs s.2 ∧
  let cfg := NetConf.KubeConfig s.1 in
  let r := GetPod args kc cfg (w_kube s.2) in
  w_kube s'.2 = r.2 ∧ r.1.1 = (pod, kc') ∧ dir = call_dir s.1 args pod.
Proof.
  unfold GetPodAndSharedDir. intros Hrun. apply bind_Ok_inv in Hrun as ([[p k] e] & s1 & Hget & Hrun).
  destruct (GetPod args kc (NetConf.KubeConfig s.1) (w_kube s.2)) as [r kk] eqn:Er.
  injection Hget as -> <-. pose proof (GetPod_cases args kc (NetConf.KubeConfig s.1) (w_kube s.2)) as Hc.
  rewrite Er in Hc. cbn [fst] in Hc. simpl in Hrun.
  assert ((if decide (e = None) then GetPodVolumeMountHostSharedDir p else inl (ErrNew "no pod")) =
          match GetPodVolumeMountHostSharedDir p with inr d => inr d | inl err =>
            inl (if decide (e = None) then err else ErrNew "no pod") end) as Ed.
  { destruct Hc as [[pod' [= -> -> ->]]|(kc'' & e' & [= -> -> ->])].
    - rewrite decide_True by done. by destruct (GetPodVolumeMountHostSharedDir _).
    - by rewrite decide_False. }
  rewrite Ed in Hrun. unfold call_dir. destruct (GetPodVolumeMountHostSharedDir p) as [err|d] eqn:Ev.
  - rewrite run_bind, run_gets in Hrun.
    apply bind_Ok_inv in Hrun as (id & s2 & (-> & -> & _)%slice_to_Ok & [= <- <- <- <-]).
    by rewrite Ev.
  - injection Hrun as <- <- <- <-. by rewrite Ev.
Qed.

(** The container's step needs the pod, and writes its annotation when there is a
    client. *)
Lemma container_add_Ok args kc dir pod r s s' :
  container_add args kc dir pod r s = (Ok tt, s') →
  ∃ p, pod = Some p ∧
    (kc = true → ∃ q p', WritePodAnnotation true (Some (remote_config s.1 args (Some r)))
                   (w_kube s.2, Some p) = (Ok q, (w_kube s'.2, p'))).
Proof.
  unfold container_add. rewrite run_bind, run_gets. intros (x & s1 & Hsave & [= <-])%bind_Ok_inv.
  assert (∃ st, SaveRemoteConfig (Some s.1) (Some args) kc dir (Some r)
    ((w_kube s.2, pod), w_fs s.2) = (Ok x, st) ∧ w_kube s1.2 = st.1.1) as (st & Hrun & Hk).
  { assert (∀ m : go ((kube * option Pod.t) * fs) (option Pod.t), m = AddOnContainer s.1 args kc dir (Some r) →
      on_save pod m s = (Ok x, s1) → ∃ st, SaveRemoteConfig (Some s.1) (Some args) kc dir (Some r)
      ((w_kube s.2, pod), w_fs s.2) = (Ok x, st) ∧ w_kube s1.2 = st.1.1) as Hcase.
    { intros m -> Hon. unfold on_save, AddOnContainer in Hon.
      destruct ((slice_to _ _ ≫= _) _) as [o [[k p] f]] eqn:E. injection Hon as -> <-.
      apply bind_Ok_inv in E as (id & st & (-> & _)%slice_to_Ok & E). eauto. }
    destruct (decide (_ = "vpp")); [by eapply Hcase|].
    destruct (decide (_ = "ovs-dpdk")); [by eapply Hcase|done]. }
  rewrite Hk. clear Hsave Hk. unfold SaveRemoteConfig in Hrun. rewrite run_bind, run_gets in Hrun.
  cbn [fst snd] in Hrun. destruct pod as [p|]; [|by rewrite decide_True in Hrun].
  rewrite decide_False in Hrun by done. exists p. split; [done|]. intros ->.
  apply bind_Ok_inv in Hrun as (q & [[k p'] f] & [Hw _]%on_fst_inv & [= _ <-]). eauto.
Qed.

(** The host part of a CmdAdd. *)
Lemma cmd_add_host_Ok args kc w kc' pod dir r0 s2 :
  cmd_add_host fuel order args kc (NetConf.zero, w) = (Ok (kc', pod, dir, r0), s2) →
  ∃ conf s1,
    unmarshal d_NetConf (CmdArgs.StdinData args) NetConf.zero = inr conf ∧
    (GetPod args kc (NetConf.KubeConfig conf) (w_kube w)).1.1 = (pod, kc') ∧
    dir = call_dir conf args pod ∧ s1.1 = conf ∧ w_vpp s1.2 = w_vpp w ∧
    w_kube s1.2 = (GetPod args kc (NetConf.KubeConfig conf) (w_kube w)).2 ∧
    host_add fuel order args dir r0 s1 = (Ok tt, s2).
Proof.
  intros Hrun.
  apply bind_Ok_inv in Hrun as (rl & st & Hload%attempt_Ok_inv & Hrun).
  apply bind_Ok_inv in Hrun as (id & st' & (-> & _)%slice_to_Ok & Hrun).
  destruct rl as [e|[]]; [done|]. apply LoadNetConf_Ok in Hload as (Hconf & Hv & Hk). simpl in Hv, Hk.
  apply bind_Ok_inv in Hrun as (netns & st1 & Hns%wrap_err_Ok_inv & Hrun).
  pose proof (on_net_kube (GetNS (CmdArgs.Netns args)) st) as [[Hv1 Hc1] Hk1].
  rewrite Hns in Hv1, Hc1, Hk1. simpl in Hv1, Hc1, Hk1.
  apply bind_Ok_inv in Hrun as ([[kc1 pod1] dir1] & s1 & Hpod & Hrun).
  apply GetPodAndSharedDir_Ok in Hpod as ([Hv2 Hc2] & _ & Hkube & Hp & Hdir).
  apply bind_Ok_inv in Hrun as ([] & s3 & Hhost & [= -> -> -> <- ->]).
  rewrite <- Hc1, <- Hk1, Hk in Hp, Hkube. rewrite <- Hc1 in Hdir. subst dir.
  exists st.1, s1. split; [exact Hconf|]. split; [exact Hp|].
  split; [done|]. split; [congruence|]. split; [congruence|]. split; [exact Hkube|exact Hhost].
Qed.

Lemma cmd_add_container_vpp args kc pod dir r :
  keeps same_vpp (cmd_add_container args kc pod dir r).
Proof.
  apply keeps_bind; [apply _|apply same_kube_vpp, ipam_add_kube|intros r'].
  apply keeps_bind; [apply _|apply container_add_vpp|intros _]. apply same_kube_vpp, on_net_kube.
Qed.

(** A container part that succeeds had the pod, and wrote its annotation. *)
Lemma cmd_add_container_Ok args kc pod dir r0 s2 s' :
  cmd_add_container args kc pod dir r0 s2 = (Ok tt, s') →
  pod ≠ None ∧ w_vpp s'.2 = w_vpp s2.2 ∧
  ∃ r s3 s4, same_kube s2 s3 ∧ container_add args kc dir pod r s3 = (Ok tt, s4) ∧
    w_kube s'.2 = w_kube s4.2.
Proof.
  intros Hrun. pose proof (cmd_add_container_vpp args kc pod dir r0 s2) as [Hv _].
  rewrite Hrun in Hv. apply bind_Ok_inv in Hrun as (r & s3 & Hipam & Hrun).
  pose proof (ipam_add_kube args r0 s2) as Hs3. rewrite Hipam in Hs3. simpl in Hs3.
  apply bind_Ok_inv in Hrun as ([] & s4 & Hcont & Hprint).
  pose proof (on_net_kube (PrintResult r) s4) as [_ Hk5]. rewrite Hprint in Hk5. simpl in Hk5.
  split; [|split; [done|by exists r, s3, s4]].
  apply container_add_Ok in Hcont as (p & -> & _). done.
Qed.

(** The steps of a CmdAdd that succeeds. *)
Lemma CmdAdd_Ok args kc w w' :
  CmdAdd fuel order args kc w = (Ok tt, w') →
  ∃ conf kc' pod dir r0 r s1 s2 s3 s4,
    unmarshal d_NetConf (CmdArgs.StdinData args) NetConf.zero = inr conf ∧
    (GetPod args kc (NetConf.KubeConfig conf) (w_kube w)).1.1 = (pod, kc') ∧
    dir = call_dir conf args pod ∧ s1.1 = conf ∧ w_vpp s1.2 = w_vpp w ∧
    w_kube s1.2 = (GetPod args kc (NetConf.KubeConfig conf) (w_kube w)).2 ∧
    host_add fuel order args dir r0 s1 = (Ok tt, s2) ∧ same_kube s2 s3 ∧
    container_add args kc' dir pod r s3 = (Ok tt, s4) ∧
    w_vpp w' = w_vpp s2.2 ∧ w_kube w' = w_kube s4.2.
Proof.
  unfold CmdAdd, run_cmd. destruct (cmd_add _ _ _ _ _) as [o [c w1]] eqn:Hrun. intros [= -> ->].
  apply bind_Ok_inv in Hrun as ([[[kc' pod] dir] r0] & s2 & Hhost & Hrun).
  apply cmd_add_host_Ok in Hhost as (conf & s1 & Hconf & Hp & Hdir & Hc1 & Hv1 & Hk1 & Hhost).
  apply cmd_add_container_Ok in Hrun as (_ & Hv2 & r & s3 & s4 & Hs3 & Hcont & Hk5).
  exists conf, kc', pod, dir, r0, r, s1, s2, s3, s4. split_and!; done.
Qed.

(** What the host part of an ADD of a memif has done to VPP. *)
Lemma host_add_memif args dir r0 s1 s2 :
  host_add fuel order args dir r0 s1 = (Ok tt, s2) →
  UserSpaceConf.Engine (NetConf.HostConf s1.1) = "vpp" →
  UserSpaceConf.IfType (NetConf.HostConf s1.1) = "memif" →
  s2.1 = filled args s1.1 ∧ w_kube s2.2 = w_kube s1.2 ∧
  ∃ d, memifs (w_vpp s2.2) ≡ₚ d :: memifs (w_vpp s1.2) ∧
    {| sd_SocketID := md_SocketID d; sd_SocketFilename := memif_path dir args s1.1 |}
      ∈ sockets (w_vpp s2.2).
Proof.
  intros Hhost Hengine Hif. unfold host_add in Hhost. rewrite run_bind, run_gets in Hhost.
  cbv zeta in Hhost. rewrite decide_True in Hhost by done. unfold on_vpp in Hhost.
  destruct (AddOnHost fuel args dir (Some r0) _) as [o [c2 [v2 f2]]] eqn:Hadd.
  injection Hhost as -> <-.
  apply AddOnHost_memif_Ok in Hadd as (d & n1 & n2 & Hdev & Hset & _ & Hn & Hc2); [|done].
  apply addLocalDeviceMemif_memifs in Hdev as (role & mode & _ & _ & Hm & Hin & _ & _).
  pose proof (set_up_keeps fuel (filled args s1.1) (VppSavedData.InterfaceSwIfIndex d) (Some r0) n1)
    as [Hm2 Hs2]. rewrite Hset in Hm2, Hs2.
  simpl in Hm, Hin, Hm2, Hs2, Hn, Hc2. unfold node_vpp in *. simpl in Hm, Hin. simpl. rewrite Hn.
  split; [done|]. split; [done|]. eexists. rewrite <- Hm2, <- Hs2. split; [exact Hm|exact Hin].
Qed.

(** C25: ADD does not undo itself.  Once its host part has made the interface, the
    interface stays whatever the rest of the call ends in; and when the pod cannot be
    read, for which case a default shared directory was chosen, the rest never
    succeeds. *)
Theorem CmdAdd_no_rollback args kc w kc' pod dir r0 s2 conf :
  cmd_add_host fuel order args kc (NetConf.zero, w) = (Ok (kc', pod, dir, r0), s2) →
  unmarshal d_NetConf (CmdArgs.StdinData args) NetConf.zero = inr conf →
  UserSpaceConf.Engine (NetConf.HostConf conf) = "vpp" →
  UserSpaceConf.IfType (NetConf.HostConf conf) = "memif" →
  (∃ d, memifs (w_vpp (CmdAdd fuel order args kc w).2) ≡ₚ d :: memifs (w_vpp w) ∧
     {| sd_SocketID := md_SocketID d; sd_SocketFilename := memif_path dir args conf |}
       ∈ sockets (w_vpp (CmdAdd fuel order args kc w).2)) ∧
  (pod = None → (CmdAdd fuel order args kc w).1 ≠ Ok tt).
Proof.
  intros Hrun Hconf Hengine Hif. unfold CmdAdd, run_cmd, cmd_add. rewrite run_bind, Hrun.
  apply cmd_add_host_Ok in Hrun as (conf' & s1 & Hconf' & _ & _ & Hc1 & Hv1 & _ & Hhost).
  rewrite Hconf in Hconf'. injection Hconf' as <-. subst conf.
  pose proof (host_add_memif _ _ _ _ _ Hhost Hengine Hif) as (_ & _ & d & Hm & Hs).
  pose proof (cmd_add_container_vpp args kc' pod dir r0 s2) as [Hv _].
  pose proof (λ s', cmd_add_container_Ok args kc' pod dir r0 s2 s') as Hpod.
  destruct (cmd_add_container _ _ _ _ _ s2) as [o [c w']]. simpl in Hv |- *.
  rewrite <- Hv, <- Hv1. split; [eauto|]. intros -> ->. by destruct (Hpod _ eq_refl) as (? & _).
Qed.

(** What a successful ADD of a memif did to VPP and sent to the API server. *)
Lemma CmdAdd_memif_Ok args kc w w' conf :
  CmdAdd fuel order args kc w = (Ok tt, w') →
  unmarshal d_NetConf (CmdArgs.StdinData args) NetConf.zero = inr conf →
  UserSpaceConf.Engine (NetConf.HostConf conf) = "vpp" →
  UserSpaceConf.IfType (NetConf.HostConf conf) = "memif" →
  ∃ pod r d,
    (GetPod args kc (NetConf.KubeConfig conf) (w_kube w)).1 = (Some pod, true, None) ∧
    let path := memif_path (call_dir conf args (Some pod)) args conf in
    memifs (w_vpp w') ≡ₚ d :: memifs (w_vpp w) ∧
    {| sd_SocketID := md_SocketID d; sd_SocketFilename := path |} ∈ sockets (w_vpp w') ∧
    ∃ q p', WritePodAnnotation true (Some (remote_config (filled args conf) args (Some r)))
              ((GetPod args kc (NetConf.KubeConfig conf) (w_kube w)).2, Some pod)
            = (Ok q, (w_kube w', p')).
Proof.
  intros Hrun Hconf Hengine Hif. apply CmdAdd_Ok in Hrun as (conf' & kc' & pod & dir & r0 & r &
    s1 & s2 & s3 & s4 & Hconf' & Hp & -> & Hc1 & Hv1 & Hkube & Hhost & [[Hv3 Hc3] Hk3] & Hcont & Hv & Hk).
  rewrite Hconf in Hconf'. injection Hconf' as <-.
  subst conf. apply host_add_memif in Hhost as (Hc2 & Hk2 & d & Hm & Hin); [|done..].
  rewrite Hv, <- Hv1. set (conf := s1.1) in *. apply container_add_Ok in Hcont as (p & -> & Hw).
  destruct (GetPod_cases args kc (NetConf.KubeConfig conf) (w_kube w)) as [[p' E]|(k & e & E)];
    rewrite E in Hp |- *; [|done]. injection Hp as -> <-.
  destruct (Hw eq_refl) as (q & pq & Hwrite). rewrite <- Hc3, Hc2, <- Hk, <- Hk3, Hk2, Hkube in Hwrite.
  exists p, r, d. split; [done|]. split; [exact Hm|]. split; [exact Hin|]. eauto.
Qed.

(** C11: The two halves of an ADD of a memif agree.  When it succeeds, the pod was
    read, VPP has one more interface, on the socket in the pod's directory (or the
    default one, when the pod names none), and the pod sent to the API server carries
    the entry for it, from which the restore daemon derives a master on that same
    socket. *)
Theorem CmdAdd_memif args kc w w' conf :
  CmdAdd fuel order args kc w = (Ok tt, w') →
  unmarshal d_NetConf (CmdArgs.StdinData args) NetConf.zero = inr conf →
  UserSpaceConf.Engine (NetConf.HostConf conf) = "vpp" →
  UserSpaceConf.IfType (NetConf.HostConf conf) = "memif" →
  ∃ pod r d,
    (GetPod args kc (NetConf.KubeConfig conf) (w_kube w)).1 = (Some pod, true, None) ∧
    let dir := call_dir conf args (Some pod) in
    let entry := remote_config (filled args conf) args (Some r) in
    memifs (w_vpp w') ≡ₚ d :: memifs (w_vpp w) ∧
    {| sd_SocketID := md_SocketID d; sd_SocketFilename := memif_path dir args conf |}
      ∈ sockets (w_vpp w') ∧
    (∃ q p', WritePodAnnotation true (Some entry)
               ((GetPod args kc (NetConf.KubeConfig conf) (w_kube w)).2, Some pod)
             = (Ok q, (w_kube w', p'))) ∧
    ∀ m, desiredMemif entry (NetConf.HostConf conf) dir = inr (Some m) →
      mf_Socket m = memif_path dir args conf.
Proof.
  intros Hrun Hconf Hengine Hif.
  destruct (CmdAdd_memif_Ok _ _ _ _ _ Hrun Hconf Hengine Hif) as (pod & r & d & Hp & Hm & Hs & Hw).
  exists pod, r, d. split; [exact Hp|]. split; [exact Hm|]. split; [exact Hs|]. split; [exact Hw|].
  intros m Hdes. by rewrite (desiredMemif_socket _ _ _ _ Hdes).
Qed.

(** The steps of a CmdDel that succeeds. *)
Lemma CmdDel_Ok args kc w w' :
  CmdDel fuel args kc w = (Ok tt, w') →
  ∃ conf kc' pod dir s1 s2,
    unmarshal d_NetConf (CmdArgs.StdinData args) NetConf.zero = inr conf ∧
    (GetPod args kc (NetConf.KubeConfig conf) (w_kube w)).1.1 = (pod, kc') ∧
    dir = call_dir conf args pod ∧
    s1.1 = conf ∧ w_vpp s1.2 = w_vpp w ∧
    host_del fuel args dir s1 = (Ok tt, s2) ∧ w_vpp w' = w_vpp s2.2.
Proof.
  unfold CmdDel, run_cmd. destruct (cmd_del _ _ _ _) as [o [c w1]] eqn:Hrun. intros [= -> ->].
  apply bind_Ok_inv in Hrun as (rl & st & Hload%attempt_Ok_inv & Hrun).
  apply bind_Ok_inv in Hrun as (id & st' & (-> & _)%slice_to_Ok & Hrun).
  destruct rl as [e|[]]; [done|]. apply LoadNetConf_Ok in Hload as (Hconf & Hv & Hk). simpl in Hv, Hk.
  apply bind_Ok_inv in Hrun as ([[kc' pod] dir] & s1 & Hpod & Hrun).
  apply GetPodAndSharedDir_Ok in Hpod as ([Hv2 Hc2] & _ & _ & Hp & Hdir).
  apply bind_Ok_inv in Hrun as ([] & s2 & Hhost & Hrun).
  assert (same_vpp s2 (c, w')) as [Hlast _].
  { change (c, w') with (Ok tt, (c, w')).2. rewrite <- Hrun. clear. revert s2.
    assert (∀ (m : go host_net unit), keeps same_vpp (on_net m : go cni_state unit)) as Hnet
      by (intros; apply same_kube_vpp, on_net_kube).
    apply keeps_bind; [apply _| |intros _].
    - apply keeps_bind; [apply _|auto with go_db|]. intros conf. cbv zeta.
      destruct (decide (container_engine conf = "vpp")); [apply same_kube_vpp, on_files_kube|].
      destruct (decide (container_engine conf = "ovs-dpdk"));
        [apply same_kube_vpp, on_files_kube|auto with go_db].
    - apply keeps_bind; [apply _|auto with go_db|]. intros conf.
      apply keeps_bind; [apply _|case_decide; auto with go_db|intros _].
      unfold netns_del. case_decide; auto with go_db. }
  exists st.1, kc', pod, dir, s1, s2. rewrite <- Hk. simpl in Hlast. split_and!; congruence || done.
Qed.

(** C24: DEL looks for the interface in the directory of the pod, and in the default
    one when the pod cannot be read any more: if no socket is registered under the
    default path, a DEL without the pod that reports success leaves every interface
    of VPP in place. *)
Theorem CmdDel_without_pod args kc w w' conf :
  CmdDel fuel args kc w = (Ok tt, w') →
  unmarshal d_NetConf (CmdArgs.StdinData args) NetConf.zero = inr conf →
  UserSpaceConf.Engine (NetConf.HostConf conf) = "vpp" →
  UserSpaceConf.IfType (NetConf.HostConf conf) = "memif" →
  (GetPod args kc (NetConf.KubeConfig conf) (w_kube w)).1.2 ≠ None →
  (∀ s, s ∈ sockets (w_vpp w) → sd_SocketFilename s ≠
     memif_path (default_shared_dir conf (str_take 12 (CmdArgs.ContainerID args))) args conf) →
  memifs (w_vpp w') ≡ₚ memifs (w_vpp w).
Proof.
  intros Hrun Hconf Hengine Hif Hpod Hno.
  apply CmdDel_Ok in Hrun as (conf' & kc' & pod & dir & s1 & s2 & Hconf' & Hp & Hdir & Hc1 & Hv1 &
    Hhost & Hv). rewrite Hconf in Hconf'. injection Hconf' as <-.
  assert (dir = default_shared_dir conf (str_take 12 (CmdArgs.ContainerID args))) as ->.
  { rewrite Hdir. destruct (GetPod_cases args kc (NetConf.KubeConfig conf) (w_kube w)) as [[p' E]|(k & e & E)];
      rewrite E in Hp, Hpod; [done|]. by injection Hp as <- <-. }
  unfold host_del in Hhost. rewrite run_bind, run_gets, Hc1 in Hhost. cbv zeta in Hhost.
  rewrite decide_True in Hhost by done. unfold on_vpp in Hhost. rewrite Hc1 in Hhost.
  destruct (DelFromHost fuel args _ _) as [o [c2 [v2 f2]]] eqn:Hdel.
  injection Hhost as -> <-. simpl in Hv. subst v2.
  apply DelFromHost_memif_after in Hdel as (r & f & Hby & Hm & _ & _); [|done].
  unfold node_vpp in Hby, Hm. simpl in Hby, Hm. rewrite Hv1 in Hby, Hm.
  unfold by_socket in Hby. destruct (r.2); [|by rewrite Hm].
  destruct Hby as (d & s & _ & Hs & _ & _ & Hname). by destruct (Hno s Hs).
Qed.

(** The host part of a DEL that succeeds is the engine's DEL in the directory of the
    call. *)
Lemma CmdDel_vpp args kc w w' conf :
  CmdDel fuel args kc w = (Ok tt, w') →
  unmarshal d_NetConf (CmdArgs.StdinData args) NetConf.zero = inr conf →
  UserSpaceConf.Engine (NetConf.HostConf conf) = "vpp" →
  let pod := (GetPod args kc (NetConf.KubeConfig conf) (w_kube w)).1.1.1 in
  ∃ f conf' n', DelFromHost fuel args (call_dir conf args pod) (conf, (w_vpp w, f)) =
    (Ok tt, (conf', n')) ∧ node_vpp n' = w_vpp w'.
Proof.
  intros Hrun Hconf Hengine. apply CmdDel_Ok in Hrun as (conf0 & kc' & pod & dir & s1 & s2 & Hconf0 &
    Hp & -> & Hc1 & Hv1 & Hhost & Hv). rewrite Hconf in Hconf0. injection Hconf0 as <-.
  rewrite Hp. cbn [fst]. unfold host_del in Hhost. rewrite run_bind, run_gets, Hc1 in Hhost.
  cbv zeta in Hhost. rewrite decide_True in Hhost by done. unfold on_vpp in Hhost.
  rewrite Hc1, Hv1 in Hhost.
  destruct (DelFromHost fuel args _ _) as [o [c2 [v2 f2]]] eqn:Hdel. injection Hhost as -> <-.
  exists (w_fs s1.2), c2, (v2, f2). split; [exact Hdel|by rewrite Hv].
Qed.

(** C13: A CmdDel after a CmdAdd of a memif leaves VPP with exactly the interfaces
    there were before, and, on a VPP with its default socket 0, with exactly the
    registered sockets.  Before the CmdAdd no socket may have been registered on the
    path of the interface (its registration would be used, and go away); between the two
    VPP's interfaces and sockets must have stayed as the CmdAdd left them, while the host's
    files, the pod's annotations and the API server may have changed; and the pod must still
    be readable, with the same shared directory (see C24 for a pod that is gone).  Bridge domains
    are not among it: one that the CmdAdd made may stay ([DelFromHost_leaves_bridge]). *)
Theorem CmdAdd_CmdDel args kc kc' w w1 w2 w3 conf pod1 pod2 :
  CmdAdd fuel order args kc w = (Ok tt, w1) →
  unmarshal d_NetConf (CmdArgs.StdinData args) NetConf.zero = inr conf →
  UserSpaceConf.Engine (NetConf.HostConf conf) = "vpp" →
  UserSpaceConf.IfType (NetConf.HostConf conf) = "memif" →
  (GetPod args kc (NetConf.KubeConfig conf) (w_kube w)).1.1.1 = Some pod1 →
  (∀ s, s ∈ sockets (w_vpp w) →
     sd_SocketFilename s ≠ memif_path (call_dir conf args (Some pod1)) args conf) →
  memifs (w_vpp w2) = memifs (w_vpp w1) → sockets (w_vpp w2) = sockets (w_vpp w1) →
  (GetPod args kc' (NetConf.KubeConfig conf) (w_kube w2)).1.1.1 = Some pod2 →
  GetPodVolumeMountHostSharedDir (Some pod2) = GetPodVolumeMountHostSharedDir (Some pod1) →
  CmdDel fuel args kc' w2 = (Ok tt, w3) →
  memifs (w_vpp w3) ≡ₚ memifs (w_vpp w) ∧
  (0%Z ∈ sd_SocketID <$> sockets (w_vpp w) → sockets (w_vpp w3) ≡ₚ sockets (w_vpp w)).
Proof.
  intros Hadd Hconf Hengine Hif Hpod1 Hfresh Hm12 Hs12 Hpod2 Hdir Hdel.
  apply CmdAdd_Ok in Hadd as (conf0 & kc0 & pod & dir & r0 & r & s1 & s2 & s3 & s4 & Hconf0 & Hp & -> &
    Hc1 & Hv1 & _ & Hhost & _ & _ & Hv & _). rewrite Hconf in Hconf0. injection Hconf0 as <-.
  rewrite Hp in Hpod1. cbn [fst] in Hpod1. subst pod.
  unfold host_add in Hhost. rewrite run_bind, run_gets, Hc1 in Hhost. cbv zeta in Hhost.
  rewrite decide_True in Hhost by done. unfold on_vpp in Hhost. rewrite Hc1, Hv1 in Hhost.
  destruct (AddOnHost fuel args _ (Some r0) _) as [o [c2 [v2 f2]]] eqn:Hhadd.
  injection Hhost as -> <-. cbn [fst snd w_vpp] in Hv. subst v2.
  apply (CmdDel_vpp args kc' w2 w3 conf) in Hdel; [|done..]. cbv zeta in Hdel. rewrite Hpod2 in Hdel.
  destruct Hdel as (f & conf' & n' & Hhdel & Hn').
  assert (call_dir conf args (Some pod2) = call_dir conf args (Some pod1)) as Hd
    by (unfold call_dir; by rewrite Hdir).
  rewrite Hd in Hhdel. rewrite <- Hn'.
  apply (AddOnHost_DelFromHost_memifs fuel _ _ _ _ _ _ _ _ _ _ Hhadd Hif Hfresh) in Hhdel; [exact Hhdel|].
  by split.
Qed.
End Plugin.
