(* ===== verification/Sync.v ===== *)
(** * pkg/daemon/daemon.go: Sync, the round of the restore daemon

    The cluster (the API server's pods and network attachment definitions, read
    through client-go) is not part of the repository: the class [Cluster].  The
    state of a round is the cluster, the node and the Reconciler's own fields. *)
From S2P Require Import Prelude GoStrings GoOs Json Types JsonCodec Annotations VppApi Memif.
From S2P Require Import Bridge Reconcile Gc Desired Dataplane.

Class Cluster := {
  cluster : Type;
  ListNodePods : go cluster (list Pod.t);
  GetNADConfig : string → string → go cluster string
}.

(** ** The NAD cache of one round *)

Record nad_cache := NadCache {
  nadCache : gmap string string;
  nadErr : gmap string error
}.
Definition nad_cache_empty : nad_cache := NadCache ∅ ∅.

Definition nad_key (ns name : string) : string := ns +:+ "/" +:+ name.

Section Sync.
Context `{CniLib} `{Cluster} `{VppApi} `{MapOrder}.

(** nadLookup *)
Definition nadLookup (ns name : string) : go (cluster * nad_cache) string :=
  let key := nad_key ns name in
  c ← gets snd;
  match nadErr c !! key with
  | Some e => raise e
  | None =>
      match nadCache c !! key with
      | Some cfg => mret cfg
      | None =>
          r ← attempt (on_fst (GetNADConfig ns name));
          match r with
          | inl gerr =>
              on_snd (modify (λ c, NadCache (nadCache c) (<[key := gerr]> (nadErr c)))) ;;
              raise gerr
          | inr cfg =>
              on_snd (modify (λ c, NadCache (<[key := cfg]> (nadCache c)) (nadErr c))) ;;
              mret cfg
          end
      end
  end.

(** The desired masters of the pods; a pod that cannot be evaluated is skipped. *)
Fixpoint desired_pods (pods : list Pod.t) : go (cluster * nad_cache) (list Memif) :=
  match pods with
  | [] => mret []
  | p :: pods' =>
      r ← attempt (desiredForPod nadLookup p);
      rest ← desired_pods pods';
      mret match r with inl _ => rest | inr ms => ms ++ rest end
  end.

(** Computations on parts of the state of a round. *)
Notation sync_state := (cluster * (node * rstate))%type.

Definition on_cluster {A} (m : go (cluster * nad_cache) A) : go sync_state A := λ s,
  let '(o, (k, _)) := m (s.1, nad_cache_empty) in (o, (k, s.2)).

Definition on_gate {A} (m : go (fs * rstate) A) : go (node * rstate) A := λ s,
  let '(o, (f, st)) := m (s.1.2, s.2) in (o, ((s.1.1, f), st)).

(** Sync *)
Definition Sync (fuel : nat) (prefixes : list string) (Grace : Z)
  : go sync_state (Z * Z * option error) :=
  on_snd (on_snd (modify next_round)) ;;
  r ← attempt (on_fst ListNodePods);
  match r with
  | inl err => mret (0%Z, 0%Z, Some (ErrWrap "list node pods" err))
  | inr pods =>
      desired ← on_cluster (desired_pods pods);
      on_snd (@Reconcile _ (fst_dataplane node rstate (vppDataplane fuel prefixes)) desired
                (Some (λ m, on_gate (shouldGC Grace m))))
  end.
End Sync.

(** ** The cache of a round *)

Section Cache.
Context `{Cluster}.

(** An API server that does not change while a round reads it. *)
Definition steady (k : cluster) (nads : string → string → result string) : Prop :=
  ∀ ns name, GetNADConfig ns name k =
    (match nads ns name with inl e => Err e | inr cfg => Ok cfg end, k).

(** What the cache holds is what the API server would say. *)
Definition cache_ok (nads : string → string → result string) (c : nad_cache) : Prop :=
  (∀ ns name cfg, no_char slash ns = true →
     nadCache c !! nad_key ns name = Some cfg → nads ns name = inr cfg) ∧
  (∀ ns name e, no_char slash ns = true →
     nadErr c !! nad_key ns name = Some e → nads ns name = inl e).

Lemma nad_key_inj ns name ns' name' :
  no_char slash ns = true → no_char slash ns' = true →
  nad_key ns name = nad_key ns' name' → ns = ns' ∧ name = name'.
Proof.
  intros Hns Hns' Heq. unfold nad_key in Heq. simpl in Heq.
  pose proof (cut_app slash ns name Hns) as H1. pose proof (cut_app slash ns' name' Hns') as H2.
  unfold slash in *. rewrite Heq, H2 in H1. by injection H1.
Qed.

Lemma cache_ok_empty nads : cache_ok nads nad_cache_empty.
Proof. by split; intros ns name x _; simpl; rewrite lookup_empty. Qed.

(** The cache of a round is transparent: as long as the API server does not
    change, nadLookup answers, error answers included, what the API server
    answers, and the cache stays right.  (A namespace has no slash, so the key
    ns/name is not ambiguous.) *)
Theorem nadLookup_transparent k nads c ns name :
  steady k nads → cache_ok nads c → no_char slash ns = true →
  ∃ c', nadLookup ns name (k, c) =
    (match nads ns name with inl e => Err e | inr cfg => Ok cfg end, (k, c')) ∧
  cache_ok nads c'.
Proof.
  intros Hk [Hc He] Hns. unfold nadLookup. rewrite run_bind, run_gets. simpl.
  destruct (nadErr c !! nad_key ns name) as [e|] eqn:Ee.
  { exists c. rewrite (He _ _ _ Hns Ee). done. }
  destruct (nadCache c !! nad_key ns name) as [cfg|] eqn:Ec.
  { exists c. rewrite (Hc _ _ _ Hns Ec). done. }
  rewrite run_bind, run_attempt. unfold on_fst. simpl. rewrite Hk.
  destruct (nads ns name) as [e|cfg] eqn:En; rewrite run_bind; simpl; eexists; (split; [done|]).
  - split; [done|]. intros ns' name' e' Hns' Hl. simpl in Hl.
    apply lookup_insert_Some in Hl as [[Hkey <-]|[_ Hl]]; [|by eapply He].
    by apply nad_key_inj in Hkey as [<- <-].
  - split; [|done]. intros ns' name' cfg' Hns' Hl. simpl in Hl.
    apply lookup_insert_Some in Hl as [[Hkey <-]|[_ Hl]]; [|by eapply Hc].
    by apply nad_key_inj in Hkey as [<- <-].
Qed.
End Cache.

(** ** A round *)

Section Round.
Context `{CniLib} `{Cluster} `{VppLaws} `{MapOrder}.

Lemma shouldGC_gate_reads fuel prefixes Grace :
  @gate_reads _ (fst_dataplane node rstate (vppDataplane fuel prefixes))
    (fst_dataplane_laws node rstate _ (vpp_dataplane_laws fuel prefixes))
    (Some (λ m, on_gate (shouldGC Grace m))).
Proof.
  intros m [[v f] st]. unfold on_gate. simpl. by destruct (shouldGC Grace m (f, st)) as [o [f' st']].
Qed.

(** The steps of a round that reports no error. *)
Lemma Sync_Ok fuel prefixes Grace k n st c d s' :
  Sync fuel prefixes Grace (k, (n, st)) = (Ok (c, d, None), s') →
  ∃ pods k1 desired,
    ListNodePods k = (Ok pods, k1) ∧
    (desired_pods pods (k1, nad_cache_empty)).1 = Ok desired ∧
    @Reconcile _ (fst_dataplane node rstate (vppDataplane fuel prefixes)) desired
      (Some (λ m, on_gate (shouldGC Grace m))) (n, next_round st) = (Ok (c, d, None), s'.2).
Proof.
  unfold Sync. intros Hrun. apply bind_Ok_inv in Hrun as ([] & s1 & Hround & Hrun).
  unfold on_snd, modify in Hround. simpl in Hround. injection Hround as <-.
  apply bind_Ok_inv in Hrun as (r & s2 & Hlist%attempt_Ok_inv & Hrun).
  destruct r as [err|pods]; [by go_inv|]. unfold on_fst in Hlist. simpl in Hlist.
  destruct (ListNodePods k) as [op k1] eqn:El. injection Hlist as -> <-.
  apply bind_Ok_inv in Hrun as (desired & s3 & Hdes & Hrun).
  unfold on_cluster in Hdes. simpl in Hdes.
  destruct (desired_pods pods (k1, nad_cache_empty)) as [od [k2 cache]] eqn:Ed.
  injection Hdes as -> <-. apply on_snd_inv in Hrun as [Hrun _]. simpl in Hrun.
  exists pods, k1, desired. by rewrite Ed.
Qed.

(** C1: A round that reports no error leaves a master on every socket the
    evaluable pods ask for (given that the prefixes cover them), adds masters on
    such sockets only, and loses an earlier master only when no pod asks for its
    socket; its counts are the numbers of masters added and removed. *)
Theorem Sync_converges fuel prefixes Grace k n st c d k' n' st' :
  Sync fuel prefixes Grace (k, (n, st)) = (Ok (c, d, None), (k', (n', st'))) →
  ∃ pods k1 desired,
    ListNodePods k = (Ok pods, k1) ∧
    (desired_pods pods (k1, nad_cache_empty)).1 = Ok desired ∧
    (Forall (vpp_managed prefixes) desired →
     (∀ m, m ∈ desired → mf_Socket m ∈ mf_Socket <$> vpp_masters prefixes n') ∧
     (∀ m, m ∈ vpp_masters prefixes n →
        m ∈ vpp_masters prefixes n' ∨ mf_Socket m ∉ mf_Socket <$> desired) ∧
     (∀ m, m ∈ vpp_masters prefixes n' →
        m ∈ vpp_masters prefixes n ∨ mf_Socket m ∈ mf_Socket <$> desired) ∧
     Z.of_nat (length (vpp_masters prefixes n')) =
       (Z.of_nat (length (vpp_masters prefixes n)) + c - d)%Z).
Proof.
  intros (pods & k1 & desired & Hl & Hd & Hrun)%Sync_Ok. exists pods, k1, desired.
  split_and!; [done..|]. intros Hman. simpl in Hrun.
  apply (@Reconcile_gated _ _ (fst_dataplane_laws node rstate _ (vpp_dataplane_laws fuel prefixes)))
    in Hrun as (Hall & Hold & Hnew & Hcount); [|done|apply shouldGC_gate_reads].
  split_and!; [| |done|done].
  - intros m Hm. by apply Hall, list_elem_of_fmap_2.
  - intros m Hm. destruct (Hold m Hm) as [?|[? _]]; [by left|by right].
Qed.
End Round.
