(* ===== verification/Rounds.v ===== *)
(** * The rounds of the daemon, one after the other

    Sync runs on every connection to VPP and periodically, and what it remembers from
    round to round is how long a socket has been an orphan.  Here are the histories
    of rounds: each starts from what the one before left in the Reconciler, while
    VPP, the files and the cluster may have changed in between in any way.  The
    theorems say when a master is collected: never before its grace period
    ([collected_after_grace]), and not later ([orphan_collected]). *)
From S2P Require Import Prelude GoStrings GoOs Json Types JsonCodec Annotations VppApi Memif.
From S2P Require Import Bridge Reconcile Gc Desired Dataplane Sync.

(** ** A reconcile, step by step *)

Lemma keeps_gate_open {S} (R : relation S) `{!PreOrder R} gate m :
  (∀ g, gate = Some g → keeps R (g m)) → keeps R (gate_open gate m).
Proof. intros Hg. destruct gate as [g|]; [by apply Hg|by apply keeps_ret, _]. Qed.

Section Steps.
Context {S : Type} `{DataplaneLaws S}.
Implicit Types gate : option (Memif → go S bool).

(** [s1] is the state in which a reconcile that starts in [s] asks about [m]: after
    the dump, the creations, and the deletions before it. *)
Definition asks (desired : list Memif) gate (m : Memif) (s s1 : S) : Prop :=
  ∃ actual s0 created sc l1 l2,
    DumpMasters s = (Ok actual, s0) ∧
    create_all (Diff desired actual).1 0 s0 = (Ok (created, None), sc) ∧
    (Diff desired actual).2 = l1 ++ m :: l2 ∧
    s1 = (delete_all gate l1 0 sc).2.

Section Keeps.
Context (R : relation S) `{!PreOrder R}.
Hypothesis dump_R : keeps R DumpMasters.
Hypothesis create_R : ∀ m, keeps R (CreateMaster m).
Hypothesis delete_R : ∀ m, keeps R (DeleteMaster m).
Hypothesis sweep_R : ∀ keep, keeps R (SweepOrphanSockets keep).

Lemma create_all_R ms c : keeps R (create_all ms c).
Proof.
  revert c. induction ms as [|m ms IH]; intros c; simpl; [by apply keeps_ret, _|].
  apply keeps_bind; [apply _|by apply keeps_attempt|].
  intros [e|[]]; [by apply keeps_ret, _|apply IH].
Qed.

Lemma delete_all_R gate ms d :
  (∀ m, m ∈ ms → keeps R (gate_open gate m)) → keeps R (delete_all gate ms d).
Proof.
  revert d. induction ms as [|m ms IH]; intros d Hg; simpl; [by apply keeps_ret, _|].
  assert (∀ d, keeps R (delete_all gate ms d)) as Hrest
    by (intros d'; apply IH; intros; apply Hg; by right).
  apply keeps_bind; [apply _|apply Hg; left|]. intros []; [|apply Hrest].
  apply keeps_bind; [apply _|by apply keeps_attempt|].
  intros [e|[]]; [by apply keeps_ret, _|apply Hrest].
Qed.

(** Only the gate of an orphan is asked. *)
Lemma Reconcile_R desired gate s :
  (∀ m, m ∈ masters s → mf_Socket m ∉ mf_Socket <$> desired → keeps R (gate_open gate m)) →
  R s (Reconcile desired gate s).2.
Proof.
  intros Hg. unfold Reconcile. rewrite run_bind, run_attempt.
  pose proof (dump_R s) as H1. destruct (DumpMasters s) as [o s1] eqn:Ed.
  apply dp_dump in Ed as [_ Hl]. destruct o as [actual|e|w|]; [|done..].
  specialize (Hl _ eq_refl) as ->. etrans; [exact H1|].
  pose proof (Diff_spec desired (masters s)) as Hspec.
  destruct (Diff desired (masters s)) as [toC toD]. destruct Hspec as (_ & _ & _ & HD & _).
  apply keeps_bind; [apply _|apply create_all_R|]. intros [c [e|]]; [by apply keeps_ret, _|].
  apply keeps_bind; [apply _| |].
  - apply delete_all_R. intros m [Hm Hno]%HD. apply Hg; [done|].
    intros (x & Heq & Hx)%list_elem_of_fmap. by destruct (Hno x Hx).
  - intros [d [e|]]; [by apply keeps_ret, _|].
    apply keeps_bind; [apply _|by apply keeps_attempt|]. intros ?. by apply keeps_ret, _.
Qed.

Lemma asks_R desired gate m s s1 :
  (∀ m, keeps R (gate_open gate m)) → asks desired gate m s s1 → R s s1.
Proof.
  intros Hg (actual & s0 & created & sc & l1 & l2 & Hdump & Hcreate & _ & ->).
  transitivity s0; [|transitivity sc; [|by apply delete_all_R]].
  - pose proof (dump_R s) as Hs. by rewrite Hdump in Hs.
  - pose proof (create_all_R (Diff desired actual).1 0 s0) as Hs. by rewrite Hcreate in Hs.
Qed.
End Keeps.

(** *** The deletions *)

(** The loop up to an entry, the entry, the rest; [s1] is the state in which the
    gate is asked. *)
Lemma delete_all_at gate l1 m l2 d s d' s' :
  delete_all gate (l1 ++ m :: l2) d s = (Ok (d', None), s') →
  ∃ s1 ok s2 s3 d3, (delete_all gate l1 d s).2 = s1 ∧ gate_open gate m s1 = (Ok ok, s2) ∧
    (if (ok : bool) then DeleteMaster m s2 = (Ok tt, s3) else s3 = s2) ∧
    delete_all gate l2 d3 s3 = (Ok (d', None), s').
Proof.
  revert d s. induction l1 as [|m1 l1 IH]; intros d s Hrun; simpl in Hrun |- *.
  - apply bind_Ok_inv in Hrun as (ok & s2 & Hopen & Hrun). destruct ok.
    + apply bind_Ok_inv in Hrun as (r & s3 & Hr%attempt_Ok_inv & Hrun).
      destruct r as [e|[]]; [by go_inv|]. by exists s, true, s2, s3, (d + 1)%Z.
    + by exists s, false, s2, s2, d.
  - apply bind_Ok_inv in Hrun as (ok & s2 & Hopen & Hrun). rewrite run_bind, Hopen. destruct ok.
    + apply bind_Ok_inv in Hrun as (r & s3 & Hr%attempt_Ok_inv & Hrun).
      rewrite run_bind, run_attempt. destruct r as [e|[]]; [by go_inv|]. rewrite Hr. by apply IH.
    + by apply IH.
Qed.

(** A master that is lost in the loop was let pass in the state in which its turn
    came. *)
Lemma delete_all_lost gate ms d s x :
  gate_reads gate → x ∈ masters s → x ∉ masters (delete_all gate ms d s).2 →
  ∃ l1 m l2, ms = l1 ++ m :: l2 ∧ mf_SwIfIndex m = mf_SwIfIndex x ∧
    let s1 := (delete_all gate l1 d s).2 in
    x ∈ masters s1 ∧ ∃ s2, gate_open gate m s1 = (Ok true, s2).
Proof.
  intros Hgate. revert d s. induction ms as [|m ms IH]; intros d s Hx Hlost; [done|].
  simpl in Hlost. rewrite run_bind in Hlost.
  pose proof (gate_open_keeps gate m Hgate s) as Hsame. unfold same_masters in Hsame.
  destruct (gate_open gate m s) as [[ok|e|w|] s1] eqn:Eg; simpl in Hsame, Hlost;
    [|by rewrite Hsame in Hx..].
  rewrite Hsame in Hx. destruct ok.
  2:{ destruct (IH d s1 Hx Hlost) as (l1 & m' & l2 & -> & Hi & Hrest).
      exists (m :: l1), m', l2. split; [done|]. split; [done|].
      cbn zeta. simpl. by rewrite run_bind, Eg. }
  destruct (decide (mf_SwIfIndex m = mf_SwIfIndex x)) as [Hi|Hi].
  { exists [], m, ms. split_and!; [done|done|]. cbn. rewrite Hsame. eauto. }
  rewrite run_bind, run_attempt in Hlost. destruct (DeleteMaster m s1) as [o s2] eqn:Ed.
  assert (x ∈ masters s2) as Hx2.
  { apply dp_delete in Ed as [[_ ->]| ->]; [done|]. apply list_elem_of_filter. by split. }
  destruct o as [[]|e|w|]; [|done..].
  destruct (IH (d + 1)%Z s2 Hx2 Hlost) as (l1 & m' & l2 & -> & Hi' & Hrest).
  exists (m :: l1), m', l2. split; [done|]. split; [done|].
  cbn zeta. simpl. rewrite run_bind, Eg, run_bind, run_attempt, Ed. done.
Qed.

(** The loop only takes away. *)
Definition fewer (s1 s2 : S) : Prop := ∀ x, x ∈ masters s2 → x ∈ masters s1.
#[export] Instance fewer_preorder : PreOrder fewer.
Proof. split; [by intros ??|]. intros ??? H12 H23 x Hx. auto. Qed.

Lemma delete_all_fewer gate ms d : gate_reads gate → keeps fewer (delete_all gate ms d).
Proof.
  intros Hgate. apply delete_all_R; [apply _| |].
  - intros m s x. destruct (DeleteMaster m s) as [o s'] eqn:E. simpl.
    apply dp_delete in E as [[_ ->]| ->]; [done|]. by intros [_ ?]%list_elem_of_filter.
  - intros m _ s x. by rewrite (gate_open_keeps gate m Hgate s).
Qed.

(** *** The masters a reconcile loses *)

(** A master that a reconcile loses, whatever it ends in: an orphan, and the gate let
    it pass. *)
Lemma Reconcile_lost desired gate s m :
  Forall managed desired → gate_reads gate → m ∈ masters s →
  m ∉ masters (Reconcile desired gate s).2 →
  (mf_Socket m ∉ mf_Socket <$> desired) ∧
  ∃ s1 s2, asks desired gate m s s1 ∧ gate_open gate m s1 = (Ok true, s2).
Proof.
  intros Hman Hgate Hm Hlost. unfold Reconcile in Hlost. rewrite run_bind, run_attempt in Hlost.
  destruct (DumpMasters s) as [o s0] eqn:Ed. apply dp_dump in Ed as Ed'. destruct Ed' as [Hs0 Hl].
  rewrite <- Hs0 in Hm. destruct o as [actual|e|w|]; [|done..].
  specialize (Hl _ eq_refl) as ->. pose proof (Diff_spec desired (masters s)) as Hspec.
  destruct (Diff desired (masters s)) as [toC toD] eqn:EDiff.
  destruct Hspec as (HsubC & _ & _ & HD & _). rewrite run_bind in Hlost.
  assert (Forall managed toC) as HmanC.
  { rewrite Forall_forall in *. intros x Hx. apply Hman. by eapply elem_of_sublist. }
  pose proof (create_all_keeps (λ _, False) toC 0 HmanC s0 m Hm) as [Hmc|[]].
  destruct (create_all toC 0 s0) as [[[c [e|]]|e|w|] sc] eqn:Ec; simpl in Hmc, Hlost; [done| |done..].
  rewrite run_bind in Hlost.
  assert (m ∉ masters (delete_all gate toD 0 sc).2) as Hlost'.
  { destruct (delete_all gate toD 0 sc) as [[[d [e|]]|e|w|] sd]; simpl in Hlost |- *; [done| |done..].
    rewrite run_bind, run_attempt in Hlost.
    rewrite <- (dp_sweep (socket_set desired ∪ socket_set (masters s)) sd).
    by destruct (SweepOrphanSockets _ sd) as [[?|?|?|] ?]. }
  destruct (delete_all_lost gate toD 0 sc m Hgate Hmc Hlost')
    as (l1 & m' & l2 & HtoD & Hi & Hm1 & s2 & Hopen).
  assert (m' ∈ toD) as [Hm' Hno]%HD by (rewrite HtoD; apply elem_of_app; right; left).
  assert (m' = m) as ->.
  { apply (master_unique s); [done|by rewrite <- Hs0|done]. }
  split.
  - intros (x & Heq & Hx)%list_elem_of_fmap. by destruct (Hno x Hx).
  - eexists _, s2. split; [|exact Hopen]. exists (masters s), s0, c, sc, l1, l2.
    split_and!; [done|by rewrite EDiff|by rewrite EDiff|done].
Qed.

(** *** The turn of one master *)

Definition sole (m : Memif) (l : list Memif) : Prop :=
  m ∈ l ∧ ∀ x, x ∈ l → mf_Socket x = mf_Socket m → x = m.

Lemma sole_others m s l1 l2 :
  sole m (masters s) → l1 ++ m :: l2 `sublist_of` masters s →
  ∀ x, x ∈ l1 ++ l2 → mf_Socket x ≠ mf_Socket m.
Proof.
  intros [_ Hsole] Hsub x Hx Heq.
  assert (x = m) as ->.
  { apply Hsole; [|done]. eapply elem_of_sublist; [exact Hsub|set_solver]. }
  apply (fmap_sublist mf_SwIfIndex), sublist_NoDup in Hsub; [|apply dp_nodup].
  rewrite fmap_app, fmap_cons, NoDup_app, NoDup_cons in Hsub.
  apply elem_of_app in Hx as [Hx|Hx]; apply (list_elem_of_fmap_2 mf_SwIfIndex) in Hx; set_solver.
Qed.

(** Once it is deleted nothing stands on the socket. *)
Lemma sole_deleted m s s' :
  sole m (masters s) → DeleteMaster m s = (Ok tt, s') → mf_Socket m ∉ mf_Socket <$> masters s'.
Proof.
  intros [_ Hsole] Hdel (x & Heq & Hx)%list_elem_of_fmap.
  apply dp_delete in Hdel as [[? _]|Hp]; [done|]. rewrite Hp in Hx.
  apply list_elem_of_filter in Hx as [Hi Hx]. by destruct Hi; rewrite (Hsole x).
Qed.

Lemma fewer_sockets key s1 s2 :
  fewer s1 s2 → key ∉ mf_Socket <$> masters s1 → key ∉ mf_Socket <$> masters s2.
Proof. intros Hf Hno (x & -> & Hx)%list_elem_of_fmap. by apply Hno, list_elem_of_fmap_2, Hf. Qed.

(** The deletions: when [m] has its turn, and whether it is let pass. *)
Lemma delete_all_turn R `{!PreOrder R} gate l1 m l2 s d s' :
  (∀ m, keeps R (DeleteMaster m)) → (∀ x, x ∈ l1 ++ l2 → keeps R (gate_open gate x)) →
  gate_reads gate → (∀ x, x ∈ masters s → mf_Socket x = mf_Socket m → x = m) →
  delete_all gate (l1 ++ m :: l2) 0 s = (Ok (d, None), s') →
  ∃ s1 ok s2, R s s1 ∧ gate_open gate m s1 = (Ok ok, s2) ∧ R s2 s' ∧
    (ok = true → mf_Socket m ∉ mf_Socket <$> masters s').
Proof.
  intros RX RG Hgate Hsole Hd.
  destruct (delete_all_at _ _ _ _ _ _ _ _ Hd) as (s1 & ok & s2 & s3 & d3 & <- & Hopen & Hdel & Hrest).
  pose proof (delete_all_R R RX gate l2 d3) as Hr. specialize (Hr ltac:(set_solver) s3).
  pose proof (delete_all_fewer gate l2 d3 Hgate s3) as Hfew. rewrite Hrest in Hr, Hfew.
  exists (delete_all gate l1 0 s).2, ok, s2.
  split_and!; [apply (delete_all_R R RX); set_solver|exact Hopen| |].
  - etrans; [|exact Hr]. destruct ok; [|by subst]. pose proof (RX m s2) as Hx. by rewrite Hdel in Hx.
  - intros ->. apply (fewer_sockets _ s3 s' Hfew).
    pose proof (gate_open_keeps gate m Hgate (delete_all gate l1 0 s).2) as Hsame.
    rewrite Hopen in Hsame. unfold same_masters in Hsame. simpl in Hsame.
    destruct (decide (m ∈ masters s2)) as [Hm|Hm].
    + eapply sole_deleted, Hdel. split; [done|]. intros x Hx. apply Hsole.
      apply (delete_all_fewer gate l1 0 Hgate s). by rewrite Hsame.
    + intros (x & Heq & Hx)%list_elem_of_fmap. apply Hm.
      assert (x ∈ masters s2) as Hx2.
      { apply dp_delete in Hdel as [[? _]|Hp]; [done|]. rewrite Hp in Hx.
        by apply list_elem_of_filter in Hx as [_ ?]. }
      rewrite <- (Hsole x); [done| |done].
      apply (delete_all_fewer gate l1 0 Hgate s). by rewrite Hsame.
Qed.

(** In a reconcile that reports no error, the only master on a socket that is not
    desired has its turn; when it is let pass nothing stands on the socket afterwards.
    [R] is what the rest of the reconcile keeps. *)
Lemma Reconcile_turn R `{!PreOrder R} m desired gate s c d s' :
  keeps R DumpMasters → (∀ m, keeps R (CreateMaster m)) → (∀ m, keeps R (DeleteMaster m)) →
  (∀ keep, keeps R (SweepOrphanSockets keep)) →
  (∀ x, mf_Socket x ≠ mf_Socket m → keeps R (gate_open gate x)) →
  Forall managed desired → gate_reads gate → mf_Socket m ∉ mf_Socket <$> desired →
  sole m (masters s) → Reconcile desired gate s = (Ok (c, d, None), s') →
  ∃ s1 ok s2, R s s1 ∧ gate_open gate m s1 = (Ok ok, s2) ∧ R s2 s' ∧
    (ok = true → mf_Socket m ∉ mf_Socket <$> masters s').
Proof.
  intros RD RC RX RW RG Hman Hgate Hno Hsole Hrun. unfold Reconcile in Hrun.
  apply bind_Ok_inv in Hrun as (a & s0 & Ha%attempt_Ok_inv & Hrun).
  destruct a as [err|actual]; [by go_inv|]. pose proof (RD s) as R0. rewrite Ha in R0.
  apply dp_dump in Ha as [Hs0 Hact]. specialize (Hact _ eq_refl) as ->.
  pose proof (Diff_spec desired (masters s)) as Hspec.
  destruct (Diff desired (masters s)) as [toC toD]. destruct Hspec as (HsubC & HsubD & _ & HD & _).
  apply bind_Ok_inv in Hrun as ([c1 e1] & sc & Hc & Hrun).
  pose proof (create_all_R R RC toC 0 s0) as R1. rewrite Hc in R1.
  apply create_all_spec in Hc as (xs & Hsc & Hxs & _).
  2:{ rewrite Forall_forall in *. intros x Hx. apply Hman. by eapply elem_of_sublist. }
  destruct e1; [by go_inv|]. apply bind_Ok_inv in Hrun as ([d1 e2] & sd & Hd & Hrun).
  destruct e2; [by go_inv|]. apply bind_Ok_inv in Hrun as (r & sw & Hsweep & [= _ _ <-]).
  pose proof (keeps_attempt R _ (RW (socket_set desired ∪ socket_set (masters s))) sd) as R4.
  rewrite Hsweep in R4. apply attempt_Ok_inv, sweep_masters in Hsweep.
  assert (m ∈ toD) as (l1 & l2 & ->)%list_elem_of_split.
  { apply HD. split; [apply Hsole|]. intros x Hx Heq. apply Hno. rewrite <- Heq.
    by apply list_elem_of_fmap_2. }
  pose proof (sole_others m s l1 l2 Hsole HsubD) as Hothers.
  apply (delete_all_turn R) in Hd as (s1 & ok & s2 & R2 & Hopen & R3 & Hgone); [|done|auto|done|].
  - exists s1, ok, s2. rewrite Hsweep. split_and!; [|exact Hopen|by etrans|exact Hgone].
    by do 2 (etrans; [eassumption|]).
  - intros x Hx Heq. rewrite Hsc in Hx. apply elem_of_app in Hx as [Hx|Hx].
    + destruct Hno. rewrite <- Heq. apply (list_elem_of_fmap_2 mf_Socket) in Hx.
      apply (elem_of_submseteq _ _ _ Hx) in Hxs.
      apply list_elem_of_fmap in Hxs as (y & -> & Hy). apply list_elem_of_fmap_2.
      by eapply elem_of_sublist.
    + apply Hsole; [by rewrite <- Hs0|done].
Qed.
End Steps.

(** ** Histories of rounds *)

(** The sockets of a list of masters. *)
Notation sockets_of l := (mf_Socket <$> l).

Section Rounds.
Context `{CniLib} `{Cluster} `{VppLaws} `{MapOrder}.
Variable fuel : nat.
Variable socketPrefixes : list string.
Variable Grace : Z.

Notation state := (node * rstate)%type.
#[local] Instance round_dataplane : Dataplane state :=
  fst_dataplane node rstate (vppDataplane fuel socketPrefixes).
#[local] Instance round_laws : DataplaneLaws state :=
  fst_dataplane_laws node rstate _ (vpp_dataplane_laws fuel socketPrefixes).

Definition gc_gate : option (Memif → go state bool) := Some (λ m, on_gate (shouldGC Grace m)).
Notation vpp_masters n := (vpp_masters socketPrefixes n).

(** What the pods of a cluster ask for, as a round reads it. *)
Definition wanted_by (k : cluster) : option (list Memif) :=
  match ListNodePods k with
  | (Ok pods, k1) =>
      match (desired_pods pods (k1, nad_cache_empty)).1 with Ok d => Some d | _ => None end
  | _ => None
  end.

(** One round: what it found, what it reported, and what it left. *)
Record round_rec := RoundRec {
  rd_cluster : cluster;
  rd_node : node;
  rd_state : rstate;
  rd_result : outcome (Z * Z * option error);
  rd_after : node
}.

(** The rounds of a Reconciler from its start, the latest first, and its fields now.
    The cluster and the node a round finds are any. *)
Inductive rounds : list round_rec → rstate → Prop :=
  | rounds_start : rounds [] rstate_init
  | rounds_next rs st k n o k' n' st' :
      rounds rs st →
      Sync fuel socketPrefixes Grace (k, (n, st)) = (o, (k', (n', st'))) →
      rounds (RoundRec k n st o n' :: rs) st'.

Lemma rounds_run rs st k n :
  rounds rs st → let s := Sync fuel socketPrefixes Grace (k, (n, st)) in
  rounds (RoundRec k n st s.1 s.2.2.1 :: rs) s.2.2.2.
Proof.
  intros Hr s. apply (rounds_next rs st k n s.1 s.2.1 s.2.2.1 s.2.2.2 Hr).
  unfold s. by destruct (Sync _ _ _ _) as [o [k' [n' st']]].
Qed.

(** The round found a master on the socket, and no pod asked for one. *)
Definition orphan_in (key : string) (r : round_rec) : Prop :=
  key ∈ sockets_of (vpp_masters (rd_node r)) ∧
  ∃ desired, wanted_by (rd_cluster r) = Some desired ∧ key ∉ sockets_of desired.

(** It was an orphan in each of the last [c] rounds. *)
Definition orphaned_for (key : string) (rs : list round_rec) (c : nat) : Prop :=
  ∃ recent older, rs = recent ++ older ∧ length recent = c ∧ Forall (orphan_in key) recent.

(** The node on which a round asked the gate about a master. *)
Definition asked_in (r : round_rec) (m : Memif) (n : node) : Prop :=
  ∃ desired st, wanted_by (rd_cluster r) = Some desired ∧
    asks desired gc_gate m (rd_node r, next_round (rd_state r)) (n, st).

Definition round_ok (r : round_rec) : Prop :=
  match rd_result r with Ok (_, _, None) => True | _ => False end.

(** ** A round of Sync *)

Lemma Sync_run k n st :
  (Sync fuel socketPrefixes Grace (k, (n, st))).2.2 =
  match wanted_by k with
  | Some desired => (Reconcile desired gc_gate (n, next_round st)).2
  | None => (n, next_round st)
  end.
Proof.
  unfold Sync, wanted_by. rewrite run_bind. unfold on_snd at 1 2, modify. cbn [fst snd].
  rewrite run_bind, run_attempt. unfold on_fst at 1. cbn [fst snd].
  destruct (ListNodePods k) as [[pods|e|w|] k1]; [|done..]. cbn [fst snd].
  rewrite run_bind. unfold on_cluster. cbn [fst snd].
  destruct (desired_pods pods (k1, nad_cache_empty)) as [[desired|e|w|] [k2 c]]; [|done..].
  cbn [fst snd]. unfold on_snd. cbn [snd]. by destruct (Reconcile _ _ _).
Qed.

(** The round reports no error: it knew what is wanted. *)
Lemma Sync_wanted k n st c d k' n' st' :
  Sync fuel socketPrefixes Grace (k, (n, st)) = (Ok (c, d, None), (k', (n', st'))) →
  ∃ desired, wanted_by k = Some desired ∧
    Reconcile desired gc_gate (n, next_round st) = (Ok (c, d, None), (n', st')).
Proof.
  intros (pods & k1 & desired & Hl & Hd & Hrun)%Sync_Ok. exists desired.
  unfold wanted_by. by rewrite Hl, Hd.
Qed.

(** A relation on what the Reconciler remembers is kept by what does not touch it. *)
Definition on_memory (R : relation rstate) : relation state := λ s1 s2, R s1.2 s2.2.
#[local] Instance on_memory_preorder R `{!PreOrder R} : PreOrder (on_memory R).
Proof. split; [by intros s; red|]. intros ???. unfold on_memory. by etrans. Qed.

Lemma on_fst_memory R `{!PreOrder R} {A} (m : go node A) : keeps (on_memory R) (on_fst m).
Proof. intros s. unfold on_memory, on_fst. by destruct (m s.1). Qed.

(** What a round does to the memory: it asks about orphans only. *)
Lemma round_memory R `{!PreOrder R} k n st :
  (∀ desired m, wanted_by k = Some desired → m ∈ vpp_masters n →
     mf_Socket m ∉ sockets_of desired → keeps (on_memory R) (on_gate (shouldGC Grace m))) →
  R (next_round st) (Sync fuel socketPrefixes Grace (k, (n, st))).2.2.2.
Proof.
  intros Hg. rewrite Sync_run. destruct (wanted_by k) as [desired|]; [|done].
  refine (Reconcile_R (on_memory R) _ _ _ _ desired gc_gate (n, next_round st) _);
    [apply on_fst_memory, _|intros; apply on_fst_memory, _..|].
  intros m Hm Hno. apply keeps_gate_open; [apply _|]. intros g [= <-]. by eapply Hg.
Qed.

(** ** The record of a socket *)

Definition same_record (key : string) : relation rstate := λ st1 st2,
  round st1 = round st2 ∧ orphanSeen st1 !! key = orphanSeen st2 !! key.
#[local] Instance same_record_preorder key : PreOrder (same_record key).
Proof. split; [by split|]. intros ??? [] []. split; congruence. Qed.

Lemma gate_other key m :
  mf_Socket m ≠ key → keeps (on_memory (same_record key)) (on_gate (shouldGC Grace m)).
Proof.
  intros Hne [[v f] st]. unfold on_memory, on_gate. cbn [fst snd]. rewrite shouldGC_run. cbv zeta.
  destruct (socket_gone f m); [|case_decide; [|case_decide]]; cbn [fst snd]; split; try done; simpl;
    by rewrite ?lookup_delete_ne, ?lookup_insert_ne.
Qed.

(** The record says at most: [c] rounds in a row up to the round before [N], and one
    more once it was asked about in [N]. *)
Definition counted (key : string) (N c : Z) (st : rstate) : Prop :=
  round st = N ∧
  match orphanSeen st !! key with
  | None => True
  | Some r => (0 ≤ or_count r ∧ or_lastRound r ≤ N ∧
               (or_lastRound r = N - 1 → or_count r ≤ c) ∧ (or_lastRound r = N → or_count r ≤ c + 1))%Z
  end.
Definition keeps_counted key N c : relation rstate := λ st1 st2,
  counted key N c st1 → counted key N c st2.
#[local] Instance keeps_counted_preorder key N c : PreOrder (keeps_counted key N c).
Proof. split; [by intros ??|]. intros ??? H12 H23 H1'. auto. Qed.

Lemma counted_count key N c st :
  (0 ≤ c)%Z → counted key N c st → (1 ≤ orphan_count st key ≤ c + 1)%Z.
Proof.
  unfold counted, orphan_count. intros Hc [-> Hr].
  destruct (orphanSeen st !! key) as [r|]; simpl; case_decide; lia.
Qed.

Lemma gate_counted key N c m :
  (0 ≤ c)%Z → keeps (on_memory (keeps_counted key N c)) (on_gate (shouldGC Grace m)).
Proof.
  intros Hc. destruct (decide (mf_Socket m = key)) as [<-|Hne].
  - intros [[v f] st] Hst. pose proof (counted_count _ _ _ _ Hc Hst) as Hcount.
    destruct Hst as [HN Hr]. cbn [fst snd] in *. unfold on_gate. cbn [fst snd].
    rewrite shouldGC_run. cbv zeta.
    destruct (socket_gone f m); [|case_decide; [|case_decide]]; cbn [fst snd]; split; try done; simpl.
    + by rewrite lookup_delete_eq.
    + by rewrite lookup_delete_eq.
    + rewrite lookup_insert_eq. simpl. lia.
  - intros s [HN Hr]. destruct (gate_other key m Hne s) as [HN' Hr']. split; [congruence|].
    by rewrite <- Hr'.
Qed.

(** The gate lets a master pass. *)
Lemma gate_true key N c m n st s2 :
  (0 ≤ c)%Z → counted key N c st → mf_Socket m = key →
  on_gate (shouldGC Grace m) (n, st) = (Ok true, s2) →
  socket_gone (node_fs n) m = true ∨ (0 < Grace ≤ c + 1)%Z.
Proof.
  intros Hc Hst <-. pose proof (counted_count _ _ _ _ Hc Hst) as Hcount. unfold on_gate. cbn [fst snd].
  rewrite shouldGC_run. cbv zeta. destruct n as [v f]. unfold node_fs. simpl.
  destruct (socket_gone f m); [by left|]. case_decide; [done|]. case_decide; [|done].
  intros _. right. lia.
Qed.

(** ** The memory and the history *)

Lemma orphaned_for_le key rs c c' : orphaned_for key rs c → c' ≤ c → orphaned_for key rs c'.
Proof.
  intros (recent & older & -> & <- & Hall) Hle.
  exists (take c' recent), (drop c' recent ++ older). split_and!.
  - by rewrite app_assoc, take_drop.
  - rewrite length_take. lia.
  - by apply Forall_take.
Qed.

Lemma orphaned_for_S key r rs c :
  orphan_in key r → orphaned_for key rs c → orphaned_for key (r :: rs) (S c).
Proof.
  intros Hr (recent & older & -> & <- & Hall). exists (r :: recent), older.
  split_and!; [done|done|by constructor].
Qed.

Lemma orphaned_for_0 key rs : orphaned_for key rs 0.
Proof. by exists [], rs. Qed.

(** A record made in the latest round counts rounds in which the socket was an
    orphan; an older record counts for nothing. *)
Definition tracked (rs : list round_rec) (st : rstate) : Prop := ∀ key,
  match orphanSeen st !! key with
  | None => True
  | Some r => (0 ≤ or_count r ∧ or_lastRound r ≤ round st)%Z ∧
              (or_lastRound r = round st → orphaned_for key rs (Z.to_nat (or_count r)))
  end.

(** The rounds in a row for which the memory has a socket as an orphan, before a new
    round starts. *)
Definition so_far (key : string) (st : rstate) : Z :=
  match orphanSeen st !! key with
  | Some r => if decide (or_lastRound r = round st) then or_count r else 0%Z
  | None => 0%Z
  end.

Lemma so_far_counted rs st key :
  tracked rs st →
  (0 ≤ so_far key st)%Z ∧ orphaned_for key rs (Z.to_nat (so_far key st)) ∧
  counted key (round st + 1) (so_far key st) (next_round st).
Proof.
  intros Htr. specialize (Htr key). unfold so_far, counted. simpl.
  destruct (orphanSeen st !! key) as [r|]; [|split_and!; [done|apply orphaned_for_0|done..]].
  destruct Htr as [[? ?] Hr]. case_decide; split_and!; try done; try lia;
    [by apply Hr|apply orphaned_for_0].
Qed.

(** An orphan in a round, or not one. *)
Lemma orphan_in_dec key r : orphan_in key r ∨ ¬ orphan_in key r.
Proof.
  unfold orphan_in. destruct (decide (key ∈ sockets_of (vpp_masters (rd_node r)))); [|tauto].
  destruct (wanted_by (rd_cluster r)) as [desired|]; [|right; by intros (_ & ? & ? & _)].
  destruct (decide (key ∈ sockets_of desired)); [right|left; eauto].
  by intros (_ & ? & [= <-] & ?).
Qed.

Lemma rounds_tracked rs st : rounds rs st → tracked rs st.
Proof.
  induction 1 as [|rs st k n o k' n' st' _ IH Hrun]; intros key.
  { simpl. by rewrite lookup_empty. }
  set (r0 := RoundRec k n st o n'). assert (st' = (Sync fuel socketPrefixes Grace (k, (n, st))).2.2.2)
    as Hst' by (by rewrite Hrun). destruct (orphan_in_dec key r0) as [Ho|Ho].
  - destruct (so_far_counted rs st key IH) as (Hc & Hfor & Hcnt).
    assert (counted key (round st + 1) (so_far key st) st') as [HN Hrec].
    { rewrite Hst'. refine (round_memory (keeps_counted key _ _) k n st _ Hcnt).
      intros desired m _ _ _. by apply gate_counted. }
    destruct (orphanSeen st' !! key) as [r|]; [|done]. rewrite HN.
    split; [lia|]. intros Hl. apply orphaned_for_le with (S (Z.to_nat (so_far key st))); [|lia].
    by apply orphaned_for_S.
  - assert (same_record key (next_round st) st') as [HN Hrec].
    { rewrite Hst'. refine (round_memory (same_record key) k n st _).
      intros desired m Hw Hm Hno. apply gate_other. intros <-. apply Ho.
      split; [by apply list_elem_of_fmap_2|by exists desired]. }
    specialize (IH key). rewrite <- Hrec, <- HN. simpl in *.
    destruct (orphanSeen st !! key) as [r|]; [|done]. destruct IH as [? _]. split; [lia|]. lia.
Qed.

(** ** Not too early *)

(** C3: The daemon collects no master early, over any history of rounds, whatever changes
    between them and whatever a round ends in.  A master that a round loses was an orphan in
    that round, and either its socket file was gone at the moment the round
    asked about it, or a grace period is configured and the master's socket was
    an orphan in each of that many last rounds, this one included: a pod that was
    seen asking for the socket in any of them keeps its master. *)
Theorem collected_after_grace r rs st m :
  rounds (r :: rs) st →
  (∀ desired, wanted_by (rd_cluster r) = Some desired → Forall (vpp_managed socketPrefixes) desired) →
  m ∈ vpp_masters (rd_node r) → m ∉ vpp_masters (rd_after r) →
  orphan_in (mf_Socket m) r ∧
  ((∃ n, asked_in r m n ∧ socket_gone (node_fs n) m = true) ∨
   (0 < Grace)%Z ∧ orphaned_for (mf_Socket m) (r :: rs) (Z.to_nat Grace)).
Proof.
  inversion 1 as [|rs' st0 k n o k' n' st' Hrs Hrun]; subst. cbn [rd_node rd_after rd_cluster].
  intros Hman Hm Hlost. assert (vpp_masters n' = masters
    (Sync fuel socketPrefixes Grace (k, (n, st0))).2.2) as Hn' by (by rewrite Hrun).
  rewrite Hn' in Hlost. rewrite Sync_run in Hlost. clear Hn'.
  destruct (wanted_by k) as [desired|] eqn:Hw; [|done].
  assert (gate_reads gc_gate) as Hgate by apply shouldGC_gate_reads.
  destruct (Reconcile_lost desired gc_gate (n, next_round st0) m) as [Hno (s1 & s2 & Hask & Hopen)];
    [by apply Hman|done..|].
  assert (orphan_in (mf_Socket m) (RoundRec k n st0 o n')) as Ho.
  { split; [by apply list_elem_of_fmap_2|by exists desired]. }
  split; [done|].
  destruct (so_far_counted rs st0 (mf_Socket m) (rounds_tracked _ _ Hrs)) as (Hc & Hfor & Hcnt).
  assert (counted (mf_Socket m) (round st0 + 1) (so_far (mf_Socket m) st0) s1.2) as Hcnt1.
  { refine (asks_R (on_memory (keeps_counted _ _ _)) _ _ _ desired gc_gate m (n, next_round st0) s1
      _ Hask Hcnt); [intros; apply on_fst_memory, _..|].
    intros m'. apply keeps_gate_open; [apply _|]. intros g [= <-]. by apply gate_counted. }
  destruct s1 as [n1 st1]. destruct (gate_true (mf_Socket m) _ _ m n1 st1 s2 Hc Hcnt1 eq_refl Hopen)
    as [Hgone|HG].
  - left. exists n1. split; [by exists desired, st1|done].
  - right. split; [lia|]. apply orphaned_for_le with (S (Z.to_nat (so_far (mf_Socket m) st0))); [|lia].
    by apply orphaned_for_S.
Qed.

(** ** Not too late *)

Lemma orphan_count_same key st1 st2 :
  same_record key st1 st2 → orphan_count st1 key = orphan_count st2 key.
Proof. intros [HN Hr]. unfold orphan_count. by rewrite HN, Hr. Qed.

(** The gate holds a master back: one more round on its record. *)
Lemma gate_false m n st s2 :
  (0 < Grace)%Z → on_gate (shouldGC Grace m) (n, st) = (Ok false, s2) →
  let count := orphan_count st (mf_Socket m) in
  (count < Grace)%Z ∧ round s2.2 = round st ∧
  orphanSeen s2.2 !! mf_Socket m = Some {| or_count := count; or_lastRound := round st |}.
Proof.
  intros HG. unfold on_gate. cbn [fst snd]. rewrite shouldGC_run. cbv zeta.
  destruct (socket_gone _ m); [done|]. rewrite decide_False by lia.
  case_decide; [done|]. intros [= <-]. cbn. rewrite lookup_insert_eq. split_and!; [lia|done..].
Qed.

(** A round that reports no error, and finds one master on a socket nobody asks for:
    it collects it, or has counted one more round. *)
Lemma round_turn k n st c d k' n' st' desired m :
  (0 < Grace)%Z →
  Sync fuel socketPrefixes Grace (k, (n, st)) = (Ok (c, d, None), (k', (n', st'))) →
  wanted_by k = Some desired → Forall (vpp_managed socketPrefixes) desired →
  mf_Socket m ∉ sockets_of desired → sole m (vpp_masters n) →
  let count := orphan_count (next_round st) (mf_Socket m) in
  mf_Socket m ∉ sockets_of (vpp_masters n') ∨
  (count < Grace)%Z ∧ round st' = (round st + 1)%Z ∧
  orphanSeen st' !! mf_Socket m = Some {| or_count := count; or_lastRound := round st + 1 |}.
Proof.
  intros HG Hrun Hw Hman Hno Hsole count. apply Sync_wanted in Hrun as (desired' & Hw' & Hrun).
  rewrite Hw in Hw'. injection Hw' as <-. set (R := on_memory (same_record (mf_Socket m))).
  assert (∀ x, mf_Socket x ≠ mf_Socket m → keeps R (gate_open gc_gate x)) as HR.
  { intros x Hx. apply keeps_gate_open; [apply _|]. intros g [= <-]. by apply gate_other. }
  assert (keeps R DumpMasters ∧ (∀ x, keeps R (CreateMaster x)) ∧ (∀ x, keeps R (DeleteMaster x)) ∧
          ∀ keep, keeps R (SweepOrphanSockets keep)) as (RD & RC & RX & RW).
  { split_and!; [|intros ?..]; apply on_fst_memory, _. }
  assert (Forall managed desired ∧ sole m (masters (n, next_round st))) as [Hman' Hsole'] by done.
  assert (gate_reads gc_gate) as Hgate by apply shouldGC_gate_reads.
  destruct (Reconcile_turn R m desired gc_gate _ c d (n', st') RD RC RX RW HR
    Hman' Hgate Hno Hsole' Hrun)
    as ([n1 st1] & ok & [n2 st2] & H1' & Hopen & H2' & Hgone).
  destruct ok; [left; by apply Hgone|right].
  apply gate_false in Hopen as (Hc & HN & Hrec); [|done]. unfold R, on_memory in *. cbn in *.
  assert (orphan_count st1 (mf_Socket m) = count) as Hcount by (symmetry; by apply orphan_count_same).
  destruct H1' as [HN1 Hr1], H2' as [HN2 Hr2].
  by rewrite <- Hr2, <- HN2, HN, Hrec, <- HN1, Hcount in *.
Qed.

(** A round that reports no error and finds one master on a socket that no pod asks
    for. *)
Definition sole_orphan_in (key : string) (r : round_rec) : Prop :=
  round_ok r ∧
  (∃ m, sole m (vpp_masters (rd_node r)) ∧ mf_Socket m = key) ∧
  ∃ desired, wanted_by (rd_cluster r) = Some desired ∧ (key ∉ sockets_of desired) ∧
    Forall (vpp_managed socketPrefixes) desired.

Lemma rounds_count key recent older st :
  (0 < Grace)%Z → rounds (recent ++ older) st → Forall (sole_orphan_in key) recent →
  Forall (λ r, key ∈ sockets_of (vpp_masters (rd_after r))) recent →
  recent = [] ∨ ∃ r, orphanSeen st !! key = Some r ∧ or_lastRound r = round st ∧
    (Z.of_nat (length recent) ≤ or_count r < Grace)%Z.
Proof.
  intros HG. revert st. induction recent as [|r recent IH]; intros st Hr Hall Hstay; [by left|].
  right. inversion Hr as [|rs st0 k n o k' n' st' Hrs Hrun Hr1]; subst. clear Hr.
  apply Forall_cons in Hall as [(Hok & (m & Hsole & <-) & desired & Hw & Hno & Hman) Hall].
  apply Forall_cons in Hstay as [Hin Hstay]. cbn in Hok, Hsole, Hw, Hin.
  destruct o as [[[c d] [e|]]|e|w|]; [done| |done..].
  destruct (round_turn _ _ _ _ _ _ _ _ _ _ HG Hrun Hw Hman Hno Hsole) as [?|(Hc & HN & Hrec)]; [done|].
  eexists. split; [exact Hrec|]. cbn. split; [done|]. split; [|done].
  destruct (so_far_counted _ _ (mf_Socket m) (rounds_tracked _ _ Hrs)) as (H0' & _ & Hcnt).
  destruct (IH _ Hrs Hall Hstay) as [->|(r & Hseen & Hl & Hle & _)].
  - apply counted_count in Hcnt; [simpl; lia|done].
  - unfold orphan_count. simpl. rewrite Hseen. simpl. rewrite decide_True; lia.
Qed.

(** C4: A master that is alone on its socket and that no pod asks for goes.  Let the
    grace be positive, and let Grace rounds in a row report no error and each of them
    find exactly one master on the socket while none of the pods it lists asks for it
    (and the managed prefixes cover what they do ask for); then after one of these
    rounds nothing stands on the socket, whether or not the socket's file is still
    there.  (Two masters on the socket: [twins_never_counted].) *)
Theorem orphan_collected key recent older st :
  (0 < Grace)%Z → rounds (recent ++ older) st → length recent = Z.to_nat Grace →
  Forall (sole_orphan_in key) recent →
  Exists (λ r, key ∉ sockets_of (vpp_masters (rd_after r))) recent.
Proof.
  intros HG Hr Hlen Hall.
  destruct (decide (Forall (λ r, key ∈ sockets_of (vpp_masters (rd_after r))) recent)) as [Hs|Hs].
  - destruct (rounds_count key recent older st HG Hr Hall Hs) as [->|(r & _ & _ & Hc)];
      simpl in *; lia.
  - apply not_Forall_Exists in Hs; [exact Hs|intros ?; apply _].
Qed.

(** C20: Two orphans on one socket undo each other's count.  With a grace of three rounds
    or more, the socket's file in place and a record of at most one round, the gate lets
    neither of the two pass when it is asked about both in one round, and leaves
    a record of one round again (the second question finds the record of this round,
    not of the last one, and starts anew): as long as both are there, none is ever
    collected. *)
Theorem twins_never_counted m1 m2 f st :
  (3 ≤ Grace)%Z → mf_Socket m1 = mf_Socket m2 → socket_gone f m1 = false →
  (∀ r, orphanSeen st !! mf_Socket m1 = Some r → or_count r ≤ 1)%Z →
  ∃ st1 st2, shouldGC Grace m1 (f, st) = (Ok false, (f, st1)) ∧
    shouldGC Grace m2 (f, st1) = (Ok false, (f, st2)) ∧ round st2 = round st ∧
    orphanSeen st2 !! mf_Socket m1 = Some {| or_count := 1; or_lastRound := round st |}.
Proof.
  intros HG Heq Hf Hr.
  assert (socket_gone f m2 = false) as Hf2 by (unfold socket_gone in *; by rewrite <- Heq).
  assert (orphan_count st (mf_Socket m1) ≤ 2)%Z as Hc.
  { unfold orphan_count. case_decide; [|lia]. destruct (orphanSeen st !! mf_Socket m1) as [r|];
      simpl; [specialize (Hr r eq_refl); lia|lia]. }
  rewrite shouldGC_run. cbv zeta. rewrite Hf, !decide_False by lia.
  eexists _, _. split; [reflexivity|]. rewrite shouldGC_run. cbv zeta. rewrite Hf2, <- Heq.
  assert (∀ o : orphanRound, or_lastRound o = round st → orphan_count
    (RState (<[mf_Socket m1 := o]> (orphanSeen st)) (round st)) (mf_Socket m1) = 1%Z) as H1'.
  { intros o Ho. unfold orphan_count. simpl. rewrite lookup_insert_eq. simpl. rewrite Ho.
    by rewrite decide_False by lia. }
  rewrite H1' by done. rewrite !decide_False by lia.
  split; [reflexivity|]. simpl. by rewrite lookup_insert_eq.
Qed.
End Rounds.
