(* ===== verification/KubeCluster.v ===== *)
(** * pkg/daemon/k8s.go: the cluster through client-go

    The pod lister and the NAD getter of the daemon, over the calls of client-go
    they make (the class [KubeReads]); together they are an instance of the
    interface [Cluster] the rounds of file Sync run against. *)
From S2P Require Import Prelude GoStrings GoOs Json Types JsonCodec Annotations VppApi Memif.
From S2P Require Import Reconcile Desired Sync.

Record GroupVersionResource := GVR { gvr_Group : string; gvr_Version : string; gvr_Resource : string }.

Definition nadGVR : GroupVersionResource :=
  GVR "k8s.cni.cncf.io" "v1" "network-attachment-definitions".

Definition NamespaceAll : string := EmptyString.

Class KubeReads := {
  kube_api : Type;
  kube_object : Type;
  (* fields.OneTermEqualSelector(field, value).String() *)
  one_term_selector : string → string → string;
  (* Client.CoreV1().Pods(namespace).List with a field selector *)
  list_pods : string → string → go kube_api (list Pod.t);
  (* Dyn.Resource(gvr).Namespace(namespace).Get(name) *)
  get_object : GroupVersionResource → string → string → go kube_api kube_object;
  (* unstructured.NestedString: the string at a path, if there is one, or an error
     when there is something else *)
  NestedString : kube_object → list string → result (option string)
}.

Section KubeCluster.
Context `{KubeReads}.

(** K8sPodLister.ListNodePods *)
Definition K8sPodLister_ListNodePods (NodeName : string) : go kube_api (list Pod.t) :=
  list_pods NamespaceAll (one_term_selector "spec.nodeName" NodeName).

(** K8sNADGetter.GetNADConfig *)
Definition K8sNADGetter_GetNADConfig (namespace name : string) : go kube_api string :=
  obj ← get_object nadGVR namespace name;
  found ← of_result (NestedString obj ["spec"; "config"]);
  let cfg := default EmptyString found in
  if decide (found = None ∨ cfg = EmptyString)
  then raise (ErrNew ("NAD " +:+ namespace +:+ "/" +:+ name +:+ " has no spec.config"))
  else mret cfg.

(** The Reconciler's Pods and NADs, as cmd/daemon/main.go sets them. *)
Definition k8s_cluster (NodeName : string) : Cluster := {|
  cluster := kube_api;
  ListNodePods := K8sPodLister_ListNodePods NodeName;
  GetNADConfig := K8sNADGetter_GetNADConfig
|}.

(** An attachment definition without a configuration is an error, never an empty
    text; and what is returned is the object's spec.config. *)
Lemma GetNADConfig_nonempty ns name k cfg k' :
  K8sNADGetter_GetNADConfig ns name k = (Ok cfg, k') →
  cfg ≠ EmptyString ∧
  ∃ obj, get_object nadGVR ns name k = (Ok obj, k') ∧ NestedString obj ["spec"; "config"] = inr (Some cfg).
Proof.
  intros Hrun. apply bind_Ok_inv in Hrun as (obj & k1 & Hget & Hrun).
  apply bind_Ok_inv in Hrun as (found & k2 & Hn & Hrun).
  destruct (NestedString obj _) as [e|f] eqn:E; [done|]. injection Hn as -> <-.
  cbv zeta in Hrun. case_decide as Hno; [done|]. injection Hrun as <- <-.
  apply Decidable.not_or in Hno as [Hf Hc]. destruct found as [c|]; [|done].
  split; [done|]. by exists obj.
Qed.
End KubeCluster.
