(* ===== verification/Termination.v ===== *)
(** * The calls return

    Every loop of the engines and of the daemon over a dump of VPP ends, given a VPP
    that answers and fuel for what it holds (and for what the call adds): ADD and DEL
    return, and a round of the daemon ends with a report. *)
From S2P Require Import Prelude GoStrings GoOs Total Json Types JsonCodec Annotations ConfigData.
From S2P Require Import LocalDb VppApi Memif Bridge CniVpp Reconcile Gc Desired Dataplane Sync.

(** A step that returns and that a condition does not see. *)
Lemma settles_keeps {S A} (R : relation S) (P : S → Prop) (m : go S A) :
  settles always m → keeps R m → (∀ s1 s2, R s1 s2 → P s1 → P s2) → settles P m.
Proof. intros Hm Hk HP s Hs. destruct (Hm s I) as [Hr _]. split; [done|]. by eapply HP, Hs. Qed.

Lemma always_on_snd {S T A} (m : go T A) : settles always m → settles always (on_snd m : go (S * T) A).
Proof. intros Hm. by apply total_on_snd. Qed.
Lemma always_on_fst {S T A} (m : go S A) : settles always m → settles always (on_fst m : go (S * T) A).
Proof. intros Hm. by apply total_on_fst. Qed.
Lemma settles_modify {S} (f : S → S) : settles always (modify f).
Proof. by intros s. Qed.
#[export] Hint Resolve always_on_snd always_on_fst settles_modify : total_db.

(** ** Files of the plugin *)

Lemma FileCleanup_total dir path : settles always (FileCleanup dir path).
Proof.
  apply settles_bind; [case_decide; auto with total_db|intros _].
  unfold remove_if_empty. case_decide; [|auto with total_db].
  apply settles_bind; [auto with total_db|]. intros [e|[|x l]]; auto with total_db.
Qed.
#[export] Hint Resolve FileCleanup_total : total_db.

Lemma SaveVppConfig_total args data :
  12 ≤ String.length (CmdArgs.ContainerID args) → settles always (SaveVppConfig args data).
Proof. intros Hid. apply total_slice; [done|]. auto with total_db. Qed.

Lemma LoadVppConfig_total args data :
  12 ≤ String.length (CmdArgs.ContainerID args) → settles always (LoadVppConfig args data).
Proof.
  intros Hid. apply total_slice; [done|]. cbv zeta. apply settles_bind; [auto with total_db|].
  intros [e|n]; [auto with total_db|].
  apply settles_bind; [auto with total_db|intros text].
  apply settles_bind; [auto with total_db|intros d]. auto with total_db.
Qed.

Lemma getVhostSocketfileName_total dir id ifName :
  12 ≤ String.length id → settles always (getVhostSocketfileName dir id ifName).
Proof.
  intros Hid. apply settles_bind; [auto with total_db|intros conf].
  apply settles_bind; [|auto with total_db].
  case_decide; [apply total_slice; [done|]|]; auto with total_db.
Qed.

(** ** VPP *)

Section Vpp.
Context `{VppLaws} `{!VppBridgeLaws} `{UserDb}.
Variable fuel : nat.

(** Fuel, and socket ids, for [i] more interfaces and [j] more sockets. *)
Definition room (i j : nat) (n : node) : Prop :=
  length (memifs (node_vpp n)) + i < fuel ∧ length (sockets (node_vpp n)) + j < fuel ∧
  (Z.of_nat (length (sockets (node_vpp n)) + j) < 2 ^ 32 - 1)%Z.

Lemma room_enough i j n : room i j n → enough fuel n.
Proof. unfold room, enough. lia. Qed.
Lemma enough_room n : enough fuel n → room 0 0 n.
Proof. unfold room, enough. rewrite !Nat.add_0_r. tauto. Qed.
Lemma room_le i j i' j' n : room i j n → i' ≤ i → j' ≤ j → room i' j' n.
Proof. unfold room. lia. Qed.
Lemma room_same i j n1 n2 : same_memifs n1 n2 → room i j n1 → room i j n2.
Proof. unfold room. by intros [-> ->]. Qed.

Lemma send_total r : settles always (send r).
Proof. intros n _. by destruct (send_cases r n) as [(i & n' & ->)|(e & n' & ->)]. Qed.
Lemma send__total r : settles always (send_ r).
Proof. apply settles_bind; [apply send_total|]. auto with total_db. Qed.
Lemma look_total {A} P (g : node → outcome A) E :
  (∀ n, P n → returns E (g n)) → total E P (look g) P.
Proof. intros Hg n Hn. by split; [apply Hg|]. Qed.
Hint Resolve send_total send__total : total_db.

(** The searches over the dumps. *)
Lemma findMemifSocket_returns f i j : total False (room i j) (findMemifSocket fuel f) (room i j).
Proof.
  intros n Hn. destruct (findMemifSocket_total fuel f n) as (r & -> & _); [|done].
  by eapply room_enough.
Qed.
Lemma FindMemifBySocket_returns f i j : total False (room i j) (FindMemifBySocket fuel f) (room i j).
Proof.
  apply never_fails_bind with (room i j); [apply findMemifSocket_returns|]. intros [[] s]; [|by intros n].
  apply look_total. intros n (Hm & _). rewrite (recv_loop_delivers _ _ _ _ _ _ _ (law_memif_dump (node_vpp n))) by lia.
  by rewrite recv_list_by_socket.
Qed.
Lemma findMemifInterface_returns x i j : total False (room i j) (findMemifInterface fuel x) (room i j).
Proof.
  apply look_total. intros n (Hm & _). rewrite (recv_loop_delivers _ _ _ _ _ _ _ (law_memif_dump (node_vpp n))) by lia.
  by destruct (recv_list_interface x (memifs (node_vpp n)) (0%Z, false)) as (r & -> & _).
Qed.
Lemma findMemifSocketCnt_returns s i j : total False (room i j) (findMemifSocketCnt fuel s) (room i j).
Proof.
  apply look_total. intros n (Hm & _). rewrite (recv_loop_delivers _ _ _ _ _ _ _ (law_memif_dump (node_vpp n))) by lia.
  pose proof (memifs_few (node_vpp n)). by rewrite recv_list_count by lia.
Qed.

(** Registering a socket and making an interface use up room. *)
Lemma CreateMemifSocket_returns f i j : total True (room i (S j)) (CreateMemifSocket fuel f) (room i j).
Proof.
  assert (∀ n, room i (S j) n → room i j n) as Hless by (intros; eapply room_le; eauto).
  apply total_bind with (room i (S j)); [apply total_may_fail, findMemifSocket_returns| |by auto].
  intros [[] s]; [intros n Hn; split; [done|auto]|].
  apply total_bind with (room i (S j)); [|intros _|by auto].
  { eapply settles_keeps; [auto with total_db|apply on_snd_keeps|apply room_same]. }
  apply total_bind with (room i j); [|intros _; apply total_ret|done].
  assert (∀ n v' x, room i (S j) n →
    carried_out memifs sockets (ReqMemifSocketFilenameAddDelV2 true s f) x (node_vpp n) v'.1 →
    room i j v') as Hroom.
  { intros n v' x Hn [Em [[_ Es]|Es]]; unfold room, node_vpp in *; rewrite Em, Es; simpl; lia. }
  intros n Hn. split; [by apply send_total|]. unfold send.
  destruct (SendRequest _ n) as [[e|x] n'] eqn:E; simpl.
  - by apply law_error in E as [Es|[x Hc]]; [apply Hless, (room_same _ _ n)|by apply (Hroom n n' x)].
  - by apply law_reply, Hroom in E.
Qed.

Lemma CreateMemifInterface_returns p i j :
  total True (room (S i) j) (CreateMemifInterface p) (room i j).
Proof.
  apply total_bind with (room (S i) j); [apply total_of_result| |intros _ n Hn; by eapply room_le; eauto].
  intros r n Hn. split; [by apply send_total|]. unfold send.
  assert (∀ v' x, carried_out memifs sockets (ReqMemifCreateV2 r) x (node_vpp n) v'.1 →
    room i j v') as Hroom.
  { intros v' x [Em Es]. unfold room, node_vpp in *. rewrite Em, Es. simpl. lia. }
  destruct (SendRequest _ n) as [[e|x] n'] eqn:E; simpl.
  - apply law_error in E as [[Em Es]|[x Hc]]; [|by apply (Hroom n' x)].
    unfold room in *. rewrite Em, Es. lia.
  - by apply law_reply, Hroom in E.
Qed.

Lemma DeleteMemifInterface_returns x i j : settles (room i j) (DeleteMemifInterface fuel x).
Proof.
  apply settles_bind; [apply total_may_fail, findMemifInterface_returns|]. intros [s e].
  destruct (negb e); [auto with total_db|]. apply settles_bind.
  { intros n Hn. split; [by apply send_total|]. unfold send.
    assert (∀ v' y, carried_out memifs sockets (ReqMemifDelete x) y (node_vpp n) v'.1 →
      room i j v') as Hroom.
    { intros v' y [Em Es]. unfold room, node_vpp in *. rewrite Em, Es.
      pose proof (length_filter (λ d, md_SwIfIndex d ≠ x) (memifs n.1)). lia. }
    destruct (SendRequest _ n) as [[e'|y] n'] eqn:E; simpl; [|by apply law_reply, Hroom in E].
    apply law_error in E as [?|[y Hc]]; [by apply (room_same _ _ n)|by apply (Hroom n' y)]. }
  intros _. case_decide; [|auto with total_db].
  apply settles_bind; [apply total_may_fail, findMemifSocketCnt_returns|]. intros c.
  case_decide; [|auto with total_db]. apply settles_bind; [|auto with total_db].
  intros n Hn. split; [by apply send_total|]. unfold send.
  assert (∀ v' y, carried_out memifs sockets (ReqMemifSocketFilenameAddDelV2 false s EmptyString) y
    (node_vpp n) v'.1 → room i j v') as Hroom.
  { intros v' y [Em Es]. unfold room, node_vpp in *. rewrite Em, Es.
    pose proof (length_filter (λ d, sd_SocketID d ≠ s) (sockets n.1)). lia. }
  destruct (SendRequest _ n) as [[e'|y] n'] eqn:E; simpl; [|by apply law_reply, Hroom in E].
  apply law_error in E as [?|[y Hc]]; [by apply (room_same _ _ n)|by apply (Hroom n' y)].
Qed.

(** A dump of a bridge domain has at most one message. *)
Hypothesis fuel_bridge : 1 < fuel.

Lemma findBridge_total b : settles always (findBridge fuel b).
Proof. intros n _. by rewrite findBridge_run. Qed.
Hint Resolve findBridge_total : total_db.

Lemma AddBridgeInterface_total b i : settles always (AddBridgeInterface fuel b i).
Proof.
  apply settles_bind; [|auto with total_db].
  apply settles_bind; [auto with total_db|]. intros [[] ?]; auto with total_db.
Qed.
Lemma RemoveBridgeInterface_total b i : settles always (RemoveBridgeInterface fuel b i).
Proof.
  apply settles_bind; [auto with total_db|intros _].
  apply settles_bind; [auto with total_db|]. intros [e c]. case_decide; auto with total_db.
Qed.
Lemma SetMtu_total i m : settles always (SetMtu i m).
Proof. unfold SetMtu. case_decide; auto with total_db. Qed.
Lemma SetState_total i u : settles always (SetState i u).
Proof. apply send__total. Qed.
Lemma AddDelIpAddress_total i a r : settles always (AddDelIpAddress i a r).
Proof. apply send__total. Qed.
Lemma CreateVhostUserInterface_total p : settles always (CreateVhostUserInterface p).
Proof. apply settles_bind; auto with total_db. Qed.
Lemma DeleteVhostUserInterface_total i : settles always (DeleteVhostUserInterface i).
Proof. apply send__total. Qed.
Hint Resolve AddBridgeInterface_total RemoveBridgeInterface_total SetMtu_total SetState_total
  AddDelIpAddress_total CreateVhostUserInterface_total DeleteVhostUserInterface_total : total_db.

(** ** The engine *)

Notation host_state := (NetConf.t * node)%type.

Lemma VppOpenCh_total P : settles P open_channel.
Proof. apply look_total. intros n _. by destruct (Connect _) as [?|]; [|destruct (OpenChannel _)]. Qed.
Hint Resolve VppOpenCh_total : total_db.

(** A condition on the node under steps that do not reach its VPP. *)
Lemma conf_step {A} (m : go NetConf.t A) (P : node → Prop) :
  settles always m → settles (λ s : host_state, P s.2) (on_fst m).
Proof. intros Hm. by apply total_on_fst. Qed.
Lemma file_step {A} (m : go fs A) i j :
  settles always m → settles (λ s : host_state, room i j s.2) (on_snd (on_snd m)).
Proof. intros Hm. apply total_in_snd, total_on_snd; [done|]. by intros [v f] t. Qed.
Hint Resolve conf_step file_step : total_db.

Lemma getMemifSocketfileName_total dir id ifName :
  settles always (getMemifSocketfileName dir id ifName).
Proof. apply settles_bind; [auto with total_db|intros _]. apply settles_bind; auto with total_db. Qed.
Hint Resolve getMemifSocketfileName_total : total_db.

Section Engine.
Variable args : CmdArgs.t.
Hypothesis long_id : 12 ≤ String.length (CmdArgs.ContainerID args).

Lemma vhost_name_total dir ifName :
  settles always (getVhostSocketfileName dir (CmdArgs.ContainerID args) ifName).
Proof. by apply getVhostSocketfileName_total. Qed.
Hint Resolve vhost_name_total : total_db.

Lemma addLocalDeviceMemif_returns dir data :
  total True (λ s, room 1 1 s.2) (addLocalDeviceMemif fuel args dir data) always.
Proof.
  set (P := λ s : host_state, room 1 1 s.2).
  apply total_bind with P; [apply conf_step; auto with total_db|intros path|done].
  apply total_bind with P; [auto with total_db|intros conf|done].
  apply total_bind with P; [auto with total_db|intros role|done].
  apply total_bind with P; [apply conf_step; auto with total_db|intros _|done].
  apply total_bind with P; [auto with total_db|intros conf'|done].
  apply total_bind with P; [auto with total_db|intros mode|done].
  apply total_bind with (λ s : host_state, room 1 0 s.2);
    [apply total_in_snd, CreateMemifSocket_returns|intros sid|done].
  apply total_bind with (λ s : host_state, room 0 0 s.2);
    [apply total_in_snd, CreateMemifInterface_returns|intros idx|done].
  by intros s _.
Qed.

Lemma addLocalDeviceVhostUser_total dir data : settles always (addLocalDeviceVhostUser args dir data).
Proof.
  apply settles_bind; [auto with total_db|intros path].
  apply settles_bind; [auto with total_db|intros conf]. cbv zeta.
  apply settles_bind; [auto with total_db|intros idx].
  apply settles_bind; [|auto with total_db]. destruct (_ && _); [|auto with total_db].
  apply always_on_snd, always_on_snd, total_ignore_err.
  apply settles_bind; [auto with total_db|intros text]. apply settles_bind; auto with total_db.
Qed.

Lemma set_up_total conf idx ip : settles always (set_up fuel conf idx ip).
Proof.
  apply settles_bind; [auto with total_db|intros _].
  apply settles_bind; [cbv zeta; case_decide; auto with total_db|intros _].
  unfold join_network. cbv zeta. repeat case_decide; auto with total_db.
  destruct ip as [r|]; [case_decide|]; auto with total_db.
Qed.

Lemma AddOnHost_returns dir ip :
  total True (λ s, room 1 1 s.2) (AddOnHost fuel args dir ip) always.
Proof.
  apply total_slice; [done|].
  apply total_bind with (λ s : host_state, room 1 1 s.2);
    [apply total_in_snd; auto with total_db|intros _|done].
  apply total_bind with always; [|intros data|done].
  - apply total_bind with (λ s : host_state, room 1 1 s.2); [auto with total_db|intros conf|done].
    cbv zeta. case_decide; [apply addLocalDeviceMemif_returns|].
    apply (total_weaken _ always _ _ always); [|done|done].
    case_decide; [apply addLocalDeviceVhostUser_total|auto with total_db].
  - apply settles_bind; [auto with total_db|intros conf].
    apply settles_bind; [apply always_on_snd, set_up_total|intros _].
    by apply always_on_snd, always_on_snd, SaveVppConfig_total.
Qed.

Lemma delLocalDevice_returns dir data gone :
  total True (λ s, room 0 0 s.2) (delLocalDeviceMemif fuel args dir data gone) always.
Proof.
  apply total_bind with (λ s : host_state, room 0 0 s.2); [auto with total_db|intros path|done].
  apply total_with_defer; [|done].
  apply (total_weaken _ (λ s : host_state, room 0 0 s.2) _ _ (λ s : host_state, room 0 0 s.2)); [|done|done].
  destruct gone; [auto with total_db|]. apply total_wrap_err, total_in_snd, DeleteMemifInterface_returns.
Qed.

Lemma DelFromHost_returns dir :
  total True (λ s, room 0 0 s.2) (DelFromHost fuel args dir) always.
Proof.
  set (P := λ s : host_state, room 0 0 s.2). apply total_slice; [done|].
  apply total_bind with P; [apply total_in_snd; auto with total_db|intros _|done].
  apply total_bind with P; [by apply file_step, LoadVppConfig_total|intros data|done].
  apply total_bind with P; [auto with total_db|intros conf|done]. cbv zeta.
  apply total_bind with P; [|intros [d gone]|done].
  { case_decide; [|auto with total_db].
    apply settles_bind; [apply conf_step; auto with total_db|intros path].
    apply settles_bind; [apply total_in_snd, total_may_fail, FindMemifBySocket_returns|].
    intros [i []]; auto with total_db. }
  apply total_bind with P; [auto with total_db|intros conf'|done].
  apply total_bind with P; [|intros _|done].
  { apply total_in_snd. eapply settles_keeps; [|apply leave_network_keeps|apply room_same].
    unfold leave_network. destruct (_ && _); auto with total_db. }
  case_decide; [apply delLocalDevice_returns|].
  apply (total_weaken _ always _ _ always); [|done|done]. case_decide; [|auto with total_db].
  apply settles_bind; [apply always_on_snd; auto with total_db|intros _].
  apply settles_bind; auto with total_db.
Qed.

(** C19: ADD and DEL of the VPP engine return, whatever the configuration says and
    whatever VPP refuses: on a VPP that answers, given fuel for the interfaces and
    sockets it holds (and one more of each for ADD), neither a loop over a dump goes
    on for ever nor does a call panic, once the container's id is long enough to be
    cut. *)
Theorem engine_returns dir ip conf n :
  (room 1 1 n → returns True (AddOnHost fuel args dir ip (conf, n)).1) ∧
  (enough fuel n → returns True (DelFromHost fuel args dir (conf, n)).1).
Proof.
  split; intros Hn; [by apply (AddOnHost_returns dir ip (conf, n))|].
  by apply (DelFromHost_returns dir (conf, n)), enough_room.
Qed.
End Engine.
End Vpp.

(** ** A round of the daemon *)

Section Round.
Context `{VppLaws} `{!VppBridgeLaws} `{CniLib} `{Cluster} `{MapOrder}.
Variable fuel : nat.
Variable prefixes : list string.
Hypothesis fuel_bridge : 1 < fuel.
Notation room := (room fuel).
Notation gc_state := (node * rstate)%type.

Lemma vpp_DumpMasters_returns i j :
  total False (room i j) (vpp_DumpMasters fuel prefixes) (room i j).
Proof.
  apply never_fails_bind with (room i j); [|intros socks]; apply look_total; intros n (Hm & Hs & _).
  - rewrite (recv_loop_delivers _ _ _ _ _ _ _ (law_socket_dump (node_vpp n))) by lia.
    by rewrite recv_list_add_socket.
  - rewrite (recv_loop_delivers _ _ _ _ _ _ _ (law_memif_dump (node_vpp n))) by lia.
    by rewrite recv_list_masters.
Qed.

Lemma vpp_CreateMaster_returns m i j :
  total True (room (S i) (S j)) (vpp_CreateMaster fuel m) (room i j).
Proof.
  assert (∀ n, room (S i) j n → room i j n) as Hless by (intros; eapply room_le; eauto).
  apply total_bind with (room (S i) j);
    [apply total_wrap_err, CreateMemifSocket_returns|intros sid|by auto].
  apply total_bind with (room i j);
    [apply total_wrap_err, CreateMemifInterface_returns|intros idx|done].
  eapply settles_keeps; [|apply keeps_tail|apply room_same].
  apply settles_bind; [by apply total_wrap_err, SetState_total|intros _].
  apply settles_bind; [|intros _]; case_decide; try by auto with total_db.
  - by apply total_wrap_err, SetMtu_total.
  - by apply total_wrap_err, AddBridgeInterface_total.
Qed.

Lemma vpp_DeleteMaster_returns m i j : settles (room i j) (vpp_DeleteMaster fuel m).
Proof.
  apply settles_bind; [apply total_wrap_err, DeleteMemifInterface_returns|intros _].
  case_decide; [|auto with total_db].
  eapply settles_keeps; [|apply on_snd_keeps|apply room_same]. auto with total_db.
Qed.

Lemma sweep_total keep : settles always (vpp_SweepOrphanSockets keep).
Proof.
  apply always_on_snd. generalize 0%Z. induction (map_range _) as [|dir dirs IH]; intros k; [by intros s|].
  apply settles_bind; [auto with total_db|]. intros [e|es]; [apply IH|].
  apply settles_bind; [|apply IH]. clear IH. revert k. induction es as [|e es IH]; intros k; [by intros s|].
  apply settles_bind; [|apply IH]. unfold sweep_entry. case_decide; [auto with total_db|].
  destruct (negb _); [auto with total_db|]. cbv zeta. case_decide; [auto with total_db|].
  apply settles_bind; [auto with total_db|intros info].
  apply settles_bind; [auto with total_db|intros now].
  apply settles_bind; [auto with total_db|]. intros [a|]; [|auto with total_db].
  case_decide; [auto with total_db|].
  apply settles_bind; [auto with total_db|]. intros [e'|u]; auto with total_db.
Qed.

(** The gate never fails, and looks at nothing of VPP. *)
Lemma gate_returns Grace m i j :
  total False (λ s : gc_state, room i j s.1) (on_gate (shouldGC Grace m)) (λ s, room i j s.1).
Proof.
  intros [[v f] st] Hs. unfold on_gate. cbn [fst snd]. rewrite shouldGC_run. cbv zeta.
  destruct (socket_gone f m); [done|]. case_decide; [done|]. by case_decide.
Qed.

#[local] Instance dp : Dataplane gc_state := fst_dataplane node rstate (vppDataplane fuel prefixes).

Lemma create_all_returns ms c i j :
  total False (λ s : gc_state, room (length ms + i) (length ms + j) s.1) (create_all ms c)
    (λ s, room i j s.1).
Proof.
  revert c. induction ms as [|m ms IH]; intros c; [apply total_ret|]. simpl.
  apply never_fails_bind with (λ s : gc_state, room (length ms + i) (length ms + j) s.1).
  { apply total_attempt, total_in_fst, vpp_CreateMaster_returns. }
  intros [e|u]; [|apply IH]. intros s Hs. split; [done|]. eapply room_le; [exact Hs|lia..].
Qed.

Lemma delete_all_returns Grace ms d i j :
  total False (λ s : gc_state, room i j s.1)
    (delete_all (Some (λ m, on_gate (shouldGC Grace m))) ms d) (λ s, room i j s.1).
Proof.
  revert d. induction ms as [|m ms IH]; intros d; [apply total_ret|]. simpl.
  eapply never_fails_bind; [apply gate_returns|]. intros [|]; [|apply IH].
  apply never_fails_bind with (λ s : gc_state, room i j s.1).
  { apply total_attempt, total_in_fst, vpp_DeleteMaster_returns. }
  intros [e|u]; [apply total_ret|apply IH].
Qed.

Lemma Reconcile_returns desired Grace :
  total False (λ s : gc_state, room (length desired) (length desired) s.1)
    (Reconcile desired (Some (λ m, on_gate (shouldGC Grace m)))) always.
Proof.
  set (P := λ s : gc_state, room (length desired) (length desired) s.1).
  apply never_fails_bind with P.
  { apply total_attempt, total_may_fail, total_in_fst, vpp_DumpMasters_returns. }
  intros [e|actual]; [by intros s|]. unfold Diff. set (new := filter _ desired).
  assert (length new ≤ length desired) as Hnew by apply length_filter.
  apply never_fails_bind with (λ s : gc_state, room 0 0 s.1).
  { eapply total_weaken; [apply (create_all_returns new 0 0 0)| |done].
    intros s Hs. eapply room_le; [exact Hs|lia..]. }
  intros [c [e|]]; [by intros s|].
  eapply never_fails_bind; [apply delete_all_returns|]. intros [d [e|]]; [by intros s|].
  cbv zeta. apply never_fails_bind with always; [|by intros _ s].
  apply total_attempt. eapply total_weaken; [apply always_on_fst, sweep_total|done|done].
Qed.

Lemma nadLookup_total ns name :
  settles always (GetNADConfig ns name) → settles always (nadLookup ns name).
Proof.
  intros Hnad. apply settles_bind; [auto with total_db|intros c].
  destruct (nadErr c !! _); [auto with total_db|]. destruct (nadCache c !! _); [auto with total_db|].
  apply settles_bind; [apply total_attempt, always_on_fst, Hnad|].
  intros [e|cfg]; (apply settles_bind; [auto with total_db|intros _; auto with total_db]).
Qed.

(** The masters of a pod, under any condition that looking its networks up keeps. *)
Lemma desiredForPod_total I pod :
  (∀ n, n ∈ parseNetworks (annotation pod netAnnotKey) (Pod.Namespace pod) →
     settles I (nadLookup (nr_Namespace n) (nr_Name n))) →
  settles I (desiredForPod nadLookup pod).
Proof.
  intros Hlookup. unfold desiredForPod. cbv zeta. set (nets := parseNetworks _ _) in *.
  assert (settles I (nad_hosts nadLookup nets)) as Hhosts.
  { induction nets as [|n nets IH]; [by intros s|].
    apply settles_bind; [apply total_wrap_err, Hlookup; left|intros cfg].
    destruct (unmarshal _ _ _); [auto with total_db|].
    apply settles_bind; [apply IH; intros; apply Hlookup; by right|auto with total_db]. }
  case_decide; [auto with total_db|].
  case_decide; [auto with total_db|]. destruct (unmarshal _ _ _) as [e|entries]; [auto with total_db|].
  case_decide; [auto with total_db|]. destruct (GetPodVolumeMountHostSharedDir _) as [e|dir];
    [auto with total_db|]. case_decide; [auto with total_db|].
  apply settles_bind; [apply Hhosts|]. intros [|h [|]]; auto with total_db.
Qed.

(** The desired masters of the pods are a list, whatever a pod says and whatever the
    API server refuses. *)
Lemma desired_pods_total pods :
  (∀ ns name, settles always (GetNADConfig ns name)) → total False always (desired_pods pods) always.
Proof.
  intros Hnad. induction pods as [|p pods IH]; [by intros s|]. apply never_fails_bind with always.
  { apply total_attempt, desiredForPod_total. intros n _. by apply nadLookup_total. }
  intros r. eapply never_fails_bind; [apply IH|]. by intros rest s.
Qed.

(** C9: Every round of the daemon ends with a report: when the API server's calls
    return, VPP answers, and there is fuel for what VPP holds and for the masters the
    pods ask for, Sync returns its counts and its error; it never panics, never
    loops for ever, and no failure of the API server, of VPP or of the file system
    ends it without the report. *)
Theorem Sync_returns Grace k n st :
  settles always ListNodePods →
  (∀ ns name, settles always (GetNADConfig ns name)) →
  (∀ pods k1 desired, ListNodePods k = (Ok pods, k1) →
     (desired_pods pods (k1, nad_cache_empty)).1 = Ok desired →
     room (length desired) (length desired) n) →
  ∃ created deleted err s', Sync fuel prefixes Grace (k, (n, st)) = (Ok (created, deleted, err), s').
Proof.
  intros Hlist Hnad Hroom.
  enough (returns False (Sync fuel prefixes Grace (k, (n, st))).1) as Hret.
  { destruct (Sync _ _ _ _) as [[[[c d] e]|?|?|] s']; [by exists c, d, e, s'|done..]. }
  unfold Sync. erewrite bind_Ok by reflexivity. rewrite run_bind, run_attempt. unfold on_fst. cbn [fst snd].
  destruct (Hlist k I) as [Hl _]. destruct (ListNodePods k) as [[pods|e|w|] k1]; simpl in Hl;
    [|done..].
  rewrite run_bind. unfold on_cluster. cbn [fst snd].
  destruct (desired_pods_total pods Hnad (k1, nad_cache_empty) I) as [Hd _].
  specialize (Hroom pods k1). destruct (desired_pods pods _) as [[desired|e|w|] [k2 c]]; simpl in Hd; [|done..].
  unfold on_snd. cbn [fst snd].
  destruct (Reconcile_returns desired Grace (n, next_round st)) as [Hr _]; [by apply Hroom|].
  unfold dp in Hr. by destruct (Reconcile _ _ _) as [o s].
Qed.
End Round.
