(* ===== verification/EndToEnd.v ===== *)
(** * From ADD to the restored interface

    The plugin and the restore daemon together: the pod that a successful ADD sent to
    the API server is one from which the daemon makes the interface anew, whatever
    became of VPP in between. *)
From S2P Require Import Prelude GoStrings GoOs Total Json Logging Types JsonCodec.
From S2P Require Import Annotations ConfigData LocalDb VppApi Memif Bridge CniVpp OvsDb CniOvs Cni.
From S2P Require Import Reconcile Gc Desired Dataplane Restore CniProps Sync Termination.

(** ** The annotation that was sent *)

Lemma str_rev_app_snoc s a acc : str_rev_app (s +:+ String a EmptyString) acc = String a (str_rev_app s acc).
Proof. revert acc. induction s as [|x s IH]; intros acc; [done|]. apply IH. Qed.

(** A list in brackets is not trimmed. *)
Lemma trim_space_brackets u : trim_space ("[" +:+ u +:+ "]") = "[" +:+ u +:+ "]".
Proof.
  set (t := "[" +:+ u +:+ "]").
  assert (str_rev t = String "]" (str_rev_app ("[" +:+ u) EmptyString)) as Hrev.
  { unfold t, str_rev. rewrite <- str_app_assoc. apply str_rev_app_snoc. }
  unfold trim_space. rewrite (strip_none _ space_encodings t) by reflexivity.
  rewrite (strip_none _ _ (str_rev t)) by (rewrite Hrev; reflexivity).
  unfold str_rev. rewrite str_rev_app_rev. apply (str_app_nil_r t).
Qed.

Section Sent.
Context `{KubeLaws} `{CniLibLaws}.

(** What an update of the annotations leaves alone. *)
Definition same_pod (p q : Pod.t) : Prop :=
  q = Pod.set_Annotations (Pod.Annotations q) p ∧
  ∀ key, key ∉ [AnnotKeyUsrspConfigData; AnnotKeyUsrspMappedDir] →
    Pod.Annotations p !! key = Pod.Annotations q !! key.

#[export] Instance same_pod_preorder : PreOrder same_pod.
Proof.
  unfold same_pod. split; [by intros []|]. intros p q r (-> & Hpq) (-> & Hqr).
  split; [done|]. intros key Hkey. by rewrite Hpq, Hqr.
Qed.

Lemma same_pod_set key v p :
  key ∈ [AnnotKeyUsrspConfigData; AnnotKeyUsrspMappedDir] → same_pod p (set_annotation key v p).
Proof.
  intros Hin. split; [done|]. intros key' Hkey'. unfold set_annotation. simpl.
  rewrite lookup_insert_ne; [done|]. by intros ->.
Qed.

(** The shared directory and the networks are not among it. *)
Lemma same_pod_dir p q :
  same_pod p q → GetPodVolumeMountHostSharedDir (Some q) = GetPodVolumeMountHostSharedDir (Some p).
Proof.
  intros [-> _]. generalize (Pod.Annotations q). intros a.
  assert (∀ vols, shared_volume (Pod.set_Annotations a p) vols = shared_volume p vols) as Hv.
  { induction vols as [|v vols IH]; [done|]. cbn [shared_volume]. by rewrite IH. }
  unfold GetPodVolumeMountHostSharedDir.
  change (Pod.Volumes (Pod.set_Annotations a p)) with (Pod.Volumes p).
  destruct (Pod.Volumes p); [done|]. by rewrite Hv.
Qed.

Lemma same_pod_networks p q :
  same_pod p q → parseNetworks (annotation q netAnnotKey) (Pod.Namespace q) =
                 parseNetworks (annotation p netAnnotKey) (Pod.Namespace p).
Proof.
  intros [Hq Hkeys]. unfold annotation. rewrite <- (Hkeys netAnnotKey).
  - by rewrite Hq.
  - rewrite !elem_of_cons, elem_of_nil. by intros [?|[?|[]]].
Qed.

Lemma annotation_set key v p : annotation (set_annotation key v p) key = v.
Proof. unfold annotation, set_annotation. simpl. by rewrite lookup_insert_eq. Qed.
Lemma annotation_set_ne key key' v p :
  key ≠ key' → annotation (set_annotation key v p) key' = annotation p key'.
Proof. intros Hne. unfold annotation, set_annotation. simpl. by rewrite lookup_insert_ne. Qed.

(** An API server that accepts the update stores the pod it was sent, with the new
    data after what earlier calls wrote. *)
Lemma WritePodAnnotation_sent answer stored c pod l k r k' p' :
  (∀ p, kube_UpdateStatus p k = ((answer p, None), stored p)) →
  written l (annotation pod AnnotKeyUsrspConfigData) →
  WritePodAnnotation true (Some c) (k, Some pod) = (Ok r, (k', p')) →
  ∃ sent, k' = stored sent ∧ same_pod pod sent ∧
    written (l ++ [c]) (annotation sent AnnotKeyUsrspConfigData).
Proof.
  intros Hup Hw Hrun. destruct (e_ConfigurationData c) as [e|j] eqn:Hj.
  { unfold WritePodAnnotation in Hrun. rewrite run_bind, run_gets in Hrun. cbn [snd] in Hrun.
    rewrite decide_False in Hrun by done. cbn [negb] in Hrun. rewrite run_bind in Hrun.
    unfold on_snd at 1 in Hrun. simpl in Hrun. by rewrite Hj in Hrun. }
  rewrite (WritePodAnnotation_prepared _ _ _ _ Hj) in Hrun. cbv zeta in Hrun.
  pose proof (appended_written _ _ _ _ Hw Hj) as Hw'.
  set (p1 := set_annotation AnnotKeyUsrspConfigData _ pod) in Hrun.
  assert (same_pod pod p1) as Hs1 by (apply same_pod_set; left).
  rewrite <- (annotation_set AnnotKeyUsrspConfigData _ pod) in Hw'. fold p1 in Hw'.
  assert (∀ p, on_fst (k8s_WritePodAnnotation true (Some p)) (k, Some p) = (Ok r, (k', p')) →
    k' = stored p) as Hsent.
  { intros p [Hone _]%on_fst_inv. simpl in Hone.
    rewrite (k8s_WritePodAnnotation_first _ _ _ _ (Hup p)) in Hone. by injection Hone. }
  clearbody p1. cbn [setPodAnnotationMappedDir] in Hrun.
  destruct (decide (annotation p1 AnnotKeyUsrspMappedDir ≠ EmptyString)).
  - destruct (decide (path_clean _ = path_clean _)); [|done]. exists p1. eauto.
  - eexists. split; [exact (Hsent _ Hrun)|]. split.
    + etrans; [exact Hs1|]. apply same_pod_set. right. left.
    + by rewrite annotation_set_ne.
Qed.
End Sent.

(** ** What the daemon makes of it *)

Section Daemon.
Context `{CniLibLaws} `{Cluster}.

(** A pod with one network, a shared directory, and the configuration data ADD wrote,
    each with a result that the CNI library reads from its own text. *)
Record carries (p : Pod.t) (net : networkRef) (dir : string) (entries : list ConfigurationData.t)
  : Prop := {
  ca_net : parseNetworks (annotation p netAnnotKey) (Pod.Namespace p) = [net];
  ca_dir : GetPodVolumeMountHostSharedDir (Some p) = inr dir;
  ca_wf : Forall ConfigurationData_wf entries;
  ca_written : written entries (annotation p AnnotKeyUsrspConfigData);
  ca_readable : Forall readable entries
}.

(** The cluster stays as it is, and the cache of the round says what it says. *)
Definition round_ok (k : cluster) (nads : string → string → result string)
  (s : cluster * nad_cache) : Prop := s.1 = k ∧ cache_ok nads s.2.

Definition plain_networks (p : Pod.t) : Prop :=
  ∀ n, n ∈ parseNetworks (annotation p netAnnotKey) (Pod.Namespace p) →
    no_char slash (nr_Namespace n) = true.

Section Round.
Variable k : cluster.
Variable nads : string → string → result string.
Hypothesis steady_k : steady k nads.

Lemma nadLookup_round_ok n :
  no_char slash (nr_Namespace n) = true →
  settles (round_ok k nads) (nadLookup (nr_Namespace n) (nr_Name n)).
Proof.
  intros Hns [k0 c] [Hk Hc]. simpl in Hk, Hc. subst k0. destruct (nadLookup_transparent k nads c _ (nr_Name n) steady_k Hc Hns)
    as (c' & -> & Hc'). split; [by destruct (nads _ _)|by split].
Qed.

(** The masters of a pod that carries the entries. *)
Lemma desiredForPod_carries p net dir entries text nc c :
  carries p net dir entries → entries ≠ [] → plain_networks p → cache_ok nads c →
  nads (nr_Namespace net) (nr_Name net) = inr text → unmarshal d_NetConf text NetConf.zero = inr nc →
  (desiredForPod nadLookup p (k, c)).1 =
    match buildDesired entries (NetConf.HostConf nc) dir with inl e => Err e | inr l => Ok l end.
Proof.
  intros [Hnet Hdir Hwf Hw Hrd] Hne Hplain Hc Htext Hnc. unfold desiredForPod. cbv zeta. rewrite Hnet.
  assert (no_char slash (nr_Namespace net) = true) as Hns by (apply Hplain; rewrite Hnet; left).
  apply Forall_exists_Forall2_l in Hrd as [entries' Hrd].
  pose proof (written_read _ _ _ Hne Hwf Hw Hrd) as Hread.
  assert (entries' ≠ []) as Hne' by (intros ->; by apply Forall2_nil_inv_r in Hrd).
  rewrite <- (buildDesired_read_back _ _ _ _ Hrd).
  assert (trim_space (annotation p AnnotKeyUsrspConfigData) ≠ EmptyString) as Htrim.
  { destruct Hw as (js & Hjs & ->). destruct js; [by apply Forall2_nil_inv_r in Hjs|].
    unfold annotation_text. rewrite trim_space_brackets. done. }
  assert (dir ≠ EmptyString) as Hdne.
  { intros ->. unfold GetPodVolumeMountHostSharedDir in Hdir. destruct (Pod.Volumes p); [done|].
    destruct (shared_volume _ _) as [?|d]; [done|]. case_decide; [done|]. by injection Hdir. }
  rewrite decide_False, decide_False, Hread, decide_False, Hdir, decide_False by done.
  destruct (nadLookup_transparent k nads c _ (nr_Name net) steady_k Hc Hns) as (c' & Hrun & _).
  rewrite Htext in Hrun. cbn [nad_hosts]. rewrite run_bind, run_bind.
  rewrite (wrap_err_Ok _ _ _ _ _ Hrun), Hnc, run_bind. cbn.
  by destruct (buildDesired _ _ _).
Qed.

(** A master of one pod is among the desired ones. *)
Lemma desired_pods_member pods p m c desired :
  p ∈ pods → Forall plain_networks pods → cache_ok nads c →
  (∀ c, cache_ok nads c → ∃ ms, (desiredForPod nadLookup p (k, c)).1 = Ok ms ∧ m ∈ ms) →
  (desired_pods pods (k, c)).1 = Ok desired → m ∈ desired.
Proof.
  intros Hp Hplain Hc Hone. revert c Hc desired. induction pods as [|q pods IH]; intros c Hc desired Hrun;
    [by apply elem_of_nil in Hp|].
  apply Forall_cons in Hplain as [Hq Hplain]. cbn [desired_pods] in Hrun.
  rewrite run_bind, run_attempt in Hrun.
  destruct (desiredForPod_total (round_ok k nads) q (λ n Hn, nadLookup_round_ok n (Hq n Hn)) (k, c))
    as [_ [Hk Hc']]; [by split|].
  apply elem_of_cons in Hp as [<-|Hp].
  - destruct (Hone c Hc) as (ms & Hms & Hm).
    destruct (desiredForPod nadLookup p (k, c)) as [o [k1 c1]]. simpl in Hms, Hk, Hc'. subst o k1.
    rewrite run_bind in Hrun. destruct (desired_pods pods (k, c1)) as [[rest|?|?|] s2]; [|done..].
    injection Hrun as <-. apply elem_of_app. by left.
  - destruct (desiredForPod nadLookup q (k, c)) as [o [k1 c1]]. simpl in Hk, Hc'. subst k1.
    specialize (IH Hp Hplain c1 Hc').
    destruct o as [ms|e|?|]; [..|done|done]; rewrite run_bind in Hrun;
      (destruct (desired_pods pods (k, c1)) as [[rest|?|?|] s2]; [|done..]); injection Hrun as <-;
      specialize (IH rest eq_refl); [apply elem_of_app; by right|done].
Qed.
End Round.
End Daemon.

(** ** ADD, then a round *)

(** An error of an entry is one of the host's configuration, the same for all. *)
Lemma desiredMemif_host e1 e2 host dir om :
  desiredMemif e1 host dir = inr om → ∃ om', desiredMemif e2 host dir = inr om'.
Proof.
  unfold desiredMemif. destruct (negb _); [by eexists|]. destruct (_ && _); [by eexists|].
  destruct (if equal_fold _ _ then _ else _); [done|]. by eexists.
Qed.

Lemma buildDesired_member entries e host dir m :
  e ∈ entries → desiredMemif e host dir = inr (Some m) →
  ∃ out, buildDesired entries host dir = inr out ∧ m ∈ out.
Proof.
  intros He Hm. assert (∀ es, ∃ out, buildDesired es host dir = inr out) as Hall.
  { induction es as [|e' es [out IH]]; [by eexists|]. simpl.
    destruct (desiredMemif_host _ e' _ _ _ Hm) as [om ->]. rewrite IH. by eexists. }
  destruct (Hall entries) as [out Hout]. exists out. split; [done|].
  apply buildDesired_Ok in Hout as [-> _]. apply list_elem_of_omap. exists e. by rewrite Hm.
Qed.

Section EndToEnd.
Context `{VppLaws} `{OvsApi} `{OvsHost} `{UserDb} `{KubeLaws} `{K8sConfig} `{CniLibLaws} `{CniHost}.
Context `{Cluster} `{MapOrder}.
Variable fuel : nat.
Variable order : gmap string json → list (string * json).

(** What the daemon reads: the cluster [k], which stays as it is for the round, lists
    the pod, the network of the pod has the host configuration of ADD, and the prefixes
    cover what the pods ask for. *)
Record daemon_sees (prefixes : list string) (p : Pod.t) (net : networkRef) (conf : NetConf.t)
    (k : cluster) (nads : string → string → result string) (pods : list Pod.t) : Prop := {
  ds_steady : steady k nads;
  ds_list : ListNodePods k = (Ok pods, k);
  ds_pod : p ∈ pods;
  ds_plain : Forall plain_networks pods;
  ds_nad : ∃ text nc, nads (nr_Namespace net) (nr_Name net) = inr text ∧
             unmarshal d_NetConf text NetConf.zero = inr nc ∧
             NetConf.HostConf nc = NetConf.HostConf conf;
  ds_managed : ∀ desired, (desired_pods pods (k, nad_cache_empty)).1 = Ok desired →
    Forall (vpp_managed prefixes) desired
}.

(** A round over a pod that carries an entry of ADD. *)
Lemma Sync_restores prefixes Grace p net dir entries conf args b ip k nads pods n st c d s' :
  carries p net dir entries → added_entry conf args ip ∈ entries → restorable conf b →
  daemon_sees prefixes p net conf k nads pods →
  Sync fuel prefixes Grace (k, (n, st)) = (Ok (c, d, None), s') →
  memif_path dir args conf ∈ mf_Socket <$> vpp_masters prefixes s'.2.1.
Proof.
  intros Hca Hin Hrs [Hsteady Hlist Hp Hplain (text & nc & Hnad & Hnc & Hhost) Hman] Hrun.
  apply Sync_Ok in Hrun as (pods' & k1 & desired & Hlist' & Hdes & Hrec).
  rewrite Hlist in Hlist'. injection Hlist' as <- <-. specialize (Hman _ Hdes).
  destruct (desired_of_added conf args b ip dir Hrs) as (m & Hm & Hsock & _).
  destruct (buildDesired_member entries _ _ dir m Hin Hm) as (out & Hout & Hmout).
  assert (m ∈ desired) as Hmd.
  { apply (desired_pods_member k nads Hsteady pods p m nad_cache_empty);
      [done|done|apply cache_ok_empty| |exact Hdes].
    intros c0 Hc0. exists out. split; [|done].
    rewrite (desiredForPod_carries k nads Hsteady p net dir entries text nc c0), Hhost, Hout; try done.
    - intros ->. by apply elem_of_nil in Hin.
    - rewrite Forall_forall in Hplain. by apply Hplain. }
  destruct s' as [k' [n' st']]. simpl in Hrec |- *.
  apply (@Reconcile_gated _ _ (fst_dataplane_laws node rstate _ (vpp_dataplane_laws fuel prefixes)))
    in Hrec as (Hall & _); [|done|apply shouldGC_gate_reads].
  rewrite <- Hsock. by apply Hall, list_elem_of_fmap_2.
Qed.

(** The entry of an ADD that could read its configuration: its numbers fit their fields. *)
Lemma added_entry_wf args text conf ip :
  unmarshal d_NetConf text NetConf.zero = inr conf →
  ConfigurationData_text (added_entry conf args ip) → ConfigurationData_wf (added_entry conf args ip).
Proof.
  intros [_ Hwf]%unmarshal_NetConf_wf Htext. split; [done|].
  unfold added_entry, remote_config. cbn [ConfigurationData.Config]. by apply container_config_wf.
Qed.

(** C2: What ADD made comes back.  Let an ADD succeed for a memif master of a
    configuration on which plugin and daemon agree ([restorable], see C10), with strings
    in UTF-8, and for a pod with one network and a shared directory, whose annotation
    is absent or holds the readable data of earlier ADDs; and let the API server
    accept the first status update.  Then the server was sent that pod, with nothing
    changed but the two annotations, and the data of this ADD after the old.  If the
    CNI library can read the text of this ADD's result, and the API server stays
    unchanged for a round, lists the pod that was sent, gives its network the host
    configuration of the ADD, and the managed prefixes cover what the pods ask for,
    then from any state of VPP, one that lost everything included, a round that
    reports no error leaves a master on the socket of the ADD. *)
Theorem ADD_is_restored args kc w w' conf b pod k0 answer stored dir net l :
  CmdAdd fuel order args kc w = (Ok tt, w') →
  unmarshal d_NetConf (CmdArgs.StdinData args) NetConf.zero = inr conf →
  UserSpaceConf.Engine (NetConf.HostConf conf) = "vpp" → restorable conf b →
  GetPod args kc (NetConf.KubeConfig conf) (w_kube w) = ((Some pod, true, None), k0) →
  (∀ p, kube_UpdateStatus p k0 = ((answer p, None), stored p)) →
  carries pod net dir l →
  (∀ r, ConfigurationData_text (added_entry conf args (Some r))) →
  ∃ sent r, w_kube w' = stored sent ∧ same_pod pod sent ∧
    let entry := added_entry conf args (Some r) in
    written (l ++ [entry]) (annotation sent AnnotKeyUsrspConfigData) ∧
    (readable entry →
     ∀ prefixes Grace k nads pods n st c d s',
       daemon_sees prefixes sent net conf k nads pods →
       Sync fuel prefixes Grace (k, (n, st)) = (Ok (c, d, None), s') →
       memif_path dir args conf ∈ mf_Socket <$> vpp_masters prefixes s'.2.1).
Proof.
  intros Hrun Hconf Hengine Hrs Hpod Hup [Hnet Hdir Hwf Hw Hrd] Htext.
  destruct (CmdAdd_memif_Ok _ _ _ _ _ _ _ Hrun Hconf Hengine (rs_type _ _ Hrs))
    as (pod' & r & d & Hpod' & _ & _ & q & p' & Hsend).
  rewrite Hpod in Hpod', Hsend. injection Hpod' as <-.
  destruct (WritePodAnnotation_sent answer stored _ _ l _ _ _ _ Hup Hw Hsend)
    as (sent & Hk & Hsame & Hw').
  exists sent, r. split; [exact Hk|]. split; [exact Hsame|]. split; [exact Hw'|].
  intros Hread prefixes Grace k nads pods n st c d' s' Hsees Hsync.
  eapply Sync_restores; [| |exact Hrs|exact Hsees|exact Hsync].
  - split; [| | |exact Hw'|].
    + by rewrite (same_pod_networks _ _ Hsame).
    + by rewrite (same_pod_dir _ _ Hsame).
    + apply Forall_app. split; [done|]. constructor; [|constructor].
      by eapply added_entry_wf.
    + apply Forall_app. split; [done|]. by constructor.
  - apply elem_of_app. right. left.
Qed.
End EndToEnd.
