(* ===== verification/Status.v ===== *)
(** * pkg/daemon/status.go and watch_vpp.go: observability, and the watch loop

    The counters and flags of Status, and watchOnce as a transition system: one
    transition per event the select can take. *)
From S2P Require Import Prelude GoStrings GoOs Json Types JsonCodec Annotations VppApi Memif.
From S2P Require Import Bridge Reconcile Gc Desired Dataplane Sync.

Record Status := MkStatus {
  connected : bool;
  reconcileTotal : Z;
  reconcileErrors : Z;
  memifsCreated : Z;
  memifsDeleted : Z;
  lastReconcileOK : bool;
  sawReconcile : bool
}.

Definition status_init : Status := MkStatus false 0 0 0 0 false false.

Definition SetConnected (v : bool) (s : Status) : Status :=
  MkStatus v (reconcileTotal s) (reconcileErrors s) (memifsCreated s) (memifsDeleted s)
    (lastReconcileOK s) (sawReconcile s).

Definition RecordReconcile (created deleted : Z) (err : option error) (s : Status) : Status :=
  let failed := bool_decide (err ≠ None) in
  MkStatus (connected s) (reconcileTotal s + 1)
    (if failed then reconcileErrors s + 1 else reconcileErrors s)
    (memifsCreated s + created) (memifsDeleted s + deleted)
    (negb failed) true.

Definition ready (s : Status) : bool :=
  if negb (connected s) then false
  else negb (sawReconcile s) || lastReconcileOK s.

(** The HTTP status of the /readyz endpoint. *)
Definition readyz (s : Status) : Z := if ready s then 200 else 503.

(** ** The watch loop *)

(** The states of a govpp connection event. *)
Inductive conn_state := Connected | Disconnected | Failed | OtherState.

(** What the select of watchOnce can receive: an event of the connection, the
    end of the event stream, the debounce timer, the ticker, the end of ctx. *)
Inductive watch_event :=
  | EvState (st : conn_state) (err : string)
  | EvClosed
  | EvDebounce
  | EvTick
  | EvDone.

Section Watch.
Context `{CniLib} `{Cluster} `{VppApi} `{MapOrder}.
Variable fuel : nat.
Variable socketPrefix : string.
Variable Grace : Z.

Notation sync_state := (cluster * (node * rstate))%type.

(** The variables of the loop (connected; whether the debounce timer runs), the
    Status of the Reconciler (when it has one) and the state Sync works on. *)
Record watch_state := WatchState {
  w_connected : bool;
  w_armed : bool;
  w_status : option Status;
  w_sync : sync_state
}.

Definition set_connected (v : bool) (w : watch_state) : watch_state :=
  WatchState (w_connected w) (w_armed w) (SetConnected v <$> w_status w) (w_sync w).
Definition loop_vars (connected armed : bool) (w : watch_state) : watch_state :=
  WatchState connected armed (w_status w) (w_sync w).

(** onConnected: open a channel, Sync, record the result. *)
Definition onConnected : go watch_state unit := λ w,
  match OpenChannel (node_vpp (w_sync w).2.1) with
  | Some _ => (Ok tt, w)
  | None =>
      match Sync fuel (NewVPPDataplane socketPrefix) Grace (w_sync w) with
      | (Ok (created, deleted, err), s) =>
          (Ok tt, WatchState (w_connected w) (w_armed w)
                    (RecordReconcile created deleted err <$> w_status w) s)
      | (Err e, s) => (Err e, WatchState (w_connected w) (w_armed w) (w_status w) s)
      | (Panicked p, s) => (Panicked p, WatchState (w_connected w) (w_armed w) (w_status w) s)
      | (Diverged, s) => (Diverged, WatchState (w_connected w) (w_armed w) (w_status w) s)
      end
  end.

(** One round of the select: whether the loop goes on, or returns (nil, or an
    error). *)
Definition watch_handle (ev : watch_event) : go watch_state (option (option error)) :=
  match ev with
  | EvDone => mret (Some None)
  | EvClosed => mret (Some (Some (ErrNew "vpp event stream closed")))
  | EvState Connected _ => modify (λ w, set_connected true (loop_vars true true w)) ;; mret None
  | EvState Disconnected _ =>
      modify (λ w, set_connected false (loop_vars false false w)) ;; mret None
  | EvState Failed err =>
      modify (set_connected false) ;;
      mret (Some (Some (ErrNew ("vpp connection failed: " +:+ err))))
  | EvState OtherState _ => mret None
  | EvDebounce => modify (λ w, loop_vars (w_connected w) false w) ;; onConnected ;; mret None
  | EvTick =>
      w ← gets id;
      (if w_connected w then onConnected else mret tt) ;; mret None
  end.

(** The timer fires only while it runs. *)
Definition watch_enabled (ev : watch_event) (w : watch_state) : bool :=
  match ev with EvDebounce => w_armed w | _ => true end.

(** The loop over a sequence of events, up to the one that ends it. *)
Fixpoint watch_loop (evs : list watch_event) : go watch_state (option (option error)) :=
  match evs with
  | [] => mret None
  | ev :: evs' =>
      w ← gets id;
      if watch_enabled ev w then
        r ← watch_handle ev;
        match r with None => watch_loop evs' | Some _ => mret r end
      else watch_loop evs'
  end.

(** watchOnce, for the answer of govpp.AsyncConnect and the events of the cycle. *)
Definition watchOnce (connect : option error) (evs : list watch_event)
  : go watch_state (option (option error)) :=
  match connect with
  | Some err => mret (Some (Some (ErrWrap "vpp async connect" err)))
  | None => modify (loop_vars false false) ;; watch_loop evs
  end.

(** One turn of Run's loop: whether ctx has ended when it starts, what AsyncConnect
    answers, the events of the cycle, whether ctx ends during the back-off. *)
Record cycle := Cycle {
  cy_done : bool;
  cy_connect : option error;
  cy_events : list watch_event;
  cy_stopped : bool
}.

Definition context_canceled : error := ErrNew "context canceled".

(** Run, over the cycles seen so far: what it returned, if it did.  A cycle that
    ends in nil has seen the end of ctx. *)
Fixpoint Run (cycles : list cycle) : go watch_state (option error) :=
  match cycles with
  | [] => mret None
  | c :: rest =>
      if cy_done c then mret (Some context_canceled)
      else
        r ← watchOnce (cy_connect c) (cy_events c);
        match r with
        | None => mret None
        | Some None => mret (Some context_canceled)
        | Some (Some _) => if cy_stopped c then mret (Some context_canceled) else Run rest
        end
  end.

(** A cycle in which VPP cannot be reached. *)
Definition failed_cycle (err : error) : cycle := Cycle false (Some err) [] false.

(** What the loop keeps. *)
Definition watch_ok (w : watch_state) : Prop :=
  (w_armed w = true → w_connected w = true) ∧
  (∀ s, w_status w = Some s → w_connected w = true → connected s = true).

Lemma onConnected_flags w :
  let w' := (onConnected w).2 in
  w_connected w' = w_connected w ∧ w_armed w' = w_armed w ∧
  connected <$> w_status w' = connected <$> w_status w.
Proof.
  unfold onConnected. destruct (OpenChannel _); [done|].
  destruct (Sync _ _ _ _) as [[[[c d] e]|?|?|] s]; [|done..].
  simpl. by destruct (w_status w).
Qed.

Lemma watch_ok_flags w w' :
  w_connected w' = w_connected w → (w_armed w' = true → w_armed w = true) →
  connected <$> w_status w' = connected <$> w_status w → watch_ok w → watch_ok w'.
Proof.
  intros Hc Ha Hs [HA HS]. split; rewrite Hc; [auto|]. intros s Es Hconn.
  rewrite Es in Hs. destruct (w_status w) as [s0|] eqn:E0; simplify_eq/=.
  rewrite Hs. by apply HS.
Qed.

Lemma watch_handle_ok ev w :
  watch_ok w → watch_enabled ev w = true →
  match ev with EvState Failed _ => True | _ => watch_ok (watch_handle ev w).2 end.
Proof.
  intros Hok Hen. destruct ev as [[] ?| | | |]; try done.
  - split; [done|]. simpl. intros s. destruct (w_status w); by intros; simplify_eq/=.
  - simpl in *. rewrite run_bind, run_modify.
    pose proof (onConnected_flags (loop_vars (w_connected w) false w)) as Hf.
    rewrite run_bind. destruct (onConnected _) as [[[]|?|?|] w']; simpl in *;
      destruct Hf as (Hc & Ha & Hs); (apply (watch_ok_flags w); [done|by rewrite Ha|done..]).
  - cbn [watch_handle]. rewrite run_bind, run_gets, run_bind. unfold id.
    destruct (w_connected w); [|done]. pose proof (onConnected_flags w) as Hf.
    destruct (onConnected _) as [[[]|?|?|] w']; simpl in *;
      destruct Hf as (Hc & Ha & Hs); (apply (watch_ok_flags w); [done|by rewrite Ha|done..]).
Qed.

(** The states in which a cycle takes its events. *)
Inductive cycle_reach (w0 : watch_state) : watch_state → Prop :=
  | cr_start : cycle_reach w0 (loop_vars false false w0)
  | cr_event w ev w' :
      cycle_reach w0 w → watch_enabled ev w = true →
      watch_handle ev w = (Ok None, w') → cycle_reach w0 w'.

Lemma cycle_reach_ok w0 w : cycle_reach w0 w → watch_ok w.
Proof.
  induction 1 as [|w ev w' _ IH Hen Hh]; [by split|].
  pose proof (watch_handle_ok ev w IH Hen) as Hok. rewrite Hh in Hok.
  destruct ev as [[] ?| | | |]; try done.
Qed.

(** C37: The daemon touches VPP and the socket files only while it is connected:
    in every state of a cycle in which the last connection event was not
    Connected, the next event of whatever kind leaves the node, the cluster and the
    garbage collector's counters as they are; and while it is connected the Status
    says so. *)
Theorem watch_idle_disconnected w0 w ev :
  cycle_reach w0 w → watch_enabled ev w = true →
  (w_connected w = false → w_sync (watch_handle ev w).2 = w_sync w) ∧
  (∀ s, w_status w = Some s → w_connected w = true → connected s = true).
Proof.
  intros Hr Hen. apply cycle_reach_ok in Hr as [Harm Hs]. split; [|done].
  intros Hc. destruct ev as [[] ?| | | |]; try done.
  - simpl in Hen. rewrite Harm in Hc by done. done.
  - cbn [watch_handle]. rewrite run_bind, run_gets. unfold id. by rewrite Hc.
Qed.

Lemma watch_loop_app evs1 evs2 w w' :
  watch_loop evs1 w = (Ok None, w') → watch_loop (evs1 ++ evs2) w = watch_loop evs2 w'.
Proof.
  revert w. induction evs1 as [|ev evs1 IH]; intros w; simpl; [by intros [= ->]|].
  unfold gets. rewrite !run_bind. unfold id. destruct (watch_enabled ev w); [|apply IH].
  rewrite !run_bind. destruct (watch_handle ev w) as [[[r|]|?|?|] w1]; try done. apply IH.
Qed.

Lemma Run_failed n err w :
  Run (replicate n (failed_cycle err)) w = (Ok None, w).
Proof. induction n as [|n IH]; [done|]. simpl. rewrite run_bind. by apply IH. Qed.

(** When the event stream of a connection closes, the Status keeps what the
    last event said, and goes on saying it through every reconnection that fails
    (only a Disconnected or Failed event resets the flag): a daemon that was ready
    stays ready for as long as VPP's socket does not come back. *)
Theorem watch_closed_stays_ready evs n err w0 w s :
  watch_loop evs (loop_vars false false w0) = (Ok None, w) →
  w_status w = Some s → ready s = true →
  ∃ w', Run (Cycle false None (evs ++ [EvClosed]) false :: replicate n (failed_cycle err)) w0
          = (Ok None, w') ∧
    w_status w' = Some s ∧ readyz s = 200%Z.
Proof.
  intros Hrun Hs Hready. exists w. unfold readyz. rewrite Hready. split; [|done].
  cbn [Run watchOnce cy_done cy_connect cy_events]. rewrite !run_bind, run_modify, (watch_loop_app _ _ _ _ Hrun).
  by apply Run_failed.
Qed.
End Watch.

(** ** The Status *)

(** The calls a Status has seen. *)
Inductive status_event := SawConnected (v : bool) | SawReconcile (c d : Z) (err : option error).

Definition status_apply (e : status_event) (s : Status) : Status :=
  match e with
  | SawConnected v => SetConnected v s
  | SawReconcile c d err => RecordReconcile c d err s
  end.

Definition status_run (es : list status_event) : Status :=
  foldl (λ s e, status_apply e s) status_init es.

Definition reconcile_errs (es : list status_event) : list (option error) :=
  omap (λ e, match e with SawReconcile _ _ err => Some err | _ => None end) es.
Definition reconcile_counts (es : list status_event) : list (Z * Z) :=
  omap (λ e, match e with SawReconcile c d _ => Some (c, d) | _ => None end) es.
Definition connections (es : list status_event) : list bool :=
  omap (λ e, match e with SawConnected v => Some v | _ => None end) es.

Lemma status_run_app es e : status_run (es ++ [e]) = status_apply e (status_run es).
Proof. unfold status_run. by rewrite foldl_app. Qed.

Lemma sumZ_app (l k : list Z) : foldr Z.add 0%Z (l ++ k) = (foldr Z.add 0 l + foldr Z.add 0 k)%Z.
Proof. induction l as [|x l IH]; simpl; [done|]. rewrite IH. lia. Qed.

Lemma reconcile_errs_app es e :
  reconcile_errs (es ++ [e]) =
  reconcile_errs es ++ match e with SawReconcile _ _ err => [err] | _ => [] end.
Proof. unfold reconcile_errs. rewrite omap_app. by destruct e. Qed.
Lemma reconcile_counts_app es e :
  reconcile_counts (es ++ [e]) =
  reconcile_counts es ++ match e with SawReconcile c d _ => [(c, d)] | _ => [] end.
Proof. unfold reconcile_counts. rewrite omap_app. by destruct e. Qed.
Lemma connections_app es e :
  connections (es ++ [e]) = connections es ++ match e with SawConnected v => [v] | _ => [] end.
Proof. unfold connections. rewrite omap_app. by destruct e. Qed.

(** The flags are the last calls of their kind. *)
Lemma status_flags es :
  connected (status_run es) = default false (last (connections es)) ∧
  sawReconcile (status_run es) = bool_decide (reconcile_errs es ≠ []) ∧
  lastReconcileOK (status_run es) = bool_decide (last (reconcile_errs es) = Some None).
Proof.
  induction es as [|e es (IH1 & IH2 & IH3)] using rev_ind; [done|].
  rewrite status_run_app, connections_app, reconcile_errs_app.
  destruct e as [v|c d err]; rewrite app_nil_r, last_snoc; cbn [status_apply SetConnected
    RecordReconcile connected sawReconcile lastReconcileOK]; [by split_and!|].
  split_and!; [done| |].
  - symmetry. apply bool_decide_eq_true_2. by destruct (reconcile_errs es).
  - destruct err; [by rewrite bool_decide_eq_true_2, bool_decide_eq_false_2|].
    by rewrite bool_decide_eq_false_2, bool_decide_eq_true_2 by naive_solver.
Qed.

(** The counters count: after any sequence of calls the totals are the
    number of reconciles, of failed ones, and the sums of the masters created and
    deleted, and the daemon is ready exactly when the last connection state was
    connected and the last reconcile, if there was one, did not fail. *)
Lemma status_counts es :
  let s := status_run es in
  reconcileTotal s = Z.of_nat (length (reconcile_errs es)) ∧
  reconcileErrors s = Z.of_nat (length (filter (λ e, e ≠ None) (reconcile_errs es))) ∧
  memifsCreated s = foldr Z.add 0%Z ((reconcile_counts es).*1) ∧
  memifsDeleted s = foldr Z.add 0%Z ((reconcile_counts es).*2) ∧
  (ready s = true ↔ last (connections es) = Some true ∧
     (last (reconcile_errs es) = None ∨ last (reconcile_errs es) = Some None)).
Proof.
  intros s. destruct (status_flags es) as (H1 & H2 & H3). split_and!.
  1-4: subst s; clear H1 H2 H3; induction es as [|e es IH] using rev_ind; [done|];
    rewrite status_run_app, ?reconcile_errs_app, ?reconcile_counts_app, ?filter_app, ?fmap_app,
      ?sumZ_app; destruct e as [v|c d [err|]]; simpl; rewrite ?app_nil_r, ?length_app, ?IH;
    simpl; lia.
  fold s in H1, H2, H3. unfold ready. rewrite H1, H2, H3.
  destruct (last (connections es)) as [[]|]; simpl; [|naive_solver..].
  destruct (last (reconcile_errs es)) as [[]|] eqn:E.
  - rewrite bool_decide_eq_true_2 by (intros Hn; by rewrite Hn in E).
    rewrite bool_decide_eq_false_2 by done. naive_solver.
  - rewrite bool_decide_eq_true_2 by (intros Hn; by rewrite Hn in E). naive_solver.
  - apply last_None in E. rewrite E. naive_solver.
Qed.
