(* ===== verification/Endpoints.v ===== *)
(** * pkg/daemon/status.go: the endpoints

    /healthz, /readyz and /metrics as functions of the Status, and a reader of the
    metrics page: what a scrape sees is what the daemon counted.  The HTTP server
    and its answer to other paths are net/http's. *)
From S2P Require Import Prelude GoStrings GoOs Json Types JsonCodec Annotations VppApi Memif.
From S2P Require Import Bridge Reconcile Gc Desired Dataplane Sync Status.

Record response := Response { resp_code : Z; resp_body : string }.

Definition newline : ascii := chr 10.

(** Lines, each ended by a newline. *)
Fixpoint lines_text (ls : list string) : string :=
  match ls with
  | [] => EmptyString
  | l :: ls' => l +:+ String newline (lines_text ls')
  end.

(** One metric: its help, its type and its value. *)
Definition metric (name help kind : string) (v : Z) : list string :=
  ["# HELP " +:+ name +:+ " " +:+ help;
   "# TYPE " +:+ name +:+ " " +:+ kind;
   name +:+ " " +:+ print_int v].

Definition metrics_page (s : Status) : list string :=
  metric "userspace_cni_restore_vpp_connected" "VPP API connection state (1=connected)." "gauge"
    (if connected s then 1 else 0)%Z ++
  metric "userspace_cni_restore_reconcile_total" "Reconciles run." "counter" (reconcileTotal s) ++
  metric "userspace_cni_restore_reconcile_errors_total" "Reconciles that returned an error." "counter"
    (reconcileErrors s) ++
  metric "userspace_cni_restore_memifs_created_total" "memif masters (re)created." "counter"
    (memifsCreated s) ++
  metric "userspace_cni_restore_memifs_deleted_total" "orphan memif masters GC'd." "counter"
    (memifsDeleted s).

(** Handler: the answer to a registered path. *)
Definition Handler (s : Status) (path : string) : option response :=
  if decide (path = "/healthz") then Some (Response 200 (lines_text ["ok"]))
  else if decide (path = "/readyz") then
    Some (if ready s then Response 200 (lines_text ["ready"])
          else Response 503 (lines_text ["not ready: VPP disconnected or last reconcile failed"]))
  else if decide (path = "/metrics") then Some (Response 200 (lines_text (metrics_page s)))
  else None.

(** ** Reading the page *)

(** The value of a metric in a text: what follows its name on the first line that
    starts with the name and a space. *)
Definition metric_value (name text : string) : option Z :=
  l ← List.find (has_prefix (name +:+ " ")) (split_char newline text);
  match parse_int 64 (str_drop (S (String.length name)) l) with inr v => Some v | inl _ => None end.

Lemma split_lines ls :
  Forall (λ l, no_char newline l = true) ls → split_char newline (lines_text ls) = ls ++ [EmptyString].
Proof.
  induction 1 as [|l ls Hl _ IH]; [done|]. simpl. by rewrite split_char_app, split_char_no, IH.
Qed.

Lemma print_int_one_line n : no_char newline (print_int n) = true.
Proof.
  assert (∀ s, str_all is_digit s = true → no_char newline s = true) as Hd.
  { induction s as [|a s IH]; [done|]. simpl. intros [Ha Hs]%andb_prop.
    apply andb_true_intro. split; [|by apply IH]. apply negb_true_iff, bool_decide_eq_false_2.
    by intros ->. }
  unfold print_int. case_decide.
  - change (no_char newline (print_uint (- n)) = true). apply Hd, print_digits_digits; [lia|done].
  - apply Hd, print_digits_digits; [lia|done].
Qed.

Lemma metric_lines name help kind v :
  no_char newline name = true → no_char newline help = true → no_char newline kind = true →
  Forall (λ l, no_char newline l = true) (metric name help kind v).
Proof.
  intros Hn Hh Hk. unfold no_char, metric in *.
  repeat constructor; rewrite !str_all_app, ?Hn, ?Hh, ?Hk; try done. simpl. apply print_int_one_line.
Qed.

Lemma metrics_page_lines s : Forall (λ l, no_char newline l = true) (metrics_page s).
Proof. repeat apply Forall_app_2; by apply metric_lines. Qed.

Lemma str_drop_app s t : str_drop (String.length s) (s +:+ t) = t.
Proof. induction s as [|a s IH]; [done|]. exact IH. Qed.

(** The sample line of a metric is the one the reader finds. *)
Lemma metric_value_line name text l v :
  List.find (has_prefix (name +:+ " ")) (split_char newline text) = Some l →
  l = name +:+ " " +:+ print_int v → (- 2 ^ 63 ≤ v < 2 ^ 63)%Z →
  metric_value name text = Some v.
Proof.
  intros Hfind -> Hv. unfold metric_value. rewrite Hfind. cbn [mbind option_bind].
  assert (str_drop (S (String.length name)) (name +:+ " " +:+ print_int v) = print_int v) as ->.
  { rewrite <- str_app_assoc. replace (S (String.length name)) with (String.length (name +:+ " "))
      by (rewrite str_length_app; simpl; lia). apply str_drop_app. }
  by rewrite parse_print_int by (lia || done).
Qed.

Definition in_int64 (v : Z) : Prop := (- 2 ^ 63 ≤ v < 2 ^ 63)%Z.

(** What a scrape of /metrics reads is the state of the Status. *)
Lemma metrics_read s :
  in_int64 (reconcileTotal s) → in_int64 (reconcileErrors s) →
  in_int64 (memifsCreated s) → in_int64 (memifsDeleted s) →
  let page := lines_text (metrics_page s) in
  metric_value "userspace_cni_restore_vpp_connected" page = Some (if connected s then 1 else 0)%Z ∧
  metric_value "userspace_cni_restore_reconcile_total" page = Some (reconcileTotal s) ∧
  metric_value "userspace_cni_restore_reconcile_errors_total" page = Some (reconcileErrors s) ∧
  metric_value "userspace_cni_restore_memifs_created_total" page = Some (memifsCreated s) ∧
  metric_value "userspace_cni_restore_memifs_deleted_total" page = Some (memifsDeleted s).
Proof.
  intros H1 H2 H3 H4 page.
  assert (∀ name l v, List.find (has_prefix (name +:+ " ")) (metrics_page s ++ [EmptyString]) = Some l →
    l = name +:+ " " +:+ print_int v → in_int64 v → metric_value name page = Some v) as Hm.
  { intros name l v Hf. eapply metric_value_line. unfold page.
    by rewrite split_lines by apply metrics_page_lines. }
  split_and!; (eapply Hm; [reflexivity|reflexivity|]); [|done..].
  destruct (connected s); by split.
Qed.

(** C38: A scrape of /metrics reads what happened: after any sequence of calls of
    SetConnected and RecordReconcile (fewer than 2^63 of them, and as few memifs),
    the page shows the last connection state, the number of reconciles, how many of
    them failed, and the sums of the masters created and deleted; and /readyz answers
    200 exactly when the last state was connected and the last reconcile, if there
    was one, did not fail. *)
Theorem metrics_truth es :
  let errs := reconcile_errs es in
  let created := foldr Z.add 0%Z ((reconcile_counts es).*1) in
  let deleted := foldr Z.add 0%Z ((reconcile_counts es).*2) in
  in_int64 (Z.of_nat (length errs)) → in_int64 created → in_int64 deleted →
  ∃ page, Handler (status_run es) "/metrics" = Some (Response 200 page) ∧
  metric_value "userspace_cni_restore_vpp_connected" page =
    Some (if default false (last (connections es)) then 1 else 0)%Z ∧
  metric_value "userspace_cni_restore_reconcile_total" page = Some (Z.of_nat (length errs)) ∧
  metric_value "userspace_cni_restore_reconcile_errors_total" page =
    Some (Z.of_nat (length (filter (λ e, e ≠ None) errs))) ∧
  metric_value "userspace_cni_restore_memifs_created_total" page = Some created ∧
  metric_value "userspace_cni_restore_memifs_deleted_total" page = Some deleted ∧
  (resp_code <$> Handler (status_run es) "/readyz" = Some 200%Z ↔
     last (connections es) = Some true ∧ (last errs = None ∨ last errs = Some None)).
Proof.
  intros errs created deleted Hn Hc Hd. destruct (status_counts es) as (E1 & E2 & E3 & E4 & Hready).
  destruct (status_flags es) as [Hconn _]. fold errs in E1, E2, Hready. fold created in E3.
  fold deleted in E4. exists (lines_text (metrics_page (status_run es))). split; [done|].
  assert (in_int64 (Z.of_nat (length (filter (λ e, e ≠ None) errs)))) as He.
  { pose proof (length_filter (λ e : option error, e ≠ None) errs). unfold in_int64 in *. lia. }
  destruct (metrics_read (status_run es)) as (M1 & M2 & M3 & M4 & M5); [by rewrite ?E1, ?E2, ?E3, ?E4..|].
  rewrite <- Hconn, M1, M2, M3, M4, M5, E1, E2, E3, E4. do 5 (split; [done|]).
  rewrite <- Hready. unfold Handler. simpl. by destruct (ready _).
Qed.
