(* ===== verification/Daemon.v ===== *)
(** * cmd/daemon/main.go: the daemon's process

    From the command line to the exit status: the configuration, the Reconciler over
    the cluster of file KubeCluster, and the watch loop of file Status.  The HTTP
    server runs beside it; log lines are left out. *)
From S2P Require Import Prelude GoStrings GoOs Logging Json Types JsonCodec Annotations VppApi Memif.
From S2P Require Import Bridge Reconcile Gc Desired Dataplane Sync KubeCluster Status.

Record flags := Flags {
  apiSocket : string;
  fl_socketPrefix : string;
  logLevel : string;
  metricsAddr : string;
  gcGrace : Z
}.

(** The flags that are not given. *)
Definition default_flags : flags := Flags "" "" "info" ":9101" 2.

(** The configuration of the pod's service account, and the two clients. *)
Class InCluster := {
  rest_InClusterConfig : option error;
  kubernetes_NewForConfig : option error;
  dynamic_NewForConfig : option error
}.

Section Main.
Context `{CniLib} `{KubeReads} `{VppApi} `{MapOrder} `{InCluster}.
Variable fuel : nat.

(** What stops main before there is a Reconciler. *)
Definition config_error (NODE_NAME : string) : option error :=
  if decide (NODE_NAME = EmptyString) then Some (ErrNew "restore-daemon: NODE_NAME env is required")
  else match rest_InClusterConfig with
       | Some err => Some err
       | None => match kubernetes_NewForConfig with
                 | Some err => Some err
                 | None => dynamic_NewForConfig
                 end
       end.

(** The Reconciler main makes, with a Status, on the cluster and the node. *)
Definition reconciler (NODE_NAME : string) (k : kube_api) (n : node)
  : @watch_state (k8s_cluster NODE_NAME) _ :=
  @WatchState (k8s_cluster NODE_NAME) _ false false (Some status_init) (k, (n, rstate_init)).

(** main: the exit status, once there is one. *)
Definition main (fl : flags) (NODE_NAME : string) (cycles : list cycle)
  : go (log_state * @watch_state (k8s_cluster NODE_NAME) _) (option Z) :=
  on_fst (modify (SetLogStderr true)) ;;
  on_fst (modify (SetLogLevel (logLevel fl))) ;;
  match config_error NODE_NAME with
  | Some _ => mret (Some 1%Z)
  | None =>
      r ← on_snd (@Run _ (k8s_cluster NODE_NAME) _ _ fuel (fl_socketPrefix fl) (gcGrace fl) cycles);
      mret match r with
           | None => None
           | Some err => if decide (err ≠ context_canceled) then Some 1%Z else Some 0%Z
           end
  end.
End Main.

(** ** Why the watch loop ends *)

Section Ends.
Context `{CniLib} `{Cluster} `{VppApi} `{MapOrder}.
Variable fuel : nat.
Variable prefix : string.
Variable Grace : Z.

Lemma watch_handle_nil ev w w' :
  watch_handle fuel prefix Grace ev w = (Ok (Some None), w') → ev = EvDone.
Proof.
  destruct ev as [[] err| | | |]; try done.
  - intros Hrun. unfold watch_handle in Hrun.
    apply bind_Ok_inv in Hrun as (? & ? & _ & Hrun). by apply bind_Ok_inv in Hrun as (? & ? & _ & Hrun).
  - intros Hrun. unfold watch_handle in Hrun.
    apply bind_Ok_inv in Hrun as (? & ? & _ & Hrun). by apply bind_Ok_inv in Hrun as (? & ? & _ & Hrun).
Qed.

Lemma watch_loop_nil evs w w' :
  watch_loop fuel prefix Grace evs w = (Ok (Some None), w') → EvDone ∈ evs.
Proof.
  revert w. induction evs as [|ev evs IH]; intros w Hrun; [done|].
  cbn [watch_loop] in Hrun. rewrite run_bind, run_gets in Hrun.
  destruct (watch_enabled ev _); [|right; by eapply IH].
  apply bind_Ok_inv in Hrun as ([r|] & w1 & Hh & Hrun); [|right; by eapply IH].
  injection Hrun as -> ->. apply watch_handle_nil in Hh as ->. left.
Qed.

(** The end of ctx is seen in a cycle. *)
Definition told_to_stop (c : cycle) : Prop :=
  cy_done c = true ∨ EvDone ∈ cy_events c ∨ cy_stopped c = true.

Lemma Run_returned cycles w err w' :
  Run fuel prefix Grace cycles w = (Ok (Some err), w') →
  err = context_canceled ∧ ∃ c, c ∈ cycles ∧ told_to_stop c.
Proof.
  revert w. induction cycles as [|c cycles IH]; intros w Hrun; [done|]. cbn [Run] in Hrun.
  destruct (cy_done c) eqn:Ed.
  { injection Hrun as <- _. split; [done|]. exists c. split; [left|by left]. }
  apply bind_Ok_inv in Hrun as (r & w1 & Honce & Hrun). destruct r as [[e|]|]; [| |done].
  - destruct (cy_stopped c) eqn:Es.
    + injection Hrun as <- _. split; [done|]. exists c. split; [left|by right; right].
    + apply IH in Hrun as (-> & c' & Hc' & Ht). split; [done|]. exists c'. split; [by right|done].
  - injection Hrun as <- _. split; [done|]. exists c. split; [left|right; left].
    unfold watchOnce in Honce. destruct (cy_connect c); [done|].
    apply bind_Ok_inv in Honce as (? & w2 & _ & Hloop). by apply watch_loop_nil in Hloop.
Qed.
End Ends.

(** C39: The exit status of the daemon.  It ends with 1 only when its configuration
    is missing (the node's name, or a client), and has then touched neither VPP nor
    the cluster; once it watches VPP nothing but the end of its context ends it, no
    failed connection and no failed round, and then with 0. *)
Theorem main_exit `{CniLib} `{KubeReads} `{VppApi} `{MapOrder} `{InCluster}
    fuel fl NODE_NAME cycles log k n code s' :
  main fuel fl NODE_NAME cycles (log, reconciler NODE_NAME k n) = (Ok (Some code), s') →
  (code = 1%Z ∧ config_error NODE_NAME ≠ None ∧ s'.2 = reconciler NODE_NAME k n) ∨
  (code = 0%Z ∧ config_error NODE_NAME = None ∧ ∃ c, c ∈ cycles ∧ told_to_stop c).
Proof.
  intros Hrun. unfold main in Hrun. do 2 (erewrite bind_Ok in Hrun by reflexivity).
  destruct (config_error NODE_NAME) as [err|] eqn:Ec.
  { injection Hrun as <- <-. by left. }
  right. apply bind_Ok_inv in Hrun as ([err|] & s1 & [Hr _]%on_snd_inv & Hret); [|done].
  apply Run_returned in Hr as (-> & Hstop). rewrite decide_False in Hret by tauto.
  injection Hret as <- _. done.
Qed.
