(* ===== verification/World.v ===== *)
(** * Concrete worlds

    Executable instances of the interfaces to code outside the repository, other
    than VPP (file VppRef) and OVSDB (file OvsRef): the CNI library's JSON, an API
    server, a cluster, the group database.  The witnesses run on them. *)
From S2P Require Import Prelude GoStrings GoOs Json Types JsonCodec ConfigData VppApi CniVpp.
From S2P Require Import Sync KubeCluster.

(** ** The CNI library: a result as a string of bits

    With what the real one does: an address of another length than 4 or 16 bytes is an
    error, and one of 4 bytes is read back with 16. *)

Fixpoint bits_of (p : positive) : string :=
  match p with
  | xH => EmptyString
  | xO p => String "0" (bits_of p)
  | xI p => String "1" (bits_of p)
  end.

Fixpoint of_bits (s : string) : positive :=
  match s with
  | EmptyString => xH
  | String a s' => if decide (a = "1"%char) then xI (of_bits s') else xO (of_bits s')
  end.

Lemma of_bits_of p : of_bits (bits_of p) = p.
Proof. induction p as [p IH|p IH|]; simpl; [by rewrite IH..|done]. Qed.

Lemma bits_of_text p : valid_utf8 (bits_of p) = true.
Proof. by induction p. Qed.

#[global] Program Instance ip_net_countable : Countable Result.ip_net :=
  inj_countable' (λ n, (Result.IP n, Result.Mask_ones n, Result.Mask_bits n))
    (λ '(i, o, b), Result.IPNet i o b) _.
Next Obligation. by intros []. Qed.
#[global] Program Instance ip_config_countable : Countable Result.ip_config :=
  inj_countable' (λ c, (Result.Address c, Result.Gateway c)) (λ '(a, g), Result.IPConfig a g) _.
Next Obligation. by intros []. Qed.
#[global] Program Instance interface_countable : Countable Result.interface :=
  inj_countable' (λ i, (Result.Name i, Result.Mac i, Result.Sandbox i))
    (λ '(n, m, s), Result.Interface n m s) _.
Next Obligation. by intros []. Qed.
#[global] Program Instance result_countable : Countable Result.t :=
  inj_countable' (λ r, (Result.Interfaces r, Result.IPs r, Result.Routes r))
    (λ '(i, p, r), Result.mk i p r) _.
Next Obligation. by intros []. Qed.

(** The member of an object, if the value is one and has it. *)
Definition member (key : string) (j : json) : option json :=
  match j with
  | JObj l => snd <$> head (filter (λ kv : string * json, kv.1 = key) l)
  | _ => None
  end.

(** An address is of 4 or 16 bytes, and is read with 16. *)
Definition address_ok (c : Result.ip_config) : bool :=
  bool_decide (length (Result.IP (Result.Address c)) ∈ [4; 16]).

Definition widened (c : Result.ip_config) : Result.ip_config :=
  let a := Result.Address c in
  let ip := Result.IP a in
  Result.IPConfig
    (Result.IPNet (if decide (length ip = 4) then repeat 0%Z 10 ++ [255; 255]%Z ++ ip else ip)
       (Result.Mask_ones a) (Result.Mask_bits a))
    (Result.Gateway c).

#[export] Instance RefCniLib : CniLib := {|
  result_to_json r :=
    if forallb address_ok (Result.IPs r)
    then inr (JStr (bits_of (encode
           (Result.mk (Result.Interfaces r) (widened <$> Result.IPs r) (Result.Routes r)))))
    else inl (ErrNew "invalid IP address");
  result_of_json j _ :=
    match j with
    | JStr s => match decode (of_bits s) with
                | Some r => inr r
                | None => inl (ErrNew "not a result")
                end
    | _ => inl (ErrNew "not a result")
    end;
  base_of_json j :=
    match member "ipam" j ≫= member "type" with Some (JStr s) => inr s | _ => inr EmptyString end
|}.

#[export] Instance RefCniLibLaws : CniLibLaws.
Proof.
  split. intros r j. simpl. destruct (forallb _ _); [|done]. intros [= <-].
  constructor. apply bits_of_text.
Qed.

(** ** An API server *)

Definition pod_zero : Pod.t := Pod.mk "" "" "" ∅ [] [].

(** The pods by namespace and name, and how many updates are refused first. *)
Record api_server := ApiServer { as_pods : gmap (string * string) Pod.t; as_refuse : nat }.

Definition err_conflict : error := ErrApi 409.

(** RetryOnConflict: at most [n] attempts. *)
Fixpoint retry {S} (conflict : error → bool) (n : nat) (m : go S unit) : go S unit := λ s,
  match n, m s with
  | Datatypes.S n', (Err e, s') => if conflict e then retry conflict n' m s' else (Err e, s')
  | _, r => r
  end.

#[export] Instance RefKube : KubeClient := {|
  kube := api_server;
  kube_Get ns name k :=
    (match as_pods k !! (ns, name) with
     | Some p => (p, None)
     | None => (pod_zero, Some (ErrNew "not found"))
     end, k);
  kube_UpdateStatus p k :=
    match as_refuse k with
    | 0 => ((p, None), ApiServer (<[(Pod.Namespace p, Pod.Name p) := p]> (as_pods k)) 0)
    | S r => ((pod_zero, Some err_conflict), ApiServer (as_pods k) r)
    end;
  is_conflict e := bool_decide (e = err_conflict);
  RetryOnConflict := λ S m, retry (λ e, bool_decide (e = err_conflict)) 5 m
|}.

#[export] Instance RefKubeLaws : KubeLaws.
Proof.
  assert (∀ S c (m : go S unit) n s, retry c (Datatypes.S n) m s =
    match m s with (Err e, s') => if c e then retry c n m s' else (Err e, s') | r => r end) as Hstep.
  { done. }
  assert (∀ S (m : go S unit) n s o s', m s = (o, s') → conclusive o →
    retry (λ e, bool_decide (e = err_conflict)) (Datatypes.S n) m s = (o, s')) as Hlast.
  { intros S m n s o s' E [->|(e & -> & Hc)]; simpl; rewrite E; [done|]. simpl in Hc. by rewrite Hc. }
  split; intros S m; [intros s o s'; apply Hlast|].
  intros s e s1 o s2 E Hc E2 Ho. cbn [RetryOnConflict RefKube]. rewrite Hstep, E.
  simpl in Hc. rewrite Hc. by apply Hlast.
Qed.

(** ** A cluster that does not change *)

Record ref_cluster := RefClusterOf {
  rc_pods : list Pod.t;
  rc_nads : gmap (string * string) string
}.

Definition ref_nads (k : ref_cluster) (ns name : string) : result string :=
  match rc_nads k !! (ns, name) with
  | Some cfg => inr cfg
  | None => inl (ErrNew "not found")
  end.

#[export] Instance RefCluster : Cluster := {|
  cluster := ref_cluster;
  ListNodePods k := (Ok (rc_pods k), k);
  GetNADConfig ns name k :=
    (match ref_nads k ns name with inl e => Err e | inr cfg => Ok cfg end, k)
|}.

(** The same cluster behind client-go: its pods are those of the node node-1, and an
    object is the text of its spec.config. *)
#[export] Instance RefKubeReads : KubeReads := {|
  kube_api := ref_cluster;
  kube_object := string;
  one_term_selector field value := field +:+ "=" +:+ value;
  list_pods ns sel k := (Ok (if decide (sel = "spec.nodeName=node-1") then rc_pods k else []), k);
  get_object gvr ns name k :=
    (match ref_nads k ns name with inl e => Err e | inr cfg => Ok cfg end, k);
  NestedString obj path := inr (if decide (path = ["spec"; "config"]) then Some obj else None)
|}.

(** ** The group database *)

#[export] Instance RefUserDb : UserDb := {|
  LookupGroup g := if decide (g = "hugetlbfs") then inr "1001" else inl (ErrNew "unknown group")
|}.
