(* ===== verification/Witnesses.v ===== *)
(** * Witnesses

    For each property with hypotheses, a concrete input at which they hold: the
    worlds of files World, VppRef and OvsRef, one container, one interface. *)
From S2P Require Import Prelude GoStrings GoOs GoRegexp Json Logging Types JsonCodec Annotations.
From S2P Require Import ConfigData LocalDb VppApi Memif Bridge CniVpp VppSafety VppRef Reconcile Gc.
From S2P Require Import Desired Dataplane Restore Sync Total Termination Status World.

(** A run that ends in [a], split into its outcome and its state. *)
Lemma ran {S A} (r : outcome A * S) a : r.1 = Ok a → r = (Ok a, r.2).
Proof. destruct r. simpl. by intros ->. Qed.

Lemma ran2 {S T A} (r : outcome A * (S * T)) a : r.1 = Ok a → r = (Ok a, (r.2.1, r.2.2)).
Proof. destruct r as [o []]. simpl. by intros ->. Qed.

Ltac evaluates :=
  lazymatch goal with
  | |- _ = (_, (_, _)) => apply ran2
  | |- _ => apply ran
  end; vm_compute; reflexivity.

(** Texts that are UTF-8. *)
Ltac texts := repeat (apply Forall_cons; split; [vm_compute; reflexivity|]); apply Forall_nil; exact I.

(** ** The container, and its configurations *)

Definition args0 : CmdArgs.t := CmdArgs.mk "aaaaaaaaaaaabbbb" "/proc/1/ns/net" "net1" "" "".
Definition dir0 : string := "/run/vpp".

Definition host_of (netType : string) (bridge : BridgeConf.t) : UserSpaceConf.t :=
  UserSpaceConf.mk "vpp" "memif" netType 1500 ""
    (MemifConf.set_Role "master" MemifConf.zero) VhostConf.zero bridge.

Definition conf_of (netType : string) (bridge : BridgeConf.t) : NetConf.t :=
  NetConf.set_Name "net" (NetConf.set_HostConf (host_of netType bridge) NetConf.zero).

Definition conf_l3 : NetConf.t := conf_of "interface" BridgeConf.zero.

(** A bridge by its name, and no id. *)
Definition conf_named : NetConf.t := conf_of "bridge" (BridgeConf.set_BridgeName "7" BridgeConf.zero).

Definition data0 : ConfigurationData.t := remote_config conf_l3 args0 None.

(** With an address: it is read back in 16 bytes. *)
Definition result_ip : Result.t :=
  Result.mk [] [Result.IPConfig (Result.IPNet [10; 0; 0; 2]%Z 24 32) ""] [].
Definition data_ip : ConfigurationData.t := remote_config conf_l3 args0 (Some result_ip).

(** What is marshalled. *)
Definition json_of (c : ConfigurationData.t) : json :=
  match e_ConfigurationData c with inl _ => JNull | inr j => j end.

Lemma data0_wf : ConfigurationData_wf data0.
Proof.
  split; [split; [texts|]|].
  - split; [texts|]. split; [texts|]. split; texts.
  - unfold UserSpaceConf_wf, MemifConf.wf, VhostConf_wf, BridgeConf_wf. simpl.
    split_and!; lia || constructor.
Defined.

Lemma fs0_no_fault : ∀ sc p, fs_fault fs0 sc p = None.
Proof. done. Defined.

(** ** Texts *)

Lemma json_roundtrip_witness :
  json_parse (" " +:+ json_print (JObj [("role", JStr "master")]) +:+ " ") =
    Some (JObj [("role", JStr "master")]) ∧
  json_parse (" " +:+ json_indent 0 (JObj [("role", JStr "master")]) +:+ " ") =
    Some (JObj [("role", JStr "master")]).
Proof.
  apply (json_roundtrip (JObj [("role", JStr "master")]) " " " ");
    [|reflexivity|reflexivity].
  constructor; intros kv Hkv; apply list_elem_of_singleton in Hkv; subst kv; [done|by constructor].
Defined.

Lemma data_ip_wf : ConfigurationData_wf data_ip.
Proof. destruct data0_wf as [[H1 [H2 H3]] H4]. split; [split; [exact H1|split; [texts|exact H3]]|exact H4]. Defined.

Lemma ConfigurationData_roundtrip_witness :
  unmarshal d_ConfigurationData (json_print (json_of data_ip)) ConfigurationData.zero
    = read_back data_ip ∧
  unmarshal d_ConfigurationData (json_indent 0 (json_of data_ip)) ConfigurationData.zero
    = read_back data_ip.
Proof.
  apply (ConfigurationData_roundtrip data_ip (json_of data_ip)); [apply data_ip_wf|reflexivity].
Defined.

(** ** The annotation *)

Definition pod0 : Pod.t :=
  Pod.mk "default" "app" "uid-1" ∅ [Pod.Volume "shared-dir" (Some "/var/run/pod") false]
    [Pod.Container [Pod.VolumeMount "shared-dir" "/etc/podnetinfo"]].

Lemma setPodAnnotationConfigData_appends_witness :
  ∃ p', setPodAnnotationConfigData (Some data0) (Some pod0) = (Ok true, Some p') ∧
    written ([] ++ [data0]) (annotation p' AnnotKeyUsrspConfigData) ∧
    (∀ l', Forall2 (λ c c', read_back c = inr c') ([] ++ [data0]) l' →
       unmarshal (d_list ConfigurationData.zero d_ConfigurationData)
         (annotation p' AnnotKeyUsrspConfigData) [] = inr l') ∧
    ∀ key, key ≠ AnnotKeyUsrspConfigData →
      Pod.Annotations p' !! key = Pod.Annotations pod0 !! key.
Proof.
  assert (written [] (annotation pod0 AnnotKeyUsrspConfigData)) as Hw
    by (exists []; split; [constructor|reflexivity]).
  pose proof (setPodAnnotationConfigData_appends pod0 [] data0 (Forall_nil_2 _) data0_wf Hw) as Hset.
  destruct (e_ConfigurationData data0) as [e|j] eqn:E; [vm_compute in E; discriminate|exact Hset].
Defined.

Definition pod_empty_list : Pod.t :=
  Pod.set_Annotations {[ AnnotKeyUsrspConfigData := "[]" ]} pod0.

Lemma setPodAnnotationConfigData_empty_list_witness :
  ∃ p', setPodAnnotationConfigData (Some data0) (Some pod_empty_list) = (Ok true, Some p') ∧
    json_parse (annotation p' AnnotKeyUsrspConfigData) = None.
Proof.
  apply (setPodAnnotationConfigData_empty_list pod_empty_list data0); [reflexivity|by eexists].
Defined.

(** ** Files *)

Definition fs1 : fs :=
  fs_with_nodes fs0 (<[path_parse "/run/vpp/a.sock" := Sock 10]> (fs_nodes fs0)).

Lemma FileCleanup_spec_witness :
  match FileCleanup dir0 "/run/vpp/a.sock" fs1 with
  | (Ok _, f') =>
      ∃ f1, f1 = fs_with_nodes fs1 (delete (path_parse "/run/vpp/a.sock") (fs_nodes fs1)) ∧
      (empty_dir f1 dir0 → f' = fs_with_nodes f1 (delete (path_parse dir0) (fs_nodes f1)))
  | _ => False
  end.
Proof.
  pose proof (FileCleanup_spec dir0 "/run/vpp/a.sock" fs1 fs0_no_fault) as Hspec.
  destruct (FileCleanup dir0 "/run/vpp/a.sock" fs1) as [o f'] eqn:E.
  assert (o = Ok tt) as -> by (apply (f_equal fst) in E; vm_compute in E; by rewrite <- E).
  destruct Hspec as (f1 & -> & _ & Hempty & _). rewrite decide_False in Hempty by done.
  eexists. split; [reflexivity|exact Hempty].
Defined.

(** An API server without pods, and with one. *)
Definition api0 : @kube RefKube := ApiServer ∅ 0.
Definition api_with (p : Pod.t) : @kube RefKube :=
  ApiServer (<[(Pod.Namespace p, Pod.Name p) := p]> ∅) 0.

Lemma SaveRemoteConfig_file_witness :
  let s := SaveRemoteConfig (Some conf_l3) (Some args0) false dir0 None
             ((api0, Some pod0), fs0) in
  ∃ text, os_read_file "/run/vpp/configData-aaaaaaaaaaaa-net1.json" s.2.2 = (Ok text, s.2.2) ∧
    unmarshal d_ConfigurationData text ConfigurationData.zero = inr data0.
Proof.
  intros s. destruct (SaveRemoteConfig_file conf_l3 args0 dir0 None api0 pod0 fs0
    (Some pod0) s.2) as (_ & _ & text & Hread & Hun);
    [apply data0_wf|done|reflexivity|reflexivity|apply fs0_no_fault|evaluates|].
  exists text. split; [exact Hread|exact Hun].
Defined.

(** The pod that is sent. *)
Definition pod_sent : Pod.t :=
  set_annotation AnnotKeyUsrspMappedDir "/etc/podnetinfo"
    (set_annotation AnnotKeyUsrspConfigData ("[" +:+ json_indent 0 (json_of data0) +:+ "]") pod0).

Lemma WritePodAnnotation_accepted_witness :
  written [data0] ("[" +:+ json_indent 0 (json_of data0) +:+ "]") ∧
  WritePodAnnotation true (Some data0) (api0, Some pod0) =
    (Ok pod_sent, (api_with pod_sent, Some pod_sent)).
Proof.
  destruct (WritePodAnnotation_accepted data0 pod0 api0) as [Hw Hsent]. split.
  - apply (Hw []). exists []. split; [constructor|reflexivity].
  - apply (Hsent pod_sent (api_with pod_sent)). reflexivity.
Defined.

(** A conflict: the pod given back is empty, there is no pod of that name. *)
Definition api_busy : @kube RefKube := ApiServer (as_pods (api_with pod0)) 1.

Lemma WritePodAnnotation_conflict_witness :
  ∃ e2, k8s_WritePodAnnotation true (Some pod0) api_busy =
    (Err e2, api_with pod0).
Proof.
  destruct (WritePodAnnotation_conflict pod0 api_busy pod_zero
              err_conflict (api_with pod0)) as [Hfail _]; [reflexivity|reflexivity|].
  apply (Hfail pod_zero (ErrNew "not found") (api_with pod0)); reflexivity.
Defined.

Definition saved0 : VppSavedData.t := VppSavedData.mk 5 1.

Lemma VppConfig_roundtrip_witness :
  let f' := (SaveVppConfig args0 saved0 fs0).2 in
  ∃ f'', LoadVppConfig args0 VppSavedData.zero f' = (Ok saved0, f'') ∧
    fs_lookup f'' (path_parse (local_path args0)) = None ∧
    ∀ c, c ≠ path_parse (local_path args0) → c ≠ path_parse DefaultLocalCNIDir →
      fs_nodes f'' !! c = fs_nodes f' !! c.
Proof.
  apply (VppConfig_roundtrip args0 saved0 VppSavedData.zero fs0);
    [apply fs0_no_fault|split; reflexivity| |evaluates].
  unfold VppSavedData.wf. simpl. lia.
Defined.

(** ** VPP: sockets, interfaces, bridges *)

Definition sock0 : string := "/run/vpp/memif-aaaaaaaaaaaa-net1.sock".

(** The node after ADD, without a bridge and with one. *)
Definition add_l3 := AddOnHost 3 args0 dir0 None (conf_l3, node0).
Definition add_named := AddOnHost 3 args0 dir0 None (conf_named, node0).
Definition node1 : @vpp RefVppApi * fs := add_l3.2.2.

Lemma enough_node0 : enough 3 node0.
Proof. unfold enough. split_and!; vm_compute; reflexivity || lia. Defined.

Lemma enough_node1 : enough 3 node1.
Proof. unfold enough. split_and!; vm_compute; reflexivity || lia. Defined.

Lemma findMemifSocket_spec_witness :
  ∃ found id, findMemifSocket 3 sock0 node1 = (Ok (found, id), node1) ∧
    if (found : bool)
    then {| sd_SocketID := id; sd_SocketFilename := sock0 |} ∈ sockets (node_vpp node1)
    else ∀ d, d ∈ sockets (node_vpp node1) → sd_SocketFilename d ≠ sock0 ∧ sd_SocketID d ≠ id.
Proof.
  destruct (findMemifSocket_spec 3 sock0 node1 enough_node1) as (found & id & Hrun & Hans).
  exists found, id. split; [exact Hrun|]. destruct found; [exact Hans|apply Hans].
Defined.

Lemma CreateMemifSocket_idempotent_witness :
  let n := (CreateMemifSocket 3 sock0 node0).2 in
  CreateMemifSocket 3 sock0 n = (Ok 1%Z, n).
Proof.
  apply (CreateMemifSocket_idempotent 3 sock0 node0 1); [|evaluates].
  unfold enough. split_and!; vm_compute; reflexivity || lia.
Defined.

Lemma FindMemifBySocket_spec_witness :
  ∃ i found, FindMemifBySocket 3 sock0 node1 = (Ok (i, found), node1) ∧
    by_socket sock0 (node_vpp node1) (i, found).
Proof. apply (FindMemifBySocket_spec 3 sock0 node1 enough_node1). Defined.

(** A VPP that times out on every reply. *)
Definition SilentVpp : VppApi := {|
  vpp := unit;
  SendRequest _ n := (inl ErrTimeout, n);
  MemifDump _ _ := RErr ErrTimeout;
  MemifSocketFilenameDump _ _ := RErr ErrTimeout;
  BridgeDomainDump _ _ _ := RErr ErrTimeout;
  ParseMacAddress _ := inl ErrTimeout;
  Connect _ := None;
  OpenChannel _ := None
|}.

Lemma findMemifSocket_unanswered_witness :
  @findMemifSocket SilentVpp 100 sock0 (tt, fs0) = (Diverged, (tt, fs0)).
Proof.
  apply (@findMemifSocket_unanswered SilentVpp 100 sock0 (tt, fs0));
    [by intros i; exists ErrTimeout|done].
Defined.

Definition join := AddBridgeInterface 3 7 5 node1.
Definition leave := RemoveBridgeInterface 3 7 5 join.2.

Lemma AddBridgeInterface_ok_witness :
  bridges (node_vpp join.2) !! 7%Z = Some ({[5%Z]} ∪ default ∅ (bridges (node_vpp node1) !! 7%Z)).
Proof.
  destruct (AddBridgeInterface_ok 3 7 5 node1 join.2) as [Hb _]; [lia|evaluates|exact Hb].
Defined.

Lemma RemoveBridgeInterface_ok_witness :
  bridges (node_vpp leave.2) !! 7%Z =
    (s ← bridges (node_vpp join.2) !! 7%Z; if decide (s ∖ {[5%Z]} = ∅) then None else Some (s ∖ {[5%Z]})).
Proof.
  destruct (RemoveBridgeInterface_ok 3 7 5 join.2 leave.2) as (_ & Hb & _);
    [lia|evaluates|exact Hb].
Defined.

(** ** ADD and DEL of a memif *)

Lemma AddOnHost_memif_witness :
  ∃ role mode i sid t,
    memif_role "master" = inr role ∧
    memif_mode (MemifConf.Mode (host_memif add_l3.2.1)) = inr mode ∧
    memifs (node_vpp add_l3.2.2) ≡ₚ
      {| md_SwIfIndex := i; md_ID := 0; md_SocketID := sid; md_Role := role; md_Mode := mode |}
      :: memifs (node_vpp node0) ∧
    {| sd_SocketID := sid; sd_SocketFilename := memif_path dir0 args0 conf_l3 |}
      ∈ sockets (node_vpp add_l3.2.2) ∧
    (∀ s, s ∈ sockets (node_vpp node0) → s ∈ sockets (node_vpp add_l3.2.2)) ∧
    add_l3.2.1 = filled args0 conf_l3 ∧
    fs_lookup (node_fs add_l3.2.2) (path_parse (local_path args0)) =
      Some (File (json_print (e_VppSavedData (VppSavedData.mk i sid))) t).
Proof.
  apply (AddOnHost_memif 3 args0 dir0 None conf_l3 node0 add_l3.2.1 add_l3.2.2);
    [evaluates|reflexivity|split; reflexivity].
Defined.

(** DEL of what ADD made. *)
Definition del_l3 := DelFromHost 3 args0 dir0 (conf_l3, add_l3.2.2).

Lemma DelFromHost_memif_witness :
  let path := memif_path dir0 args0 conf_l3 in
  fs_lookup (node_fs del_l3.2.2) (path_parse path) = None ∨
  fs_lookup (node_fs del_l3.2.2) (path_parse path) = Some Dir.
Proof.
  destruct (DelFromHost_memif 3 args0 dir0 conf_l3 add_l3.2.2 del_l3.2.1 del_l3.2.2) as [_ Hfile];
    [evaluates|reflexivity|apply Hfile; reflexivity].
Defined.

(** An ADD on a VPP whose reply to memif_create is lost: it fails, and the interface
    is there; and the DEL after it. *)
Definition lose_create (r : request) : bool :=
  match r with ReqMemifCreateV2 _ => true | _ => false end.
Definition node_losing : @vpp RefVppApi * fs := (RefVpp ∅ ∅ ∅ 5 (λ _, false) lose_create, fs0).
Definition add_half := AddOnHost 3 args0 dir0 None (conf_l3, node_losing).
Definition del_half := DelFromHost 3 args0 dir0 (conf_l3, add_half.2.2).

Lemma AddOnHost_safe_witness :
  is_ok add_half.1 = false ∧ length (memifs (node_vpp add_half.2.2)) = 1 ∧
  grows (memif_path dir0 args0 conf_l3) node_losing add_half.2.2.
Proof.
  split; [vm_compute; reflexivity|]. split; [vm_compute; reflexivity|].
  apply (AddOnHost_safe 3 args0 dir0 None conf_l3 node_losing add_half.1 add_half.2).
  apply surjective_pairing.
Defined.

Lemma DelFromHost_safe_witness :
  shrinks (memif_path dir0 args0 conf_l3) add_half.2.2 del_half.2.2.
Proof.
  apply (DelFromHost_safe 3 args0 dir0 conf_l3 add_half.2.2 del_half.1 del_half.2);
    [apply surjective_pairing|reflexivity].
Defined.

Lemma engine_returns_witness :
  returns True (AddOnHost 3 args0 dir0 None (conf_l3, node1)).1 ∧
  returns True (DelFromHost 3 args0 dir0 (conf_l3, node1)).1.
Proof.
  destruct (engine_returns 3 ltac:(lia) args0 ltac:(vm_compute; lia) dir0 None conf_l3 node1) as [Ha Hd].
  split; [apply Ha|apply Hd, enough_node1].
  unfold room. split_and!; vm_compute; reflexivity || lia.
Defined.

Definition loaded := LoadVppConfig args0 VppSavedData.zero add_l3.2.2.2.
Definition looked_up := FindMemifBySocket 3 (memif_path dir0 args0 conf_l3) (add_l3.2.2.1, loaded.2).

Lemma DelFromHost_cleans_socket_witness :
  let path := memif_path dir0 args0 conf_l3 in
  fs_lookup (node_fs del_l3.2.2) (path_parse path) = None ∨
  fs_lookup (node_fs del_l3.2.2) (path_parse path) = Some Dir.
Proof.
  apply (DelFromHost_cleans_socket 3 args0 dir0 conf_l3 add_l3.2.2 saved0 loaded.2 (5%Z, true)
           looked_up.2 (Ok tt) del_l3.2.1 del_l3.2.2);
    [reflexivity|vm_compute; lia|reflexivity|evaluates|evaluates|evaluates|done|reflexivity].
Defined.

Lemma AddOnHost_DelFromHost_memifs_witness :
  memifs (node_vpp del_l3.2.2) ≡ₚ memifs (node_vpp node0).
Proof.
  apply (AddOnHost_DelFromHost_memifs 3 args0 dir0 None conf_l3 node0 add_l3.2.1 add_l3.2.2 add_l3.2.2
           del_l3.2.1 del_l3.2.2);
    [evaluates|reflexivity| |split; reflexivity|evaluates].
  intros s Hs. vm_compute in Hs. by apply elem_of_nil in Hs.
Defined.

Definition del_named := DelFromHost 3 args0 dir0 (conf_named, add_named.2.2).

Lemma DelFromHost_leaves_bridge_witness : is_Some (bridges (node_vpp del_named.2.2) !! 7%Z).
Proof.
  apply (DelFromHost_leaves_bridge 3 args0 dir0 None conf_named node0 add_named.2.1 add_named.2.2
           add_named.2.2 del_named.2.1 del_named.2.2 7);
    [lia|evaluates|reflexivity|reflexivity|reflexivity|done|reflexivity|evaluates].
Defined.

(** A tree that is not empty is removed with what is in it. *)
Example CleanupRemoteConfig_tree :
  fs_lookup (CleanupRemoteConfig dir0 fs1).2 (path_parse dir0) = None ∧
  fs_lookup (CleanupRemoteConfig dir0 fs1).2 (path_parse "/run/vpp/a.sock") = None.
Proof. split; vm_compute; reflexivity. Qed.
