(* ===== verification/DaemonWitnesses.v ===== *)
(** * Witnesses of the restore daemon's properties

    As in file Witnesses, on the reference VPP: a pod with one memif, a node that
    lost it (the daemon creates it), and a node with a master no pod asks for. *)
From S2P Require Import Prelude GoStrings GoOs Logging Json Types JsonCodec Annotations.
From S2P Require Import ConfigData VppApi Memif Bridge CniVpp VppRef Reconcile.
From S2P Require Import Gc Desired Dataplane Restore Sync Total Termination KubeCluster Status Endpoints Daemon World Witnesses.

(** ** A dataplane on VPP, with the socket prefix /run/vpp *)

Definition pfx : list string := ["/run/vpp"].
(** Maps are ranged over in the order of gset. *)
#[local] Instance gset_order : MapOrder := {| map_range := elements; law_map_range _ := reflexivity _ |}.

#[local] Instance dp : Dataplane (@vpp RefVppApi * fs) := vppDataplane 3 pfx.
#[local] Instance dp_laws : @DataplaneLaws _ dp := vpp_dataplane_laws 3 pfx.

Definition wanted : Memif := dumped_memif sock0 0 "ip" 0.
Definition wanted_l2 : Memif :=
  {| mf_Socket := sock0; mf_ID := 0; mf_BridgeID := 7; mf_Mode := "ethernet";
     mf_SwIfIndex := 0; mf_RxQueues := 1; mf_TxQueues := 1; mf_RingSize := 0;
     mf_BufferSize := 0; mf_Secret := ""; mf_HwAddr := ""; mf_NoZeroCopy := false;
     mf_UseDma := false; mf_MTU := 1500 |}.

Lemma wanted_managed : Forall managed [wanted].
Proof. constructor; [|constructor]. split; [reflexivity|right; reflexivity]. Defined.

Definition rec1 := Reconcile [wanted] None node0.
Definition rec2 := Reconcile [wanted] None rec1.2.
Definition rec3 := Reconcile [] None rec1.2.

Lemma Reconcile_converges_witness :
  masters rec1.2 = [dumped_memif sock0 0 "ip" 5] ∧
  (mf_Socket wanted ∈ mf_Socket <$> masters rec1.2).
Proof.
  split; [vm_compute; reflexivity|].
  apply (Reconcile_converges [wanted] node0 1 0 rec1.2);
    [apply wanted_managed|evaluates|left].
Defined.

Lemma Reconcile_idempotent_witness : masters rec2.2 = masters rec1.2.
Proof.
  apply (Reconcile_idempotent [wanted] node0 1 0 rec1.2 0 0 None rec2.2);
    [apply wanted_managed|evaluates|evaluates].
Defined.

(** The gate lets nothing pass: the master stays. *)
Lemma Reconcile_safe_witness :
  dumped_memif sock0 0 "ip" 5 ∈ masters (Reconcile [] (Some (λ _, mret false)) rec1.2).2.
Proof.
  destruct (Reconcile_safe [] (Some (λ _, mret false)) rec1.2 (dumped_memif sock0 0 "ip" 5))
    as [Hin|[_ (s1 & s2 & [=])]]; [constructor|by intros m s| |exact Hin].
  assert (masters rec1.2 = [dumped_memif sock0 0 "ip" 5]) as -> by (vm_compute; reflexivity). left.
Defined.

Lemma enough_rec1 : enough 3 rec1.2.
Proof. unfold enough. split_and!; vm_compute; reflexivity || lia. Defined.

Lemma vpp_DumpMasters_spec_witness :
  ∃ l, vpp_DumpMasters 3 pfx rec1.2 = (Ok l, rec1.2) ∧ length l = 1.
Proof.
  destruct (vpp_DumpMasters_spec 3 pfx rec1.2 enough_rec1) as (l & Hrun & _).
  exists l. split; [exact Hrun|]. apply (f_equal fst) in Hrun. vm_compute in Hrun.
  injection Hrun as <-. reflexivity.
Defined.

Definition made := vpp_CreateMaster 3 wanted_l2 node0.

Lemma vpp_CreateMaster_ok_witness :
  ∃ i id, memifs (node_vpp made.2) ≡ₚ
      [{| md_SwIfIndex := i; md_ID := 0; md_SocketID := id;
          md_Role := MEMIF_ROLE_API_MASTER; md_Mode := 0 |}] ∧
    {| sd_SocketID := id; sd_SocketFilename := sock0 |} ∈ sockets (node_vpp made.2) ∧
    ∃ members, bridges (node_vpp made.2) !! 7%Z = Some members ∧ i ∈ members.
Proof.
  destruct (vpp_CreateMaster_ok 3 wanted_l2 node0 made.2) as (i & id & Hm & Hs & Hb);
    [lia|evaluates|].
  exists i, id. split; [exact Hm|]. split; [exact Hs|]. apply Hb. done.
Defined.

(** Joining the bridge is refused after the interface was made. *)
Definition refuse_join (r : request) : bool :=
  match r with ReqSwInterfaceSetL2Bridge _ _ _ => true | _ => false end.
Definition node_refusing : @vpp RefVppApi * fs := (RefVpp ∅ ∅ ∅ 5 refuse_join (λ _, false), fs0).
Definition half_made := vpp_CreateMaster 3 wanted_l2 node_refusing.

Definition join_refused : error := ErrWrap "memif bridge add" refused.

Lemma half_made_fails : half_made = (Err join_refused, half_made.2).
Proof.
  assert (half_made.1 = Err join_refused) as E by (vm_compute; reflexivity).
  rewrite <- E. apply surjective_pairing.
Qed.

Lemma Diff_skips_half_made_witness :
  (Diff [wanted_l2] (vpp_masters pfx half_made.2)).1 = [].
Proof.
  assert (∀ m', m' ∈ (Diff [wanted_l2] (vpp_masters pfx half_made.2)).1 →
            mf_Socket m' ≠ mf_Socket wanted_l2) as Hno.
  { apply (Diff_skips_half_made 3 pfx [wanted_l2] wanted_l2 node_refusing join_refused half_made.2);
      [split; [reflexivity|right; reflexivity]|left|apply half_made_fails|].
    vm_compute. discriminate. }
  apply list_filter_none. intros m Hm Hnot. apply (Hno m); [by apply list_elem_of_filter|].
  by apply list_elem_of_singleton in Hm as ->.
Defined.

(** ** The sweep: an old socket file beside the wanted one *)

Definition orphan : string := "/run/vpp/memif-bbbbbbbbbbbb-net1.sock".
Definition fs_orphan : fs :=
  fs_with_nodes fs0 (<[path_parse orphan := Sock 10]> (fs_nodes fs0)).
Definition node_orphan : @vpp RefVppApi * fs := (vpp0, fs_orphan).

Lemma SweepOrphanSockets_complete_witness :
  ∃ removed n', vpp_SweepOrphanSockets {[ sock0 ]} node_orphan = (Ok removed, n') ∧
    fs_nodes (node_fs n') !! path_parse orphan ≠ Some (Sock 10).
Proof.
  destruct (SweepOrphanSockets_complete {[ sock0 ]} node_orphan) as (removed & n' & Hrun & Hgone);
    [done|by intros k ->%elem_of_singleton|].
  exists removed, n'. split; [exact Hrun|]. intros Hs.
  assert (fs_now (node_fs (vpp_SweepOrphanSockets {[ sock0 ]} node_orphan).2) = 1000%Z) as Hnow
    by (vm_compute; reflexivity).
  rewrite Hrun in Hnow. simpl in Hnow.
  assert (path_join [path_dir sock0; "memif-bbbbbbbbbbbb-net1.sock"] ∈ ({[ sock0 ]} : gset string)) as Hin.
  { apply (Hgone sock0 "memif-bbbbbbbbbbbb-net1.sock" (Sock 10));
      [by apply elem_of_singleton|reflexivity|reflexivity|exact Hs|done|].
    rewrite Hnow. unfold orphanSocketMinAge. simpl. lia. }
  apply elem_of_singleton in Hin. vm_compute in Hin. discriminate.
Defined.

(** ** The gate *)

Definition fs_with_sock : fs :=
  fs_with_nodes fs0 (<[path_parse sock0 := Sock 10]> (fs_nodes fs0)).

Lemma shouldGC_conservative_witness :
  (shouldGC 0 wanted (fs_with_sock, rstate_init)).1 = Ok (socket_gone fs_with_sock wanted).
Proof. apply (shouldGC_conservative 0 wanted fs_with_sock rstate_init). lia. Defined.

(** One round in which the socket was kept, and the next: with a grace of two
    rounds, the gate opens now. *)
Definition kept_once := shouldGC 2 wanted (fs_with_sock, next_round rstate_init).
Definition second_round : rstate := next_round kept_once.2.2.

Definition history1 : history := History [∅] ∅ ∅.
Definition history2 : history := History [∅] ({[ sock0 ]} ∪ ∅) ({[ sock0 ]} ∪ ∅).
Definition history3 : history := History (kept history2 :: past history2) ∅ ∅.

Lemma reachable_second : reachable 2 history3 second_round.
Proof.
  change (reachable 2 history3 (next_round kept_once.2.2)). apply reach_round.
  apply (reach_query 2 history1 (next_round rstate_init) wanted fs_with_sock false kept_once.2.2);
    [apply (reach_round 2 (History [] ∅ ∅)), reach_init|set_solver|].
  vm_compute. reflexivity.
Qed.

Lemma shouldGC_reachable_witness :
  (shouldGC 2 wanted (fs_with_sock, second_round)).1 = Ok true.
Proof.
  rewrite (shouldGC_reachable 2 history3 second_round wanted fs_with_sock);
    [vm_compute; reflexivity|lia|apply reachable_second|set_solver].
Defined.

(** ** The desired masters *)

Lemma desiredMemif_identity_witness :
  path_clean dir0 = path_clean (dir0 +:+ "/") ∧
  str_take 12 (ConfigurationData.ContainerId data0) = str_take 12 (ConfigurationData.ContainerId data0) ∧
  ConfigurationData.IfName data0 = ConfigurationData.IfName data0.
Proof.
  destruct (desiredMemif data0 (NetConf.HostConf conf_l3) dir0) as [e|[m|]] eqn:E;
    [vm_compute in E; discriminate| |vm_compute in E; discriminate].
  apply (desiredMemif_identity data0 data0 (NetConf.HostConf conf_l3) (NetConf.HostConf conf_l3)
           dir0 (dir0 +:+ "/") m m);
    [reflexivity|done|reflexivity|done| |exact E|rewrite <- E; vm_compute; reflexivity|reflexivity].
  repeat constructor; vm_compute; lia.
Defined.

Definition two_networks : list networkRef :=
  [NetworkRef "default" "net" "net1"; NetworkRef "other" "vpp-l2" ""].

Lemma parseNetworks_short_witness :
  parseNetworks (str_join "," (render_network <$> two_networks)) "default" = two_networks.
Proof. apply (parseNetworks_short two_networks "default"). repeat constructor; done. Defined.

(** ** The daemon and ADD *)

Lemma conf_l3_restorable : restorable conf_l3 0.
Proof.
  split; vm_compute; try done; try (left; done); try (right; reflexivity).
  all: try (by left). all: try (by repeat constructor).
Defined.

Lemma CreateMaster_restores_add_witness :
  ∃ m, desiredMemif (added_entry conf_l3 args0 None) (NetConf.HostConf conf_l3) dir0 = inr (Some m) ∧
    mf_Socket m = memif_path dir0 args0 conf_l3 ∧
    ∀ n', vpp_CreateMaster 3 m node0 = (Ok tt, n') ↔
          add_interface 3 args0 dir0 None (conf_l3, node0) = (Ok tt, (filled args0 conf_l3, n')).
Proof.
  apply (CreateMaster_restores_add 3 conf_l3 args0 0 None dir0 node0);
    [apply conf_l3_restorable|intros _; left].
Defined.

(** A host side that leaves its mode open, and a container side that says ip. *)
Definition conf_mixed : NetConf.t :=
  NetConf.set_ContainerConf
    (UserSpaceConf.set_MemifConf (MemifConf.set_Mode "ip" MemifConf.zero) UserSpaceConf.zero)
    (NetConf.set_HostConf (UserSpaceConf.set_Engine "" (host_of "interface" BridgeConf.zero)) NetConf.zero).

Lemma CreateMaster_differs_from_add_witness :
  ∃ m, desiredMemif (added_entry conf_mixed args0 None) (NetConf.HostConf conf_mixed) dir0
         = inr (Some m) ∧
    mf_Socket m = memif_path dir0 args0 conf_mixed ∧
    ∀ sid, cp_Mode (master_params m sid) = ModeIP ∧ cp_Role (master_params m sid) = RoleMaster.
Proof.
  destruct (CreateMaster_differs_from_add 3 conf_mixed args0 None dir0) as (m & Hm & Hs & Hp & _);
    [reflexivity..|].
  exists m. split; [exact Hm|]. split; [exact Hs|exact Hp].
Defined.

(** ** A round of the daemon: one pod, with one network *)

Definition nad_text : string :=
  json_print (JObj [("name", JStr "net");
    ("host", JObj [("engine", JStr "vpp"); ("iftype", JStr "memif"); ("netType", JStr "interface");
                   ("memif", JObj [("role", JStr "master"); ("mode", JStr "ip")])])]).

Definition pod_net : Pod.t :=
  Pod.set_Annotations
    {[ netAnnotKey := "net"; AnnotKeyUsrspConfigData := "[" +:+ json_indent 0 (json_of data0) +:+ "]" ]}
    (Pod.mk "default" "app" "uid-1" ∅ [Pod.Volume "shared-dir" (Some dir0) false] []).

Definition cluster0 : @cluster RefCluster :=
  RefClusterOf [pod_net] {[ ("default", "net") := nad_text ]}.

Lemma nadLookup_transparent_witness :
  ∃ c', nadLookup "default" "net" (cluster0, nad_cache_empty) = (Ok nad_text, (cluster0, c')) ∧
    cache_ok (ref_nads cluster0) c'.
Proof.
  apply (nadLookup_transparent cluster0 (ref_nads cluster0) nad_cache_empty "default" "net");
    [by intros ns name|apply cache_ok_empty|reflexivity].
Defined.

Definition round1 := Sync 3 pfx 0 (cluster0, (node0, rstate_init)).

Lemma Sync_converges_witness :
  round1.1 = Ok (1%Z, 0%Z, None) ∧
  ∃ pods k1 desired,
    ListNodePods cluster0 = (Ok pods, k1) ∧
    (desired_pods pods (k1, nad_cache_empty)).1 = Ok desired ∧
    (Forall (vpp_managed pfx) desired →
     ∀ m, m ∈ desired → mf_Socket m ∈ mf_Socket <$> vpp_masters pfx round1.2.2.1).
Proof.
  assert (round1.1 = Ok (1%Z, 0%Z, None)) as Hround by (vm_compute; reflexivity).
  split; [exact Hround|].
  destruct (Sync_converges 3 pfx 0 cluster0 node0 rstate_init 1 0 round1.2.1 round1.2.2.1
              round1.2.2.2) as (pods & k1 & desired & Hl & Hd & Hall).
  { rewrite <- Hround. unfold round1. by destruct (Sync _ _ _ _) as [o [k [n st]]]. }
  exists pods, k1, desired. split; [exact Hl|]. split; [exact Hd|].
  intros Hm. apply (Hall Hm).
Defined.

Lemma Sync_returns_witness :
  ∃ c d e s', Sync 3 pfx 0 (cluster0, (node0, rstate_init)) = (Ok (c, d, e), s').
Proof.
  apply (Sync_returns 3 pfx ltac:(lia) 0 cluster0 node0 rstate_init).
  - by intros s.
  - intros ns name s _. simpl. by destruct (ref_nads s ns name).
  - intros pods k1 desired [= <- <-] Hd. vm_compute in Hd. injection Hd as <-.
    unfold room. split_and!; vm_compute; reflexivity || lia.
Defined.

(** ** The watch loop *)

Definition watch0 : watch_state :=
  WatchState false false (Some status_init) (cluster0, (node0, rstate_init)).

(** Disconnected: a tick does nothing. *)
Lemma watch_idle_disconnected_witness :
  w_sync (watch_handle 3 "/run/vpp" 0 EvTick (loop_vars false false watch0)).2 =
  (cluster0, (node0, rstate_init)).
Proof.
  destruct (watch_idle_disconnected 3 "/run/vpp" 0 watch0 (loop_vars false false watch0) EvTick)
    as [Hidle _]; [apply cr_start|reflexivity|].
  apply Hidle. reflexivity.
Defined.

(** Connected once, the daemon stays ready through the end of the stream. *)
Definition connected_once :=
  watch_loop 3 "/run/vpp" 0 [EvState Connected ""] (loop_vars false false watch0).

Lemma watch_closed_stays_ready_witness :
  ∃ w', Run 3 "/run/vpp" 0
          [Cycle false None [EvState Connected ""; EvClosed] false; failed_cycle ErrTimeout] watch0
      = (Ok None, w') ∧
    w_status w' = Some (SetConnected true status_init) ∧
    readyz (SetConnected true status_init) = 200%Z.
Proof.
  apply (watch_closed_stays_ready 3 "/run/vpp" 0 [EvState Connected ""] 1 ErrTimeout watch0
           connected_once.2); reflexivity.
Defined.

(** ** The endpoints *)

Definition events0 : list status_event :=
  [SawConnected true; SawReconcile 2 1 None; SawReconcile 0 0 (Some ErrTimeout)].

Lemma metrics_truth_witness :
  ∃ page, Handler (status_run events0) "/metrics" = Some (Response 200 page) ∧
    metric_value "userspace_cni_restore_reconcile_total" page = Some 2%Z ∧
    metric_value "userspace_cni_restore_reconcile_errors_total" page = Some 1%Z ∧
    metric_value "userspace_cni_restore_memifs_created_total" page = Some 2%Z ∧
    resp_code <$> Handler (status_run events0) "/readyz" ≠ Some 200%Z.
Proof.
  destruct (metrics_truth events0) as (page & Hpage & _ & Ht & He & Hc & _ & Hready);
    [vm_compute; split; congruence..|].
  exists page. split; [exact Hpage|]. split; [exact Ht|]. split; [exact He|]. split; [exact Hc|].
  intros Hok. apply Hready in Hok as [_ [Hno|Hno]]; discriminate Hno.
Defined.

(** ** The process *)

#[local] Instance RefInCluster : InCluster := {|
  rest_InClusterConfig := None; kubernetes_NewForConfig := None; dynamic_NewForConfig := None
|}.

(** VPP cannot be reached, then it connects, a round runs, and the context ends. *)
Definition cycles0 : list cycle :=
  [failed_cycle ErrTimeout; Cycle false None [EvState Connected ""; EvDebounce; EvDone] false].

Definition served := main 3 default_flags "node-1" cycles0 (log_init, reconciler "node-1" cluster0 node0).

Lemma main_exit_witness :
  served.1 = Ok (Some 0%Z) ∧ length (vpp_masters pfx (w_sync served.2.2).2.1) = 1 ∧
  ∃ c, c ∈ cycles0 ∧ told_to_stop c.
Proof.
  assert (served.1 = Ok (Some 0%Z)) as Hrun by (vm_compute; reflexivity).
  split; [exact Hrun|]. split; [vm_compute; reflexivity|].
  destruct (@main_exit _ RefKubeReads _ _ _ 3 default_flags "node-1" cycles0 log_init cluster0 node0 0 served.2)
    as [[H0 _]|(_ & _ & Hstop)]; [|discriminate H0|exact Hstop].
  change (served = (Ok (Some 0%Z), served.2)). rewrite <- Hrun. apply surjective_pairing.
Defined.
