(* ===== verification/OvsWitnesses.v ===== *)
(** * Witnesses of the OVS engine's properties

    As in file Witnesses, on the OVSDB of file OvsRef: a container with one
    vhost-user interface, with and without an OVN port. *)
From S2P Require Import Prelude GoStrings GoOs GoRegexp Json Types JsonCodec.
From S2P Require Import Annotations ConfigData LocalDb CniVpp OvsDb CniOvs.
From S2P Require Import OvsAddDel OvsShared OvsRef VppRef World Witnesses.
From S2P Require Import Threads OvsCalls OvsInterleave.

(** A host on which mounts work; CNI_ARGS is OvnPort=<port>, or nothing. *)
#[export] Instance RefOvsHost : OvsHost := {|
  bind_mount _ _ := mret tt;
  unmount _ := mret tt;
  rand_bytes := Some [255; 17; 34; 51; 68; 85]%Z;
  load_env_args s :=
    if has_prefix "OvnPort=" s then inr (str_drop 8 s, EmptyString) else inr (EmptyString, EmptyString);
  match_other _ _ := false
|}.

Definition conf_ovs : NetConf.t :=
  NetConf.set_HostConf
    (UserSpaceConf.set_Engine "ovs-dpdk" (UserSpaceConf.set_IfType "vhostuser"
      (UserSpaceConf.set_NetType "bridge" UserSpaceConf.zero))) NetConf.zero.
Definition args_ovn : CmdArgs.t :=
  CmdArgs.mk "aaaaaaaaaaaabbbb" "/proc/1/ns/net" "net1" "OvnPort=lsp1" "".
Definition order0 : gmap string json → list (string * json) := map_to_list.

(** A switch with another pod's port on br0. *)
Definition ovs0 : @ovs_state RefOvs := OvsState None {[ "br0" := {[ "other" ]} ]}.
Definition fs_ovs : fs :=
  fs_with_nodes fs0 (<[path_parse "/usr/local/var/run/openvswitch/aaaaaaaaaaaa-net1" := Sock 10]>
                       (fs_nodes fs0)).

Definition ovs_add := ovs_AddOnHost order0 args0 dir0 (conf_ovs, (ovs0, fs_ovs)).
Definition ovs_add_ovn := ovs_AddOnHost order0 args_ovn dir0 (conf_ovs, (ovs0, fs_ovs)).

(** A run on three nested states. *)
Lemma ran3 {S T U A} (r : outcome A * (S * (T * U))) a :
  r.1 = Ok a → r = (Ok a, (r.2.1, (r.2.2.1, r.2.2.2))).
Proof. destruct r as [o [s [t u]]]. simpl. by intros ->. Qed.

Ltac evaluates3 := apply ran3; vm_compute; reflexivity.

Lemma ovs_AddOnHost_ok_witness :
  ov_bridges (ovs_db ovs_add.2.2.1) =
    <["br0" := {[ "aaaaaaaaaaaa-net1" ]} ∪ default ∅ (ov_bridges (ovs_db ovs0) !! "br0")]>
      (ov_bridges (ovs_db ovs0)).
Proof.
  destruct (ovs_AddOnHost_ok order0 args0 dir0 conf_ovs ovs0 fs_ovs ovs_add.2.1 ovs_add.2.2.1
    ovs_add.2.2.2) as (_ & _ & Hb & _); [evaluates3|split; reflexivity|exact Hb].
Defined.

Definition saved_ovs : OvsSavedData.t :=
  OvsSavedData.mk "aaaaaaaaaaaa-net1" "02:00:00:00:00:01" "fe:11:22:33:44:55".

Definition ovs1 : @ovs_state RefOvs := OvsState None (ovs_db ovs_add.2.2.1).
Definition ovs_del := ovs_DelFromHost args0 dir0 (conf_ovs, (ovs1, ovs_add.2.2.2)).

Lemma ref_answers (db : ref_db) : answers (OvsState None db).
Proof.
  split; [done|]. split; [by left|]. intros o db' Ho. simpl. rewrite decide_True by exact Ho.
  eexists _, _, _. split; [reflexivity|]. by repeat constructor.
Defined.

Lemma ovs_AddOnHost_DelFromHost_witness :
  ov_bridges (ovs_db ovs_del.2.2.1) = ov_bridges (ovs_db ovs0).
Proof.
  pose proof (ovs_AddOnHost_DelFromHost order0 args0 dir0 conf_ovs ovs0 fs_ovs ovs_add.2.1
    ovs_add.2.2.1 ovs_add.2.2.2 ovs1 ovs_add.2.2.2 ovs_del.2.1 ovs_del.2.2.1 ovs_del.2.2.2
    "02:00:00:00:00:01" 1000) as Hround.
  assert (resolveOvnArgs order0 conf_ovs args0 = (EmptyString, EmptyString)) as Eargs by reflexivity.
  rewrite Eargs in Hround.
  specialize (Hround ltac:(evaluates3) ltac:(split; reflexivity)).
  apply Hround;
    [by right|apply ref_answers|reflexivity|texts|reflexivity|vm_compute; reflexivity|evaluates3].
Defined.

Definition ovs1_ovn : @ovs_state RefOvs := OvsState None (ovs_db ovs_add_ovn.2.2.1).
Definition loaded_ovn := LoadConfig args_ovn OvsSavedData.zero ovs_add_ovn.2.2.2.


(** The port from CNI_ARGS, the MAC from the configuration. *)
Definition conf_mac : NetConf.t :=
  NetConf.set_Args (Some (PluginArgs.mk (Some {[ "Mac" := JStr "02:00:00:00:00:07" ]}))) conf_ovs.

Lemma resolveOvnArgs_spec_witness :
  resolveOvnArgs order0 conf_mac args_ovn = ("lsp1", "02:00:00:00:00:07").
Proof.
  rewrite (resolveOvnArgs_spec order0 conf_mac args_ovn);
    [vm_compute; reflexivity|done|vm_compute; lia|vm_compute; lia].
Defined.

(** The files of two interfaces of one container. *)
Definition fs_two : fs :=
  fs_with_nodes fs0 (<[path_parse "/run/vpp/aaaaaaaaaaaa-net1" := Sock 10]>
                      (<[path_parse "/run/vpp/aaaaaaaaaaaa-net2" := Sock 10]> (fs_nodes fs0))).
Definition cleaned := clean_shared args0 dir0 "aaaaaaaaaaaa-net1" fs_two.

Lemma clean_shared_removes_siblings_witness :
  fs_nodes cleaned.2 !! path_parse "/run/vpp/aaaaaaaaaaaa-net2" = None.
Proof.
  apply (clean_shared_removes_siblings args0 dir0 "aaaaaaaaaaaa-net1" fs_two cleaned.2
           "aaaaaaaaaaaa-net" "1" "" "2" (Sock 10));
    [evaluates|reflexivity|reflexivity|reflexivity|reflexivity|done|vm_compute; reflexivity].
Defined.

Lemma generateRandomMacAddress_local_witness :
  ∃ b, generateRandomMacAddress = str_join ":" (hex2 <$> b :: [17; 34; 51; 68; 85]%Z) ∧
    (0 ≤ b < 256)%Z ∧ Z.testbit b 1 = true ∧ Z.testbit b 0 = false ∧
    (∀ i, (2 ≤ i)%Z → Z.testbit b i = Z.testbit 255 i).
Proof.
  apply (generateRandomMacAddress_local 255 [17; 34; 51; 68; 85]%Z);
    [reflexivity|reflexivity|repeat constructor; lia].
Defined.

(** ** A DEL and an ADD on br0 *)

Definition conf_br0 : NetConf.t := upd_bridge (BridgeConf.set_BridgeName "br0") conf_ovs.
Definition db_empty : @ovsdb RefOvs := {[ "br0" := ∅ ]}.
Notation add_br0 := (ovs_AddOnHost_p order0 args0 dir0 (conf_br0, Some None)).

(** The DEL checks, the ADD runs, the DEL goes on. *)
Definition race_br0 := run_schedule ([0; 0] ++ replicate 20 1 ++ replicate 4 0)
  ([delLocalNetworkBridge_p (conf_br0, Some None); add_br0], (db_empty, fs_ovs)).

#[local] Strategy expand [race_br0].

Lemma bridge_deleted_under_port_witness :
  ov_bridges race_br0.2.1 = delete "br0" (ov_bridges db_empty) ∧
  ∀ b' ps, ov_bridges race_br0.2.1 !! b' = Some ps → "aaaaaaaaaaaa-net1" ∉ ps.
Proof.
  assert (∃ a1 a2, race_br0.1 = [Done (Ok a1); Done (Ok a2)]) as (a1 & a2 & Hdone)
    by (eexists _, _; vm_compute; reflexivity).
  assert (BridgeConf.BridgeName (host_bridge conf_br0) ≠ EmptyString) as Hname by discriminate.
  pose proof (bridge_deleted_under_port order0 args0 dir0 conf_br0 conf_br0 (Some None) (Some None)
                db_empty fs_ovs 20 4 (conj eq_refl eq_refl) Hname eq_refl eq_refl) as Hlost.
  exact (Hlost a1 a2 Hdone).
Defined.

(** In either order without interleaving the ADD's port is on br0. *)
Example no_race_br0 :
  let run l := ov_bridges (run_schedule l
    ([delLocalNetworkBridge_p (conf_br0, Some None); add_br0], (db_empty, fs_ovs))).2.1 !! "br0" in
  run (replicate 4 0 ++ replicate 20 1) = Some {[ "aaaaaaaaaaaa-net1" ]} ∧
  run (replicate 20 1 ++ replicate 4 0) = Some {[ "aaaaaaaaaaaa-net1" ]}.
Proof. vm_compute. split; reflexivity. Qed.

(** ** A DEL and two ADDs side by side *)

(** The port of a third container is on br0, beside the one of the DEL. *)
Definition args_second : CmdArgs.t :=
  CmdArgs.mk "bbbbbbbbbbbbcccc" "/proc/2/ns/net" "net1" "" "".
Definition args_third : CmdArgs.t :=
  CmdArgs.mk "cccccccccccceeee" "/proc/3/ns/net" "net1" "" "".
Definition saved_second : OvsSavedData.t := OvsSavedData.mk "bbbbbbbbbbbb-net1" "" "".
Definition conf_br1 : NetConf.t := upd_bridge (BridgeConf.set_BridgeName "br1") conf_ovs.
Definition db_two : @ovsdb RefOvs := {[ "br0" := {[ "other"; "bbbbbbbbbbbb-net1" ]} ]}.
Definition ovs_calls0 : list ovs_call :=
  [OvsDel args_second dir0 saved_second conf_br0; OvsAdd order0 args0 dir0 conf_br0;
   OvsAdd order0 args_third dir0 conf_br1].

(** In turns, step by step. *)
Definition ovs_side := run_schedule (concat (replicate 20 [0; 1; 2]))
  (ovs_prog <$> ovs_calls0, (db_two, fs_ovs)).

#[local] Strategy expand [ovs_side].

Lemma ref_serves : serves.
Proof. exact (conj (proj1 (ref_answers ∅)) (proj2 (proj2 (ref_answers ∅)))). Defined.

Lemma ovs_calls0_side_by_side :
  ovs_side_by_side {[ "other" ]} (λ _ _, False) ovs_calls0 (db_two, fs_ovs).
Proof.
  split.
  - apply (bool_decide_unpack _). vm_compute. exact I.
  - apply Forall_forall. apply (bool_decide_unpack _). vm_compute. exact I.
  - done.
  - assert (Forall (λ c, match c with
                         | OvsDel _ _ _ conf => ∃ q, q ∈ ({[ "other" ]} : gset string) ∧
                             has (del_bridge conf) q (db_two, fs_ovs)
                         | OvsAdd _ _ _ _ => True
                         end) ovs_calls0) as Hall.
    { repeat constructor. exists "other". split; [by apply elem_of_singleton|].
      exists {[ "other"; "bbbbbbbbbbbb-net1" ]}. split; [reflexivity|set_solver]. }
    intros args dir data conf Hc. by apply (proj1 (Forall_forall _ _) Hall) in Hc.
Qed.

