(* ===== verification/CniWitnesses.v ===== *)
(** * Witnesses of the plugin's properties

    As in file Witnesses: CmdAdd and CmdDel of a memif, in a world with the
    reference VPP and API server, with the pod there and with the pod gone. *)
From S2P Require Import Prelude GoStrings GoOs Json Logging Types JsonCodec.
From S2P Require Import Annotations ConfigData VppApi Memif CniVpp OvsDb CniOvs Cni CniProps.
From S2P Require Import VppRef OvsRef Reconcile Gc Desired Dataplane Restore Sync EndToEnd World Witnesses OvsWitnesses.

(** CNI_ARGS names the pod default/app; a kubeconfig that is given works. *)
#[local] Instance RefK8sConfig : K8sConfig := {|
  load_k8s_args _ := inr ("default", "app");
  BuildConfigFromFlags _ := None;
  InClusterConfig := Some (ErrNew "not in a cluster");
  in_cluster_env := false;
  NewForConfig := None
|}.

(** A host whose namespaces open, without links, and an IPAM plugin with no address. *)
#[local] Instance RefCniHost : CniHost := {|
  host_net := unit;
  ipam_result := unit;
  GetNS path := mret path;
  WithNetNSPath _ m := m;
  DelLinkByNameAddr _ := raise (ErrNew "link not found");
  is_ErrLinkNotFound e := bool_decide (e = ErrNew "link not found");
  ExecAdd _ _ := mret tt;
  ExecDel _ _ := mret tt;
  NewResultFromResult _ := inr Result.zero;
  PrintResult _ := mret tt
|}.

Definition stdin0 : string :=
  json_print (JObj [("name", JStr "net"); ("kubeconfig", JStr "/etc/kube.conf");
    ("host", JObj [("engine", JStr "vpp"); ("iftype", JStr "memif"); ("netType", JStr "interface");
                   ("memif", JObj [("role", JStr "master"); ("mode", JStr "ip")])])]).

Definition args_stdin : CmdArgs.t :=
  CmdArgs.mk "aaaaaaaaaaaabbbb" "/proc/1/ns/net" "net1" "" stdin0.

Definition conf_stdin : NetConf.t :=
  match unmarshal d_NetConf stdin0 NetConf.zero with inr c => c | inl _ => NetConf.zero end.

Definition pod_dir : Pod.t :=
  Pod.mk "default" "app" "uid-1" ∅ [Pod.Volume "shared-dir" (Some dir0) false] [].

(** The world with the pod, and without it. *)
Definition world_of (k : @kube RefKube) (n : @vpp RefVppApi * fs) : world :=
  World log_init n.1 ovs0 k tt n.2.
Definition world0 : world := world_of (api_with pod_dir) node0.
Definition cmd_added := CmdAdd 3 order0 args_stdin false world0.
Definition world_gone : world :=
  world_of api0 (w_vpp cmd_added.2, w_fs cmd_added.2).
Definition cmd_deleted := CmdDel 3 args_stdin false world_gone.

Lemma conf_stdin_read : unmarshal d_NetConf (CmdArgs.StdinData args_stdin) NetConf.zero = inr conf_stdin.
Proof. vm_compute. reflexivity. Qed.

Lemma CmdAdd_memif_witness :
  ∃ pod r d,
    (GetPod args_stdin false (NetConf.KubeConfig conf_stdin) (w_kube world0)).1
      = (Some pod, true, None) ∧
    memifs (w_vpp cmd_added.2) ≡ₚ d :: memifs (w_vpp world0) ∧
    {| sd_SocketID := md_SocketID d;
       sd_SocketFilename := memif_path (call_dir conf_stdin args_stdin (Some pod)) args_stdin conf_stdin |}
      ∈ sockets (w_vpp cmd_added.2) ∧
    ∀ m, desiredMemif (remote_config (filled args_stdin conf_stdin) args_stdin (Some r))
           (NetConf.HostConf conf_stdin) (call_dir conf_stdin args_stdin (Some pod)) = inr (Some m) →
      mf_Socket m = memif_path (call_dir conf_stdin args_stdin (Some pod)) args_stdin conf_stdin.
Proof.
  destruct (CmdAdd_memif 3 order0 args_stdin false world0 cmd_added.2 conf_stdin)
    as (pod & r & d & Hp & Hm & Hs & _ & Hdes);
    [evaluates|apply conf_stdin_read|reflexivity|reflexivity|].
  exists pod, r, d. split; [exact Hp|]. split; [exact Hm|]. split; [exact Hs|exact Hdes].
Defined.

(** There is no pod: the host part makes the interface, and the call fails. *)
Definition world_no_pod : world := world_of api0 node0.
Definition host_half := cmd_add_host 3 order0 args_stdin false (NetConf.zero, world_no_pod).
Definition host_half_ok : bool * option Pod.t * string * Result.t :=
  (true, None, "/var/run/vpp/aaaaaaaaaaaa/",
   Result.mk [Result.Interface "net1" EmptyString "/proc/1/ns/net"] [] []).

Lemma CmdAdd_no_rollback_witness :
  (∃ d, memifs (w_vpp (CmdAdd 3 order0 args_stdin false world_no_pod).2)
     ≡ₚ d :: memifs (w_vpp world_no_pod)) ∧
  (CmdAdd 3 order0 args_stdin false world_no_pod).1 ≠ Ok tt.
Proof.
  destruct (CmdAdd_no_rollback 3 order0 args_stdin false world_no_pod true None
              "/var/run/vpp/aaaaaaaaaaaa/"
              (Result.mk [Result.Interface "net1" EmptyString "/proc/1/ns/net"] [] [])
              host_half.2 conf_stdin) as [(d & Hm & _) Hfail];
    [|apply conf_stdin_read|reflexivity|reflexivity|].
  { change (host_half = (Ok host_half_ok, host_half.2)). evaluates. }
  split; [exists d; exact Hm|exact (Hfail eq_refl)].
Defined.

(** The pod is gone when DEL runs: the interface stays. *)
Lemma CmdDel_without_pod_witness :
  memifs (w_vpp cmd_deleted.2) ≡ₚ memifs (w_vpp world_gone).
Proof.
  apply (CmdDel_without_pod 3 args_stdin false world_gone cmd_deleted.2 conf_stdin);
    [evaluates|apply conf_stdin_read|reflexivity|reflexivity|vm_compute; discriminate|].
  intros s Hs.
  assert (sockets (w_vpp world_gone) = [{| sd_SocketID := 1; sd_SocketFilename := sock0 |}]) as E
    by (vm_compute; reflexivity).
  rewrite E in Hs. apply list_elem_of_singleton in Hs. subst s. vm_compute. discriminate.
Defined.

(** The pod is there when DEL runs, with the annotations ADD wrote, on a VPP with its
    default socket. *)
Definition node_default : @vpp RefVppApi * fs :=
  (RefVpp ∅ {[ 0%Z := "/run/vpp/memif.sock" ]} ∅ 1 (λ _, false) (λ _, false), fs0).
Definition world_default : world := world_of (api_with pod_dir) node_default.
Definition added_default := CmdAdd 4 order0 args_stdin false world_default.
Definition deleted_again := CmdDel 4 args_stdin false added_default.2.
#[local] Strategy expand [deleted_again].

Lemma CmdAdd_CmdDel_witness :
  memifs (w_vpp deleted_again.2) ≡ₚ memifs (w_vpp world_default) ∧
  sockets (w_vpp deleted_again.2) ≡ₚ sockets (w_vpp world_default).
Proof.
  assert (∃ pod2, (GetPod args_stdin false (NetConf.KubeConfig conf_stdin) (w_kube added_default.2)).1.1.1
    = Some pod2 ∧ GetPodVolumeMountHostSharedDir (Some pod2) =
                  GetPodVolumeMountHostSharedDir (Some pod_dir)) as (pod2 & Hpod2 & Hdir)
    by (eexists; split; vm_compute; reflexivity).
  assert (sockets (w_vpp world_default) = [{| sd_SocketID := 0; sd_SocketFilename := "/run/vpp/memif.sock" |}])
    as E by (vm_compute; reflexivity).
  destruct (CmdAdd_CmdDel 4 order0 args_stdin false false world_default added_default.2 added_default.2
           deleted_again.2 conf_stdin pod_dir pod2) as [Hm Hs];
    [evaluates|apply conf_stdin_read|reflexivity|reflexivity|vm_compute; reflexivity|
     |reflexivity|reflexivity|exact Hpod2|exact Hdir|evaluates|].
  - intros s Hin. rewrite E in Hin. apply list_elem_of_singleton in Hin. subst s. vm_compute. discriminate.
  - split; [exact Hm|]. apply Hs. rewrite E. simpl. left.
Defined.

(** ** ADD, the loss of everything in VPP, and a round of the daemon *)

#[local] Instance set_order : MapOrder := {| map_range := elements; law_map_range _ := reflexivity _ |}.

Definition pod_app : Pod.t := Pod.set_Annotations {[ netAnnotKey := "net" ]} pod_dir.
Definition net_app : networkRef := NetworkRef "default" "net" "".
Definition world_app : world := world_of (api_with pod_app) node0.
Definition added_app := CmdAdd 3 order0 args_stdin false world_app.

(** The pod that was sent, the cluster that lists it, and a round on an empty VPP. *)
Definition sent_app : Pod.t :=
  default pod_zero (as_pods (w_kube added_app.2) !! ("default", "app")).
Definition cluster_app : @cluster RefCluster :=
  RefClusterOf [sent_app] {[ ("default", "net") := stdin0 ]}.
Definition restored_app := Sync 3 ["/run/vpp"] 0 (cluster_app, (node0, rstate_init)).
#[local] Strategy expand [restored_app].

Lemma conf_stdin_restorable : restorable conf_stdin 0.
Proof.
  split; vm_compute; try done; try (by left); try (by right); try (by repeat constructor).
Qed.

Lemma entry_app_text r : ConfigurationData_text (added_entry conf_stdin args_stdin (Some r)).
Proof.
  assert (ConfigurationData.Config (added_entry conf_stdin args_stdin (Some r)) =
          ConfigurationData.Config (added_entry conf_stdin args_stdin (Some Result.zero))) as E
    by (vm_compute; reflexivity).
  unfold ConfigurationData_text. rewrite E. split; [texts|].
  set (c := ConfigurationData.Config _). vm_compute in c. subst c.
  split; [texts|]. split; [texts|]. split; texts.
Qed.

(** Of the reference library what can be marshalled can be read. *)
Lemma written_readable l t : written l t → Forall readable l.
Proof.
  intros (js & Hl & _). induction Hl as [|c j l js Hc Hl IH]; constructor; [|exact IH].
  unfold readable, read_back. unfold e_ConfigurationData in Hc. cbn [result_to_json RefCniLib] in *.
  destruct (forallb address_ok _); [|done]. cbn [result_of_json RefCniLib].
  rewrite of_bits_of, decode_encode. by eexists.
Qed.

Lemma pod_app_carries : carries pod_app net_app dir0 [].
Proof.
  split; [vm_compute; reflexivity|vm_compute; reflexivity|constructor| |constructor].
  exists []. split; [constructor|vm_compute; reflexivity].
Qed.

Lemma cluster_app_seen sent :
  sent = sent_app →
  daemon_sees ["/run/vpp"] sent net_app conf_stdin cluster_app (ref_nads cluster_app) [sent_app].
Proof.
  intros ->. split; [by intros ns name|done|left| | |].
  - constructor; [|constructor]. intros n Hn.
    assert (parseNetworks (annotation sent_app netAnnotKey) (Pod.Namespace sent_app) = [net_app]) as E
      by (vm_compute; reflexivity).
    rewrite E in Hn. apply list_elem_of_singleton in Hn as ->. reflexivity.
  - exists stdin0, conf_stdin. split; [reflexivity|]. split; [apply conf_stdin_read|reflexivity].
  - intros desired Hd. vm_compute in Hd. injection Hd as <-.
    constructor; [|constructor]. split; [vm_compute; reflexivity|right; vm_compute; reflexivity].
Qed.

Lemma ADD_is_restored_witness :
  memif_path dir0 args_stdin conf_stdin ∈
    mf_Socket <$> vpp_masters ["/run/vpp"] restored_app.2.2.1.
Proof.
  destruct (ADD_is_restored 3 order0 args_stdin false world_app added_app.2 conf_stdin 0 pod_app
              (api_with pod_app) (λ p, p)
              (λ p, ApiServer (<[(Pod.Namespace p, Pod.Name p) := p]> (as_pods (api_with pod_app))) 0)
              dir0 net_app []) as (sent & r & Hk & Hsame & Hw & Hrestored);
    [evaluates|apply conf_stdin_read|reflexivity|apply conf_stdin_restorable|vm_compute; reflexivity
    |reflexivity|apply pod_app_carries|apply entry_app_text|].
  assert (sent = sent_app) as Hsent.
  { unfold sent_app. rewrite Hk. destruct Hsame as [-> _].
    cbn [as_pods Pod.Namespace Pod.Name Pod.set_Annotations pod_app pod_dir].
    by rewrite lookup_insert_eq. }
  assert (readable (added_entry conf_stdin args_stdin (Some r))) as Hread
    by (apply written_readable in Hw; by apply Forall_app in Hw as [_ [? _]%Forall_cons]).
  apply (Hrestored Hread ["/run/vpp"] 0%Z cluster_app (ref_nads cluster_app) [sent_app] node0 rstate_init
           1%Z 0%Z restored_app.2 (cluster_app_seen sent Hsent)).
  change (restored_app = (Ok (1%Z, 0%Z, None), restored_app.2)). evaluates.
Defined.
