(* ===== verification/RaceWitnesses.v ===== *)
(** * Witnesses: connections, and calls side by side

    The engine's calls inside their bracket, the test programs, and interleaved
    calls of two containers, on the worlds of file Witnesses. *)
From S2P Require Import Prelude GoStrings GoOs Json Types JsonCodec ConfigData LocalDb VppApi.
From S2P Require Import Memif Bridge CniVpp Infra TestPrograms Reconcile Dataplane Threads Calls.
From S2P Require Import Interleave VppRef World.
From S2P Require Import Witnesses.

(** ** Connections *)

Lemma handles_none_wf : handles_wf handles_none.
Proof. split; [intros c Hc; by apply elem_of_empty in Hc|intros c Hc; by apply is_Some_None in Hc]. Qed.

Lemma engine_closes_channel_witness :
  (∃ h', AddOnHost_ch 3 args0 dir0 None (conf_l3, (handles_none, node0)) =
           (Ok tt, (add_l3.2.1, (h', add_l3.2.2))) ∧ same_open h' handles_none) ∧
  (∃ h', DelFromHost_ch 3 args0 dir0 (conf_l3, (handles_none, add_l3.2.2)) =
           (Ok tt, (del_l3.2.1, (h', del_l3.2.2))) ∧ same_open h' handles_none).
Proof.
  split.
  - destruct (proj1 (engine_closes_channel 3 args0 dir0 None conf_l3 handles_none node0
                       handles_none_wf) (Ok tt) add_l3.2.1 add_l3.2.2) as (h' & Hrun & _ & Hopen);
      [evaluates|]. exists h'. split; [exact Hrun|by apply Hopen].
  - destruct (proj2 (engine_closes_channel 3 args0 dir0 None conf_l3 handles_none add_l3.2.2
                       handles_none_wf) (Ok tt) del_l3.2.1 del_l3.2.2) as (h' & Hrun & _ & Hopen);
      [evaluates|]. exists h'. split; [exact Hrun|by apply Hopen].
Defined.

(** ** The test programs *)

#[local] Instance RefVppDump : VppDump := {|
  VhostUserDump _ _ := RStop;
  BridgeDomainFirst b v := match rv_bridges v !! b with
    | Some s => inr {| br_Flood := true; br_UuFlood := true; br_Forward := true; br_Learn := true;
                       br_ArpTerm := false; br_MacAge := 0; br_BviSwIfIndex := 4294967295;
                       br_NSwIfs := Z.of_nat (size s); br_BdTag := "";
                       br_SwIfDetails := (λ i, (i, 0%Z)) <$> elements s |}
    | None => inl (ErrNew "no domain")
    end |}.

Definition tested := memifAddDel 3 (handles_none, node1).

Lemma memifAddDel_restores_witness :
  memifs (node_vpp tested.2.2) ≡ₚ memifs (node_vpp node1) ∧ same_open tested.2.1 handles_none.
Proof.
  destruct (memifAddDel_restores 3 handles_none node1 tested.2.1 tested.2.2 handles_none_wf)
    as (Hm & Ho & _); [evaluates|by split].
Defined.

(** ipAddDel panics, and leaves its interface. *)
Example ipAddDel_panics :
  let run := ipAddDel 3 (handles_none, node0) in
  run.1 = Panicked "nil pointer dereference" ∧ length (memifs (node_vpp run.2.2)) = 1.
Proof. vm_compute. split; reflexivity. Qed.

(** ** Two containers *)

Definition args_b : CmdArgs.t := CmdArgs.mk "bbbbbbbbbbbbcccc" "/proc/2/ns/net" "net1" "" "".

(** The DEL of the one container beside the ADD of the other and the daemon's work for
    a third, step by step in turn. *)
Definition master_c : Memif := dumped_memif "/run/vpp/c.sock" 0 "ip" 0.
Definition calls_ab : list call :=
  [CallDel args0 dir0 conf_l3; CallAdd args_b dir0 None conf_l3; CallCreateMaster master_c].
(** The daemon comes in once the ADD has registered its socket. *)
Definition turns : list nat := concat (replicate 4 [0; 1] ++ replicate 9 [0; 1; 2]).
Definition side_ab := run_schedule turns (call_prog 3 <$> calls_ab, node1).

Lemma calls_ab_side_by_side : side_by_side (λ _ _, False) calls_ab node1.
Proof.
  split.
  - apply (bool_decide_unpack _). vm_compute. exact I.
  - done.
  - intros c Hc. split.
    + intros id1 id2 H1 H2. unfold reg in *.
      assert (sockets (node_vpp node1) = [{| sd_SocketID := 1; sd_SocketFilename := sock0 |}]) as E
        by (vm_compute; reflexivity).
      rewrite E in H1, H2. apply list_elem_of_singleton in H1, H2. congruence.
    + apply elem_of_cons in Hc as [->|[->|[->|Hc]%elem_of_cons]%elem_of_cons];
        [exact I..|by apply elem_of_nil in Hc].
Qed.

Lemma calls_do_not_interfere_witness :
  call_post (CallDel args0 dir0 conf_l3) (λ d, on_file sock0 d node1) (Ok tt) side_ab.2 ∧
  call_post (CallAdd args_b dir0 None conf_l3)
    (λ d, on_file "/run/vpp/memif-bbbbbbbbbbbb-net1.sock" d node1) (Ok tt) side_ab.2 ∧
  call_post (CallCreateMaster master_c) (λ d, on_file "/run/vpp/c.sock" d node1) (Ok tt) side_ab.2.
Proof.
  destruct (calls_do_not_interfere 3 (λ _ _, False) calls_ab node1 side_ab.1 side_ab.2
              calls_ab_side_by_side) as [Hpost _].
  { rewrite <- surjective_pairing. apply run_schedule_steps. }
  split_and!.
  - apply (Hpost 0 (CallDel args0 dir0 conf_l3) (Ok tt)); [reflexivity|vm_compute; reflexivity].
  - apply (Hpost 1 (CallAdd args_b dir0 None conf_l3) (Ok tt)); [reflexivity|vm_compute; reflexivity].
  - apply (Hpost 2 (CallCreateMaster master_c) (Ok tt)); [reflexivity|vm_compute; reflexivity].
Defined.

(** One after the other both ADDs register; in turns one of them is refused. *)
Definition file_a : string := "/run/vpp/a.sock".
Definition file_b : string := "/run/vpp/b.sock".
Definition race_ab := run_schedule [0; 1; 1; 1; 0; 0]
  ([CreateMemifSocket_p 3 file_a; CreateMemifSocket_p 3 file_b], node0).

Example no_race :
  (run_schedule [0; 0; 0; 1; 1; 1]
     ([CreateMemifSocket_p 3 file_a; CreateMemifSocket_p 3 file_b], node0)).1 =
  [Done (Ok 1%Z); Done (Ok 2%Z)].
Proof. vm_compute. reflexivity. Qed.

Lemma CreateMemifSocket_race_witness :
  ∃ o, race_ab.1 !! 0 = Some (Done o) ∧ is_ok o = false.
Proof.
  assert (sockets (node_vpp node0) = []) as E by (vm_compute; reflexivity).
  apply (CreateMemifSocket_race 3 file_a file_b node0) with (id := 1%Z).
  - split_and!; [vm_compute; lia|vm_compute; lia|vm_compute; reflexivity].
  - discriminate.
  - intros id Hid. unfold reg in Hid. rewrite E in Hid. by apply elem_of_nil in Hid.
  - intros id Hid. unfold reg in Hid. rewrite E in Hid. by apply elem_of_nil in Hid.
  - vm_compute. reflexivity.
Defined.
