(* ===== verification/RoundWitnesses.v ===== *)
(** * Witnesses: the rounds of the daemon

    A pod gets its memif back; then its network attachment cannot be read any more, and
    two rounds later, with a grace of two, its memif is collected although the pod is
    there and the socket file too. *)
From S2P Require Import Prelude GoStrings GoOs Json Types JsonCodec Annotations ConfigData.
From S2P Require Import VppApi Memif Bridge CniVpp VppRef Reconcile Gc Desired Dataplane Sync.
From S2P Require Import Rounds World Witnesses DaemonWitnesses.

#[local] Existing Instance gset_order.

(** The API server has the pod, and not its attachment. *)
Definition cluster_no_nad : @cluster RefCluster := RefClusterOf [pod_net] ∅.

Definition first := Sync 3 pfx 2 (cluster0, (node0, rstate_init)).
(** VPP has created the socket file. *)
Definition node_b : @vpp RefVppApi * fs := (first.2.2.1.1, fs_with_sock).
Definition second := Sync 3 pfx 2 (cluster_no_nad, (node_b, first.2.2.2)).
Definition third := Sync 3 pfx 2 (cluster_no_nad, (second.2.2.1, second.2.2.2)).

Example skipped_pod_collected :
  (vpp_masters pfx second.2.2.1, vpp_masters pfx third.2.2.1) = ([dumped_memif sock0 0 "ip" 5], []) ∧
  third.1 = Ok (0%Z, 1%Z, None) ∧
  (os_stat sock0 (node_fs second.2.2.1)).1 = Ok (Sock 10).
Proof. vm_compute. split_and!; reflexivity. Qed.

(** ** The history of these rounds *)

Definition rec_first := RoundRec cluster0 node0 rstate_init first.1 first.2.2.1.
Definition rec_second := RoundRec cluster_no_nad node_b first.2.2.2 second.1 second.2.2.1.
Definition rec_third := RoundRec cluster_no_nad second.2.2.1 second.2.2.2 third.1 third.2.2.1.

Lemma three_rounds : rounds 3 pfx 2 [rec_third; rec_second; rec_first] third.2.2.2.
Proof. do 3 apply rounds_run. apply rounds_start. Qed.

Definition lost : Memif := dumped_memif sock0 0 "ip" 5.

Lemma second_masters : vpp_masters pfx second.2.2.1 = [lost].
Proof. vm_compute. reflexivity. Qed.
Lemma node_b_masters : vpp_masters pfx node_b = [lost].
Proof. vm_compute. reflexivity. Qed.
Lemma third_masters : vpp_masters pfx third.2.2.1 = [].
Proof. vm_compute. reflexivity. Qed.
Lemma nothing_wanted : wanted_by cluster_no_nad = Some [].
Proof. vm_compute. reflexivity. Qed.

(** It went because two rounds in a row nobody asked for its socket. *)
Lemma collected_after_grace_witness :
  orphan_in pfx sock0 rec_third ∧
  ((∃ n, asked_in 3 pfx 2 rec_third lost n ∧ socket_gone (node_fs n) lost = true) ∨
   (0 < 2)%Z ∧ orphaned_for pfx sock0 [rec_third; rec_second; rec_first] 2).
Proof.
  apply (collected_after_grace 3 pfx 2 rec_third [rec_second; rec_first] third.2.2.2 lost three_rounds).
  - intros desired Hw. change (wanted_by cluster_no_nad = Some desired) in Hw.
    rewrite nothing_wanted in Hw. injection Hw as <-. constructor.
  - change (lost ∈ vpp_masters pfx second.2.2.1). rewrite second_masters. left.
  - change (lost ∉ vpp_masters pfx third.2.2.1). rewrite third_masters. apply not_elem_of_nil.
Defined.

Lemma no_nad_orphan n st n' o :
  vpp_masters pfx n = [lost] → (match o with Ok (_, _, None) => True | _ => False end) →
  sole_orphan_in pfx sock0 (RoundRec cluster_no_nad n st o n').
Proof.
  intros Hm Ho. split; [exact Ho|]. split.
  - exists lost. split; [|reflexivity]. cbn [rd_node]. rewrite Hm. split; [left|].
    by intros x ->%list_elem_of_singleton.
  - exists []. split; [apply nothing_wanted|]. split; [apply not_elem_of_nil|constructor].
Qed.

Lemma orphan_collected_witness :
  Exists (λ r, sock0 ∉ mf_Socket <$> vpp_masters pfx (rd_after r)) [rec_third; rec_second].
Proof.
  apply (orphan_collected 3 pfx 2 sock0 [rec_third; rec_second] [rec_first] third.2.2.2);
    [lia|apply three_rounds|reflexivity|].
  constructor; [|constructor; [|constructor]]; apply no_nad_orphan.
  - apply second_masters.
  - vm_compute. exact I.
  - apply node_b_masters.
  - vm_compute. exact I.
Defined.

(** Two masters on one socket, after a round in which the first was kept. *)
Lemma twins_never_counted_witness :
  ∃ st1 st2, shouldGC 3 lost (fs_with_sock, second_round) = (Ok false, (fs_with_sock, st1)) ∧
    shouldGC 3 (dumped_memif sock0 1 "ip" 6) (fs_with_sock, st1) = (Ok false, (fs_with_sock, st2)) ∧
    round st2 = round second_round ∧
    orphanSeen st2 !! sock0 = Some {| or_count := 1; or_lastRound := round second_round |}.
Proof.
  apply (twins_never_counted 3 lost (dumped_memif sock0 1 "ip" 6) fs_with_sock second_round);
    [lia|reflexivity|vm_compute; reflexivity|].
  intros r Hr. vm_compute in Hr. injection Hr as <-. vm_compute. discriminate.
Defined.
